(** * The SMMUv3 command queue and stream table of drivers/iommu/arm-smmu-v3.c

    A shallow embedding of the ring-queue index arithmetic, the command-queue
    valid bitmap, the command-queue error path, the stream-table entry writer,
    the lazy second-level stream table and the attach/detach bookkeeping of
    the driver, with the properties stated about them.

    Conventions.  A [u32] or [u64] of the C code is a [Z] together with the
    wrap-around written out ([u32], [u64] below).  The driver is arm64 only, so
    [BITS_PER_LONG] is 64 and [cpu_to_le64] / [le64_to_cpu] are the identity.
    Pointers to driver structures are indices into explicit stores. *)

From Stdlib Require Import ZArith Lia List Bool.
Import ListNotations.

Local Open Scope Z_scope.

(** ** Machine integers *)

Definition u32 (x : Z) : Z := x mod 2 ^ 32.
Definition u64 (x : Z) : Z := x mod 2 ^ 64.

(** Modelled from the spec: the register contract is bit-exact on a 64-bit
    machine; [BITS_PER_LONG] and [ULONG_MAX] come from the kernel headers,
    which are not among the sources. *)
Definition BITS_PER_LONG : Z := 64.
Definition ULONG_MAX : Z := 2 ^ 64 - 1.

(** Modelled from the spec: the bit fields of registers, commands and table
    entries are bit-exact.  [GENMASK(h, l)] is the macro of
    include/linux/bits.h, not among the sources, on a 64-bit unsigned long:
    [((~0UL) - (1UL << l) + 1) & (~0UL >> (BITS_PER_LONG - 1 - h))]. *)
Definition GENMASK (h l : Z) : Z :=
  Z.land (u64 (ULONG_MAX - Z.shiftl 1 l + 1))
         (Z.shiftr ULONG_MAX (BITS_PER_LONG - 1 - h)).

(** Modelled from the spec: [__bf_shf(mask)] of include/linux/bitfield.h, not
    among the sources: the index of the lowest set bit of a non-zero mask. *)
Definition bf_shf (mask : Z) : Z := Z.log2 (Z.land mask (- mask)).

(** Modelled from the spec: [FIELD_PREP(mask, val)] and
    [FIELD_GET(mask, reg)] of include/linux/bitfield.h, not among the
    sources: a value moved into, and out of, the bits of a mask. *)
Definition FIELD_PREP (mask val : Z) : Z :=
  Z.land (u64 (Z.shiftl val (bf_shf mask))) mask.
Definition FIELD_GET (mask reg : Z) : Z :=
  Z.shiftr (Z.land reg mask) (bf_shf mask).

(** ** Ring queue indices *)

Record arm_smmu_ll_queue : Type := mk_llq {
  prod : Z;          (* u32 *)
  cons : Z;          (* u32 *)
  max_n_shift : Z    (* u32 *)
}.

Definition Q_IDX (llq : arm_smmu_ll_queue) (p : Z) : Z :=
  Z.land p (Z.shiftl 1 (max_n_shift llq) - 1).
Definition Q_WRP (llq : arm_smmu_ll_queue) (p : Z) : Z :=
  Z.land p (Z.shiftl 1 (max_n_shift llq)).
Definition Q_OVERFLOW_FLAG : Z := Z.shiftl 1 31.
Definition Q_OVF (p : Z) : Z := Z.land p Q_OVERFLOW_FLAG.
Definition CMDQ_PROD_OWNED_FLAG : Z := Q_OVERFLOW_FLAG.

(** [queue_has_space]: [space], [prod] and [cons] are u32, so both
    subtractions wrap modulo 2^32. *)
Definition queue_has_space (q : arm_smmu_ll_queue) (n : Z) : bool :=
  let prod_ := Q_IDX q (prod q) in
  let cons_ := Q_IDX q (cons q) in
  let space :=
    if Q_WRP q (prod q) =? Q_WRP q (cons q)
    then u32 (Z.shiftl 1 (max_n_shift q) - u32 (prod_ - cons_))
    else u32 (cons_ - prod_) in
  n <=? space.

Definition queue_full (q : arm_smmu_ll_queue) : bool :=
  (Q_IDX q (prod q) =? Q_IDX q (cons q)) &&
  negb (Q_WRP q (prod q) =? Q_WRP q (cons q)).

Definition queue_empty (q : arm_smmu_ll_queue) : bool :=
  (Q_IDX q (prod q) =? Q_IDX q (cons q)) &&
  (Q_WRP q (prod q) =? Q_WRP q (cons q)).

Definition queue_consumed (q : arm_smmu_ll_queue) (prod_ : Z) : bool :=
  ((Q_WRP q (cons q) =? Q_WRP q prod_) &&
   (Q_IDX q prod_ <? Q_IDX q (cons q))) ||
  (negb (Q_WRP q (cons q) =? Q_WRP q prod_) &&
   (Q_IDX q (cons q) <=? Q_IDX q prod_)).

(** [queue_inc_cons] updates [q->cons] in place. *)
Definition queue_inc_cons (q : arm_smmu_ll_queue) : arm_smmu_ll_queue :=
  let cons_ := u32 (Z.lor (Q_WRP q (cons q)) (Q_IDX q (cons q)) + 1) in
  mk_llq (prod q)
         (Z.lor (Z.lor (Q_OVF (cons q)) (Q_WRP q cons_)) (Q_IDX q cons_))
         (max_n_shift q).

(** [queue_inc_prod_n]: [n] is an int, converted to u32 by the addition. *)
Definition queue_inc_prod_n (q : arm_smmu_ll_queue) (n : Z) : Z :=
  let prod_ := u32 (Z.lor (Q_WRP q (prod q)) (Q_IDX q (prod q)) + n) in
  Z.lor (Z.lor (Q_OVF (prod q)) (Q_WRP q prod_)) (Q_IDX q prod_).

(** ** Queues, the command queue and its valid bitmap *)

(** [struct arm_smmu_queue]: [base] is the queue memory in dwords, [prod_reg]
    and [cons_reg] hold the values of the two hardware registers. *)
Record arm_smmu_queue : Type := mk_queue {
  llq : arm_smmu_ll_queue;
  base : list Z;
  ent_dwords : Z;
  prod_reg : Z;
  cons_reg : Z;
  batch : Z
}.

Record arm_smmu_cmdq : Type := mk_cmdq {
  q : arm_smmu_queue;
  valid_map : list Z;     (* atomic_long_t[], one bit per slot *)
  owner_prod : Z;
  lock : Z
}.

(** Modelled from the spec: one bit per slot in words of [BITS_PER_LONG]
    bits; [BIT_WORD] is the macro of include/linux/bitops.h, not among the
    sources. *)
Definition BIT_WORD (nr : Z) : Z := nr / BITS_PER_LONG.

(** Array accesses.  An index outside the array is undefined behaviour in C;
    here a load gives 0 and a store does nothing. *)
Definition load (mem : list Z) (i : Z) : Z := nth (Z.to_nat i) mem 0.

Fixpoint store_nat {A : Type} (mem : list A) (i : nat) (v : A) : list A :=
  match mem, i with
  | [], _ => []
  | _ :: tl, O => v :: tl
  | x :: tl, S i' => x :: store_nat tl i' v
  end.

Definition store (mem : list Z) (i : Z) (v : Z) : list Z :=
  if i <? 0 then mem else store_nat mem (Z.to_nat i) v.

(** Outcome of [__arm_smmu_cmdq_poll_set_valid_map]: the loop ran to
    [llq.prod == eprod], or a poll found a word that does not hold the
    awaited pattern, where [atomic_long_cond_read_relaxed] keeps spinning. *)
Inductive valid_map_result : Type :=
| Completed (vm : list Z)
| Spins (swidx : Z).

(** The [while (llq.prod != eprod)] loop, with [fuel] bounding the number of
    iterations; [None] when the fuel runs out. *)
Fixpoint poll_set_valid_map_loop (fuel : nat) (shift : Z) (vm : list Z)
    (llq_prod eprod ewidx ebidx : Z) (set : bool) : option valid_map_result :=
  match fuel with
  | O => None
  | S fuel' =>
    let llq_ := mk_llq llq_prod 0 shift in
    if llq_prod =? eprod then Some (Completed vm) else
    let swidx := BIT_WORD (Q_IDX llq_ llq_prod) in
    let sbidx := Q_IDX llq_ llq_prod mod BITS_PER_LONG in
    let limit := if (swidx =? ewidx) && (sbidx <? ebidx)
                 then ebidx else BITS_PER_LONG in
    let mask := GENMASK (limit - 1) sbidx in
    let next := queue_inc_prod_n llq_ (limit - sbidx) in
    if set then
      poll_set_valid_map_loop fuel' shift
        (store vm swidx (Z.lxor (load vm swidx) mask))
        next eprod ewidx ebidx set
    else
      let valid :=
        Z.land (u64 (ULONG_MAX + (if Q_WRP llq_ llq_prod =? 0 then 0 else 1)))
               mask in
      if Z.land (load vm swidx) mask =? valid
      then poll_set_valid_map_loop fuel' shift vm next eprod ewidx ebidx set
      else Some (Spins swidx)
  end.

Definition __arm_smmu_cmdq_poll_set_valid_map (fuel : nat)
    (cmdq : arm_smmu_cmdq) (sprod eprod : Z) (set : bool)
    : option valid_map_result :=
  let shift := max_n_shift (llq (q cmdq)) in
  let llq_ := mk_llq sprod 0 shift in
  let ewidx := BIT_WORD (Q_IDX llq_ eprod) in
  let ebidx := Q_IDX llq_ eprod mod BITS_PER_LONG in
  poll_set_valid_map_loop fuel shift (valid_map cmdq) sprod eprod ewidx ebidx set.

Definition arm_smmu_cmdq_set_valid_map (fuel : nat) (cmdq : arm_smmu_cmdq)
    (sprod eprod : Z) : option valid_map_result :=
  __arm_smmu_cmdq_poll_set_valid_map fuel cmdq sprod eprod true.

Definition arm_smmu_cmdq_poll_valid_map (fuel : nat) (cmdq : arm_smmu_cmdq)
    (sprod eprod : Z) : option valid_map_result :=
  __arm_smmu_cmdq_poll_set_valid_map fuel cmdq sprod eprod false.

(** The bit of the valid bitmap that belongs to queue slot [slot]. *)
Definition valid_bit (vm : list Z) (slot : Z) : bool :=
  Z.testbit (load vm (BIT_WORD slot)) (slot mod BITS_PER_LONG).

Definition with_valid_map (cmdq : arm_smmu_cmdq) (vm : list Z) : arm_smmu_cmdq :=
  mk_cmdq (q cmdq) vm (owner_prod cmdq) (lock cmdq).

(** Modelled from the spec: a zero-initialised bitmap with one bit per slot,
    what [bitmap_zalloc(nents)] of the bitmap library, not among the
    sources, gives [arm_smmu_cmdq_init]. *)
Definition bitmap_zalloc (nents : Z) : list Z :=
  repeat 0 (Z.to_nat ((nents + BITS_PER_LONG - 1) / BITS_PER_LONG)).

(** ** Commands *)

(** Modelled from the spec: the error results of the driver; the numbers are
    those of the kernel's errno headers, which are not among the sources. *)
Definition EINVAL : Z := 22.
Definition ENOENT : Z := 2.
Definition ENOMEM : Z := 12.
Definition ENXIO : Z := 6.

Definition CMDQ_ENT_SZ_SHIFT : Z := 4.
Definition CMDQ_ENT_DWORDS : Z := Z.shiftr (Z.shiftl 1 CMDQ_ENT_SZ_SHIFT) 3.

Definition CMDQ_CONS_ERR : Z := GENMASK 30 24.
Definition CMDQ_ERR_CERROR_NONE_IDX : Z := 0.
Definition CMDQ_ERR_CERROR_ILL_IDX : Z := 1.
Definition CMDQ_ERR_CERROR_ABT_IDX : Z := 2.

Definition CMDQ_0_OP : Z := GENMASK 7 0.
Definition CMDQ_0_SSV : Z := Z.shiftl 1 11.
Definition CMDQ_PREFETCH_0_SID : Z := GENMASK 63 32.
Definition CMDQ_PREFETCH_1_SIZE : Z := GENMASK 4 0.
Definition CMDQ_PREFETCH_1_ADDR_MASK : Z := GENMASK 63 12.
Definition CMDQ_CFGI_0_SSID : Z := GENMASK 31 12.
Definition CMDQ_CFGI_0_SID : Z := GENMASK 63 32.
Definition CMDQ_CFGI_1_LEAF : Z := Z.shiftl 1 0.
Definition CMDQ_CFGI_1_RANGE : Z := GENMASK 4 0.
Definition CMDQ_TLBI_0_VMID : Z := GENMASK 47 32.
Definition CMDQ_TLBI_0_ASID : Z := GENMASK 63 48.
Definition CMDQ_TLBI_1_LEAF : Z := Z.shiftl 1 0.
Definition CMDQ_TLBI_1_VA_MASK : Z := GENMASK 63 12.
Definition CMDQ_TLBI_1_IPA_MASK : Z := GENMASK 51 12.
Definition CMDQ_PRI_0_SSID : Z := GENMASK 31 12.
Definition CMDQ_PRI_0_SID : Z := GENMASK 63 32.
Definition CMDQ_PRI_1_GRPID : Z := GENMASK 8 0.
Definition CMDQ_PRI_1_RESP : Z := GENMASK 13 12.
Definition CMDQ_RESUME_0_SID : Z := GENMASK 63 32.
Definition CMDQ_RESUME_0_ACTION_RETRY : Z := Z.shiftl 1 12.
Definition CMDQ_RESUME_0_ACTION_ABORT : Z := Z.shiftl 1 13.
Definition CMDQ_RESUME_1_STAG : Z := GENMASK 15 0.
Definition CMDQ_SYNC_0_CS : Z := GENMASK 13 12.
Definition CMDQ_SYNC_0_CS_NONE : Z := 0.
Definition CMDQ_SYNC_0_CS_IRQ : Z := 1.
Definition CMDQ_SYNC_0_CS_SEV : Z := 2.
Definition CMDQ_SYNC_0_MSH : Z := GENMASK 23 22.
Definition CMDQ_SYNC_0_MSIATTR : Z := GENMASK 27 24.
Definition CMDQ_SYNC_1_MSIADDR_MASK : Z := GENMASK 51 2.

Definition ARM_SMMU_SH_ISH : Z := 3.
Definition ARM_SMMU_MEMATTR_OIWB : Z := 15.

Definition CMDQ_OP_PREFETCH_CFG : Z := 1.
Definition CMDQ_OP_CFGI_STE : Z := 3.
Definition CMDQ_OP_CFGI_ALL : Z := 4.
Definition CMDQ_OP_CFGI_CD : Z := 5.
Definition CMDQ_OP_CFGI_CD_ALL : Z := 6.
Definition CMDQ_OP_TLBI_NH_ASID : Z := 17.
Definition CMDQ_OP_TLBI_NH_VA : Z := 18.
Definition CMDQ_OP_TLBI_EL2_ALL : Z := 32.
Definition CMDQ_OP_TLBI_EL2_ASID : Z := 33.
Definition CMDQ_OP_TLBI_EL2_VA : Z := 34.
Definition CMDQ_OP_TLBI_S12_VMALL : Z := 40.
Definition CMDQ_OP_TLBI_S2_IPA : Z := 42.
Definition CMDQ_OP_TLBI_NSNH_ALL : Z := 48.
Definition CMDQ_OP_PRI_RESP : Z := 65.
Definition CMDQ_OP_RESUME : Z := 68.
Definition CMDQ_OP_CMD_SYNC : Z := 70.

Definition PRI_RESP_DENY : Z := 0.
Definition PRI_RESP_FAIL : Z := 1.
Definition PRI_RESP_SUCC : Z := 2.

(** Modelled from the spec: the response code of a resume command.  [enum
    page_response_code] is declared by the IOMMU core, outside the sources;
    values the switch of [arm_smmu_cmdq_build_cmd] does not name are
    [IOMMU_PAGE_RESP_other]. *)
Inductive page_response_code : Type :=
| IOMMU_PAGE_RESP_SUCCESS
| IOMMU_PAGE_RESP_INVALID
| IOMMU_PAGE_RESP_FAILURE
| IOMMU_PAGE_RESP_other.

(** The anonymous union of [struct arm_smmu_cmdq_ent].  The driver fills the
    member that goes with the opcode; reading another member than the one
    stored gives 0 here. *)
Inductive cmdq_ent_union : Type :=
| U_prefetch (sid size addr : Z)
| U_cfgi (sid ssid : Z) (leaf : bool)
| U_tlbi (asid vmid : Z) (leaf : bool) (addr : Z)
| U_pri (sid ssid grpid resp : Z)
| U_resume (sid stag : Z) (resp : page_response_code)
| U_sync (msiaddr : Z).

Record arm_smmu_cmdq_ent : Type := mk_ent {
  opcode : Z;
  substream_valid : bool;
  fields : cmdq_ent_union
}.

Definition prefetch_sid u := match u with U_prefetch s _ _ => s | _ => 0 end.
Definition prefetch_size u := match u with U_prefetch _ s _ => s | _ => 0 end.
Definition prefetch_addr u := match u with U_prefetch _ _ a => a | _ => 0 end.
Definition cfgi_sid u := match u with U_cfgi s _ _ => s | _ => 0 end.
Definition cfgi_ssid u := match u with U_cfgi _ s _ => s | _ => 0 end.
Definition cfgi_leaf u := match u with U_cfgi _ _ l => Z.b2z l | _ => 0 end.
Definition tlbi_asid u := match u with U_tlbi a _ _ _ => a | _ => 0 end.
Definition tlbi_vmid u := match u with U_tlbi _ v _ _ => v | _ => 0 end.
Definition tlbi_leaf u := match u with U_tlbi _ _ l _ => Z.b2z l | _ => 0 end.
Definition tlbi_addr u := match u with U_tlbi _ _ _ a => a | _ => 0 end.
Definition pri_sid u := match u with U_pri s _ _ _ => s | _ => 0 end.
Definition pri_ssid u := match u with U_pri _ s _ _ => s | _ => 0 end.
Definition pri_grpid u := match u with U_pri _ _ g _ => g | _ => 0 end.
Definition pri_resp u := match u with U_pri _ _ _ r => r | _ => 0 end.
Definition resume_sid u := match u with U_resume s _ _ => s | _ => 0 end.
Definition resume_stag u := match u with U_resume _ s _ => s | _ => 0 end.
Definition resume_resp u :=
  match u with U_resume _ _ r => r | _ => IOMMU_PAGE_RESP_SUCCESS end.
Definition sync_msiaddr u := match u with U_sync a => a | _ => 0 end.

(** [cmd[i] |= v] on the two-dword command under construction. *)
Definition or0 (cmd : Z * Z) (v : Z) : Z * Z := (Z.lor (fst cmd) v, snd cmd).
Definition or1 (cmd : Z * Z) (v : Z) : Z * Z := (fst cmd, Z.lor (snd cmd) v).

(** [arm_smmu_cmdq_build_cmd]: the return value and the two dwords of [cmd]
    as the function leaves them. *)
Definition arm_smmu_cmdq_build_cmd (ent : arm_smmu_cmdq_ent) : Z * (Z * Z) :=
  let u := fields ent in
  let op := opcode ent in
  let cmd := or0 (0, 0) (FIELD_PREP CMDQ_0_OP op) in
  if (op =? CMDQ_OP_TLBI_EL2_ALL) || (op =? CMDQ_OP_TLBI_NSNH_ALL) then
    (0, cmd)
  else if op =? CMDQ_OP_PREFETCH_CFG then
    let cmd := or0 cmd (FIELD_PREP CMDQ_PREFETCH_0_SID (prefetch_sid u)) in
    let cmd := or1 cmd (FIELD_PREP CMDQ_PREFETCH_1_SIZE (prefetch_size u)) in
    let cmd := or1 cmd (Z.land (prefetch_addr u) CMDQ_PREFETCH_1_ADDR_MASK) in
    (0, cmd)
  else if (op =? CMDQ_OP_CFGI_CD) || (op =? CMDQ_OP_CFGI_STE) then
    let cmd := if op =? CMDQ_OP_CFGI_CD
               then or0 cmd (FIELD_PREP CMDQ_CFGI_0_SSID (cfgi_ssid u))
               else cmd in
    let cmd := or0 cmd (FIELD_PREP CMDQ_CFGI_0_SID (cfgi_sid u)) in
    let cmd := or1 cmd (FIELD_PREP CMDQ_CFGI_1_LEAF (cfgi_leaf u)) in
    (0, cmd)
  else if op =? CMDQ_OP_CFGI_CD_ALL then
    (0, or0 cmd (FIELD_PREP CMDQ_CFGI_0_SID (cfgi_sid u)))
  else if op =? CMDQ_OP_CFGI_ALL then
    (0, or1 cmd (FIELD_PREP CMDQ_CFGI_1_RANGE 31))
  else if (op =? CMDQ_OP_TLBI_NH_VA) || (op =? CMDQ_OP_TLBI_EL2_VA) then
    let cmd := or0 cmd (FIELD_PREP CMDQ_TLBI_0_ASID (tlbi_asid u)) in
    let cmd := or1 cmd (FIELD_PREP CMDQ_TLBI_1_LEAF (tlbi_leaf u)) in
    let cmd := or1 cmd (Z.land (tlbi_addr u) CMDQ_TLBI_1_VA_MASK) in
    (0, cmd)
  else if op =? CMDQ_OP_TLBI_S2_IPA then
    let cmd := or0 cmd (FIELD_PREP CMDQ_TLBI_0_VMID (tlbi_vmid u)) in
    let cmd := or1 cmd (FIELD_PREP CMDQ_TLBI_1_LEAF (tlbi_leaf u)) in
    let cmd := or1 cmd (Z.land (tlbi_addr u) CMDQ_TLBI_1_IPA_MASK) in
    (0, cmd)
  else if (op =? CMDQ_OP_TLBI_NH_ASID) || (op =? CMDQ_OP_TLBI_S12_VMALL) then
    let cmd := if op =? CMDQ_OP_TLBI_NH_ASID
               then or0 cmd (FIELD_PREP CMDQ_TLBI_0_ASID (tlbi_asid u))
               else cmd in
    (0, or0 cmd (FIELD_PREP CMDQ_TLBI_0_VMID (tlbi_vmid u)))
  else if op =? CMDQ_OP_TLBI_EL2_ASID then
    (0, or0 cmd (FIELD_PREP CMDQ_TLBI_0_ASID (tlbi_asid u)))
  else if op =? CMDQ_OP_PRI_RESP then
    let cmd := or0 cmd (FIELD_PREP CMDQ_0_SSV (Z.b2z (substream_valid ent))) in
    let cmd := or0 cmd (FIELD_PREP CMDQ_PRI_0_SSID (pri_ssid u)) in
    let cmd := or0 cmd (FIELD_PREP CMDQ_PRI_0_SID (pri_sid u)) in
    let cmd := or1 cmd (FIELD_PREP CMDQ_PRI_1_GRPID (pri_grpid u)) in
    let r := pri_resp u in
    if (r =? PRI_RESP_DENY) || (r =? PRI_RESP_FAIL) || (r =? PRI_RESP_SUCC)
    then (0, or1 cmd (FIELD_PREP CMDQ_PRI_1_RESP r))
    else (- EINVAL, cmd)
  else if op =? CMDQ_OP_RESUME then
    let cmd := or0 cmd (FIELD_PREP CMDQ_RESUME_0_SID (resume_sid u)) in
    let cmd := or1 cmd (FIELD_PREP CMDQ_RESUME_1_STAG (resume_stag u)) in
    match resume_resp u with
    | IOMMU_PAGE_RESP_INVALID
    | IOMMU_PAGE_RESP_FAILURE => (0, or0 cmd CMDQ_RESUME_0_ACTION_ABORT)
    | IOMMU_PAGE_RESP_SUCCESS => (0, or0 cmd CMDQ_RESUME_0_ACTION_RETRY)
    | IOMMU_PAGE_RESP_other => (- EINVAL, cmd)
    end
  else if op =? CMDQ_OP_CMD_SYNC then
    let cmd :=
      if sync_msiaddr u =? 0
      then or0 cmd (FIELD_PREP CMDQ_SYNC_0_CS CMDQ_SYNC_0_CS_SEV)
      else or1 (or0 cmd (FIELD_PREP CMDQ_SYNC_0_CS CMDQ_SYNC_0_CS_IRQ))
               (Z.land (sync_msiaddr u) CMDQ_SYNC_1_MSIADDR_MASK) in
    let cmd := or0 cmd (FIELD_PREP CMDQ_SYNC_0_MSH ARM_SMMU_SH_ISH) in
    let cmd := or0 cmd (FIELD_PREP CMDQ_SYNC_0_MSIATTR ARM_SMMU_MEMATTR_OIWB) in
    (0, cmd)
  else (- ENOENT, cmd).

(** [queue_read] and [queue_write] copy [n_dwords] dwords between a local
    buffer and the queue memory at dword offset [at]. *)
Definition queue_read (mem : list Z) (at_ : Z) (n_dwords : Z) : list Z :=
  map (fun i => load mem (at_ + Z.of_nat i)) (seq 0 (Z.to_nat n_dwords)).

Definition queue_write (mem : list Z) (at_ : Z) (src : list Z) (n_dwords : Z)
    : list Z :=
  fold_left (fun m i => store m (at_ + Z.of_nat i) (nth i src 0))
            (seq 0 (Z.to_nat n_dwords)) mem.

(** [Q_ENT(q, p)] as a dword offset into [q->base]. *)
Definition Q_ENT (qu : arm_smmu_queue) (p : Z) : Z :=
  Q_IDX (llq qu) p * ent_dwords qu.

(** ** The SMMU device *)

Definition ARM_SMMU_FEAT_2_LVL_STRTAB : Z := Z.shiftl 1 0.
Definition ARM_SMMU_FEAT_MSI : Z := Z.shiftl 1 7.
Definition ARM_SMMU_FEAT_COHERENCY : Z := Z.shiftl 1 8.
Definition ARM_SMMU_FEAT_STALLS : Z := Z.shiftl 1 11.
Definition ARM_SMMU_FEAT_STALL_FORCE : Z := Z.shiftl 1 13.
Definition ARM_SMMU_FEAT_E2H : Z := Z.shiftl 1 15.
Definition ARM_SMMU_OPT_SKIP_PREFETCH : Z := Z.shiftl 1 0.

Definition STRTAB_SPLIT : Z := 8.
Definition STRTAB_L1_DESC_DWORDS : Z := 1.
Definition STRTAB_L1_DESC_SPAN : Z := GENMASK 4 0.
Definition STRTAB_L1_DESC_L2PTR_MASK : Z := GENMASK 51 6.

Definition STRTAB_STE_DWORDS : Z := 8.
Definition STRTAB_STE_0_V : Z := Z.shiftl 1 0.
Definition STRTAB_STE_0_CFG : Z := GENMASK 3 1.
Definition STRTAB_STE_0_CFG_ABORT : Z := 0.
Definition STRTAB_STE_0_CFG_BYPASS : Z := 4.
Definition STRTAB_STE_0_CFG_S1_TRANS : Z := 5.
Definition STRTAB_STE_0_CFG_S2_TRANS : Z := 6.
Definition STRTAB_STE_0_S1FMT : Z := GENMASK 5 4.
Definition STRTAB_STE_0_S1CTXPTR_MASK : Z := GENMASK 51 6.
Definition STRTAB_STE_0_S1CDMAX : Z := GENMASK 63 59.
Definition STRTAB_STE_1_S1DSS : Z := GENMASK 1 0.
Definition STRTAB_STE_1_S1DSS_SSID0 : Z := 2.
Definition STRTAB_STE_1_S1C_CACHE_WBRA : Z := 1.
Definition STRTAB_STE_1_S1CIR : Z := GENMASK 3 2.
Definition STRTAB_STE_1_S1COR : Z := GENMASK 5 4.
Definition STRTAB_STE_1_S1CSH : Z := GENMASK 7 6.
Definition STRTAB_STE_1_S1STALLD : Z := Z.shiftl 1 27.
Definition STRTAB_STE_1_EATS : Z := GENMASK 29 28.
Definition STRTAB_STE_1_EATS_TRANS : Z := 1.
Definition STRTAB_STE_1_STRW : Z := GENMASK 31 30.
Definition STRTAB_STE_1_STRW_NSEL1 : Z := 0.
Definition STRTAB_STE_1_STRW_EL2 : Z := 2.
Definition STRTAB_STE_1_SHCFG : Z := GENMASK 45 44.
Definition STRTAB_STE_1_SHCFG_INCOMING : Z := 1.
Definition STRTAB_STE_2_S2VMID : Z := GENMASK 15 0.
Definition STRTAB_STE_2_VTCR : Z := GENMASK 50 32.
Definition STRTAB_STE_2_S2AA64 : Z := Z.shiftl 1 51.
Definition STRTAB_STE_2_S2PTW : Z := Z.shiftl 1 54.
Definition STRTAB_STE_2_S2R : Z := Z.shiftl 1 58.
Definition STRTAB_STE_3_S2TTB_MASK : Z := GENMASK 51 4.

(** [struct arm_smmu_strtab_l1_desc]: [l2ptr] is NULL or the second-level
    block, held here by its contents (2048 dwords). *)
Record arm_smmu_strtab_l1_desc : Type := mk_l1_desc {
  span : Z;
  l2ptr : option (list Z);
  l2ptr_dma : Z
}.

(** [struct arm_smmu_strtab_cfg]: [strtab] is the memory the hardware walks
    from STRTAB_BASE, the first-level descriptors of a two-level table or
    the entries of a linear one. *)
Record arm_smmu_strtab_cfg : Type := mk_strtab_cfg {
  strtab : list Z;
  l1_desc : list arm_smmu_strtab_l1_desc;
  num_l1_ents : Z
}.

Record arm_smmu_device : Type := mk_smmu {
  features : Z;
  options : Z;
  cmdq : arm_smmu_cmdq;
  strtab_cfg : arm_smmu_strtab_cfg
}.

(** The part of [struct arm_smmu_s1_cfg] the stream table entry is built
    from: [tables.base], [tables.order] and [tables.arm_smmu.s1fmt]. *)
Record arm_smmu_s1_cfg : Type := mk_s1_cfg {
  tables_base : Z;
  tables_order : Z;
  tables_s1fmt : Z
}.

Record arm_smmu_s2_cfg : Type := mk_s2_cfg {
  vmid : Z;
  vttbr : Z;
  vtcr : Z
}.

(** [struct arm_smmu_strtab_ent]; the two configuration pointers are NULL or
    the configuration they point to. *)
Record arm_smmu_strtab_ent : Type := mk_ste {
  assigned : bool;
  s1_cfg : option arm_smmu_s1_cfg;
  s2_cfg : option arm_smmu_s2_cfg;
  can_stall : bool
}.

(** ** What the driver does to memory and to the command queue

    [EvStore i v once]: a store of [v] to dword [i], counted from the pointer
    the function was handed; [once] marks a [WRITE_ONCE], one aligned 64-bit
    store.  [EvCmdlist cmds sync]: a call
    [arm_smmu_cmdq_issue_cmdlist(smmu, cmds, n, sync)].  [EvAlloc size ok]: a
    call of [dmam_alloc_coherent].  [EvL1Desc i v]: the store of
    [arm_smmu_write_strtab_l1_desc] to first-level descriptor [i]. *)
Inductive event : Type :=
| EvStore (i v : Z) (once : bool)
| EvCmdlist (cmds : list (Z * Z)) (sync : bool)
| EvAlloc (size : Z) (ok : bool)
| EvL1Desc (i v : Z).

(** Messages of [dev_err]. *)
Inductive log_msg : Type :=
| Log_cmdq_error (cons_ idx : Z)
| Log_retrying_fetch
| Log_skipping
| Log_dword (v : Z)
| Log_convert_failed.

(** ** Command queue error recovery *)

Definition with_base (qu : arm_smmu_queue) (mem : list Z) : arm_smmu_queue :=
  mk_queue (llq qu) mem (ent_dwords qu) (prod_reg qu) (cons_reg qu) (batch qu).

Definition with_q (c : arm_smmu_cmdq) (qu : arm_smmu_queue) : arm_smmu_cmdq :=
  mk_cmdq qu (valid_map c) (owner_prod c) (lock c).

Definition with_cmdq (smmu : arm_smmu_device) (c : arm_smmu_cmdq)
    : arm_smmu_device :=
  mk_smmu (features smmu) (options smmu) c (strtab_cfg smmu).

Definition arm_smmu_cmdq_skip_err (smmu : arm_smmu_device)
    : arm_smmu_device * list log_msg :=
  let qu := q (cmdq smmu) in
  let cons_ := cons_reg qu in
  let idx := FIELD_GET CMDQ_CONS_ERR cons_ in
  let cmd_sync := mk_ent CMDQ_OP_CMD_SYNC false (U_sync 0) in
  let log0 := [Log_cmdq_error cons_ idx] in
  if idx =? CMDQ_ERR_CERROR_ABT_IDX then (smmu, log0 ++ [Log_retrying_fetch])
  else if idx =? CMDQ_ERR_CERROR_NONE_IDX then (smmu, log0)
  else
    let cmd := queue_read (base qu) (Q_ENT qu cons_) (ent_dwords qu) in
    let log1 := log0 ++ [Log_skipping]
                  ++ map Log_dword (firstn (Z.to_nat CMDQ_ENT_DWORDS) cmd) in
    let '(ret, (c0, c1)) := arm_smmu_cmdq_build_cmd cmd_sync in
    if negb (ret =? 0) then (smmu, log1 ++ [Log_convert_failed])
    else
      (with_cmdq smmu (with_q (cmdq smmu)
         (with_base qu (queue_write (base qu) (Q_ENT qu cons_) [c0; c1]
                                    (ent_dwords qu)))),
       log1).

(** ** Writing a stream table entry *)

(** Build-time and module configuration: the [disable_bypass] module
    parameter (read-only after load) and [CONFIG_PCI_ATS]. *)
Record kconfig : Type := mk_kconfig {
  disable_bypass : bool;
  CONFIG_PCI_ATS : bool
}.

(** Code that works on the eight dwords behind [dst]: it reads and writes
    them, records what it does, and may hit a [BUG()] or dereference NULL,
    which ends the run ([None]). *)
Definition ste_io (A : Type) : Type :=
  list Z -> option (A * list Z * list event).

Definition ret {A : Type} (a : A) : ste_io A := fun m => Some (a, m, []).

Definition bind {A B : Type} (c : ste_io A) (k : A -> ste_io B) : ste_io B :=
  fun m =>
    match c m with
    | None => None
    | Some (a, m1, t1) =>
      match k a m1 with
      | None => None
      | Some (b, m2, t2) => Some (b, m2, t1 ++ t2)
      end
    end.

Declare Scope ste_scope.
Delimit Scope ste_scope with ste.
Notation "x <- c ;; k" := (bind c (fun x => k))
  (at level 61, c at next level, right associativity) : ste_scope.
Notation "c ;;; k" := (bind c (fun _ => k))
  (at level 61, right associativity) : ste_scope.

Definition BUG {A : Type} : ste_io A := fun _ => None.
Definition BUG_ON (b : bool) : ste_io unit := if b then BUG else ret tt.
Definition rd (i : Z) : ste_io Z := fun m => Some (load m i, m, []).
Definition wr (i v : Z) : ste_io unit :=
  fun m => Some (tt, store m i v, [EvStore i v false]).
Definition wr_once (i v : Z) : ste_io unit :=
  fun m => Some (tt, store m i v, [EvStore i v true]).
Definition emit (e : event) : ste_io unit := fun m => Some (tt, m, [e]).
Definition when (b : bool) (c : ste_io unit) : ste_io unit :=
  if b then c else ret tt.

(** A pointer that may be NULL, dereferenced. *)
Definition deref {A : Type} (p : option A) : ste_io A :=
  match p with Some a => ret a | None => BUG end.

Definition has_flag (word flag : Z) : bool := negb (Z.land word flag =? 0).

(** [arm_smmu_cmdq_issue_cmd] and [arm_smmu_cmdq_issue_sync], down to their
    call of [arm_smmu_cmdq_issue_cmdlist]. *)
Definition arm_smmu_cmdq_issue_cmd (smmu : arm_smmu_device)
    (ent : arm_smmu_cmdq_ent) : ste_io Z :=
  (let '(r, cmd) := arm_smmu_cmdq_build_cmd ent in
   if negb (r =? 0) then ret (- EINVAL)
   else emit (EvCmdlist [cmd] false) ;;; ret 0)%ste.

Definition arm_smmu_cmdq_issue_sync (smmu : arm_smmu_device) : ste_io unit :=
  emit (EvCmdlist [] true).

Definition arm_smmu_sync_ste_for_sid (smmu : arm_smmu_device) (sid : Z)
    : ste_io unit :=
  (let cmd := mk_ent CMDQ_OP_CFGI_STE false (U_cfgi sid 0 true) in
   _ <- arm_smmu_cmdq_issue_cmd smmu cmd ;;
   arm_smmu_cmdq_issue_sync smmu)%ste.

(** The switch at the head of [arm_smmu_write_strtab_ent]: whether the entry
    whose dword 0 is [val] is live. *)
Definition ste_live_of (kc : kconfig) (val : Z) : ste_io bool :=
  (if has_flag val STRTAB_STE_0_V then
     let c := FIELD_GET STRTAB_STE_0_CFG val in
     if c =? STRTAB_STE_0_CFG_BYPASS then ret false
     else if (c =? STRTAB_STE_0_CFG_S1_TRANS)
             || (c =? STRTAB_STE_0_CFG_S2_TRANS) then ret true
     else if c =? STRTAB_STE_0_CFG_ABORT then
       BUG_ON (negb (disable_bypass kc)) ;;; ret false
     else BUG
   else ret false)%ste.

Definition arm_smmu_write_strtab_ent (kc : kconfig)
    (smmu : option arm_smmu_device) (sid : Z) (ste : arm_smmu_strtab_ent)
    : ste_io unit :=
  (val <- rd 0 ;;
   let prefetch_cmd := mk_ent CMDQ_OP_PREFETCH_CFG false (U_prefetch sid 0 0) in
   ste_live <- ste_live_of kc val ;;
   let val := STRTAB_STE_0_V in
   if negb (assigned ste)
      || negb (match s1_cfg ste, s2_cfg ste with
               | None, None => false | _, _ => true end)
   then
     let val :=
       if negb (assigned ste) && disable_bypass kc
       then Z.lor val (FIELD_PREP STRTAB_STE_0_CFG STRTAB_STE_0_CFG_ABORT)
       else Z.lor val (FIELD_PREP STRTAB_STE_0_CFG STRTAB_STE_0_CFG_BYPASS) in
     wr 0 val ;;;
     wr 1 (FIELD_PREP STRTAB_STE_1_SHCFG STRTAB_STE_1_SHCFG_INCOMING) ;;;
     wr 2 0 ;;;
     match smmu with
     | Some s => arm_smmu_sync_ste_for_sid s sid
     | None => ret tt
     end
   else
     val <-
       match s1_cfg ste with
       | Some cfg =>
         s <- deref smmu ;;
         let strw := if has_flag (features s) ARM_SMMU_FEAT_E2H
                     then STRTAB_STE_1_STRW_EL2 else STRTAB_STE_1_STRW_NSEL1 in
         BUG_ON ste_live ;;;
         wr 1 (Z.lor (Z.lor (Z.lor (Z.lor (Z.lor
                 (FIELD_PREP STRTAB_STE_1_S1DSS STRTAB_STE_1_S1DSS_SSID0)
                 (FIELD_PREP STRTAB_STE_1_S1CIR STRTAB_STE_1_S1C_CACHE_WBRA))
                 (FIELD_PREP STRTAB_STE_1_S1COR STRTAB_STE_1_S1C_CACHE_WBRA))
                 (FIELD_PREP STRTAB_STE_1_S1CSH ARM_SMMU_SH_ISH))
                 (if CONFIG_PCI_ATS kc
                  then FIELD_PREP STRTAB_STE_1_EATS STRTAB_STE_1_EATS_TRANS
                  else 0))
                 (FIELD_PREP STRTAB_STE_1_STRW strw)) ;;;
         when (has_flag (features s) ARM_SMMU_FEAT_STALLS
               && negb (has_flag (features s) ARM_SMMU_FEAT_STALL_FORCE)
               && negb (can_stall ste))
              (d1 <- rd 1 ;; wr 1 (Z.lor d1 STRTAB_STE_1_S1STALLD)) ;;;
         ret (Z.lor val
                (Z.lor (Z.lor (Z.lor
                   (Z.land (tables_base cfg) STRTAB_STE_0_S1CTXPTR_MASK)
                   (FIELD_PREP STRTAB_STE_0_CFG STRTAB_STE_0_CFG_S1_TRANS))
                   (FIELD_PREP STRTAB_STE_0_S1CDMAX (tables_order cfg)))
                   (FIELD_PREP STRTAB_STE_0_S1FMT (tables_s1fmt cfg))))
       | None => ret val
       end ;;
     val <-
       match s2_cfg ste with
       | Some cfg =>
         BUG_ON ste_live ;;;
         wr 2 (Z.lor (Z.lor (Z.lor (Z.lor
                 (FIELD_PREP STRTAB_STE_2_S2VMID (vmid cfg))
                 (FIELD_PREP STRTAB_STE_2_VTCR (vtcr cfg)))
                 STRTAB_STE_2_S2PTW) STRTAB_STE_2_S2AA64) STRTAB_STE_2_S2R) ;;;
         wr 3 (Z.land (vttbr cfg) STRTAB_STE_3_S2TTB_MASK) ;;;
         ret (Z.lor val
                (FIELD_PREP STRTAB_STE_0_CFG STRTAB_STE_0_CFG_S2_TRANS))
       | None => ret val
       end ;;
     s <- deref smmu ;;
     arm_smmu_sync_ste_for_sid s sid ;;;
     wr_once 0 val ;;;
     arm_smmu_sync_ste_for_sid s sid ;;;
     when (negb (has_flag (options s) ARM_SMMU_OPT_SKIP_PREFETCH))
          (_ <- arm_smmu_cmdq_issue_cmd s prefetch_cmd ;; ret tt))%ste.

(** ** The two-level stream table *)

(** A window of [STRTAB_STE_DWORDS] dwords at dword offset [off] of [mem],
    handed to code that writes one entry; its stores are reported at their
    offset in [mem]. *)
Definition rebase (off : Z) (e : event) : event :=
  match e with
  | EvStore i v once => EvStore (off + i) v once
  | _ => e
  end.

Definition run_at (mem : list Z) (off : Z) (c : ste_io unit)
    : option (list Z * list event) :=
  match c (queue_read mem off STRTAB_STE_DWORDS) with
  | None => None
  | Some (_, dst, tr) =>
    Some (queue_write mem off dst STRTAB_STE_DWORDS, map (rebase off) tr)
  end.

(** [arm_smmu_init_bypass_stes]: the loop from entry [i] on, [n] entries to
    go; [-1] is the u32 stream ID the function passes. *)
Fixpoint init_bypass_stes_loop (kc : kconfig) (mem : list Z) (i : Z) (n : nat)
    : option (list Z * list event) :=
  match n with
  | O => Some (mem, [])
  | S n' =>
    let ste := mk_ste false None None false in
    match run_at mem (i * STRTAB_STE_DWORDS)
            (arm_smmu_write_strtab_ent kc None (u32 (-1)) ste) with
    | None => None
    | Some (mem1, t1) =>
      match init_bypass_stes_loop kc mem1 (i + 1) n' with
      | None => None
      | Some (mem2, t2) => Some (mem2, t1 ++ t2)
      end
    end
  end.

Definition arm_smmu_init_bypass_stes (kc : kconfig) (mem : list Z) (nent : Z)
    : option (list Z * list event) :=
  init_bypass_stes_loop kc mem 0 (Z.to_nat nent).

(** The value [arm_smmu_write_strtab_l1_desc] stores. *)
Definition arm_smmu_write_strtab_l1_desc (desc : arm_smmu_strtab_l1_desc) : Z :=
  Z.lor (Z.lor 0 (FIELD_PREP STRTAB_L1_DESC_SPAN (span desc)))
        (Z.land (l2ptr_dma desc) STRTAB_L1_DESC_L2PTR_MASK).

Definition with_strtab_cfg (smmu : arm_smmu_device) (c : arm_smmu_strtab_cfg)
    : arm_smmu_device :=
  mk_smmu (features smmu) (options smmu) (cmdq smmu) c.

(** The tail of [arm_smmu_init_l2_strtab] once [dmam_alloc_coherent] has
    returned the block [blk] at DMA address [dma] for descriptor [i]: fill
    the block, then write the first-level descriptor. *)
Definition init_l2_strtab_link (kc : kconfig) (smmu : arm_smmu_device)
    (i : Z) (size dma : Z) (blk : list Z)
    : option (Z * arm_smmu_device * list event) :=
  let cfg := strtab_cfg smmu in
  let at_ := i * STRTAB_L1_DESC_DWORDS in
  match arm_smmu_init_bypass_stes kc blk (Z.shiftl 1 STRTAB_SPLIT) with
  | None => None
  | Some (blk1, tr) =>
    let desc1 := mk_l1_desc (STRTAB_SPLIT + 1) (Some blk1) dma in
    let v := arm_smmu_write_strtab_l1_desc desc1 in
    Some (0,
          with_strtab_cfg smmu
            (mk_strtab_cfg (store (strtab cfg) at_ v)
               (store_nat (l1_desc cfg) (Z.to_nat i) desc1)
               (num_l1_ents cfg)),
          [EvAlloc size true] ++ tr ++ [EvL1Desc at_ v])
  end.

(** [arm_smmu_init_l2_strtab].  [alloc] is what [dmam_alloc_coherent] gives:
    [None] for NULL, else the DMA address of a zeroed block of [size] bytes.
    An [sid] beyond the first-level descriptors is outside the array
    ([None]); the callers check [arm_smmu_sid_in_range] first. *)
Definition arm_smmu_init_l2_strtab (kc : kconfig) (smmu : arm_smmu_device)
    (sid : Z) (alloc : option Z) : option (Z * arm_smmu_device * list event) :=
  let cfg := strtab_cfg smmu in
  let i := Z.shiftr sid STRTAB_SPLIT in
  match nth_error (l1_desc cfg) (Z.to_nat i) with
  | None => None
  | Some desc =>
    match l2ptr desc with
    | Some _ => Some (0, smmu, [])
    | None =>
      let size := Z.shiftl 1 (STRTAB_SPLIT + Z.log2 STRTAB_STE_DWORDS + 3) in
      match alloc with
      | None =>
        let desc1 := mk_l1_desc (STRTAB_SPLIT + 1) None (l2ptr_dma desc) in
        Some (- ENOMEM,
              with_strtab_cfg smmu
                (mk_strtab_cfg (strtab cfg)
                   (store_nat (l1_desc cfg) (Z.to_nat i) desc1)
                   (num_l1_ents cfg)),
              [EvAlloc size false])
      | Some dma =>
        init_l2_strtab_link kc smmu i size dma (repeat 0 (Z.to_nat (size / 8)))
      end
    end
  end.

(** ** Domains, masters and attachment *)

Inductive arm_smmu_domain_stage : Type :=
| ARM_SMMU_DOMAIN_S1
| ARM_SMMU_DOMAIN_S2
| ARM_SMMU_DOMAIN_NESTED
| ARM_SMMU_DOMAIN_BYPASS.

(** [struct arm_smmu_domain].  [dom_smmu] is NULL or the index of the SMMU
    the domain is bound to, [devices] the list headed by [domain->devices],
    as the indices of the masters linked into it, first element first. *)
Record arm_smmu_domain : Type := mk_domain {
  dom_smmu : option nat;
  stage : arm_smmu_domain_stage;
  dom_s1_cfg : arm_smmu_s1_cfg;
  dom_s2_cfg : arm_smmu_s2_cfg;
  devices : list nat
}.

(** [struct arm_smmu_master_data]: [m_smmu] indexes the SMMU of the master,
    [domain] is NULL or the index of a domain. *)
Record arm_smmu_master_data : Type := mk_master {
  m_smmu : nat;
  ste : arm_smmu_strtab_ent;
  domain : option nat
}.

(** [struct iommu_fwspec] and the part of [struct device] the driver reads:
    [iommu_priv] indexes the master, [ids] are the stream IDs. *)
Record iommu_fwspec : Type := mk_fwspec {
  iommu_priv : nat;
  ids : list Z
}.

Record device : Type := mk_device {
  dev_fwspec : option iommu_fwspec
}.

(** The driver's objects: SMMU instances, masters and domains by index, and
    the stores and commands issued so far. *)
Record driver : Type := mk_driver {
  smmus : nat -> arm_smmu_device;
  masters : nat -> arm_smmu_master_data;
  domains : nat -> arm_smmu_domain;
  issued : list event
}.

Definition upd {A : Type} (f : nat -> A) (k : nat) (v : A) : nat -> A :=
  fun k' => if Nat.eqb k' k then v else f k'.

(** Modelled from the spec: the device list of a domain.  [list_del] and
    [list_add] are the list primitives of include/linux/list.h, not among the
    sources.  [list_del(&master->list)] unlinks the node of master [m]. *)
Fixpoint list_del (m : nat) (l : list nat) : list nat :=
  match l with
  | [] => []
  | x :: tl => if Nat.eqb x m then tl else x :: list_del m tl
  end.

(** [list_add(&master->list, &domain->devices)] inserts after the head. *)
Definition list_add (m : nat) (l : list nat) : list nat := m :: l.

(** The entry [arm_smmu_get_step_for_sid] points to. *)
Inductive ste_ptr : Type :=
| Step_l2 (idx : Z) (off : Z)
| Step_linear (off : Z).

(** [arm_smmu_get_step_for_sid].  The product of the linear lookup, a 32-bit
    product in the source, is kept exact: the two agree for stream IDs below
    2^29, and a linear table of 2^29 or more entries does not fit the 32-bit
    size [arm_smmu_init_strtab_linear] allocates. *)
Definition arm_smmu_get_step_for_sid (smmu : arm_smmu_device) (sid : Z)
    : ste_ptr :=
  if has_flag (features smmu) ARM_SMMU_FEAT_2_LVL_STRTAB then
    Step_l2 (Z.shiftr sid STRTAB_SPLIT * STRTAB_L1_DESC_DWORDS)
            (Z.land sid (Z.shiftl 1 STRTAB_SPLIT - 1) * STRTAB_STE_DWORDS)
  else Step_linear (sid * STRTAB_STE_DWORDS).

(** Run entry-writing code on the entry behind [step]; a NULL [l2ptr] or a
    descriptor outside the array ends the run. *)
Definition ste_at (smmu : arm_smmu_device) (step : ste_ptr) (c : ste_io unit)
    : option (arm_smmu_device * list event) :=
  let cfg := strtab_cfg smmu in
  match step with
  | Step_linear off =>
    match run_at (strtab cfg) off c with
    | None => None
    | Some (mem, tr) =>
      Some (with_strtab_cfg smmu
              (mk_strtab_cfg mem (l1_desc cfg) (num_l1_ents cfg)), tr)
    end
  | Step_l2 idx off =>
    match nth_error (l1_desc cfg) (Z.to_nat idx) with
    | None => None
    | Some desc =>
      match l2ptr desc with
      | None => None
      | Some blk =>
        match run_at blk off c with
        | None => None
        | Some (blk1, tr) =>
          Some (with_strtab_cfg smmu
                  (mk_strtab_cfg (strtab cfg)
                     (store_nat (l1_desc cfg) (Z.to_nat idx)
                        (mk_l1_desc (span desc) (Some blk1) (l2ptr_dma desc)))
                     (num_l1_ents cfg)), tr)
        end
      end
    end
  end.

(** The loop of [arm_smmu_install_ste_for_dev]: [seen] are the stream IDs
    [ids[0..i-1]], a repeated ID is skipped. *)
Fixpoint install_ste_loop (kc : kconfig) (e : arm_smmu_strtab_ent)
    (seen todo : list Z) (smmu : arm_smmu_device)
    : option (arm_smmu_device * list event) :=
  match todo with
  | [] => Some (smmu, [])
  | sid :: rest =>
    if existsb (Z.eqb sid) seen
    then install_ste_loop kc e (seen ++ [sid]) rest smmu
    else
      match ste_at smmu (arm_smmu_get_step_for_sid smmu sid)
              (arm_smmu_write_strtab_ent kc (Some smmu) sid e) with
      | None => None
      | Some (smmu1, t1) =>
        match install_ste_loop kc e (seen ++ [sid]) rest smmu1 with
        | None => None
        | Some (smmu2, t2) => Some (smmu2, t1 ++ t2)
        end
      end
  end.

Definition arm_smmu_install_ste_for_dev (kc : kconfig) (fwspec : iommu_fwspec)
    (st : driver) : option driver :=
  let master := masters st (iommu_priv fwspec) in
  match install_ste_loop kc (ste master) [] (ids fwspec)
          (smmus st (m_smmu master)) with
  | None => None
  | Some (smmu1, tr) =>
    Some (mk_driver (upd (smmus st) (m_smmu master) smmu1)
                    (masters st) (domains st) (issued st ++ tr))
  end.

Definition with_devices (d : arm_smmu_domain) (l : list nat) : arm_smmu_domain :=
  mk_domain (dom_smmu d) (stage d) (dom_s1_cfg d) (dom_s2_cfg d) l.

Definition with_assigned (e : arm_smmu_strtab_ent) (b : bool)
    : arm_smmu_strtab_ent :=
  mk_ste b (s1_cfg e) (s2_cfg e) (can_stall e).

(** [arm_smmu_detach_dev].  [__iommu_sva_unbind_dev_all] belongs to the SVA
    core and touches none of the objects modelled here. *)
Definition arm_smmu_detach_dev (kc : kconfig) (dev : device) (st : driver)
    : option driver :=
  match dev_fwspec dev with
  | None => None
  | Some fwspec =>
    let mi := iommu_priv fwspec in
    let master := masters st mi in
    let st1 :=
      match domain master with
      | Some di =>
        let d := domains st di in
        mk_driver (smmus st)
          (upd (masters st) mi (mk_master (m_smmu master) (ste master) None))
          (upd (domains st) di (with_devices d (list_del mi (devices d))))
          (issued st)
      | None => st
      end in
    let master1 := masters st1 mi in
    let st2 :=
      mk_driver (smmus st1)
        (upd (masters st1) mi
           (mk_master (m_smmu master1) (with_assigned (ste master1) false)
                      (domain master1)))
        (domains st1) (issued st1) in
    arm_smmu_install_ste_for_dev kc fwspec st2
  end.

(** What [arm_smmu_domain_finalise] leaves behind: its return value and the
    stage and stage configurations of the domain.  It is built on the
    page-table and PASID-table allocators, which are outside the driver, and
    writes nothing else of what is modelled here. *)
Definition finalise_fn : Type :=
  arm_smmu_domain -> arm_smmu_master_data ->
  Z * (arm_smmu_domain_stage * arm_smmu_s1_cfg * arm_smmu_s2_cfg).

(** [arm_smmu_attach_dev], with [di] the index of the domain. *)
Definition arm_smmu_attach_dev (kc : kconfig)
    (arm_smmu_domain_finalise : finalise_fn)
    (di : nat) (dev : device) (st : driver) : option (Z * driver) :=
  match dev_fwspec dev with
  | None => Some (- ENOENT, st)
  | Some fwspec =>
    let mi := iommu_priv fwspec in
    let smmu := m_smmu (masters st mi) in
    match (if assigned (ste (masters st mi))
           then arm_smmu_detach_dev kc dev st else Some st) with
    | None => None
    | Some st1 =>
      let master := masters st1 mi in
      let d := domains st1 di in
      let bound :=
        match dom_smmu d with
        | None =>
          let d1 := mk_domain (Some smmu) (stage d) (dom_s1_cfg d)
                              (dom_s2_cfg d) (devices d) in
          let '(r, (stg, c1, c2)) := arm_smmu_domain_finalise d1 master in
          if negb (r =? 0)
          then (r, mk_domain None stg c1 c2 (devices d))
          else (0, mk_domain (Some smmu) stg c1 c2 (devices d))
        | Some s =>
          if negb (Nat.eqb s smmu) then (- ENXIO, d) else (0, d)
        end in
      let '(r, d2) := bound in
      if negb (r =? 0) then
        Some (r, mk_driver (smmus st1) (masters st1)
                           (upd (domains st1) di d2) (issued st1))
      else
        let d3 := with_devices d2 (list_add mi (devices d2)) in
        let e :=
          match stage d3 with
          | ARM_SMMU_DOMAIN_BYPASS => mk_ste true None None (can_stall (ste master))
          | ARM_SMMU_DOMAIN_S1 =>
            mk_ste true (Some (dom_s1_cfg d3)) None (can_stall (ste master))
          | _ => mk_ste true None (Some (dom_s2_cfg d3)) (can_stall (ste master))
          end in
        let st2 :=
          mk_driver (smmus st1)
            (upd (masters st1) mi (mk_master (m_smmu master) e (Some di)))
            (upd (domains st1) di d3) (issued st1) in
        match arm_smmu_install_ste_for_dev kc fwspec st2 with
        | None => None
        | Some st3 => Some (0, st3)
        end
    end
  end.

(** ** Index pairs a queue can reach, and the ring of the specification *)

(** The index pairs reached from the initial [prod = cons = 0] of
    [arm_smmu_init_one_queue]: the producer advances by [n] entries that fit,
    the consumer by one entry of a queue that is not empty. *)
Inductive reachable (shift : Z) : arm_smmu_ll_queue -> Prop :=
| reach_init : reachable shift (mk_llq 0 0 shift)
| reach_produce q n :
    reachable shift q -> 0 <= n -> queue_has_space q n = true ->
    reachable shift (mk_llq (queue_inc_prod_n q n) (cons q) (max_n_shift q))
| reach_consume q :
    reachable shift q -> queue_empty q = false ->
    reachable shift (queue_inc_cons q).

(** The logical index [(wrap-bit, position)] of the specification, by
    division rather than by masks. *)
Definition capacity (shift : Z) : Z := 2 ^ shift.
Definition position (shift p : Z) : Z := p mod capacity shift.
Definition wrap_bit (shift p : Z) : Z := (p / capacity shift) mod 2.

(** Free slots as the specification counts them. *)
Definition free_slots (q : arm_smmu_ll_queue) : Z :=
  let s := max_n_shift q in
  if wrap_bit s (prod q) =? wrap_bit s (cons q)
  then capacity s - (position s (prod q) - position s (cons q))
  else position s (cons q) - position s (prod q).

(** Entries in flight: producer minus consumer modulo twice the capacity. *)
Definition in_flight (q : arm_smmu_ll_queue) : Z :=
  (prod q - cons q) mod (2 * capacity (max_n_shift q)).

(** Length of the range [[sprod, eprod)] of producer indices. *)
Definition range_len (shift sprod eprod : Z) : Z :=
  (eprod - sprod) mod (2 * capacity shift).

(** The pattern [arm_smmu_cmdq_poll_valid_map] waits for in the slot of
    producer index [p]: the inverse of the wrap bit. *)
Definition valid_pattern (shift p : Z) : bool := negb (Z.testbit p shift).

(** ** Sample objects *)

(** A command queue of 64 slots whose hardware consumer register reads
    [cons_reg_]; slot [i] holds the dwords [100 + 2 i] and [101 + 2 i]. *)
Definition sample_queue (cons_reg_ : Z) : arm_smmu_queue :=
  mk_queue (mk_llq 5 3 6) (map Z.of_nat (seq 100 128)) 2 5 cons_reg_ 0.

Definition sample_smmu (cons_reg_ : Z) : arm_smmu_device :=
  mk_smmu 0 0 (mk_cmdq (sample_queue cons_reg_) (bitmap_zalloc 64) 5 0)
          (mk_strtab_cfg [] [] 0).

(** ** The attach sequence of the specification *)

(** The calls [arm_smmu_sync_ste_for_sid] and the prefetch make. *)
Definition ev_cfgi_ste (sid : Z) : event :=
  EvCmdlist
    [snd (arm_smmu_cmdq_build_cmd
            (mk_ent CMDQ_OP_CFGI_STE false (U_cfgi sid 0 true)))] false.

Definition ev_cmd_sync : event := EvCmdlist [] true.

Definition ev_prefetch (sid : Z) : event :=
  EvCmdlist
    [snd (arm_smmu_cmdq_build_cmd
            (mk_ent CMDQ_OP_PREFETCH_CFG false (U_prefetch sid 0 0)))] false.

(** Dword 0 of an entry that is not live: not valid, or valid with the
    bypass configuration, or valid with the abort configuration under
    [disable_bypass]. *)
Definition ste_not_live (kc : kconfig) (val : Z) : Prop :=
  has_flag val STRTAB_STE_0_V = false \/
  FIELD_GET STRTAB_STE_0_CFG val = STRTAB_STE_0_CFG_BYPASS \/
  (FIELD_GET STRTAB_STE_0_CFG val = STRTAB_STE_0_CFG_ABORT /\
   disable_bypass kc = true).

(** A plain store to one of the dwords [lo .. hi]. *)
Definition plain_store_in (lo hi : Z) (e : event) : Prop :=
  exists i v, e = EvStore i v false /\ lo <= i <= hi.

(** The sequence as the specification words it: stores to every dword but
    dword 0, then CFGI_STE, CMD_SYNC, one store to dword 0, CFGI_STE,
    CMD_SYNC, and nothing after. *)
Definition claimed_attach_sequence (sid : Z) (tr : list event) : Prop :=
  exists pre v0,
    tr = pre ++ [ev_cfgi_ste sid; ev_cmd_sync; EvStore 0 v0 true;
                 ev_cfgi_ste sid; ev_cmd_sync] /\
    Forall (plain_store_in 1 7) pre /\
    (forall i, 1 <= i <= 7 -> exists v, In (EvStore i v false) pre).

(** A translating stage-1 entry for stream 5 on an SMMU without options. *)
Definition sample_s1_ste : arm_smmu_strtab_ent :=
  mk_ste true (Some (mk_s1_cfg 4096 0 0)) None false.

(** ** The bypass entry *)

(** The three dwords [arm_smmu_write_strtab_ent] stores for an unassigned
    stream: valid with the abort configuration under [disable_bypass], with
    the bypass configuration otherwise. *)
Definition bypass_ste_0 (kc : kconfig) : Z :=
  if disable_bypass kc
  then Z.lor STRTAB_STE_0_V (FIELD_PREP STRTAB_STE_0_CFG STRTAB_STE_0_CFG_ABORT)
  else Z.lor STRTAB_STE_0_V (FIELD_PREP STRTAB_STE_0_CFG STRTAB_STE_0_CFG_BYPASS).

Definition bypass_ste_1 : Z :=
  FIELD_PREP STRTAB_STE_1_SHCFG STRTAB_STE_1_SHCFG_INCOMING.

(** The stores that fill entry [k] of a second-level block. *)
Definition bypass_ste_events (kc : kconfig) (k : Z) : list event :=
  [EvStore (k * STRTAB_STE_DWORDS + 0) (bypass_ste_0 kc) false;
   EvStore (k * STRTAB_STE_DWORDS + 1) bypass_ste_1 false;
   EvStore (k * STRTAB_STE_DWORDS + 2) 0 false].

(** An SMMU with a two-level stream table of four first-level descriptors,
    none of them populated. *)
Definition sample_smmu_2lvl : arm_smmu_device :=
  mk_smmu ARM_SMMU_FEAT_2_LVL_STRTAB 0
          (mk_cmdq (sample_queue 0) (bitmap_zalloc 64) 5 0)
          (mk_strtab_cfg (repeat 0 4%nat) (repeat (mk_l1_desc 0 None 0) 4%nat) 4).

(** ** Consistency of the attachment bookkeeping *)

(** A master is linked into the device list of the domain its [domain]
    pointer names and into no other list, no list holds a master twice, and
    a master whose entry is not assigned has no domain. *)
Definition attach_inv (st : driver) : Prop :=
  (forall m d, domain (masters st m) = Some d <->
               In m (devices (domains st d))) /\
  (forall d, NoDup (devices (domains st d))) /\
  (forall m, assigned (ste (masters st m)) = false ->
             domain (masters st m) = None).

(** A driver right after probing: one SMMU with a linear stream table of 16
    zeroed entries, masters without domain, stage-1 domains without devices;
    a finalise routine that succeeds and keeps the stage. *)
Definition sample_kconfig : kconfig := mk_kconfig true false.

Definition sample_driver : driver :=
  mk_driver
    (fun _ => mk_smmu 0 0 (mk_cmdq (sample_queue 0) (bitmap_zalloc 64) 5 0)
                      (mk_strtab_cfg (repeat 0 128%nat) [] 0))
    (fun _ => mk_master 0%nat (mk_ste false None None false) None)
    (fun _ => mk_domain None ARM_SMMU_DOMAIN_S1 (mk_s1_cfg 4096 0 0)
                        (mk_s2_cfg 0 0 0) [])
    [].

Definition sample_finalise : finalise_fn :=
  fun d _ => (0, (stage d, dom_s1_cfg d, dom_s2_cfg d)).

Definition sample_dev : device := mk_device (Some (mk_fwspec 0%nat [3])).

(** The sample driver after its device has been attached to domain 0. *)
Definition sample_attached : driver :=
  match arm_smmu_attach_dev sample_kconfig sample_finalise 0%nat sample_dev
          sample_driver with
  | Some (_, st) => st
  | None => sample_driver
  end.

(** ** Ranges of slots *)

(** Whether [slot] is among the [d] slots that start at the slot of
    producer index [sprod]. *)
Definition in_range (shift sprod d slot : Z) : bool :=
  (slot - sprod) mod capacity shift <? d.

(** The producer index of the same slot one revolution later. *)
Definition next_wrap (shift p : Z) : Z :=
  (p + capacity shift) mod (2 * capacity shift).

(** A command queue of 128 slots with a zeroed valid bitmap. *)
Definition sample_cmdq : arm_smmu_cmdq :=
  mk_cmdq (mk_queue (mk_llq 0 0 7) (repeat 0 256%nat) 2 0 0 0)
          (bitmap_zalloc 128) 0 0.

(** ** Taking entries out of a queue *)

(** Modelled from the spec: further error results of the driver, numbered as
    in the kernel's errno headers, which are not among the sources. *)
Definition EAGAIN : Z := 11.
Definition EOVERFLOW : Z := 75.

Definition with_llq (qu : arm_smmu_queue) (l : arm_smmu_ll_queue)
    : arm_smmu_queue :=
  mk_queue l (base qu) (ent_dwords qu) (prod_reg qu) (cons_reg qu) (batch qu).

(** [queue_sync_cons_out]: the shadow consumer index goes to the register. *)
Definition queue_sync_cons_out (qu : arm_smmu_queue) : arm_smmu_queue :=
  mk_queue (llq qu) (base qu) (ent_dwords qu) (prod_reg qu) (cons (llq qu))
           (batch qu).

(** [queue_sync_prod_in]: the return value and the queue with the shadow
    producer index read from the register. *)
Definition queue_sync_prod_in (qu : arm_smmu_queue) : Z * arm_smmu_queue :=
  let prod_ := prod_reg qu in
  let ret := if negb (Q_OVF prod_ =? Q_OVF (prod (llq qu)))
             then - EOVERFLOW else 0 in
  (ret, with_llq qu (mk_llq prod_ (cons (llq qu)) (max_n_shift (llq qu)))).

(** [queue_remove_raw]: the return value, the caller's buffer [ent] of
    [ent_dwords] dwords and the queue, as the function leaves them. *)
Definition queue_remove_raw (qu : arm_smmu_queue) (ent : list Z)
    : Z * list Z * arm_smmu_queue :=
  if queue_empty (llq qu) then (- EAGAIN, ent, qu)
  else
    (0,
     queue_read (base qu) (Q_ENT qu (cons (llq qu))) (ent_dwords qu),
     queue_sync_cons_out (with_llq qu (queue_inc_cons (llq qu)))).

(** ** The commands the driver can build *)

(** The opcodes the switch of [arm_smmu_cmdq_build_cmd] names. *)
Definition cmdq_opcodes : list Z :=
  [CMDQ_OP_TLBI_EL2_ALL; CMDQ_OP_TLBI_NSNH_ALL; CMDQ_OP_PREFETCH_CFG;
   CMDQ_OP_CFGI_CD; CMDQ_OP_CFGI_STE; CMDQ_OP_CFGI_CD_ALL; CMDQ_OP_CFGI_ALL;
   CMDQ_OP_TLBI_NH_VA; CMDQ_OP_TLBI_EL2_VA; CMDQ_OP_TLBI_S2_IPA;
   CMDQ_OP_TLBI_NH_ASID; CMDQ_OP_TLBI_S12_VMALL; CMDQ_OP_TLBI_EL2_ASID;
   CMDQ_OP_PRI_RESP; CMDQ_OP_RESUME; CMDQ_OP_CMD_SYNC].

Definition ARM_SMMU_OPT_MESSAGE_BASED_SPI : Z := Z.shiftl 1 2.

(** [arm_smmu_cmdq_build_sync_cmd]: the two dwords it leaves in [cmd].
    [base_dma] is [q->base_dma], the bus address of the queue memory. *)
Definition arm_smmu_cmdq_build_sync_cmd (smmu : arm_smmu_device)
    (base_dma prod_ : Z) : Z * Z :=
  let qu := q (cmdq smmu) in
  let msiaddr :=
    if negb (has_flag (options smmu) ARM_SMMU_OPT_MESSAGE_BASED_SPI)
       && has_flag (features smmu) ARM_SMMU_FEAT_MSI
       && has_flag (features smmu) ARM_SMMU_FEAT_COHERENCY
    then u64 (base_dma + Q_IDX (llq qu) prod_ * ent_dwords qu * 8)
    else 0 in
  snd (arm_smmu_cmdq_build_cmd (mk_ent CMDQ_OP_CMD_SYNC false (U_sync msiaddr))).

(** *** Page requests *)

Definition PRIQ_0_SID : Z := GENMASK 31 0.
Definition PRIQ_0_SSID : Z := GENMASK 51 32.
Definition PRIQ_0_PRG_LAST : Z := Z.shiftl 1 62.
Definition PRIQ_0_SSID_V : Z := Z.shiftl 1 63.
Definition PRIQ_1_PRG_IDX : Z := GENMASK 8 0.

(** [arm_smmu_handle_ppr] on the request whose two dwords are [evt0] and
    [evt1]; its [dev_info] lines are left out. *)
Definition arm_smmu_handle_ppr (smmu : arm_smmu_device) (evt0 evt1 : Z)
    : ste_io unit :=
  (let sid := FIELD_GET PRIQ_0_SID evt0 in
   let ssv := negb (FIELD_GET PRIQ_0_SSID_V evt0 =? 0) in
   let ssid := if ssv then FIELD_GET PRIQ_0_SSID evt0 else 0 in
   let last := negb (FIELD_GET PRIQ_0_PRG_LAST evt0 =? 0) in
   let grpid := FIELD_GET PRIQ_1_PRG_IDX evt1 in
   when last
     (_ <- arm_smmu_cmdq_issue_cmd smmu
             (mk_ent CMDQ_OP_PRI_RESP ssv
                     (U_pri sid ssid grpid PRI_RESP_DENY)) ;;
      ret tt))%ste.

(** Modelled from the spec: a further error result, numbered as in the
    kernel's errno headers, which are not among the sources. *)
Definition ENODEV : Z := 19.

(** [arm_smmu_page_response].  [group_id] and [resp_code] are
    [resp->page_req_group_id] and [resp->resp_code]; the stream ID is an int
    stored to a u32, the group a value stored to the u16 [resume.stag].  A
    device without firmware description is a NULL dereference. *)
Definition arm_smmu_page_response (dev : device) (group_id : Z)
    (resp_code : page_response_code) (st : driver) : option (Z * driver) :=
  match dev_fwspec dev with
  | None => None
  | Some fwspec =>
    let sid := nth 0 (ids fwspec) 0 in
    let master := masters st (iommu_priv fwspec) in
    if can_stall (ste master) then
      let cmd := mk_ent CMDQ_OP_RESUME false
                   (U_resume (u32 sid) (group_id mod 2 ^ 16) resp_code) in
      match arm_smmu_cmdq_issue_cmd (smmus st (m_smmu master)) cmd [] with
      | None => None
      | Some (_, _, tr) =>
        Some (0, mk_driver (smmus st) (masters st) (domains st)
                           (issued st ++ tr))
      end
    else Some (- ENODEV, st)
  end.

(** *** TLB invalidation by range *)

(** The [do ... while (size -= granule)] loop of
    [arm_smmu_tlb_inv_range_nosync]; [size] is a size_t, [addr] a u64. *)
Fixpoint tlb_inv_range_loop (fuel : nat) (smmu : arm_smmu_device)
    (op asid_ vmid_ : Z) (leaf : bool) (addr size granule : Z)
    : option (list event) :=
  match fuel with
  | O => None
  | S fuel' =>
    match arm_smmu_cmdq_issue_cmd smmu
            (mk_ent op false (U_tlbi asid_ vmid_ leaf addr)) [] with
    | None => None
    | Some (_, _, tr) =>
      let size1 := u64 (size - granule) in
      if size1 =? 0 then Some tr
      else
        match tlb_inv_range_loop fuel' smmu op asid_ vmid_ leaf
                (u64 (addr + granule)) size1 granule with
        | None => None
        | Some tr' => Some (tr ++ tr')
        end
    end
  end.

(** [arm_smmu_tlb_inv_range_nosync] for the domain [d] on [smmu]; [cd0] is
    NULL or the ASID tag of the default context [s1_cfg.cd0]. *)
Definition arm_smmu_tlb_inv_range_nosync (fuel : nat)
    (iova size granule : Z) (leaf : bool)
    (smmu : arm_smmu_device) (d : arm_smmu_domain) (cd0 : option Z)
    : option (list event) :=
  match stage d with
  | ARM_SMMU_DOMAIN_S1 =>
    match cd0 with
    | None => Some []
    | Some tag =>
      tlb_inv_range_loop fuel smmu
        (if has_flag (features smmu) ARM_SMMU_FEAT_E2H
         then CMDQ_OP_TLBI_EL2_VA else CMDQ_OP_TLBI_NH_VA)
        tag 0 leaf iova size granule
    end
  | _ =>
    tlb_inv_range_loop fuel smmu CMDQ_OP_TLBI_S2_IPA 0 (vmid (dom_s2_cfg d))
      leaf iova size granule
  end.

(** The command [arm_smmu_tlb_inv_range_nosync] issues for address [addr]. *)
Definition ev_tlbi (op asid_ vmid_ : Z) (leaf : bool) (addr : Z) : event :=
  EvCmdlist
    [snd (arm_smmu_cmdq_build_cmd
            (mk_ent op false (U_tlbi asid_ vmid_ leaf addr)))] false.

(** ** Live stream table entries *)

(** Dword 0 of a live entry: valid, translating at stage 1 or stage 2. *)
Definition ste_is_live (val : Z) : Prop :=
  has_flag val STRTAB_STE_0_V = true /\
  (FIELD_GET STRTAB_STE_0_CFG val = STRTAB_STE_0_CFG_S1_TRANS \/
   FIELD_GET STRTAB_STE_0_CFG val = STRTAB_STE_0_CFG_S2_TRANS).

(** Dword 0 of the entry [arm_smmu_write_strtab_ent] stores for a stream
    that does not translate: abort for an unassigned stream under
    [disable_bypass], bypass otherwise. *)
Definition plain_ste_0 (kc : kconfig) (e : arm_smmu_strtab_ent) : Z :=
  if negb (assigned e) && disable_bypass kc
  then Z.lor STRTAB_STE_0_V (FIELD_PREP STRTAB_STE_0_CFG STRTAB_STE_0_CFG_ABORT)
  else Z.lor STRTAB_STE_0_V (FIELD_PREP STRTAB_STE_0_CFG STRTAB_STE_0_CFG_BYPASS).

(** Modelled from the spec: a further error result, numbered as in the
    kernel's errno headers, which are not among the sources. *)
Definition ERANGE : Z := 34.

(** [arm_smmu_sid_in_range]: [limit] is an unsigned long. *)
Definition arm_smmu_sid_in_range (smmu : arm_smmu_device) (sid : Z) : bool :=
  let limit := num_l1_ents (strtab_cfg smmu) in
  let limit :=
    if has_flag (features smmu) ARM_SMMU_FEAT_2_LVL_STRTAB
    then u64 (limit * Z.shiftl 1 STRTAB_SPLIT) else limit in
  sid <? limit.

(** ** The entry of a stream *)

(** The entry of stream [sid] lies within its table, a second-level block
    that has been allocated or the linear table, and holds the eight dwords
    [dst]. *)
Definition ste_window (smmu : arm_smmu_device) (sid : Z) (dst : list Z) : Prop :=
  match arm_smmu_get_step_for_sid smmu sid with
  | Step_linear off =>
    off + STRTAB_STE_DWORDS <= Z.of_nat (length (strtab (strtab_cfg smmu))) /\
    queue_read (strtab (strtab_cfg smmu)) off STRTAB_STE_DWORDS = dst
  | Step_l2 idx off =>
    exists desc blk,
      nth_error (l1_desc (strtab_cfg smmu)) (Z.to_nat idx) = Some desc /\
      l2ptr desc = Some blk /\
      off + STRTAB_STE_DWORDS <= Z.of_nat (length blk) /\
      queue_read blk off STRTAB_STE_DWORDS = dst
  end.

(** The configuration field [arm_smmu_write_strtab_ent] gives the entry of a
    stream described by [e]. *)
Definition ste_target_cfg (kc : kconfig) (e : arm_smmu_strtab_ent) : Z :=
  match assigned e, s1_cfg e, s2_cfg e with
  | false, _, _ =>
    if disable_bypass kc then STRTAB_STE_0_CFG_ABORT else STRTAB_STE_0_CFG_BYPASS
  | true, None, None => STRTAB_STE_0_CFG_BYPASS
  | true, c1, c2 =>
    Z.lor (match c1 with Some _ => STRTAB_STE_0_CFG_S1_TRANS | None => 0 end)
          (match c2 with Some _ => STRTAB_STE_0_CFG_S2_TRANS | None => 0 end)
  end.

(** Whether [e] asks for translation. *)
Definition ste_translates (e : arm_smmu_strtab_ent) : bool :=
  assigned e && match s1_cfg e, s2_cfg e with
                | None, None => false | _, _ => true end.

(** What dword 0 of an entry must be for [arm_smmu_write_strtab_ent] to
    accept [e] for it: not live when [e] translates, and else any entry the
    function knows, live or not. *)
Definition ste_accepts (kc : kconfig) (e : arm_smmu_strtab_ent) (val : Z)
    : Prop :=
  if ste_translates e then ste_not_live kc val
  else ste_not_live kc val \/ ste_is_live val.

(** The entry of stream [sid] is valid and its configuration field is
    [cfg]. *)
Definition ste_has_cfg (smmu : arm_smmu_device) (sid cfg : Z) : Prop :=
  exists dst,
    ste_window smmu sid dst /\
    has_flag (load dst 0) STRTAB_STE_0_V = true /\
    FIELD_GET STRTAB_STE_0_CFG (load dst 0) = cfg.

(** The configuration field of the entries of a device attached to a domain
    of stage [stg]. *)
Definition stage_cfg (stg : arm_smmu_domain_stage) : Z :=
  match stg with
  | ARM_SMMU_DOMAIN_BYPASS => STRTAB_STE_0_CFG_BYPASS
  | ARM_SMMU_DOMAIN_S1 => STRTAB_STE_0_CFG_S1_TRANS
  | _ => STRTAB_STE_0_CFG_S2_TRANS
  end.

(** The configuration field of the entries of a device that is attached to
    no domain. *)
Definition detached_cfg (kc : kconfig) : Z :=
  if disable_bypass kc then STRTAB_STE_0_CFG_ABORT else STRTAB_STE_0_CFG_BYPASS.

(** Every stream of [fw] has its entry in the table of SMMU [si], and dword
    0 of each satisfies [ok]. *)
Definition streams_present (st : driver) (si : nat) (fw : iommu_fwspec)
    (ok : Z -> Prop) : Prop :=
  forall sid, In sid (ids fw) ->
    0 <= sid /\
    exists dst, ste_window (smmus st si) sid dst /\ ok (load dst 0).

(** ** MPAM fields of a stream table entry *)

Definition STRTAB_STE_1_S1MPAM : Z := Z.shiftl 1 26.
Definition STRTAB_STE_4_PARTID_MASK : Z := GENMASK 31 16.
Definition STRTAB_STE_5_PMG_MASK : Z := GENMASK 7 0.

(** [val &= ~mask; val |= FIELD_PREP(mask, v)] on a u64. *)
Definition set_field (val mask v : Z) : Z :=
  Z.lor (Z.land val (u64 (Z.lnot mask))) (FIELD_PREP mask v).

(** The eight dwords behind [step], read only; a NULL [l2ptr] or a
    descriptor outside the array ends the run. *)
Definition ste_dwords (smmu : arm_smmu_device) (step : ste_ptr)
    : option (list Z) :=
  let cfg := strtab_cfg smmu in
  match step with
  | Step_linear off => Some (queue_read (strtab cfg) off STRTAB_STE_DWORDS)
  | Step_l2 idx off =>
    match nth_error (l1_desc cfg) (Z.to_nat idx) with
    | None => None
    | Some desc =>
      match l2ptr desc with
      | None => None
      | Some blk => Some (queue_read blk off STRTAB_STE_DWORDS)
      end
    end
  end.

(** [arm_smmu_set_ste_mpam]; the arguments are ints, the stream ID is used
    as a u32. *)
Definition arm_smmu_set_ste_mpam (smmu : arm_smmu_device)
    (sid partid pmg s1mpam : Z) : option (Z * arm_smmu_device * list event) :=
  let sid32 := u32 sid in
  if negb (arm_smmu_sid_in_range smmu sid32) then Some (- ERANGE, smmu, [])
  else
    match ste_at smmu (arm_smmu_get_step_for_sid smmu sid32)
            (v1 <- rd 1 ;;
             wr_once 1 (set_field v1 STRTAB_STE_1_S1MPAM s1mpam) ;;;
             v4 <- rd 4 ;;
             wr_once 4 (set_field v4 STRTAB_STE_4_PARTID_MASK partid) ;;;
             v5 <- rd 5 ;;
             wr_once 5 (set_field v5 STRTAB_STE_5_PMG_MASK pmg) ;;;
             arm_smmu_sync_ste_for_sid smmu sid32)%ste with
    | None => None
    | Some (smmu', tr) => Some (0, smmu', tr)
    end.

(** [arm_smmu_get_ste_mpam]: the return value and what [*partid], [*pmg]
    and [*s1mpam], holding [out] at the call, hold at the return. *)
Definition arm_smmu_get_ste_mpam (smmu : arm_smmu_device) (sid : Z)
    (out : Z * Z * Z) : option (Z * (Z * Z * Z)) :=
  let sid32 := u32 sid in
  if negb (arm_smmu_sid_in_range smmu sid32) then Some (- ERANGE, out)
  else
    match ste_dwords smmu (arm_smmu_get_step_for_sid smmu sid32) with
    | None => None
    | Some ste_ =>
      let s1mpam := FIELD_GET STRTAB_STE_1_S1MPAM (load ste_ 1) in
      if negb (s1mpam =? 0) then Some (0, (fst (fst out), snd (fst out), s1mpam))
      else
        Some (0, (FIELD_GET STRTAB_STE_4_PARTID_MASK (load ste_ 4),
                  FIELD_GET STRTAB_STE_5_PMG_MASK (load ste_ 5),
                  s1mpam))
    end.

(** ** Writing commands into the queue *)

(** The queue memory after the first [n] rounds of the loop of
    [arm_smmu_cmdq_write_entries]: command [i], the dwords of [cmds] from
    [i * CMDQ_ENT_DWORDS] on, goes to the slot of the producer index [prod_]
    advanced by [i] in a local copy of the queue indices. *)
Definition write_entries_mem (qu : arm_smmu_queue) (cmds : list Z)
    (prod_ : Z) (n : nat) : list Z :=
  let llq_ := mk_llq prod_ 0 (max_n_shift (llq qu)) in
  fold_left
    (fun mem i =>
       let p := queue_inc_prod_n llq_ (Z.of_nat i) in
       queue_write mem (Q_ENT qu p)
         (skipn (i * Z.to_nat CMDQ_ENT_DWORDS) cmds) CMDQ_ENT_DWORDS)
    (seq 0 n) (base qu).

Definition arm_smmu_cmdq_write_entries (c : arm_smmu_cmdq) (cmds : list Z)
    (prod_ : Z) (n : Z) : arm_smmu_cmdq :=
  with_q c (with_base (q c) (write_entries_mem (q c) cmds prod_ (Z.to_nat n))).

(** ** Queue initialisation *)

Definition Q_BASE_RWA : Z := Z.shiftl 1 62.
Definition Q_BASE_ADDR_MASK : Z := GENMASK 51 5.
Definition Q_BASE_LOG2SIZE : Z := GENMASK 4 0.

(** Messages of [arm_smmu_init_one_queue]: the [dev_err], the [WARN_ON] and
    the [dev_info]. *)
Inductive queue_msg : Type :=
| Q_alloc_failed (qsz : Z)
| Q_misaligned
| Q_allocated (nents : Z).

(** The allocation loop of [arm_smmu_init_one_queue].  [alloc qsz] is what
    [dmam_alloc_coherent] gives for [qsz] bytes: [None] for NULL, else the
    DMA address and the memory, as dwords.  [page_size] is PAGE_SIZE.  The
    result is the last [max_n_shift], the last [qsz] and the last answer of
    the allocator.  [qsz] is a size_t, [max_n_shift] a u32. *)
Fixpoint init_one_queue_alloc (fuel : nat) (alloc : Z -> option (Z * list Z))
    (page_size shift dwords : Z) : option (Z * Z * option (Z * list Z)) :=
  match fuel with
  | O => None
  | S fuel' =>
    let qsz := u64 (Z.shiftl (u64 (Z.shiftl 1 shift * dwords)) 3) in
    match alloc qsz with
    | Some r => Some (shift, qsz, Some r)
    | None =>
      if qsz <? page_size then Some (shift, qsz, None)
      else init_one_queue_alloc fuel' alloc page_size (u32 (shift - 1)) dwords
    end
  end.

(** [arm_smmu_init_one_queue]: the result, the queue, the value assigned to
    [q->q_base] if one is, and the messages.  The register values
    [prod_reg] and [cons_reg] of the model belong to the hardware, which the
    function does not access. *)
Definition arm_smmu_init_one_queue (fuel : nat)
    (alloc : Z -> option (Z * list Z)) (page_size : Z)
    (qu : arm_smmu_queue) (dwords : Z)
    : option (Z * arm_smmu_queue * option Z * list queue_msg) :=
  match init_one_queue_alloc fuel alloc page_size (max_n_shift (llq qu))
          dwords with
  | None => None
  | Some (shift, qsz, None) =>
    Some (- ENOMEM,
          mk_queue (mk_llq (prod (llq qu)) (cons (llq qu)) shift) []
                   (ent_dwords qu) (prod_reg qu) (cons_reg qu) (batch qu),
          None, [Q_alloc_failed qsz])
  | Some (shift, qsz, Some (base_dma, mem)) =>
    let q_base :=
      Z.lor (Z.lor Q_BASE_RWA (Z.land base_dma Q_BASE_ADDR_MASK))
            (FIELD_PREP Q_BASE_LOG2SIZE shift) in
    Some (0,
          mk_queue (mk_llq 0 0 shift) mem dwords (prod_reg qu) (cons_reg qu) 0,
          Some q_base,
          if negb (Z.land base_dma (qsz - 1) =? 0) then [Q_misaligned]
          else [Q_allocated (Z.shiftl 1 shift)])
  end.

(** ** The PRI queue thread *)

Inductive irqreturn : Type := IRQ_NONE | IRQ_HANDLED.

(** What [arm_smmu_priq_thread] does in order: a call of
    [arm_smmu_handle_ppr] on the request [evt], with the commands the call
    issued, and the [dev_err] about an overflow. *)
Inductive priq_event : Type :=
| Priq_request (evt : list Z) (tr : list event)
| Priq_overflow.

Definition with_batch (qu : arm_smmu_queue) (b : Z) : arm_smmu_queue :=
  mk_queue (llq qu) (base qu) (ent_dwords qu) (prod_reg qu) (cons_reg qu) b.

(** The [while (!queue_remove_raw(q, evt))] loop of [arm_smmu_priq_thread].
    [queue_size] is the size_t the function computes on entry, [evt] its
    buffer, [num_handled] its counter; [q->batch] is a u64.  The wake-ups of
    the wait queue are left out. *)
Fixpoint priq_thread_inner (fuel : nat) (smmu : arm_smmu_device)
    (queue_size : Z) (qu : arm_smmu_queue) (evt : list Z) (num_handled : Z)
    : option (arm_smmu_queue * list Z * Z * list priq_event) :=
  match fuel with
  | O => None
  | S fuel' =>
    match queue_remove_raw qu evt with
    | (r, evt1, qu1) =>
      if negb (r =? 0) then Some (qu1, evt1, num_handled, [])
      else
        match arm_smmu_handle_ppr smmu (nth 0 evt1 0) (nth 1 evt1 0) [] with
        | None => None
        | Some (_, _, tr) =>
          let n1 := num_handled + 1 in
          let qu2 := if n1 =? queue_size
                     then with_batch qu1 (u64 (batch qu1 + 1)) else qu1 in
          let n2 := if n1 =? queue_size then 0 else n1 in
          match priq_thread_inner fuel' smmu queue_size qu2 evt1 n2 with
          | None => None
          | Some (qu3, evt3, n3, tr') =>
            Some (qu3, evt3, n3, Priq_request evt1 tr :: tr')
          end
        end
    end
  end.

(** The [do ... while (!queue_empty(llq))] loop around it. *)
Fixpoint priq_thread_loop (fuel fuel_in : nat) (smmu : arm_smmu_device)
    (queue_size : Z) (qu : arm_smmu_queue) (evt : list Z) (num_handled : Z)
    : option (arm_smmu_queue * list priq_event) :=
  match fuel with
  | O => None
  | S fuel' =>
    match priq_thread_inner fuel_in smmu queue_size qu evt num_handled with
    | None => None
    | Some (qu1, evt1, n1, tr1) =>
      match queue_sync_prod_in qu1 with
      | (r, qu2) =>
        let tr2 := if r =? - EOVERFLOW then [Priq_overflow] else [] in
        if negb (queue_empty (llq qu2)) then
          match priq_thread_loop fuel' fuel_in smmu queue_size qu2 evt1 n1 with
          | None => None
          | Some (qu3, tr3) => Some (qu3, tr1 ++ tr2 ++ tr3)
          end
        else Some (qu2, tr1 ++ tr2)
      end
    end
  end.

(** [arm_smmu_priq_thread] on the PRI queue [qu] of [smmu], while the
    hardware adds no request: [prod_reg] keeps its value.  [stack] is the
    content of the uninitialised buffer [evt]. *)
Definition arm_smmu_priq_thread (fuel fuel_in : nat) (smmu : arm_smmu_device)
    (qu : arm_smmu_queue) (stack : list Z)
    : option (irqreturn * arm_smmu_queue * list priq_event) :=
  let queue_size := Z.shiftl 1 (max_n_shift (llq qu)) in
  match priq_thread_loop fuel fuel_in smmu queue_size qu stack 0 with
  | None => None
  | Some (qu1, tr) =>
    let l := llq qu1 in
    let cons_ := Z.lor (Z.lor (Q_OVF (prod l)) (Q_WRP l (cons l)))
                       (Q_IDX l (cons l)) in
    let qu2 := queue_sync_cons_out
                 (with_llq qu1 (mk_llq (prod l) cons_ (max_n_shift l))) in
    Some (IRQ_HANDLED, with_batch qu2 (u64 (batch qu2 + 1)), tr)
  end.

(** The commands [arm_smmu_handle_ppr] issues for the request [evt]. *)
Definition ppr_commands (smmu : arm_smmu_device) (evt : list Z) : list event :=
  match arm_smmu_handle_ppr smmu (nth 0 evt 0) (nth 1 evt 0) [] with
  | Some (_, _, tr) => tr
  | None => []
  end.

(** The request in the slot [j] entries after the consumer index of [qu],
    as the thread handles it. *)
Definition priq_slot (smmu : arm_smmu_device) (qu : arm_smmu_queue) (j : nat)
    : priq_event :=
  let evt := queue_read (base qu) (Q_ENT qu (cons (llq qu) + Z.of_nat j))
                        (ent_dwords qu) in
  Priq_request evt (ppr_commands smmu evt).

(** ** Global errors *)

Definition GERROR_SFM_ERR : Z := Z.shiftl 1 8.
Definition GERROR_MSI_GERROR_ABT_ERR : Z := Z.shiftl 1 7.
Definition GERROR_MSI_PRIQ_ABT_ERR : Z := Z.shiftl 1 6.
Definition GERROR_MSI_EVTQ_ABT_ERR : Z := Z.shiftl 1 5.
Definition GERROR_MSI_CMDQ_ABT_ERR : Z := Z.shiftl 1 4.
Definition GERROR_PRIQ_ABT_ERR : Z := Z.shiftl 1 3.
Definition GERROR_EVTQ_ABT_ERR : Z := Z.shiftl 1 2.
Definition GERROR_CMDQ_ERR : Z := Z.shiftl 1 0.
Definition GERROR_ERR_MASK : Z := 0x1fd.

(** What [arm_smmu_gerror_handler] reports and calls, in order: its
    [dev_warn] and [dev_err] lines, the call of [arm_smmu_device_disable],
    and the messages of [arm_smmu_cmdq_skip_err]. *)
Inductive gerror_msg : Type :=
| G_unexpected (active : Z)
| G_service_failure
| G_device_disable
| G_msi_gerror_abt
| G_msi_priq_abt
| G_msi_evtq_abt
| G_msi_cmdq_abt
| G_priq_abt
| G_evtq_abt
| G_cmdq (m : log_msg).

(** [arm_smmu_gerror_handler] when the registers GERROR and GERRORN read
    [gerror] and [gerrorn]: the result, the SMMU, the value of GERRORN
    afterwards and the messages. *)
Definition arm_smmu_gerror_handler (smmu : arm_smmu_device)
    (gerror gerrorn : Z)
    : irqreturn * arm_smmu_device * Z * list gerror_msg :=
  let active := Z.lxor gerror gerrorn in
  if Z.land active GERROR_ERR_MASK =? 0 then (IRQ_NONE, smmu, gerrorn, [])
  else
    let on (f : Z) (l : list gerror_msg) :=
      if has_flag active f then l else [] in
    let skip := if has_flag active GERROR_CMDQ_ERR
                then arm_smmu_cmdq_skip_err smmu else (smmu, []) in
    (IRQ_HANDLED, fst skip, gerror,
     [G_unexpected active]
     ++ on GERROR_SFM_ERR [G_service_failure; G_device_disable]
     ++ on GERROR_MSI_GERROR_ABT_ERR [G_msi_gerror_abt]
     ++ on GERROR_MSI_PRIQ_ABT_ERR [G_msi_priq_abt]
     ++ on GERROR_MSI_EVTQ_ABT_ERR [G_msi_evtq_abt]
     ++ on GERROR_MSI_CMDQ_ABT_ERR [G_msi_cmdq_abt]
     ++ on GERROR_PRIQ_ABT_ERR [G_priq_abt]
     ++ on GERROR_EVTQ_ABT_ERR [G_evtq_abt]
     ++ map G_cmdq (snd skip)).

(** ** Stream table initialisation *)

Definition STRTAB_L1_SZ_SHIFT : Z := 20.
Definition STRTAB_BASE_RA : Z := Z.shiftl 1 62.
Definition STRTAB_BASE_ADDR_MASK : Z := GENMASK 51 6.
Definition STRTAB_BASE_CFG_FMT : Z := GENMASK 17 16.
Definition STRTAB_BASE_CFG_FMT_LINEAR : Z := 0.
Definition STRTAB_BASE_CFG_FMT_2LVL : Z := 1.
Definition STRTAB_BASE_CFG_SPLIT : Z := GENMASK 10 6.
Definition STRTAB_BASE_CFG_LOG2SIZE : Z := GENMASK 5 0.

(** The fields of [struct arm_smmu_strtab_cfg] that hold the bus address of
    the table and the values for the two stream table registers. *)
Record strtab_regs : Type := mk_strtab_regs {
  strtab_dma : Z;
  strtab_base : Z;
  strtab_base_cfg : Z
}.

(** Messages of the stream table initialisation: the [dev_warn] of
    [arm_smmu_init_strtab_2lvl] with its two numbers and the three [dev_err]
    lines, the two of the table allocations with the number they print. *)
Inductive strtab_msg : Type :=
| Strtab_partial (size sid_bits : Z)
| Strtab_l1_failed (printed : Z)
| Strtab_desc_failed
| Strtab_linear_failed (printed : Z).

(** Modelled from the spec: [set_bit(nr, map)] of the bitmap library, not
    among the sources, on a bitmap of [BITS_PER_LONG]-bit words. *)
Definition set_bit (nr : Z) (map : list Z) : list Z :=
  store map (BIT_WORD nr)
        (Z.lor (load map (BIT_WORD nr)) (Z.shiftl 1 (nr mod BITS_PER_LONG))).

(** [arm_smmu_init_l1_strtab]; [alloc_desc] tells whether [devm_kzalloc]
    gives the descriptor array.  The loop writes descriptor [i] to dword
    [i * STRTAB_L1_DESC_DWORDS] of the table. *)
Definition arm_smmu_init_l1_strtab (smmu : arm_smmu_device) (alloc_desc : bool)
    : Z * arm_smmu_device * list strtab_msg :=
  let cfg := strtab_cfg smmu in
  if negb alloc_desc then
    (- ENOMEM,
     with_strtab_cfg smmu (mk_strtab_cfg (strtab cfg) [] (num_l1_ents cfg)),
     [Strtab_desc_failed])
  else
    let zero := mk_l1_desc 0 None 0 in
    let descs := repeat zero (Z.to_nat (num_l1_ents cfg)) in
    let mem :=
      fold_left
        (fun m i => store m (Z.of_nat i * STRTAB_L1_DESC_DWORDS)
                      (arm_smmu_write_strtab_l1_desc (nth i descs zero)))
        (seq 0 (Z.to_nat (num_l1_ents cfg))) (strtab cfg) in
    (0, with_strtab_cfg smmu (mk_strtab_cfg mem descs (num_l1_ents cfg)), []).

(** *** Bypass devices *)

(** What the bypass code reads of a [struct pci_dev]: vendor and device ID,
    and the requester ID [PCI_DEVID(pdev->bus->number, pdev->devfn)]. *)
Record pci_dev : Type := mk_pci_dev {
  pci_vendor : Z;
  pci_device : Z;
  pci_devid : Z
}.

(** What the build and the boot command line fix for the bypass code:
    [CONFIG_SMMU_BYPASS_DEV], the first [smmu_bypass_devices_num] entries of
    [smmu_bypass_devices] as pairs of vendor and device ID, and the devices
    on the PCI bus in the order [bus_for_each_dev] visits them, each with
    what [dmam_alloc_coherent] gives the call of [arm_smmu_init_l2_strtab]
    made for it. *)
Record bypass_dev_cfg : Type := mk_bypass_dev_cfg {
  CONFIG_SMMU_BYPASS_DEV : bool;
  smmu_bypass_devices : list (Z * Z);
  pci_bus_devices : list (pci_dev * option Z)
}.

(** [arm_smmu_device_domain_type]: 0, with the identity type stored in
    [*type], for a PCI device among the bypass devices, and [-ERANGE] for
    any other device; [None] is a device that is not a PCI device. *)
Definition arm_smmu_device_domain_type (devs : list (Z * Z))
    (dev : option pci_dev) : Z :=
  match dev with
  | None => - ERANGE
  | Some pdev =>
    if existsb (fun b => (fst b =? pci_vendor pdev)
                         && (snd b =? pci_device pdev)) devs
    then 0 else - ERANGE
  end.

(** Whether the pointer [arm_smmu_get_step_for_sid] computes is NULL: the
    first entry behind a NULL [l2ptr]. *)
Definition step_is_null (smmu : arm_smmu_device) (step : ste_ptr) : bool :=
  match step with
  | Step_linear _ => false
  | Step_l2 idx off =>
    match nth_error (l1_desc (strtab_cfg smmu)) (Z.to_nat idx) with
    | Some desc =>
      match l2ptr desc with
      | None => off =? 0
      | Some _ => false
      end
    | None => false
    end
  end.

(** [arm_smmu_install_bypass_ste_for_dev]: three plain stores to the entry
    of [sid]. *)
Definition arm_smmu_install_bypass_ste_for_dev (smmu : arm_smmu_device)
    (sid : Z) : option (arm_smmu_device * list event) :=
  let step := arm_smmu_get_step_for_sid smmu sid in
  if step_is_null smmu step then Some (smmu, [])
  else
    ste_at smmu step
      (let val := Z.lor STRTAB_STE_0_V
                    (FIELD_PREP STRTAB_STE_0_CFG STRTAB_STE_0_CFG_BYPASS) in
       wr 0 val ;;;
       wr 1 (FIELD_PREP STRTAB_STE_1_SHCFG STRTAB_STE_1_SHCFG_INCOMING) ;;;
       wr 2 0)%ste.

(** [arm_smmu_prepare_init_l2_strtab] for the PCI device [dev]; [alloc] is
    what [dmam_alloc_coherent] gives [arm_smmu_init_l2_strtab].  The stream
    ID is a u32. *)
Definition arm_smmu_prepare_init_l2_strtab (kc : kconfig)
    (bd : bypass_dev_cfg) (smmu : arm_smmu_device) (dev : pci_dev)
    (alloc : option Z) : option (Z * arm_smmu_device * list event) :=
  if negb (arm_smmu_device_domain_type (smmu_bypass_devices bd) (Some dev)
           =? 0)
  then Some (0, smmu, [])
  else
    let sid := u32 (pci_devid dev) in
    if negb (arm_smmu_sid_in_range smmu sid) then Some (- ERANGE, smmu, [])
    else
      match arm_smmu_init_l2_strtab kc smmu sid alloc with
      | None => None
      | Some (ret, smmu1, tr1) =>
        if negb (ret =? 0) then Some (ret, smmu1, tr1)
        else
          match arm_smmu_install_bypass_ste_for_dev smmu1 sid with
          | None => None
          | Some (smmu2, tr2) => Some (0, smmu2, tr1 ++ tr2)
          end
      end.

(** Modelled from the spec: [bus_for_each_dev] of the driver core, not among
    the sources, with [arm_smmu_prepare_init_l2_strtab] as its callback: the
    devices in turn up to the first call that does not return 0, whose
    result is the result. *)
Fixpoint bus_for_each_dev (kc : kconfig) (bd : bypass_dev_cfg)
    (smmu : arm_smmu_device) (devs : list (pci_dev * option Z))
    : option (Z * arm_smmu_device * list event) :=
  match devs with
  | [] => Some (0, smmu, [])
  | (dev, alloc) :: tl =>
    match arm_smmu_prepare_init_l2_strtab kc bd smmu dev alloc with
    | None => None
    | Some (ret, smmu1, tr1) =>
      if negb (ret =? 0) then Some (ret, smmu1, tr1)
      else
        match bus_for_each_dev kc bd smmu1 tl with
        | None => None
        | Some (r, smmu2, tr2) => Some (r, smmu2, tr1 ++ tr2)
        end
    end
  end.

(** [arm_smmu_init_strtab_2lvl] for an SMMU with [sid_bits] stream ID bits,
    with both branches of [CONFIG_SMMU_BYPASS_DEV].  [alloc] is what
    [dmam_alloc_coherent] gives for the first level: [None] for NULL, else
    the DMA address of a zeroed table.  [size] and [l1size] are u32.  The
    stores and allocations of the calls for bypass devices are left out of
    the result; a [BUG()] or a NULL dereference in them is [None]. *)
Definition arm_smmu_init_strtab_2lvl (kc : kconfig) (bd : bypass_dev_cfg)
    (smmu : arm_smmu_device) (regs : strtab_regs) (sid_bits : Z)
    (alloc : option Z) (alloc_desc : bool)
    : option (Z * arm_smmu_device * strtab_regs * list strtab_msg) :=
  let cfg := strtab_cfg smmu in
  let size := u32 (STRTAB_L1_SZ_SHIFT - (Z.log2 STRTAB_L1_DESC_DWORDS + 3)) in
  let size := Z.min size (u32 (sid_bits - STRTAB_SPLIT)) in
  let n := Z.shiftl 1 size in
  let size := u32 (size + STRTAB_SPLIT) in
  let warn := if size <? sid_bits then [Strtab_partial size sid_bits] else [] in
  let l1size := u32 (n * Z.shiftl STRTAB_L1_DESC_DWORDS 3) in
  match alloc with
  | None =>
    Some (- ENOMEM,
          with_strtab_cfg smmu (mk_strtab_cfg (strtab cfg) (l1_desc cfg) n),
          regs, warn ++ [Strtab_l1_failed size])
  | Some dma =>
    let reg :=
      Z.lor (Z.lor (FIELD_PREP STRTAB_BASE_CFG_FMT STRTAB_BASE_CFG_FMT_2LVL)
                   (FIELD_PREP STRTAB_BASE_CFG_LOG2SIZE size))
            (FIELD_PREP STRTAB_BASE_CFG_SPLIT STRTAB_SPLIT) in
    let smmu1 :=
      with_strtab_cfg smmu
        (mk_strtab_cfg (repeat 0 (Z.to_nat (l1size / 8))) (l1_desc cfg) n) in
    let regs1 := mk_strtab_regs dma (strtab_base regs) reg in
    match arm_smmu_init_l1_strtab smmu1 alloc_desc with
    | (ret, smmu2, log) =>
      if CONFIG_SMMU_BYPASS_DEV bd then
        if negb (ret =? 0) then Some (ret, smmu2, regs1, warn ++ log)
        else if negb (Z.of_nat (length (smmu_bypass_devices bd)) =? 0) then
          match bus_for_each_dev kc bd smmu2 (pci_bus_devices bd) with
          | None => None
          | Some (r, smmu3, _) => Some (r, smmu3, regs1, warn ++ log)
          end
        else Some (ret, smmu2, regs1, warn ++ log)
      else Some (ret, smmu2, regs1, warn ++ log)
    end
  end.

(** [arm_smmu_init_strtab_linear]; [size] is a u32 that takes a product of
    ints.  A live entry in the fresh table would be a [BUG()] of
    [arm_smmu_write_strtab_ent] ([None]). *)
Definition arm_smmu_init_strtab_linear (kc : kconfig) (smmu : arm_smmu_device)
    (regs : strtab_regs) (sid_bits : Z) (alloc : option Z)
    : option (Z * arm_smmu_device * strtab_regs * list strtab_msg) :=
  let cfg := strtab_cfg smmu in
  let size := u32 (Z.shiftl 1 sid_bits * Z.shiftl STRTAB_STE_DWORDS 3) in
  match alloc with
  | None => Some (- ENOMEM, smmu, regs, [Strtab_linear_failed size])
  | Some dma =>
    let n := Z.shiftl 1 sid_bits in
    let reg :=
      Z.lor (FIELD_PREP STRTAB_BASE_CFG_FMT STRTAB_BASE_CFG_FMT_LINEAR)
            (FIELD_PREP STRTAB_BASE_CFG_LOG2SIZE sid_bits) in
    match arm_smmu_init_bypass_stes kc (repeat 0 (Z.to_nat (size / 8))) n with
    | None => None
    | Some (mem, _) =>
      Some (0, with_strtab_cfg smmu (mk_strtab_cfg mem (l1_desc cfg) n),
            mk_strtab_regs dma (strtab_base regs) reg, [])
    end
  end.

(** [arm_smmu_init_strtab]: the result, the SMMU, the register values, the
    VMID bitmap [smmu->vmid_map] and the messages. *)
Definition arm_smmu_init_strtab (kc : kconfig) (bd : bypass_dev_cfg)
    (smmu : arm_smmu_device) (regs : strtab_regs) (vmid_map : list Z)
    (sid_bits : Z) (alloc : option Z) (alloc_desc : bool)
    : option (Z * arm_smmu_device * strtab_regs * list Z * list strtab_msg) :=
  match
    (if has_flag (features smmu) ARM_SMMU_FEAT_2_LVL_STRTAB
     then arm_smmu_init_strtab_2lvl kc bd smmu regs sid_bits alloc alloc_desc
     else arm_smmu_init_strtab_linear kc smmu regs sid_bits alloc)
  with
  | None => None
  | Some (ret, smmu1, regs1, log) =>
    if negb (ret =? 0) then Some (ret, smmu1, regs1, vmid_map, log)
    else
      let reg := Z.lor (Z.land (strtab_dma regs1) STRTAB_BASE_ADDR_MASK)
                       STRTAB_BASE_RA in
      Some (0, smmu1,
            mk_strtab_regs (strtab_dma regs1) reg (strtab_base_cfg regs1),
            set_bit 0 vmid_map, log)
  end.

(** ** VMID allocation *)

(** Modelled from the spec: a further error result, numbered as in the
    kernel's errno headers, which are not among the sources. *)
Definition ENOSPC : Z := 28.

(** Modelled from the spec: [test_bit], [clear_bit], and
    [find_first_zero_bit] of the bitmap library, not among the sources, on a
    bitmap of [BITS_PER_LONG]-bit words.  [find_first_zero_bit(map, size)]
    is the first clear bit below [size], or [size] when there is none. *)
Definition test_bit (nr : Z) (map : list Z) : bool :=
  Z.testbit (load map (BIT_WORD nr)) (nr mod BITS_PER_LONG).

Definition clear_bit (nr : Z) (map : list Z) : list Z :=
  store map (BIT_WORD nr)
        (Z.land (load map (BIT_WORD nr))
                (Z.lnot (Z.shiftl 1 (nr mod BITS_PER_LONG)))).

Fixpoint find_zero_from (map : list Z) (i : Z) (n : nat) : Z :=
  match n with
  | O => i
  | S n' => if test_bit i map then find_zero_from map (i + 1) n' else i
  end.

Definition find_first_zero_bit (map : list Z) (size : Z) : Z :=
  find_zero_from map 0 (Z.to_nat size).

(** The [do ... while (test_and_set_bit(idx, map))] loop of
    [arm_smmu_bitmap_alloc]: the result and the bitmap. *)
Fixpoint bitmap_alloc_loop (fuel : nat) (map : list Z) (size : Z)
    : option (Z * list Z) :=
  match fuel with
  | O => None
  | S fuel' =>
    let idx := find_first_zero_bit map size in
    if idx =? size then Some (- ENOSPC, map)
    else if test_bit idx map then bitmap_alloc_loop fuel' (set_bit idx map) size
    else Some (idx, set_bit idx map)
  end.

Definition arm_smmu_bitmap_alloc (fuel : nat) (map : list Z) (span : Z)
    : option (Z * list Z) :=
  bitmap_alloc_loop fuel map (Z.shiftl 1 span).

Definition arm_smmu_bitmap_free (map : list Z) (idx : Z) : list Z :=
  clear_bit idx map.

(** [arm_smmu_domain_finalise_s2]: the result, the stage-2 configuration of
    the domain and the VMID bitmap of the SMMU.  [vttbr_] and [vtcr_] are
    the values in [pgtbl_cfg]; the VMID is stored as a u16. *)
Definition arm_smmu_domain_finalise_s2 (fuel : nat) (vmid_map : list Z)
    (vmid_bits : Z) (cfg : arm_smmu_s2_cfg) (vttbr_ vtcr_ : Z)
    : option (Z * arm_smmu_s2_cfg * list Z) :=
  match arm_smmu_bitmap_alloc fuel vmid_map vmid_bits with
  | None => None
  | Some (vmid_, map1) =>
    if vmid_ <? 0 then Some (vmid_, cfg, map1)
    else Some (0, mk_s2_cfg (vmid_ mod 2 ^ 16) vttbr_ vtcr_, map1)
  end.

(** The VMID bitmap after [arm_smmu_domain_free] on a domain that is not of
    stage 1 and has the stage-2 configuration [cfg]. *)
Definition arm_smmu_domain_free (vmid_map : list Z) (cfg : arm_smmu_s2_cfg)
    : list Z :=
  if negb (vmid cfg =? 0) then arm_smmu_bitmap_free vmid_map (vmid cfg)
  else vmid_map.

(** ** Inserting commands, on one CPU *)

(** Modelled from the spec: a further error result, numbered as in the
    kernel's errno headers, which are not among the sources. *)
Definition ETIMEDOUT : Z := 110.

(** [arm_smmu_cmdq_poll_until_not_full] on one CPU: the result, the command
    queue and the caller's copy [llq].  With the lock free the exclusive
    trylock succeeds, the shadow consumer index is read from the register,
    the lock is released and [llq] is read again.  With the lock held the
    function reads [llq] and returns 0 if the queue is not full; a full
    queue stays full while nothing else runs, so that [queue_poll] ends the
    loop with [-ETIMEDOUT]. *)
Definition arm_smmu_cmdq_poll_until_not_full (c : arm_smmu_cmdq)
    : Z * arm_smmu_cmdq * arm_smmu_ll_queue :=
  if lock c =? 0 then
    let l := mk_llq (prod (llq (q c))) (cons_reg (q c))
                    (max_n_shift (llq (q c))) in
    (0, with_q c (with_llq (q c) l), l)
  else if negb (queue_full (llq (q c))) then (0, c, llq (q c))
  else (- ETIMEDOUT, c, llq (q c)).

(** The [while (!queue_has_space(&llq, n + sync))] loop of
    [arm_smmu_cmdq_issue_cmdlist]: the command queue and the caller's copy
    [llq] when space has been found.  The rate-limited message about a
    timeout is left out. *)
Fixpoint cmdlist_wait_space (fuel : nat) (c : arm_smmu_cmdq)
    (llq_ : arm_smmu_ll_queue) (n : Z)
    : option (arm_smmu_cmdq * arm_smmu_ll_queue) :=
  match fuel with
  | O => None
  | S fuel' =>
    if queue_has_space llq_ n then Some (c, llq_)
    else
      match arm_smmu_cmdq_poll_until_not_full c with
      | (_, c', l') => cmdlist_wait_space fuel' c' l' n
      end
  end.

(** [arm_smmu_cmdq_issue_cmdlist] with [sync] false, run on one CPU while
    nothing else uses the command queue, so that the [cmpxchg] of step 1
    succeeds at once.  Steps 1 to 4 as the function numbers them; a wait
    that only another CPU or the hardware could end is [None].
    [~CMDQ_PROD_OWNED_FLAG] is taken on a u32. *)
Definition arm_smmu_cmdq_issue_cmdlist (fuel : nat) (smmu : arm_smmu_device)
    (cmds : list Z) (n : Z) : option (Z * arm_smmu_device) :=
  let c := cmdq smmu in
  let unowned := u32 (Z.lnot CMDQ_PROD_OWNED_FLAG) in
  match cmdlist_wait_space fuel c (llq (q c)) n with
  | None => None
  | Some (c1, llq1) =>
    let shift := max_n_shift llq1 in
    let head_prod := Z.lor (queue_inc_prod_n llq1 n) CMDQ_PROD_OWNED_FLAG in
    let c2 := with_q c1 (with_llq (q c1) (mk_llq head_prod (cons llq1) shift)) in
    let owner := Z.land (prod llq1) CMDQ_PROD_OWNED_FLAG =? 0 in
    let head_prod := Z.land head_prod unowned in
    let llq_prod := Z.land (prod llq1) unowned in
    let c3 := arm_smmu_cmdq_write_entries c2 cmds llq_prod n in
    match arm_smmu_cmdq_set_valid_map fuel c3 llq_prod head_prod with
    | Some (Completed vm) =>
      let c4 := with_valid_map c3 vm in
      if owner then
        if owner_prod c4 =? llq_prod then
          let prod_ := Z.land (prod (llq (q c4))) unowned in
          let c5 := with_q c4 (with_llq (q c4)
                      (mk_llq prod_ (cons (llq (q c4))) shift)) in
          match arm_smmu_cmdq_poll_valid_map fuel c5 llq_prod prod_ with
          | Some (Completed _) =>
            let q6 := mk_queue (llq (q c5)) (base (q c5)) (ent_dwords (q c5))
                               prod_ (cons_reg (q c5)) (batch (q c5)) in
            Some (0, with_cmdq smmu
                       (mk_cmdq q6 (valid_map c5) prod_ (lock c5)))
          | _ => None
          end
        else None
      else Some (0, with_cmdq smmu c4)
    | _ => None
    end
  end.

(** Every slot of the queue is invalid for the producer index that reaches
    it next, counting from the producer index [p]. *)
Definition slots_invalid_from (shift : Z) (vm : list Z) (p : Z) : Prop :=
  forall j, 0 <= j < capacity shift ->
    valid_bit vm (position shift (p + j)) = negb (valid_pattern shift (p + j)).

(** A run of successive calls of [arm_smmu_cmdq_issue_cmdlist] on one CPU,
    one call for each list of commands with its count: the results of the
    calls in order and the SMMU after the last. *)
Fixpoint issue_cmdlists (fuel : nat) (smmu : arm_smmu_device)
    (batches : list (list Z * Z)) : option (list Z * arm_smmu_device) :=
  match batches with
  | [] => Some ([], smmu)
  | (cmds, n) :: tl =>
    match arm_smmu_cmdq_issue_cmdlist fuel smmu cmds n with
    | None => None
    | Some (r, smmu1) =>
      match issue_cmdlists fuel smmu1 tl with
      | None => None
      | Some (rs, smmu2) => Some (r :: rs, smmu2)
      end
    end
  end.

(** The number of commands in a run. *)
Definition batch_total (batches : list (list Z * Z)) : Z :=
  fold_right (fun b acc => snd b + acc) 0 batches.

(** The trace [tr] is [k] command lists of one invalidation command each,
    without CMD_SYNC; command [i] has opcode [op], the ASID field [asid_],
    the VMID field [vmid_], the leaf flag [leaf] and, under [mask], the
    address bits of [iova + i * granule]. *)
Definition tlbi_commands (tr : list event) (k : nat) (op asid_ vmid_ : Z)
    (leaf : bool) (mask iova granule : Z) : Prop :=
  exists cmds : list (Z * Z),
    tr = map (fun c => EvCmdlist [c] false) cmds /\
    length cmds = k /\
    forall i, (i < k)%nat ->
      FIELD_GET CMDQ_0_OP (fst (nth i cmds (0, 0))) = op /\
      FIELD_GET CMDQ_TLBI_0_ASID (fst (nth i cmds (0, 0))) = asid_ /\
      FIELD_GET CMDQ_TLBI_0_VMID (fst (nth i cmds (0, 0))) = vmid_ /\
      FIELD_GET CMDQ_TLBI_1_LEAF (snd (nth i cmds (0, 0))) = Z.b2z leaf /\
      Z.land (snd (nth i cmds (0, 0))) mask
      = Z.land (iova + Z.of_nat i * granule) mask.

(** A build with [CONFIG_SMMU_BYPASS_DEV], one bypass device on the command
    line and two PCI devices on the bus, neither of them that device. *)
Definition sample_bypass_cfg : bypass_dev_cfg :=
  mk_bypass_dev_cfg true [(6629, 4660)]
    [(mk_pci_dev 32902 5 256, Some 65536); (mk_pci_dev 6629 7 264, None)].

(** * Properties *)

(** ** Machine arithmetic *)

Lemma shiftl_1_pow2 s : 0 <= s -> Z.shiftl 1 s = 2 ^ s.
Proof. intros Hs. rewrite Z.shiftl_mul_pow2 by assumption. lia. Qed.

Lemma pow2_pos s : 0 <= s -> 0 < 2 ^ s.
Proof. intros. apply Z.pow_pos_nonneg; lia. Qed.

Lemma Q_IDX_mod q_ p :
  0 <= max_n_shift q_ -> Q_IDX q_ p = p mod 2 ^ max_n_shift q_.
Proof.
  intros Hs. unfold Q_IDX. rewrite shiftl_1_pow2 by assumption.
  replace (2 ^ max_n_shift q_ - 1) with (Z.ones (max_n_shift q_))
    by (rewrite Z.ones_equiv; lia).
  apply Z.land_ones; assumption.
Qed.

Lemma land_pow2_testbit p s :
  0 <= s -> Z.land p (2 ^ s) = if Z.testbit p s then 2 ^ s else 0.
Proof.
  intros Hs. apply Z.bits_inj'. intros i Hi.
  rewrite Z.land_spec.
  destruct (Z.eq_dec s i) as [->|Hne].
  - rewrite Z.pow2_bits_true by assumption.
    rewrite Bool.andb_true_r.
    destruct (Z.testbit p i) eqn:E.
    + rewrite Z.pow2_bits_true by assumption. reflexivity.
    + rewrite Z.bits_0. reflexivity.
  - rewrite Z.pow2_bits_false by lia. rewrite Bool.andb_false_r.
    destruct (Z.testbit p s).
    + rewrite Z.pow2_bits_false by lia. reflexivity.
    + rewrite Z.bits_0. reflexivity.
Qed.

Lemma Q_WRP_testbit q_ p :
  0 <= max_n_shift q_ ->
  Q_WRP q_ p = if Z.testbit p (max_n_shift q_) then 2 ^ max_n_shift q_ else 0.
Proof.
  intros Hs. unfold Q_WRP. rewrite shiftl_1_pow2 by assumption.
  apply land_pow2_testbit; assumption.
Qed.

Lemma testbit_div_mod p s :
  0 <= s -> Z.b2z (Z.testbit p s) = (p / 2 ^ s) mod 2.
Proof. intros Hs. apply Z.testbit_spec'. assumption. Qed.

(** Splitting an index below [2 ^ (s + 1)] into wrap bit and position. *)
Lemma mod_pow2_succ p s :
  0 <= s ->
  p mod 2 ^ (s + 1) = 2 ^ s * ((p / 2 ^ s) mod 2) + p mod 2 ^ s.
Proof.
  intros Hs. rewrite Z.pow_add_r by lia. change (2 ^ 1) with 2.
  pose proof (pow2_pos s Hs).
  rewrite Z.rem_mul_r by lia. lia.
Qed.

Lemma Q_WRP_IDX_lor q_ p :
  0 <= max_n_shift q_ ->
  Z.lor (Q_WRP q_ p) (Q_IDX q_ p) = p mod 2 ^ (max_n_shift q_ + 1).
Proof.
  intros Hs. unfold Q_WRP, Q_IDX. rewrite shiftl_1_pow2 by assumption.
  rewrite <- Z.land_lor_distr_r.
  replace (Z.lor (2 ^ max_n_shift q_) (2 ^ max_n_shift q_ - 1))
    with (Z.ones (max_n_shift q_ + 1)).
  - apply Z.land_ones. lia.
  - apply Z.bits_inj'. intros i Hi.
    rewrite Z.lor_spec.
    replace (2 ^ max_n_shift q_ - 1) with (Z.ones (max_n_shift q_))
      by (rewrite Z.ones_equiv; lia).
    destruct (Z.lt_ge_cases i (max_n_shift q_ + 1)).
    + rewrite Z.ones_spec_low by lia.
      destruct (Z.eq_dec i (max_n_shift q_)) as [->|].
      * rewrite Z.pow2_bits_true by lia. reflexivity.
      * rewrite Z.ones_spec_low by lia. rewrite Bool.orb_true_r. reflexivity.
    + rewrite Z.ones_spec_high by lia.
      rewrite Z.pow2_bits_false by lia.
      rewrite Z.ones_spec_high by lia. reflexivity.
Qed.

Lemma pow2_succ_le_32 s : 0 <= s < 31 -> exists k, 0 < k /\ 2 ^ 32 = k * 2 ^ (s + 1).
Proof.
  intros Hs. exists (2 ^ (31 - s)). split.
  - apply pow2_pos. lia.
  - rewrite <- Z.pow_add_r by lia. f_equal. lia.
Qed.

Lemma u32_mod_pow2 x s :
  0 <= s < 31 -> u32 x mod 2 ^ (s + 1) = x mod 2 ^ (s + 1).
Proof.
  intros Hs. unfold u32.
  destruct (pow2_succ_le_32 s Hs) as (k & Hk & ->).
  apply Z.mod_mod_divide. exists k. reflexivity.
Qed.

Lemma Q_OVF_testbit p :
  Q_OVF p = if Z.testbit p 31 then 2 ^ 31 else 0.
Proof.
  unfold Q_OVF, Q_OVERFLOW_FLAG. rewrite shiftl_1_pow2 by lia.
  apply land_pow2_testbit. lia.
Qed.

Lemma testbit_small x n i :
  0 <= x < 2 ^ n -> n <= i -> Z.testbit x i = false.
Proof.
  intros Hx Hi.
  destruct (Z.eq_dec x 0) as [->|]; [apply Z.bits_0|].
  apply Z.bits_above_log2; [lia|].
  assert (Z.log2 x < n); [|lia].
  apply Z.log2_lt_pow2; lia.
Qed.

(** The index an increment returns: the overflow flag of the old index over
    the advanced wrap bit and position. *)
Lemma queue_inc_prod_n_lor q_ n :
  0 <= max_n_shift q_ < 31 ->
  queue_inc_prod_n q_ n =
  Z.lor (Q_OVF (prod q_)) ((prod q_ + n) mod 2 ^ (max_n_shift q_ + 1)).
Proof.
  intros Hs. unfold queue_inc_prod_n.
  rewrite <- Z.lor_assoc. f_equal.
  rewrite !Q_WRP_IDX_lor by lia.
  rewrite u32_mod_pow2 by assumption.
  pose proof (pow2_pos (max_n_shift q_ + 1) ltac:(lia)).
  rewrite Z.add_mod_idemp_l by lia. reflexivity.
Qed.

Lemma lor_ovf_low p x s :
  0 <= s < 31 -> 0 <= x < 2 ^ (s + 1) ->
  Q_OVF (Z.lor (Q_OVF p) x) = Q_OVF p /\
  Z.lor (Q_OVF p) x mod 2 ^ (s + 1) = x /\
  0 <= Z.lor (Q_OVF p) x < 2 ^ 32.
Proof.
  intros Hs Hx.
  assert (Hx31 : 0 <= x < 2 ^ 31).
  { split; [lia|]. apply Z.lt_le_trans with (2 ^ (s + 1)); [lia|].
    apply Z.pow_le_mono_r; lia. }
  assert (Hbit : forall i, 31 <= i -> Z.testbit x i = false).
  { intros i Hi. apply (testbit_small x 31); assumption. }
  split; [|split].
  - rewrite (Q_OVF_testbit (Z.lor _ _)), Z.lor_spec, Hbit by lia.
    rewrite Bool.orb_false_r.
    rewrite (Q_OVF_testbit p).
    destruct (Z.testbit p 31) eqn:E.
    + rewrite Z.pow2_bits_true by lia. reflexivity.
    + rewrite Z.bits_0. reflexivity.
  - rewrite <- Z.land_ones by lia.
    rewrite Z.land_lor_distr_l.
    rewrite (Z.land_ones x) by lia. rewrite (Z.mod_small x) by lia.
    replace (Z.land (Q_OVF p) (Z.ones (s + 1))) with 0; [reflexivity|].
    rewrite Z.land_ones by lia. rewrite Q_OVF_testbit.
    destruct (Z.testbit p 31); [|reflexivity].
    replace 31 with ((31 - (s + 1)) + (s + 1)) by lia.
    rewrite Z.pow_add_r by lia. symmetry. apply Z.mod_mul.
    pose proof (pow2_pos (s + 1)); lia.
  - rewrite Q_OVF_testbit. destruct (Z.testbit p 31).
    + replace (Z.lor (2 ^ 31) x) with (2 ^ 31 + x); [lia|].
      rewrite <- Z.lxor_lor.
      * apply Z.add_nocarry_lxor.
        rewrite Z.land_comm, land_pow2_testbit, Hbit by lia. reflexivity.
      * rewrite Z.land_comm, land_pow2_testbit, Hbit by lia. reflexivity.
    + rewrite Z.lor_0_l. lia.
Qed.

(** ** Index increments keep the overflow flag *)

Lemma two_capacity s : 0 <= s -> 2 * capacity s = 2 ^ (s + 1).
Proof. intros. unfold capacity. rewrite Z.pow_add_r by lia. lia. Qed.

(** C10.  For a queue of at most 2^30 entries, [queue_inc_prod_n] and
    [queue_inc_cons] return an index with the overflow flag [Q_OVF] of the
    index they started from, which is the bit the command queue uses as
    [CMDQ_PROD_OWNED_FLAG], and with wrap bit and position advanced by [n]
    (by one for the consumer) modulo twice the capacity; the result is again
    a 32-bit value, and [queue_inc_cons] leaves the producer index alone. *)
Theorem queue_inc_preserves_overflow_flag (q_ : arm_smmu_ll_queue) (n : Z) :
  0 <= max_n_shift q_ < 31 ->
  CMDQ_PROD_OWNED_FLAG = Q_OVERFLOW_FLAG /\
  Q_OVF (queue_inc_prod_n q_ n) = Q_OVF (prod q_) /\
  queue_inc_prod_n q_ n mod (2 * capacity (max_n_shift q_)) =
    (prod q_ + n) mod (2 * capacity (max_n_shift q_)) /\
  0 <= queue_inc_prod_n q_ n < 2 ^ 32 /\
  Q_OVF (cons (queue_inc_cons q_)) = Q_OVF (cons q_) /\
  cons (queue_inc_cons q_) mod (2 * capacity (max_n_shift q_)) =
    (cons q_ + 1) mod (2 * capacity (max_n_shift q_)) /\
  0 <= cons (queue_inc_cons q_) < 2 ^ 32 /\
  prod (queue_inc_cons q_) = prod q_ /\
  max_n_shift (queue_inc_cons q_) = max_n_shift q_.
Proof.
  intros Hs.
  rewrite two_capacity by lia.
  pose proof (pow2_pos (max_n_shift q_ + 1) ltac:(lia)) as Hpos.
  assert (Hc : cons (queue_inc_cons q_) =
               queue_inc_prod_n (mk_llq (cons q_) (cons q_) (max_n_shift q_)) 1)
    by reflexivity.
  split; [reflexivity|].
  rewrite Hc, !queue_inc_prod_n_lor by (simpl; lia). simpl.
  destruct (lor_ovf_low (prod q_)
              ((prod q_ + n) mod 2 ^ (max_n_shift q_ + 1))
              (max_n_shift q_) Hs) as (A1 & A2 & A3).
  { apply Z.mod_pos_bound; lia. }
  destruct (lor_ovf_low (cons q_)
              ((cons q_ + 1) mod 2 ^ (max_n_shift q_ + 1))
              (max_n_shift q_) Hs) as (B1 & B2 & B3).
  { apply Z.mod_pos_bound; lia. }
  rewrite A1, A2, B1, B2.
  repeat split; try reflexivity; lia.
Qed.

Lemma queue_inc_preserves_overflow_flag_witness :
  0 <= 2 < 31 /\
  Q_OVF (queue_inc_prod_n (mk_llq (2 ^ 31 + 7) 5 2) 3) = 2 ^ 31 /\
  queue_inc_prod_n (mk_llq (2 ^ 31 + 7) 5 2) 3 mod 8 = 2.
Proof.
  split; [lia|].
  pose proof (queue_inc_preserves_overflow_flag (mk_llq (2 ^ 31 + 7) 5 2) 3
                ltac:(simpl; lia)) as (_ & H1 & H2 & _).
  split.
  - rewrite H1. reflexivity.
  - exact H2.
Defined.

(** ** Space, full and empty *)

Lemma mod_near x m :
  0 < m -> - m <= x < m -> x mod m = if x <? 0 then x + m else x.
Proof.
  intros Hm Hx. destruct (Z.ltb_spec x 0).
  - rewrite <- (Z.mod_add x 1 m) by lia. rewrite Z.mul_1_l.
    apply Z.mod_small. lia.
  - apply Z.mod_small. lia.
Qed.

Lemma wrap_bit_testbit s p : 0 <= s -> wrap_bit s p = Z.b2z (Z.testbit p s).
Proof. intros Hs. unfold wrap_bit, capacity. symmetry. apply testbit_div_mod; lia. Qed.

Lemma Q_WRP_eqb q_ a b :
  0 <= max_n_shift q_ ->
  (Q_WRP q_ a =? Q_WRP q_ b) =
  (wrap_bit (max_n_shift q_) a =? wrap_bit (max_n_shift q_) b).
Proof.
  intros Hs. rewrite !Q_WRP_testbit, !wrap_bit_testbit by assumption.
  pose proof (pow2_pos _ Hs).
  destruct (Z.testbit a _), (Z.testbit b _); unfold Z.b2z;
    match goal with
    | |- (?x =? ?y) = (?u =? ?v) =>
      destruct (Z.eqb_spec x y), (Z.eqb_spec u v); try reflexivity; lia
    end.
Qed.

Lemma Q_IDX_position q_ p :
  0 <= max_n_shift q_ -> Q_IDX q_ p = position (max_n_shift q_) p.
Proof. intros. unfold position, capacity. apply Q_IDX_mod; assumption. Qed.

Lemma position_bound s p : 0 <= s -> 0 <= position s p < capacity s.
Proof. intros. apply Z.mod_pos_bound. apply pow2_pos; assumption. Qed.

Lemma wrap_bit_bound s p : 0 <= wrap_bit s p < 2.
Proof. apply Z.mod_pos_bound. lia. Qed.

Lemma index_split s p :
  0 <= s ->
  p mod (2 * capacity s) = capacity s * wrap_bit s p + position s p.
Proof.
  intros Hs. rewrite two_capacity by assumption.
  unfold capacity, wrap_bit, position. apply mod_pow2_succ; assumption.
Qed.

Lemma capacity_bound s : 0 <= s < 31 -> 0 < capacity s <= 2 ^ 30.
Proof.
  intros Hs. unfold capacity. split.
  - apply pow2_pos; lia.
  - apply Z.pow_le_mono_r; lia.
Qed.

(** Entries in flight in terms of wrap bits and positions. *)
Lemma in_flight_split q_ :
  0 <= max_n_shift q_ ->
  in_flight q_ =
  (capacity (max_n_shift q_) *
     (wrap_bit (max_n_shift q_) (prod q_) - wrap_bit (max_n_shift q_) (cons q_))
   + (position (max_n_shift q_) (prod q_) - position (max_n_shift q_) (cons q_)))
  mod (2 * capacity (max_n_shift q_)).
Proof.
  intros Hs. unfold in_flight.
  rewrite Zminus_mod.
  rewrite (index_split _ (prod q_)), (index_split _ (cons q_)) by assumption.
  f_equal. lia.
Qed.

(** [queue_has_space] compares [n] with the free slots of the
    specification, computed in 32-bit unsigned arithmetic. *)
Lemma queue_has_space_u32 q_ n :
  0 <= max_n_shift q_ ->
  queue_has_space q_ n = (n <=? u32 (free_slots q_)).
Proof.
  intros Hs. unfold queue_has_space, free_slots.
  rewrite Q_WRP_eqb, !Q_IDX_position, shiftl_1_pow2 by lia.
  fold (capacity (max_n_shift q_)).
  destruct (_ =? _); [|reflexivity].
  unfold u32. rewrite Zminus_mod_idemp_r. reflexivity.
Qed.

(** In a ring whose consumer has not passed its producer the free slots are
    the capacity less the entries in flight, between 0 and the capacity. *)
Lemma free_slots_in_flight q_ :
  0 <= max_n_shift q_ < 31 ->
  in_flight q_ <= capacity (max_n_shift q_) ->
  free_slots q_ = capacity (max_n_shift q_) - in_flight q_ /\
  0 <= free_slots q_ <= capacity (max_n_shift q_).
Proof.
  intros Hs Hfl.
  pose proof (capacity_bound _ Hs) as HC.
  pose proof (position_bound (max_n_shift q_) (prod q_) ltac:(lia)) as Hp.
  pose proof (position_bound (max_n_shift q_) (cons q_) ltac:(lia)) as Hc.
  pose proof (wrap_bit_bound (max_n_shift q_) (prod q_)) as Hwp.
  pose proof (wrap_bit_bound (max_n_shift q_) (cons q_)) as Hwc.
  rewrite in_flight_split in Hfl |- * by lia.
  unfold free_slots.
  set (C := capacity (max_n_shift q_)) in *.
  set (pi := position (max_n_shift q_) (prod q_)) in *.
  set (ci := position (max_n_shift q_) (cons q_)) in *.
  set (wp := wrap_bit (max_n_shift q_) (prod q_)) in *.
  set (wc := wrap_bit (max_n_shift q_) (cons q_)) in *.
  destruct (Z.eqb_spec wp wc) as [E|E].
  - replace (C * (wp - wc) + (pi - ci)) with (pi - ci) in * by nia.
    rewrite mod_near in Hfl |- * by lia.
    destruct (Z.ltb_spec (pi - ci) 0); lia.
  - assert (Hw : wp - wc = 1 \/ wp - wc = -1) by lia.
    destruct Hw as [Hw|Hw]; rewrite Hw in *.
    + rewrite Z.mod_small in Hfl |- * by lia. lia.
    + rewrite mod_near in Hfl |- * by lia.
      destruct (Z.ltb_spec (C * -1 + (pi - ci)) 0); lia.
Qed.

(** C4, as the code has it.  [queue_has_space q n] tells whether the free
    slots, capacity less [prod_pos - cons_pos] for equal wrap bits and
    [cons_pos - prod_pos] for different ones, taken as the u32 the code
    computes, are at least [n]; with the consumer not past the producer the
    free slots are the capacity less the entries in flight and the u32 is the
    number itself.  For capacity 4 with producer (0, 3) and consumer (0, 1)
    two entries are in flight and two slots free: [queue_has_space] holds
    for 1 and for 2 and fails for 3. *)
Theorem queue_has_space_free_slots (q_ : arm_smmu_ll_queue) (n : Z) :
  0 <= max_n_shift q_ < 31 ->
  queue_has_space q_ n = (n <=? u32 (free_slots q_)) /\
  (in_flight q_ <= capacity (max_n_shift q_) ->
   free_slots q_ = capacity (max_n_shift q_) - in_flight q_ /\
   queue_has_space q_ n = (n <=? free_slots q_)) /\
  in_flight (mk_llq 3 1 2) = 2 /\
  queue_has_space (mk_llq 3 1 2) 1 = true /\
  queue_has_space (mk_llq 3 1 2) 2 = true /\
  queue_has_space (mk_llq 3 1 2) 3 = false.
Proof.
  intros Hs.
  split; [apply queue_has_space_u32; lia|].
  split; [|repeat split; reflexivity].
  intros Hfl.
  destruct (free_slots_in_flight q_ Hs Hfl) as [H1 H2].
  split; [assumption|].
  rewrite queue_has_space_u32 by lia.
  pose proof (capacity_bound _ Hs).
  unfold u32. rewrite Z.mod_small; [reflexivity|].
  assert (2 ^ 32 = 4 * 2 ^ 30) by reflexivity. lia.
Qed.

Lemma queue_has_space_free_slots_witness :
  0 <= 6 < 31 /\
  queue_has_space (mk_llq 70 60 6) 54 =
  (54 <=? u32 (free_slots (mk_llq 70 60 6))).
Proof.
  split; [lia|].
  apply (queue_has_space_free_slots (mk_llq 70 60 6) 54).
  simpl; lia.
Defined.

(** The example of the specification, which expects no space for two
    entries, does not hold of [queue_has_space]. *)
Lemma queue_has_space_example_refuted :
  ~ (queue_has_space (mk_llq 3 1 2) 1 = true /\
     queue_has_space (mk_llq 3 1 2) 2 = false).
Proof. intros [_ H]. vm_compute in H. discriminate H. Qed.

Lemma queue_full_spec q_ :
  0 <= max_n_shift q_ ->
  queue_full q_ =
  (position (max_n_shift q_) (prod q_) =? position (max_n_shift q_) (cons q_))
  && negb (wrap_bit (max_n_shift q_) (prod q_) =?
           wrap_bit (max_n_shift q_) (cons q_)).
Proof.
  intros Hs. unfold queue_full.
  rewrite Q_WRP_eqb, !Q_IDX_position by assumption. reflexivity.
Qed.

Lemma queue_empty_spec q_ :
  0 <= max_n_shift q_ ->
  queue_empty q_ =
  (position (max_n_shift q_) (prod q_) =? position (max_n_shift q_) (cons q_))
  && (wrap_bit (max_n_shift q_) (prod q_) =?
      wrap_bit (max_n_shift q_) (cons q_)).
Proof.
  intros Hs. unfold queue_empty.
  rewrite Q_WRP_eqb, !Q_IDX_position by assumption. reflexivity.
Qed.

(** A queue of four slots with three entries produced and one consumed. *)
Lemma reachable_3_1 : reachable 2 (mk_llq 3 1 2).
Proof.
  change (mk_llq 3 1 2) with (queue_inc_cons (mk_llq 3 0 2)).
  apply reach_consume; [|reflexivity].
  change (mk_llq 3 0 2)
    with (mk_llq (queue_inc_prod_n (mk_llq 0 0 2) 3)
                 (cons (mk_llq 0 0 2)) (max_n_shift (mk_llq 0 0 2))).
  apply reach_produce; [apply reach_init|lia|reflexivity].
Qed.

(** The reachable pair producer (0, 3), consumer (0, 1) of a queue of four
    slots is neither full nor empty. *)
Lemma queue_partly_filled_neither :
  reachable 2 (mk_llq 3 1 2) /\
  queue_full (mk_llq 3 1 2) = false /\
  queue_empty (mk_llq 3 1 2) = false.
Proof. split; [apply reachable_3_1|split; reflexivity]. Qed.

(** C6, as the code has it.  [queue_full] holds exactly when the positions
    are equal and the wrap bits differ, [queue_empty] exactly when positions
    and wrap bits are both equal; the two never hold together; exactly one
    of them holds when the positions are equal, and neither holds when the
    positions differ. *)
Theorem queue_full_empty_exclusive (q_ : arm_smmu_ll_queue) :
  0 <= max_n_shift q_ ->
  (queue_full q_ = true <->
   position (max_n_shift q_) (prod q_) = position (max_n_shift q_) (cons q_) /\
   wrap_bit (max_n_shift q_) (prod q_) <> wrap_bit (max_n_shift q_) (cons q_)) /\
  (queue_empty q_ = true <->
   position (max_n_shift q_) (prod q_) = position (max_n_shift q_) (cons q_) /\
   wrap_bit (max_n_shift q_) (prod q_) = wrap_bit (max_n_shift q_) (cons q_)) /\
  queue_full q_ && queue_empty q_ = false /\
  (position (max_n_shift q_) (prod q_) = position (max_n_shift q_) (cons q_) ->
   xorb (queue_full q_) (queue_empty q_) = true) /\
  (position (max_n_shift q_) (prod q_) <> position (max_n_shift q_) (cons q_) ->
   queue_full q_ = false /\ queue_empty q_ = false).
Proof.
  intros Hs.
  rewrite queue_full_spec, queue_empty_spec by assumption.
  destruct (Z.eqb_spec (position (max_n_shift q_) (prod q_))
                       (position (max_n_shift q_) (cons q_))) as [Ep|Ep];
  destruct (Z.eqb_spec (wrap_bit (max_n_shift q_) (prod q_))
                       (wrap_bit (max_n_shift q_) (cons q_))) as [Ew|Ew];
  simpl; repeat split; intros; try tauto; try discriminate; try reflexivity;
  try (exfalso; tauto).
Qed.

Lemma queue_full_empty_exclusive_witness :
  0 <= 2 /\
  queue_full (mk_llq 5 1 2) && queue_empty (mk_llq 5 1 2) = false /\
  xorb (queue_full (mk_llq 5 1 2)) (queue_empty (mk_llq 5 1 2)) = true.
Proof.
  split; [lia|].
  pose proof (queue_full_empty_exclusive (mk_llq 5 1 2) ltac:(simpl; lia))
    as (_ & _ & H3 & H4 & _).
  split; [exact H3|]. apply H4. reflexivity.
Defined.

(** ** Loads and stores *)

Lemma store_nat_length {A : Type} (m : list A) i v :
  length (store_nat m i v) = length m.
Proof.
  revert i. induction m as [|x m IH]; intros [|i]; simpl; auto.
Qed.

Lemma nth_store_nat_eq {A : Type} (m : list A) i v d :
  (i < length m)%nat -> nth i (store_nat m i v) d = v.
Proof.
  revert i. induction m as [|x m IH]; intros [|i] Hi; simpl in *;
    try lia; auto. apply IH. lia.
Qed.

Lemma nth_store_nat_neq {A : Type} (m : list A) i j v d :
  i <> j -> nth j (store_nat m i v) d = nth j m d.
Proof.
  revert i j. induction m as [|x m IH]; intros [|i] [|j] Hij; simpl;
    try reflexivity; try congruence. apply IH. congruence.
Qed.

Lemma store_length m i v : length (store m i v) = length m.
Proof. unfold store. destruct (i <? 0); [reflexivity|apply store_nat_length]. Qed.

Lemma load_store_eq m i v :
  0 <= i < Z.of_nat (length m) -> load (store m i v) i = v.
Proof.
  intros Hi. unfold load, store.
  destruct (Z.ltb_spec i 0); [lia|].
  apply nth_store_nat_eq. lia.
Qed.

Lemma load_store_neq m i j v :
  0 <= j -> i <> j -> load (store m i v) j = load m j.
Proof.
  intros Hj Hij. unfold load, store.
  destruct (Z.ltb_spec i 0); [reflexivity|].
  apply nth_store_nat_neq. lia.
Qed.

Lemma queue_write_2 m at_ c0 c1 :
  queue_write m at_ [c0; c1] 2 = store (store m at_ c0) (at_ + 1) c1.
Proof.
  unfold queue_write. simpl. rewrite Z.add_0_r. reflexivity.
Qed.

Lemma queue_read_2 m at_ :
  queue_read m at_ 2 = [load m at_; load m (at_ + 1)].
Proof.
  unfold queue_read. simpl. rewrite Z.add_0_r. reflexivity.
Qed.

(** ** Command queue error recovery *)

(** The [CMD_SYNC] that [arm_smmu_cmdq_skip_err] writes. *)
Lemma cmd_sync_sev_value :
  arm_smmu_cmdq_build_cmd (mk_ent CMDQ_OP_CMD_SYNC false (U_sync 0))
  = (0, (264249414, 0)) /\
  FIELD_GET CMDQ_0_OP 264249414 = CMDQ_OP_CMD_SYNC.
Proof. split; reflexivity. Qed.

(** On an abort on command fetch the queue memory stays as it is: the slot
    at the hardware consumer index is not turned into a [CMD_SYNC]. *)
Lemma skip_err_abort_keeps_slot :
  FIELD_GET CMDQ_CONS_ERR (Z.shiftl CMDQ_ERR_CERROR_ABT_IDX 24 + 3)
    = CMDQ_ERR_CERROR_ABT_IDX /\
  arm_smmu_cmdq_skip_err (sample_smmu (Z.shiftl CMDQ_ERR_CERROR_ABT_IDX 24 + 3))
    = (sample_smmu (Z.shiftl CMDQ_ERR_CERROR_ABT_IDX 24 + 3),
       [Log_cmdq_error (Z.shiftl CMDQ_ERR_CERROR_ABT_IDX 24 + 3) 2;
        Log_retrying_fetch]) /\
  queue_read
    (base (q (cmdq (fst (arm_smmu_cmdq_skip_err
       (sample_smmu (Z.shiftl CMDQ_ERR_CERROR_ABT_IDX 24 + 3)))))))
    (Q_ENT (sample_queue 0) 3) 2
    = [106; 107] /\
  FIELD_GET CMDQ_0_OP 106 <> CMDQ_OP_CMD_SYNC.
Proof. repeat split; try reflexivity. vm_compute. discriminate. Qed.

Lemma skip_err_unfold smmu :
  arm_smmu_cmdq_skip_err smmu =
  let qu := q (cmdq smmu) in
  let cons_ := cons_reg qu in
  let idx := FIELD_GET CMDQ_CONS_ERR cons_ in
  if idx =? CMDQ_ERR_CERROR_ABT_IDX
  then (smmu, [Log_cmdq_error cons_ idx; Log_retrying_fetch])
  else if idx =? CMDQ_ERR_CERROR_NONE_IDX
  then (smmu, [Log_cmdq_error cons_ idx])
  else
    (with_cmdq smmu (with_q (cmdq smmu)
       (with_base qu (queue_write (base qu) (Q_ENT qu cons_) [264249414; 0]
                                  (ent_dwords qu)))),
     [Log_cmdq_error cons_ idx] ++ [Log_skipping]
       ++ map Log_dword (firstn (Z.to_nat CMDQ_ENT_DWORDS)
                           (queue_read (base qu) (Q_ENT qu cons_)
                                       (ent_dwords qu)))).
Proof.
  unfold arm_smmu_cmdq_skip_err.
  change (arm_smmu_cmdq_build_cmd (mk_ent CMDQ_OP_CMD_SYNC false (U_sync 0)))
    with (0, (264249414, 0)).
  cbv zeta. simpl (negb (0 =? 0)). cbv iota.
  rewrite <- !app_assoc. reflexivity.
Qed.

(** C5, as the code has it.  For an abort on command fetch, as for no
    error, [arm_smmu_cmdq_skip_err] changes nothing.  For an illegal command,
    and for every other error code, it reports the two dwords of the entry
    at the hardware consumer index and stores a [CMD_SYNC] over them; the
    rest of the queue memory, the shadow indices, the valid bitmap, the
    owner index, the lock and the registers stay as they are. *)
Theorem skip_err_converts_illegal_command (smmu : arm_smmu_device) :
  let qu := q (cmdq smmu) in
  let err := FIELD_GET CMDQ_CONS_ERR (cons_reg qu) in
  let at_ := 2 * position (max_n_shift (llq qu)) (cons_reg qu) in
  let smmu' := fst (arm_smmu_cmdq_skip_err smmu) in
  let qu' := q (cmdq smmu') in
  0 <= max_n_shift (llq qu) ->
  ent_dwords qu = CMDQ_ENT_DWORDS ->
  Z.of_nat (length (base qu)) = 2 * capacity (max_n_shift (llq qu)) ->
  (err = CMDQ_ERR_CERROR_ABT_IDX \/ err = CMDQ_ERR_CERROR_NONE_IDX ->
   smmu' = smmu) /\
  (err <> CMDQ_ERR_CERROR_ABT_IDX -> err <> CMDQ_ERR_CERROR_NONE_IDX ->
   snd (arm_smmu_cmdq_skip_err smmu) =
     [Log_cmdq_error (cons_reg qu) err; Log_skipping;
      Log_dword (load (base qu) at_); Log_dword (load (base qu) (at_ + 1))] /\
   load (base qu') at_ = 264249414 /\
   FIELD_GET CMDQ_0_OP (load (base qu') at_) = CMDQ_OP_CMD_SYNC /\
   load (base qu') (at_ + 1) = 0 /\
   (forall j, 0 <= j -> j <> at_ -> j <> at_ + 1 ->
              load (base qu') j = load (base qu) j) /\
   length (base qu') = length (base qu) /\
   llq qu' = llq qu /\
   valid_map (cmdq smmu') = valid_map (cmdq smmu) /\
   owner_prod (cmdq smmu') = owner_prod (cmdq smmu) /\
   lock (cmdq smmu') = lock (cmdq smmu) /\
   prod_reg qu' = prod_reg qu /\
   cons_reg qu' = cons_reg qu).
Proof.
  intros qu err at_ smmu' qu' Hs Hent Hlen.
  subst smmu' qu'. rewrite skip_err_unfold. cbv zeta.
  fold qu. fold err.
  pose proof (position_bound (max_n_shift (llq qu)) (cons_reg qu) Hs) as Hpos.
  assert (Hat : Q_ENT qu (cons_reg qu) = at_).
  { unfold Q_ENT, at_. rewrite Q_IDX_position, Hent by assumption.
    change CMDQ_ENT_DWORDS with 2. lia. }
  split.
  - intros [E|E]; rewrite E; reflexivity.
  - intros H1 H2.
    destruct (Z.eqb_spec err CMDQ_ERR_CERROR_ABT_IDX); [contradiction|].
    destruct (Z.eqb_spec err CMDQ_ERR_CERROR_NONE_IDX); [contradiction|].
    rewrite Hat, Hent. change CMDQ_ENT_DWORDS with 2.
    rewrite queue_write_2, queue_read_2. simpl.
    assert (Hin : 0 <= at_ /\ at_ + 1 < Z.of_nat (length (base qu))) by lia.
    repeat split.
    + rewrite load_store_neq by lia. apply load_store_eq. lia.
    + rewrite load_store_neq by lia. rewrite load_store_eq by lia. reflexivity.
    + apply load_store_eq. rewrite store_length. lia.
    + intros j Hj0 Hj1 Hj2. rewrite !load_store_neq by lia. reflexivity.
    + rewrite !store_length. reflexivity.
Qed.

Lemma skip_err_converts_illegal_command_witness :
  0 <= max_n_shift (llq (sample_queue (Z.shiftl 1 24 + 3))) /\
  ent_dwords (sample_queue (Z.shiftl 1 24 + 3)) = CMDQ_ENT_DWORDS /\
  Z.of_nat (length (base (sample_queue (Z.shiftl 1 24 + 3)))) = 2 * capacity 6 /\
  load (base (q (cmdq (fst (arm_smmu_cmdq_skip_err
                              (sample_smmu (Z.shiftl 1 24 + 3))))))) 6
    = 264249414.
Proof.
  split; [simpl; lia|]. split; [reflexivity|]. split; [reflexivity|].
  pose proof (skip_err_converts_illegal_command
                (sample_smmu (Z.shiftl 1 24 + 3))
                ltac:(simpl; lia) eq_refl eq_refl) as [_ H].
  destruct H as (_ & H & _).
  - vm_compute. discriminate.
  - vm_compute. discriminate.
  - exact H.
Defined.

(** ** Writing a stream table entry *)

Lemma bind_some {A B : Type} (c : ste_io A) (k : A -> ste_io B) m a m1 t1 :
  c m = Some (a, m1, t1) ->
  bind c k m =
  match k a m1 with
  | None => None
  | Some (b, m2, t2) => Some (b, m2, t1 ++ t2)
  end.
Proof. intros H. unfold bind. rewrite H. reflexivity. Qed.

Lemma issue_cmd_cfgi_ste smmu sid m :
  arm_smmu_cmdq_issue_cmd smmu
    (mk_ent CMDQ_OP_CFGI_STE false (U_cfgi sid 0 true)) m
  = Some (0, m, [ev_cfgi_ste sid]).
Proof. reflexivity. Qed.

Lemma issue_cmd_prefetch smmu sid m :
  arm_smmu_cmdq_issue_cmd smmu
    (mk_ent CMDQ_OP_PREFETCH_CFG false (U_prefetch sid 0 0)) m
  = Some (0, m, [ev_prefetch sid]).
Proof. reflexivity. Qed.

Lemma sync_ste_for_sid_run smmu sid m :
  arm_smmu_sync_ste_for_sid smmu sid m
  = Some (tt, m, [ev_cfgi_ste sid; ev_cmd_sync]).
Proof. reflexivity. Qed.

Lemma ste_live_of_not_live kc val m :
  ste_not_live kc val -> ste_live_of kc val m = Some (false, m, []).
Proof.
  unfold ste_not_live, ste_live_of. intros H.
  destruct (has_flag val STRTAB_STE_0_V); [|reflexivity].
  destruct H as [H|[H|[H Hdb]]]; [discriminate| |]; rewrite H.
  - reflexivity.
  - simpl. unfold bind, BUG_ON. rewrite Hdb. reflexivity.
Qed.

Lemma land_land_disjoint x m1 m2 :
  Z.land m1 m2 = 0 -> Z.land (Z.land x m1) m2 = 0.
Proof. intros H. rewrite <- Z.land_assoc, H. apply Z.land_0_r. Qed.

Lemma FIELD_PREP_disjoint mask v m :
  Z.land mask m = 0 -> Z.land (FIELD_PREP mask v) m = 0.
Proof. intros H. unfold FIELD_PREP. apply land_land_disjoint. assumption. Qed.

(** Dword 0 of a stage-1 entry, with or without stage 2: valid, and with
    the configuration the stages ask for. *)
Lemma ste0_s1_fields base_ order_ fmt_ extra :
  extra = 0 \/
  extra = FIELD_PREP STRTAB_STE_0_CFG STRTAB_STE_0_CFG_S2_TRANS ->
  let val :=
    Z.lor
      (Z.lor STRTAB_STE_0_V
         (Z.lor (Z.lor (Z.lor
            (Z.land base_ STRTAB_STE_0_S1CTXPTR_MASK)
            (FIELD_PREP STRTAB_STE_0_CFG STRTAB_STE_0_CFG_S1_TRANS))
            (FIELD_PREP STRTAB_STE_0_S1CDMAX order_))
            (FIELD_PREP STRTAB_STE_0_S1FMT fmt_)))
      extra in
  has_flag val STRTAB_STE_0_V = true /\
  FIELD_GET STRTAB_STE_0_CFG val =
  Z.lor STRTAB_STE_0_CFG_S1_TRANS (FIELD_GET STRTAB_STE_0_CFG extra).
Proof.
  intros Hex val. subst val. unfold has_flag, FIELD_GET.
  rewrite !Z.land_lor_distr_l.
  rewrite !(land_land_disjoint base_) by reflexivity.
  rewrite !(FIELD_PREP_disjoint STRTAB_STE_0_S1CDMAX) by reflexivity.
  rewrite !(FIELD_PREP_disjoint STRTAB_STE_0_S1FMT) by reflexivity.
  destruct Hex as [->| ->]; split; reflexivity.
Qed.

Ltac run_ste_io :=
  cbv [bind rd wr wr_once emit ret when deref BUG_ON BUG negb orb andb app].

Ltac split_attach_trace :=
  lazymatch goal with
  | |- exists pre val dst', Some (tt, _, ?a :: ev_cfgi_ste _ :: _) = _ /\ _ =>
    exists [a]
  | |- exists pre val dst', Some (tt, _, ?a :: ?b :: ev_cfgi_ste _ :: _) = _ /\ _ =>
    exists [a; b]
  | |- exists pre val dst',
         Some (tt, _, ?a :: ?b :: ?c :: ev_cfgi_ste _ :: _) = _ /\ _ =>
    exists [a; b; c]
  | |- exists pre val dst',
         Some (tt, _, ?a :: ?b :: ?c :: ?d :: ev_cfgi_ste _ :: _) = _ /\ _ =>
    exists [a; b; c; d]
  end.

Ltac find_store :=
  cbn [In];
  first [ left; reflexivity
        | right; left; reflexivity
        | right; right; left; reflexivity
        | right; right; right; left; reflexivity ].

(** C3, as the code has it.  Writing a translating configuration over an
    entry that is not live, [arm_smmu_write_strtab_ent] stores the dwords the
    configuration fills, and never dword 0 (dword 1 for stage 1, dwords 2 and
    3 for stage 2), issues CFGI_STE and then CMD_SYNC through the command
    queue, stores dword 0, valid and with the stage configuration, by one
    [WRITE_ONCE], issues CFGI_STE and CMD_SYNC again and, unless the SMMU has
    the skip-prefetch option, a PREFETCH_CFG command last. *)
Theorem write_strtab_ent_attach_sequence
    (kc : kconfig) (smmu : arm_smmu_device) (sid : Z) (dst : list Z)
    (e : arm_smmu_strtab_ent) :
  length dst = 8%nat ->
  ste_not_live kc (load dst 0) ->
  assigned e = true ->
  s1_cfg e <> None \/ s2_cfg e <> None ->
  exists pre val dst',
    arm_smmu_write_strtab_ent kc (Some smmu) sid e dst =
      Some (tt, dst',
            pre ++ [ev_cfgi_ste sid; ev_cmd_sync; EvStore 0 val true;
                    ev_cfgi_ste sid; ev_cmd_sync]
                ++ (if has_flag (options smmu) ARM_SMMU_OPT_SKIP_PREFETCH
                    then [] else [ev_prefetch sid])) /\
    Forall (plain_store_in 1 3) pre /\
    (s1_cfg e <> None -> exists v, In (EvStore 1 v false) pre) /\
    (s2_cfg e <> None ->
     (exists v, In (EvStore 2 v false) pre) /\
     (exists v, In (EvStore 3 v false) pre)) /\
    has_flag val STRTAB_STE_0_V = true /\
    FIELD_GET STRTAB_STE_0_CFG val =
      Z.lor (match s1_cfg e with Some _ => STRTAB_STE_0_CFG_S1_TRANS | None => 0 end)
            (match s2_cfg e with Some _ => STRTAB_STE_0_CFG_S2_TRANS | None => 0 end) /\
    load dst' 0 = val.
Proof.
  intros Hlen Hlive Hassigned Hcfg.
  destruct e as [a s1 s2 cs]. simpl in Hassigned, Hcfg |- *. subst a.
  unfold arm_smmu_write_strtab_ent.
  rewrite (bind_some (rd 0) _ dst (load dst 0) dst []) by reflexivity.
  rewrite (bind_some (ste_live_of _ _) _ dst false dst [])
    by (apply ste_live_of_not_live; assumption).
  cbn [assigned s1_cfg s2_cfg can_stall negb orb andb].
  destruct s1 as [c1|], s2 as [c2|]; try (exfalso; tauto);
  run_ste_io;
  change (arm_smmu_sync_ste_for_sid smmu sid)
    with (fun m : list Z => Some (tt, m, [ev_cfgi_ste sid; ev_cmd_sync]));
  change (arm_smmu_cmdq_issue_cmd smmu
            (mk_ent CMDQ_OP_PREFETCH_CFG false (U_prefetch sid 0 0)))
    with (fun m : list Z => Some (0, m, [ev_prefetch sid]));
  destruct (has_flag (features smmu) ARM_SMMU_FEAT_STALLS),
           (has_flag (features smmu) ARM_SMMU_FEAT_STALL_FORCE), cs,
           (has_flag (options smmu) ARM_SMMU_OPT_SKIP_PREFETCH);
  run_ste_io; split_attach_trace; eexists; eexists;
  (split; [reflexivity|]);
  (split; [repeat constructor; eexists; eexists;
           (split; [reflexivity|lia])|]);
  (split; [intros Hn; try (exfalso; apply Hn; reflexivity);
           eexists; find_store|]);
  (split; [intros Hn; try (exfalso; apply Hn; reflexivity);
           split; eexists; find_store|]);
  (split; [|split; [|apply load_store_eq; rewrite ?store_length; lia]]).
  all: try reflexivity.
  all: try (apply (ste0_s1_fields (tables_base c1) (tables_order c1)
                     (tables_s1fmt c1) _ (or_intror eq_refl))).
  all: pose proof (ste0_s1_fields (tables_base c1) (tables_order c1)
                     (tables_s1fmt c1) 0 (or_introl eq_refl)) as Hf;
       cbv zeta in Hf; rewrite Z.lor_0_r in Hf; apply Hf.
Qed.


Lemma write_strtab_ent_attach_sequence_witness :
  length (repeat 0 8%nat) = 8%nat /\
  ste_not_live (mk_kconfig true false) (load (repeat 0 8%nat) 0) /\
  assigned sample_s1_ste = true /\
  (s1_cfg sample_s1_ste <> None \/ s2_cfg sample_s1_ste <> None) /\
  exists pre val dst',
    arm_smmu_write_strtab_ent (mk_kconfig true false) (Some (sample_smmu 0)) 5
      sample_s1_ste (repeat 0 8%nat) =
    Some (tt, dst',
          pre ++ [ev_cfgi_ste 5; ev_cmd_sync; EvStore 0 val true;
                  ev_cfgi_ste 5; ev_cmd_sync] ++ [ev_prefetch 5]).
Proof.
  assert (H1 : length (repeat 0 8%nat) = 8%nat) by reflexivity.
  assert (H2 : ste_not_live (mk_kconfig true false) (load (repeat 0 8%nat) 0))
    by (left; reflexivity).
  assert (H3 : assigned sample_s1_ste = true) by reflexivity.
  assert (H4 : s1_cfg sample_s1_ste <> None \/ s2_cfg sample_s1_ste <> None)
    by (left; discriminate).
  repeat (split; [assumption|]).
  destruct (write_strtab_ent_attach_sequence (mk_kconfig true false)
              (sample_smmu 0) 5 (repeat 0 8%nat) sample_s1_ste H1 H2 H3 H4)
    as (pre & val & dst' & Hrun & _).
  exists pre, val, dst'. exact Hrun.
Defined.

(** An attach on an SMMU without the skip-prefetch option ends with a
    PREFETCH_CFG command after the second CMD_SYNC, and stores to dword 1
    only before the first: not the sequence the specification gives. *)
Lemma attach_sequence_has_prefetch :
  arm_smmu_write_strtab_ent (mk_kconfig true false) (Some (sample_smmu 0)) 5
    sample_s1_ste (repeat 0 8%nat)
  = Some (tt, [4107; 214; 0; 0; 0; 0; 0; 0],
          [EvStore 1 214 false; ev_cfgi_ste 5; ev_cmd_sync;
           EvStore 0 4107 true; ev_cfgi_ste 5; ev_cmd_sync; ev_prefetch 5]) /\
  ~ claimed_attach_sequence 5
      [EvStore 1 214 false; ev_cfgi_ste 5; ev_cmd_sync;
       EvStore 0 4107 true; ev_cfgi_ste 5; ev_cmd_sync; ev_prefetch 5].
Proof.
  split; [reflexivity|].
  intros (pre & v0 & Heq & _ & _).
  apply (f_equal (@rev event)) in Heq.
  rewrite rev_app_distr in Heq. simpl in Heq.
  discriminate Heq.
Qed.

(** ** The second-level stream table *)

Lemma in_range_true a b j : (a <=? j) && (j <? b) = true <-> a <= j < b.
Proof. rewrite Bool.andb_true_iff, Z.leb_le, Z.ltb_lt. tauto. Qed.

Lemma in_range_false a b j : (a <=? j) && (j <? b) = false <-> ~ a <= j < b.
Proof. rewrite <- in_range_true. symmetry. apply Bool.not_true_iff_false. Qed.

Ltac range_cases :=
  repeat match goal with
  | |- context [(?a <=? ?j) && (?j <? ?b)] =>
    let E := fresh "E" in
    destruct ((a <=? j) && (j <? b)) eqn:E;
    [apply in_range_true in E | apply in_range_false in E]
  end.

Lemma load_fold_store off src k :
  forall a m j,
    0 <= off -> 0 <= j ->
    off + Z.of_nat a + Z.of_nat k <= Z.of_nat (length m) ->
    load (fold_left (fun m i => store m (off + Z.of_nat i) (nth i src 0))
                    (seq a k) m) j =
    if (off + Z.of_nat a <=? j) && (j <? off + Z.of_nat a + Z.of_nat k)
    then nth (Z.to_nat (j - off)) src 0 else load m j.
Proof.
  induction k as [|k IH]; intros a m j Hoff Hj Hlen.
  - cbn [seq fold_left]. range_cases; [lia|reflexivity].
  - cbn [seq fold_left]. rewrite IH by (rewrite ?store_length; lia).
    range_cases; try lia; try reflexivity;
      try (rewrite load_store_neq by lia; reflexivity).
    assert (j = off + Z.of_nat a) by lia. subst j.
    rewrite load_store_eq by lia. f_equal. lia.
Qed.

Lemma load_queue_write mem off src n j :
  0 <= off -> 0 <= j -> 0 <= n -> off + n <= Z.of_nat (length mem) ->
  load (queue_write mem off src n) j =
  if (off <=? j) && (j <? off + n)
  then nth (Z.to_nat (j - off)) src 0 else load mem j.
Proof.
  intros Hoff Hj Hn Hlen. unfold queue_write.
  rewrite load_fold_store by (simpl; lia).
  simpl Z.of_nat. rewrite Z.add_0_r, Z2Nat.id by lia. reflexivity.
Qed.

Lemma queue_write_length mem off src n :
  length (queue_write mem off src n) = length mem.
Proof.
  unfold queue_write. generalize (seq 0 (Z.to_nat n)). intros l.
  revert mem. induction l as [|x l IH]; intros mem; simpl; [reflexivity|].
  rewrite IH. apply store_length.
Qed.

Lemma queue_read_length mem off n :
  length (queue_read mem off n) = Z.to_nat n.
Proof. unfold queue_read. rewrite length_map, length_seq. reflexivity. Qed.

Lemma load_queue_read mem off n j :
  0 <= j < n -> load (queue_read mem off n) j = load mem (off + j).
Proof.
  intros Hj. unfold load at 1, queue_read.
  rewrite nth_indep with (d' := load mem (off + Z.of_nat 0))
    by (rewrite length_map, length_seq; lia).
  rewrite (map_nth (fun i => load mem (off + Z.of_nat i))).
  rewrite seq_nth by lia. f_equal. lia.
Qed.

(** One bypass entry written over an entry that is not valid. *)
Lemma write_bypass_ste_run kc sid w :
  has_flag (load w 0) STRTAB_STE_0_V = false ->
  arm_smmu_write_strtab_ent kc None sid (mk_ste false None None false) w =
  Some (tt, store (store (store w 0 (bypass_ste_0 kc)) 1 bypass_ste_1) 2 0,
        [EvStore 0 (bypass_ste_0 kc) false; EvStore 1 bypass_ste_1 false;
         EvStore 2 0 false]).
Proof.
  intros Hv. unfold arm_smmu_write_strtab_ent.
  rewrite (bind_some (rd 0) _ w (load w 0) w []) by reflexivity.
  rewrite (bind_some (ste_live_of _ _) _ w false w [])
    by (apply ste_live_of_not_live; left; assumption).
  unfold bypass_ste_0. destruct (disable_bypass kc); reflexivity.
Qed.

Lemma run_at_bypass kc mem off sid :
  0 <= off -> off + 8 <= Z.of_nat (length mem) ->
  has_flag (load mem off) STRTAB_STE_0_V = false ->
  exists mem',
    run_at mem off
      (arm_smmu_write_strtab_ent kc None sid (mk_ste false None None false))
    = Some (mem',
            [EvStore (off + 0) (bypass_ste_0 kc) false;
             EvStore (off + 1) bypass_ste_1 false;
             EvStore (off + 2) 0 false]) /\
    length mem' = length mem /\
    load mem' off = bypass_ste_0 kc /\
    load mem' (off + 1) = bypass_ste_1 /\
    load mem' (off + 2) = 0 /\
    (forall j, 0 <= j -> j < off \/ off + 3 <= j -> load mem' j = load mem j).
Proof.
  intros Hoff Hlen Hv. unfold run_at.
  change STRTAB_STE_DWORDS with 8.
  set (w := queue_read mem off 8).
  assert (Hw : length w = 8%nat) by (apply queue_read_length).
  assert (Hw0 : load w 0 = load mem off).
  { unfold w. rewrite load_queue_read by lia. f_equal. lia. }
  rewrite write_bypass_ste_run by (rewrite Hw0; assumption).
  set (w' := store (store (store w 0 (bypass_ste_0 kc)) 1 bypass_ste_1) 2 0).
  assert (Hw' : length w' = 8%nat) by (unfold w'; rewrite !store_length; exact Hw).
  assert (Hld : forall j, 0 <= j < 8 ->
            nth (Z.to_nat j) w' 0 =
            if j =? 0 then bypass_ste_0 kc
            else if j =? 1 then bypass_ste_1
            else if j =? 2 then 0 else load mem (off + j)).
  { intros j Hj. fold (load w' j). unfold w'.
    destruct (Z.eqb_spec j 0) as [->|]; [|destruct (Z.eqb_spec j 1) as [->|];
      [|destruct (Z.eqb_spec j 2) as [->|]]].
    - rewrite !load_store_neq by lia. apply load_store_eq. lia.
    - rewrite load_store_neq by lia. apply load_store_eq.
      rewrite store_length. lia.
    - apply load_store_eq. rewrite !store_length. lia.
    - rewrite !load_store_neq by lia. unfold w.
      apply load_queue_read. lia. }
  eexists. split; [reflexivity|].
  split; [apply queue_write_length|].
  repeat split.
  - rewrite load_queue_write by lia. range_cases; [|lia].
    replace (off - off) with 0 by lia. apply (Hld 0). lia.
  - rewrite load_queue_write by lia. range_cases; [|lia].
    replace (off + 1 - off) with 1 by lia. apply (Hld 1). lia.
  - rewrite load_queue_write by lia. range_cases; [|lia].
    replace (off + 2 - off) with 2 by lia. apply (Hld 2). lia.
  - intros j Hj Hout. rewrite load_queue_write by lia.
    range_cases; [|reflexivity].
    rewrite Hld by lia.
    destruct (Z.eqb_spec (j - off) 0); [lia|].
    destruct (Z.eqb_spec (j - off) 1); [lia|].
    destruct (Z.eqb_spec (j - off) 2); [lia|].
    f_equal. lia.
Qed.

Lemma init_bypass_stes_loop_spec kc n :
  forall mem a,
    8 * (Z.of_nat a + Z.of_nat n) <= Z.of_nat (length mem) ->
    (forall k, Z.of_nat a <= k < Z.of_nat a + Z.of_nat n ->
               has_flag (load mem (k * 8)) STRTAB_STE_0_V = false) ->
    exists mem',
      init_bypass_stes_loop kc mem (Z.of_nat a) n =
        Some (mem', flat_map (fun k => bypass_ste_events kc (Z.of_nat k))
                             (seq a n)) /\
      length mem' = length mem /\
      (forall k, Z.of_nat a <= k < Z.of_nat a + Z.of_nat n ->
         load mem' (k * 8) = bypass_ste_0 kc /\
         load mem' (k * 8 + 1) = bypass_ste_1 /\
         load mem' (k * 8 + 2) = 0 /\
         forall j, 3 <= j < 8 -> load mem' (k * 8 + j) = load mem (k * 8 + j)) /\
      (forall j, 0 <= j ->
         j < Z.of_nat a * 8 \/ (Z.of_nat a + Z.of_nat n) * 8 <= j ->
         load mem' j = load mem j).
Proof.
  induction n as [|n IH]; intros mem a Hlen Hv.
  - exists mem. simpl. repeat split; try reflexivity; lia.
  - cbn [init_bypass_stes_loop].
    change STRTAB_STE_DWORDS with 8.
    destruct (run_at_bypass kc mem (Z.of_nat a * 8) (u32 (-1)))
      as (mem1 & Hrun & Hlen1 & H0 & H1 & H2 & Hout); [lia|lia| |].
    { apply Hv. lia. }
    rewrite Hrun.
    replace (Z.of_nat a + 1) with (Z.of_nat (S a)) by lia.
    destruct (IH mem1 (S a)) as (mem2 & Hloop & Hlen2 & Hin2 & Hout2).
    { rewrite Hlen1. lia. }
    { intros k Hk. rewrite Hout by lia. apply Hv. lia. }
    rewrite Hloop. exists mem2.
    split; [reflexivity|]. split; [congruence|]. split.
    + intros k Hk.
      destruct (Z.eq_dec k (Z.of_nat a)) as [->|Hne].
      * rewrite !Hout2 by lia. repeat split; try assumption.
        intros j Hj. rewrite Hout2 by lia. apply Hout; lia.
      * destruct (Hin2 k) as (A & B & C & D); [lia|].
        repeat split; try assumption.
        intros j Hj. rewrite D by assumption. apply Hout; lia.
    + intros j Hj Hr. rewrite Hout2 by lia. apply Hout; lia.
Qed.

Lemma nth_error_store_nat_eq {A : Type} (l : list A) i v x :
  nth_error l i = Some x -> nth_error (store_nat l i v) i = Some v.
Proof.
  revert i. induction l as [|y l IH]; intros [|i] H; simpl in *;
    try discriminate; auto.
Qed.

Lemma load_repeat_0 n j : load (repeat 0 n) j = 0.
Proof.
  unfold load. generalize (Z.to_nat j). intros k. revert k.
  induction n as [|n IH]; intros [|k]; simpl; auto.
Qed.

Lemma bypass_ste_0_fields kc :
  has_flag (bypass_ste_0 kc) STRTAB_STE_0_V = true /\
  FIELD_GET STRTAB_STE_0_CFG (bypass_ste_0 kc) =
  if disable_bypass kc then STRTAB_STE_0_CFG_ABORT else STRTAB_STE_0_CFG_BYPASS.
Proof. unfold bypass_ste_0. destruct (disable_bypass kc); split; reflexivity. Qed.

(** The descriptor that links a second-level block at bus address [dma]:
    its span field is [STRTAB_SPLIT + 1] and its pointer field holds the
    bits 51:6 of [dma]. *)
Lemma l1_desc_link_fields (blk : option (list Z)) (dma : Z) :
  let v := arm_smmu_write_strtab_l1_desc
             (mk_l1_desc (STRTAB_SPLIT + 1) blk dma) in
  FIELD_GET STRTAB_L1_DESC_SPAN v = STRTAB_SPLIT + 1 /\
  Z.land v STRTAB_L1_DESC_L2PTR_MASK = Z.land dma STRTAB_L1_DESC_L2PTR_MASK.
Proof.
  cbv zeta. unfold arm_smmu_write_strtab_l1_desc. cbn [span l2ptr_dma].
  rewrite Z.lor_0_l. split.
  - unfold FIELD_GET. rewrite Z.land_lor_distr_l.
    rewrite (land_land_disjoint dma) by reflexivity.
    rewrite Z.lor_0_r. reflexivity.
  - rewrite Z.land_lor_distr_l.
    rewrite FIELD_PREP_disjoint by reflexivity.
    rewrite Z.lor_0_l, <- Z.land_assoc, Z.land_diag. reflexivity.
Qed.

(** C9.  When the first-level descriptor of [sid] has no second-level block
    and [dmam_alloc_coherent] provides one, [arm_smmu_init_l2_strtab] returns
    0 after, in this order, the allocation, the stores that make each of the
    256 entries of the block a valid abort entry (a bypass entry without
    [disable_bypass]), and last the store of the first-level descriptor.
    The value stored there links the block: its span field is
    [STRTAB_SPLIT + 1], its pointer field holds the bits 51:6 of the block's
    DMA address, and it is what the table holds for the descriptor
    afterwards.  Every call after that for a stream ID of the same range
    returns 0, leaves the SMMU as it is and neither allocates nor stores,
    whatever the allocator would give. *)
Theorem init_l2_strtab_fills_before_link
    (kc : kconfig) (smmu : arm_smmu_device) (sid dma : Z)
    (desc : arm_smmu_strtab_l1_desc) :
  0 <= sid ->
  nth_error (l1_desc (strtab_cfg smmu)) (Z.to_nat (Z.shiftr sid STRTAB_SPLIT))
    = Some desc ->
  l2ptr desc = None ->
  exists blk smmu',
    arm_smmu_init_l2_strtab kc smmu sid (Some dma) =
      Some (0, smmu',
            [EvAlloc 16384 true]
            ++ flat_map (fun k => bypass_ste_events kc (Z.of_nat k)) (seq 0 256)
            ++ [EvL1Desc (Z.shiftr sid STRTAB_SPLIT * STRTAB_L1_DESC_DWORDS)
                  (arm_smmu_write_strtab_l1_desc
                     (mk_l1_desc (STRTAB_SPLIT + 1) (Some blk) dma))]) /\
    nth_error (l1_desc (strtab_cfg smmu'))
              (Z.to_nat (Z.shiftr sid STRTAB_SPLIT))
      = Some (mk_l1_desc (STRTAB_SPLIT + 1) (Some blk) dma) /\
    strtab (strtab_cfg smmu') =
      store (strtab (strtab_cfg smmu))
            (Z.shiftr sid STRTAB_SPLIT * STRTAB_L1_DESC_DWORDS)
            (arm_smmu_write_strtab_l1_desc
               (mk_l1_desc (STRTAB_SPLIT + 1) (Some blk) dma)) /\
    length blk = 2048%nat /\
    (forall k, 0 <= k < 256 ->
       load blk (k * 8) = bypass_ste_0 kc /\
       load blk (k * 8 + 1) = bypass_ste_1 /\
       forall j, 2 <= j < 8 -> load blk (k * 8 + j) = 0) /\
    has_flag (bypass_ste_0 kc) STRTAB_STE_0_V = true /\
    FIELD_GET STRTAB_STE_0_CFG (bypass_ste_0 kc) =
      (if disable_bypass kc
       then STRTAB_STE_0_CFG_ABORT else STRTAB_STE_0_CFG_BYPASS) /\
    (forall sid' alloc',
       Z.shiftr sid' STRTAB_SPLIT = Z.shiftr sid STRTAB_SPLIT ->
       arm_smmu_init_l2_strtab kc smmu' sid' alloc' = Some (0, smmu', [])) /\
    FIELD_GET STRTAB_L1_DESC_SPAN
      (arm_smmu_write_strtab_l1_desc
         (mk_l1_desc (STRTAB_SPLIT + 1) (Some blk) dma)) = STRTAB_SPLIT + 1 /\
    Z.land (arm_smmu_write_strtab_l1_desc
              (mk_l1_desc (STRTAB_SPLIT + 1) (Some blk) dma))
           STRTAB_L1_DESC_L2PTR_MASK
    = Z.land dma STRTAB_L1_DESC_L2PTR_MASK /\
    (Z.shiftr sid STRTAB_SPLIT * STRTAB_L1_DESC_DWORDS
     < Z.of_nat (length (strtab (strtab_cfg smmu))) ->
     FIELD_GET STRTAB_L1_DESC_SPAN
       (load (strtab (strtab_cfg smmu'))
             (Z.shiftr sid STRTAB_SPLIT * STRTAB_L1_DESC_DWORDS))
     = STRTAB_SPLIT + 1 /\
     Z.land (load (strtab (strtab_cfg smmu'))
                  (Z.shiftr sid STRTAB_SPLIT * STRTAB_L1_DESC_DWORDS))
            STRTAB_L1_DESC_L2PTR_MASK
     = Z.land dma STRTAB_L1_DESC_L2PTR_MASK).
Proof.
  intros Hsid Hdesc Hnull.
  unfold arm_smmu_init_l2_strtab. rewrite Hdesc, Hnull.
  cbv zeta. unfold init_l2_strtab_link, arm_smmu_init_bypass_stes.
  change (Z.shiftl 1 (STRTAB_SPLIT + Z.log2 STRTAB_STE_DWORDS + 3)) with 16384.
  change (Z.to_nat (16384 / 8)) with 2048%nat.
  change (Z.to_nat (Z.shiftl 1 STRTAB_SPLIT)) with 256%nat.
  destruct (init_bypass_stes_loop_spec kc 256 (repeat 0 2048%nat) 0%nat)
    as (blk & Hloop & Hlen & Hin & _).
  { rewrite repeat_length. lia. }
  { intros k _. rewrite load_repeat_0. reflexivity. }
  change (Z.of_nat 0) with 0 in Hloop. rewrite Hloop. cbv zeta.
  eexists blk, _. split; [reflexivity|].
  cbn [strtab_cfg with_strtab_cfg l1_desc strtab].
  split; [eapply nth_error_store_nat_eq; eassumption|].
  split; [reflexivity|].
  split; [rewrite Hlen; apply repeat_length|].
  split.
  { intros k Hk. destruct (Hin k) as (A & B & C & D); [lia|].
    repeat split; try assumption.
    intros j Hj. destruct (Z.eq_dec j 2) as [->|]; [assumption|].
    rewrite D by lia. apply load_repeat_0. }
  split; [apply bypass_ste_0_fields|].
  split; [apply bypass_ste_0_fields|].
  split.
  { intros sid' alloc' Hsame. rewrite Hsame.
    erewrite nth_error_store_nat_eq by eassumption. reflexivity. }
  destruct (l1_desc_link_fields (Some blk) dma) as (Hspan & Hptr).
  split; [exact Hspan|]. split; [exact Hptr|].
  intros Htab. rewrite load_store_eq.
  - split; [exact Hspan|exact Hptr].
  - split; [|exact Htab].
    apply Z.mul_nonneg_nonneg; [apply Z.shiftr_nonneg; exact Hsid|].
    unfold STRTAB_L1_DESC_DWORDS. lia.
Qed.

Lemma init_l2_strtab_fills_before_link_witness :
  0 <= 517 /\
  nth_error (l1_desc (strtab_cfg sample_smmu_2lvl))
            (Z.to_nat (Z.shiftr 517 STRTAB_SPLIT))
    = Some (mk_l1_desc 0 None 0) /\
  l2ptr (mk_l1_desc 0 None 0) = None /\
  exists blk smmu',
    nth_error (l1_desc (strtab_cfg smmu')) 2
      = Some (mk_l1_desc 9 (Some blk) 65536) /\
    arm_smmu_init_l2_strtab (mk_kconfig true false) smmu' 600 None
      = Some (0, smmu', []) /\
    FIELD_GET STRTAB_L1_DESC_SPAN (load (strtab (strtab_cfg smmu')) 2) = 9 /\
    Z.land (load (strtab (strtab_cfg smmu')) 2) STRTAB_L1_DESC_L2PTR_MASK
    = 65536.
Proof.
  split; [lia|]. split; [reflexivity|]. split; [reflexivity|].
  destruct (init_l2_strtab_fills_before_link (mk_kconfig true false)
              sample_smmu_2lvl 517 65536 (mk_l1_desc 0 None 0)
              ltac:(lia) eq_refl eq_refl)
    as (blk & smmu' & _ & Hd & _ & _ & _ & _ & _ & Hlater & _ & _ & Hlink).
  exists blk, smmu'.
  split; [exact Hd|]. split; [apply Hlater; reflexivity|].
  apply Hlink. cbn. lia.
Defined.

(** ** Attach and detach *)

Lemma upd_same {A : Type} (f : nat -> A) k v : upd f k v k = v.
Proof. unfold upd. rewrite Nat.eqb_refl. reflexivity. Qed.

Lemma upd_other {A : Type} (f : nat -> A) k v k' :
  k' <> k -> upd f k v k' = f k'.
Proof.
  intros H. unfold upd. destruct (Nat.eqb_spec k' k); [contradiction|reflexivity].
Qed.

Lemma list_del_In m x l : In x (list_del m l) -> In x l.
Proof.
  induction l as [|y l IH]; simpl; [tauto|].
  destruct (Nat.eqb_spec y m); simpl; intros H; tauto.
Qed.

Lemma list_del_In_other m x l : x <> m -> In x l -> In x (list_del m l).
Proof.
  intros Hne. induction l as [|y l IH]; simpl; [tauto|].
  destruct (Nat.eqb_spec y m) as [->|]; simpl; intros [H|H]; auto.
  congruence.
Qed.

Lemma list_del_NoDup m l : NoDup l -> NoDup (list_del m l).
Proof.
  induction 1 as [|y l Hy Hl IH]; simpl; [constructor|].
  destruct (Nat.eqb_spec y m); [assumption|].
  constructor; [|assumption]. intros H. apply Hy. eapply list_del_In; eassumption.
Qed.

Lemma list_del_not_In m l : NoDup l -> ~ In m (list_del m l).
Proof.
  induction 1 as [|y l Hy Hl IH]; simpl; [tauto|].
  destruct (Nat.eqb_spec y m) as [->|]; [assumption|].
  simpl. intros [H|H]; [congruence|tauto].
Qed.

(** Installing stream table entries touches neither masters nor domains. *)
Lemma install_ste_frame kc fw st st' :
  arm_smmu_install_ste_for_dev kc fw st = Some st' ->
  masters st' = masters st /\ domains st' = domains st.
Proof.
  unfold arm_smmu_install_ste_for_dev.
  destruct (install_ste_loop _ _ _ _ _) as [[s tr]|]; [|discriminate].
  intros H. injection H as <-. split; reflexivity.
Qed.

Lemma detach_dev_spec kc dev fw st st1 :
  attach_inv st ->
  dev_fwspec dev = Some fw ->
  arm_smmu_detach_dev kc dev st = Some st1 ->
  attach_inv st1 /\
  domain (masters st1 (iommu_priv fw)) = None /\
  assigned (ste (masters st1 (iommu_priv fw))) = false /\
  m_smmu (masters st1 (iommu_priv fw)) = m_smmu (masters st (iommu_priv fw)) /\
  (forall d, ~ In (iommu_priv fw) (devices (domains st1 d))).
Proof.
  intros (I1 & I2 & I3) Hfw. unfold arm_smmu_detach_dev. rewrite Hfw.
  set (mi := iommu_priv fw).
  intros H. apply install_ste_frame in H. destruct H as [Hm Hd].
  cbn [masters domains] in Hm, Hd.
  assert (Hdom : forall d,
            domains st1 d =
            match domain (masters st mi) with
            | Some di => if Nat.eqb d di
                         then with_devices (domains st di)
                                (list_del mi (devices (domains st di)))
                         else domains st d
            | None => domains st d
            end).
  { intros d. rewrite Hd. destruct (domain (masters st mi)); reflexivity. }
  assert (Hmas : forall m,
            masters st1 m =
            if Nat.eqb m mi
            then mk_master (m_smmu (masters st mi))
                           (with_assigned (ste (masters st mi)) false) None
            else masters st m).
  { intros m. rewrite Hm. unfold upd at 1.
    destruct (Nat.eqb_spec m mi) as [->|Hne].
    - destruct (domain (masters st mi)) eqn:E; cbn [masters];
        rewrite ?upd_same; cbn; try rewrite E; reflexivity.
    - destruct (domain (masters st mi)); cbn [masters];
        rewrite ?upd_other by assumption; reflexivity. }
  assert (Hnot : forall d, ~ In mi (devices (domains st1 d))).
  { intros d. rewrite Hdom.
    destruct (domain (masters st mi)) as [di|] eqn:E.
    - destruct (Nat.eqb_spec d di) as [->|Hne].
      + cbn. apply list_del_not_In, I2.
      + intros Hin. apply I1 in Hin. congruence.
    - intros Hin. apply I1 in Hin. congruence. }
  split; [|rewrite !Hmas, Nat.eqb_refl; cbn; auto].
  split; [|split].
  - intros m d. rewrite Hmas.
    destruct (Nat.eqb_spec m mi) as [->|Hne].
    + cbn. split; [discriminate|]. intros Hin. exfalso. eapply Hnot; eassumption.
    + rewrite Hdom. rewrite I1.
      destruct (domain (masters st mi)) as [di|]; [|tauto].
      destruct (Nat.eqb_spec d di) as [->|]; [|tauto].
      cbn. split; [apply list_del_In_other; assumption|apply list_del_In].
  - intros d. rewrite Hdom.
    destruct (domain (masters st mi)) as [di|]; [|apply I2].
    destruct (Nat.eqb_spec d di) as [->|]; [|apply I2].
    cbn. apply list_del_NoDup, I2.
  - intros m. rewrite Hmas.
    destruct (Nat.eqb_spec m mi); [reflexivity|apply I3].
Qed.

Lemma attach_dev_unassigned kc fin di dev fw st r st' :
  attach_inv st ->
  dev_fwspec dev = Some fw ->
  assigned (ste (masters st (iommu_priv fw))) = false ->
  arm_smmu_attach_dev kc fin di dev st = Some (r, st') ->
  attach_inv st' /\
  (r = 0 ->
   domain (masters st' (iommu_priv fw)) = Some di /\
   assigned (ste (masters st' (iommu_priv fw))) = true /\
   In (iommu_priv fw) (devices (domains st' di)) /\
   forall d, d <> di -> ~ In (iommu_priv fw) (devices (domains st' d))) /\
  (r <> 0 ->
   domain (masters st' (iommu_priv fw)) = None /\
   forall d, ~ In (iommu_priv fw) (devices (domains st' d))).
Proof.
  intros (I1 & I2 & I3) Hfw Hun. unfold arm_smmu_attach_dev.
  rewrite Hfw, Hun. set (mi := iommu_priv fw) in *.
  assert (Hnone : domain (masters st mi) = None) by (apply I3; assumption).
  assert (Hnot : forall d, ~ In mi (devices (domains st d))).
  { intros d Hin. apply I1 in Hin. congruence. }
  set (bound := match dom_smmu (domains st di) with
                | Some s => _ | None => _ end).
  assert (Hb : devices (snd bound) = devices (domains st di)).
  { unfold bound. destruct (dom_smmu (domains st di)) as [s|].
    - destruct (negb _); reflexivity.
    - destruct (fin _ _) as [r0 [[stg c1] c2]].
      destruct (negb _); reflexivity. }
  destruct bound as [r0 d2]. cbn [snd] in Hb.
  destruct (Z.eqb_spec r0 0) as [->|Hr0]; cbn [negb].
  - destruct (arm_smmu_install_ste_for_dev _ _ _) as [st3|] eqn:Hinst;
      [|discriminate].
    intros H. injection H as <- <-.
    apply install_ste_frame in Hinst. destruct Hinst as [Hm Hd].
    cbn [masters domains] in Hm, Hd.
    assert (Hdev : forall d, devices (domains st3 d) =
                   if Nat.eqb d di then mi :: devices (domains st di)
                   else devices (domains st d)).
    { intros d. rewrite Hd. unfold upd.
      destruct (Nat.eqb d di); [|reflexivity].
      unfold list_add. cbn. rewrite Hb. reflexivity. }
    assert (Hmd : forall m, domain (masters st3 m) =
                  if Nat.eqb m mi then Some di else domain (masters st m)).
    { intros m. rewrite Hm. unfold upd.
      destruct (Nat.eqb m mi); reflexivity. }
    assert (Hma : forall m, m <> mi -> masters st3 m = masters st m).
    { intros m Hne. rewrite Hm. apply upd_other. assumption. }
    split; [|split; [intros _|intros Hc; contradiction]].
    + split; [|split].
      * intros m d. rewrite Hmd, Hdev.
        destruct (Nat.eqb_spec m mi) as [->|Hne];
          destruct (Nat.eqb_spec d di) as [->|Hnd]; cbn [In].
        -- tauto.
        -- split; [congruence|]. intros Hin. exfalso. eapply Hnot; eassumption.
        -- rewrite I1. split; [tauto|]. intros [H|H]; [congruence|assumption].
        -- apply I1.
      * intros d. rewrite Hdev. destruct (Nat.eqb_spec d di) as [->|].
        -- constructor; [apply Hnot|apply I2].
        -- apply I2.
      * intros m. destruct (Nat.eqb_spec m mi) as [->|Hne].
        -- rewrite Hm, upd_same. cbn.
           destruct (stage _); discriminate.
        -- rewrite Hma by assumption. apply I3.
    + rewrite Hmd, Nat.eqb_refl. split; [reflexivity|].
      split.
      { rewrite Hm, upd_same. cbn. destruct (stage _); reflexivity. }
      split.
      { rewrite Hdev, Nat.eqb_refl. left. reflexivity. }
      intros d Hd'. rewrite Hdev.
      destruct (Nat.eqb_spec d di); [contradiction|apply Hnot].
  - intros H. injection H as <- <-. cbn [masters domains].
    assert (Hdev : forall d,
              devices (upd (domains st) di d2 d) = devices (domains st d)).
    { intros d. unfold upd. destruct (Nat.eqb_spec d di) as [->|];
        [assumption|reflexivity]. }
    split; [|split; [intros Hc; contradiction|intros _]].
    + split; [|split].
      * intros m d. cbn [masters domains]. rewrite Hdev. apply I1.
      * intros d. cbn [domains]. rewrite Hdev. apply I2.
      * apply I3.
    + split; [assumption|]. intros d. rewrite Hdev. apply Hnot.
Qed.

(** C8.  In a driver whose bookkeeping is consistent, a call of
    [arm_smmu_attach_dev] for a device whose entry is assigned first runs
    [arm_smmu_detach_dev], after which the master is linked into no device
    list and has no domain, and goes on as a call for the detached device
    does; a call that returns 0 leaves the master with the new domain, in
    that domain's device list and in no other; after every call the
    bookkeeping is consistent again, so the master is in the lists of at
    most one domain. *)
Theorem attach_dev_single_domain
    (kc : kconfig) (fin : finalise_fn) (di : nat) (dev : device)
    (fw : iommu_fwspec) (st st' : driver) (r : Z) :
  attach_inv st ->
  dev_fwspec dev = Some fw ->
  arm_smmu_attach_dev kc fin di dev st = Some (r, st') ->
  (assigned (ste (masters st (iommu_priv fw))) = true ->
   exists st1,
     arm_smmu_detach_dev kc dev st = Some st1 /\
     domain (masters st1 (iommu_priv fw)) = None /\
     (forall d, ~ In (iommu_priv fw) (devices (domains st1 d))) /\
     arm_smmu_attach_dev kc fin di dev st1 = Some (r, st')) /\
  (r = 0 ->
   domain (masters st' (iommu_priv fw)) = Some di /\
   In (iommu_priv fw) (devices (domains st' di)) /\
   forall d, d <> di -> ~ In (iommu_priv fw) (devices (domains st' d))) /\
  attach_inv st' /\
  (forall d1 d2,
     In (iommu_priv fw) (devices (domains st' d1)) ->
     In (iommu_priv fw) (devices (domains st' d2)) -> d1 = d2) /\
  (forall d, NoDup (devices (domains st' d))).
Proof.
  intros Hinv Hfw Hrun.
  assert (Hmain :
    (assigned (ste (masters st (iommu_priv fw))) = true ->
     exists st1,
       arm_smmu_detach_dev kc dev st = Some st1 /\
       domain (masters st1 (iommu_priv fw)) = None /\
       (forall d, ~ In (iommu_priv fw) (devices (domains st1 d))) /\
       arm_smmu_attach_dev kc fin di dev st1 = Some (r, st')) /\
    (r = 0 ->
     domain (masters st' (iommu_priv fw)) = Some di /\
     In (iommu_priv fw) (devices (domains st' di)) /\
     forall d, d <> di -> ~ In (iommu_priv fw) (devices (domains st' d))) /\
    attach_inv st').
  { destruct (assigned (ste (masters st (iommu_priv fw)))) eqn:Ha.
    - pose proof Hrun as Hrun0.
      unfold arm_smmu_attach_dev in Hrun. rewrite Hfw, Ha in Hrun.
      destruct (arm_smmu_detach_dev kc dev st) as [st1|] eqn:Hdet;
        [|discriminate].
      destruct (detach_dev_spec kc dev fw st st1 Hinv Hfw Hdet)
        as (Hinv1 & Hdom1 & Hun1 & Hsm1 & Hnot1).
      assert (Hrun1 : arm_smmu_attach_dev kc fin di dev st1 = Some (r, st')).
      { unfold arm_smmu_attach_dev. rewrite Hfw, Hun1.
        rewrite <- Hsm1 in Hrun. exact Hrun. }
      destruct (attach_dev_unassigned kc fin di dev fw st1 r st'
                  Hinv1 Hfw Hun1 Hrun1) as (Hinv' & Hok & _).
      split; [intros _; exists st1; auto|].
      split; [|assumption].
      intros Hr. destruct (Hok Hr) as (A & _ & B & C). auto.
    - destruct (attach_dev_unassigned kc fin di dev fw st r st'
                  Hinv Hfw Ha Hrun) as (Hinv' & Hok & _).
      split; [discriminate|]. split; [|assumption].
      intros Hr. destruct (Hok Hr) as (A & _ & B & C). auto. }
  destruct Hmain as (H1 & H2 & H3).
  split; [assumption|]. split; [assumption|]. split; [assumption|].
  destruct H3 as (I1 & I2 & I3). split; [|assumption].
  intros d1 d2 Hin1 Hin2. apply I1 in Hin1. apply I1 in Hin2. congruence.
Qed.

Lemma sample_driver_inv : attach_inv sample_driver.
Proof.
  split; [|split].
  - intros m d. simpl. split; [discriminate|tauto].
  - intros d. simpl. constructor.
  - intros m _. reflexivity.
Defined.

Lemma sample_attach_runs :
  exists st, arm_smmu_attach_dev sample_kconfig sample_finalise 0%nat
               sample_dev sample_driver = Some (0, st) /\ sample_attached = st.
Proof.
  unfold sample_attached.
  destruct (arm_smmu_attach_dev sample_kconfig sample_finalise 0%nat
              sample_dev sample_driver) as [[r st]|] eqn:E.
  - exists st. split; [|reflexivity].
    assert (Hr : match arm_smmu_attach_dev sample_kconfig sample_finalise
                         0%nat sample_dev sample_driver with
                 | Some (r, _) => r | None => 1 end = 0)
      by (vm_compute; reflexivity).
    rewrite E in Hr. subst r. reflexivity.
  - exfalso.
    assert (Hr : match arm_smmu_attach_dev sample_kconfig sample_finalise
                         0%nat sample_dev sample_driver with
                 | Some _ => true | None => false end = true)
      by (vm_compute; reflexivity).
    rewrite E in Hr. discriminate Hr.
Defined.

Lemma attach_dev_single_domain_witness :
  attach_inv sample_attached /\
  dev_fwspec sample_dev = Some (mk_fwspec 0%nat [3]) /\
  assigned (ste (masters sample_attached 0%nat)) = true /\
  exists st',
    arm_smmu_attach_dev sample_kconfig sample_finalise 1%nat sample_dev
      sample_attached = Some (0, st') /\
    domain (masters st' 0%nat) = Some 1%nat /\
    In 0%nat (devices (domains st' 1%nat)) /\
    ~ In 0%nat (devices (domains st' 0%nat)).
Proof.
  destruct sample_attach_runs as (st & Hrun & Hst).
  assert (Hinv : attach_inv sample_attached).
  { rewrite Hst.
    apply (attach_dev_single_domain sample_kconfig sample_finalise 0%nat
             sample_dev (mk_fwspec 0%nat [3]) sample_driver st 0
             sample_driver_inv eq_refl Hrun). }
  split; [exact Hinv|]. split; [reflexivity|].
  split; [vm_compute; reflexivity|].
  destruct (arm_smmu_attach_dev sample_kconfig sample_finalise 1%nat
              sample_dev sample_attached) as [[r st']|] eqn:E.
  - assert (Hr : match arm_smmu_attach_dev sample_kconfig sample_finalise
                         1%nat sample_dev sample_attached with
                 | Some (r, _) => r | None => 1 end = 0)
      by (vm_compute; reflexivity).
    rewrite E in Hr. subst r.
    exists st'. split; [reflexivity|].
    destruct (attach_dev_single_domain sample_kconfig sample_finalise 1%nat
                sample_dev (mk_fwspec 0%nat [3]) sample_attached st' 0
                Hinv eq_refl E) as (_ & Hok & _).
    destruct (Hok eq_refl) as (A & B & C).
    split; [exact A|]. split; [exact B|]. apply C. discriminate.
  - exfalso.
    assert (Hr : match arm_smmu_attach_dev sample_kconfig sample_finalise
                         1%nat sample_dev sample_attached with
                 | Some _ => true | None => false end = true)
      by (vm_compute; reflexivity).
    rewrite E in Hr. discriminate Hr.
Defined.

(** ** The valid bitmap *)

Ltac dlia := Z.to_euclidean_division_equations; lia.

Lemma GENMASK_eq h l :
  0 <= l <= h -> h < 64 ->
  GENMASK h l = Z.land (Z.shiftl (Z.ones (64 - l)) l) (Z.ones (h + 1)).
Proof.
  intros Hl Hh. unfold GENMASK, ULONG_MAX, BITS_PER_LONG, u64.
  f_equal.
  - rewrite Z.shiftl_1_l, Z.shiftl_mul_pow2, Z.ones_equiv by lia.
    pose proof (pow2_pos l ltac:(lia)).
    assert (H64 : 2 ^ 64 = 2 ^ (64 - l) * 2 ^ l).
    { rewrite <- Z.pow_add_r by lia. f_equal. lia. }
    assert (2 ^ l <= 2 ^ 64) by (apply Z.pow_le_mono_r; lia).
    rewrite Z.mod_small by lia. nia.
  - apply Z.bits_inj'. intros i Hi.
    rewrite Z.shiftr_spec by lia.
    replace (2 ^ 64 - 1) with (Z.ones 64) by reflexivity.
    rewrite !Z.testbit_ones_nonneg by lia.
    destruct (Z.ltb_spec (i + (64 - 1 - h)) 64), (Z.ltb_spec i (h + 1));
      try reflexivity; lia.
Qed.

Lemma GENMASK_testbit h l i :
  0 <= l <= h -> h < 64 -> 0 <= i ->
  Z.testbit (GENMASK h l) i = (l <=? i) && (i <? h + 1).
Proof.
  intros Hl Hh Hi. rewrite GENMASK_eq by assumption.
  rewrite Z.land_spec, Z.shiftl_spec by lia.
  rewrite (Z.testbit_ones_nonneg (h + 1)) by lia.
  destruct (Z.leb_spec l i).
  - rewrite Z.testbit_ones_nonneg by lia.
    destruct (Z.ltb_spec (i - l) (64 - l)), (Z.ltb_spec i (h + 1));
      try reflexivity; lia.
  - rewrite Z.testbit_neg_r by lia. reflexivity.
Qed.

(** A word agrees with a mask, or with 0, on the bits of the mask. *)
Lemma land_mask_full w h l :
  0 <= l <= h -> h < 64 ->
  (forall i, l <= i <= h -> Z.testbit w i = true) ->
  Z.land w (GENMASK h l) = GENMASK h l.
Proof.
  intros Hl Hh Hw. apply Z.bits_inj'. intros i Hi.
  rewrite Z.land_spec, GENMASK_testbit by assumption.
  range_cases; [|apply Bool.andb_false_r].
  rewrite Hw by lia. reflexivity.
Qed.

Lemma land_mask_empty w h l :
  0 <= l <= h -> h < 64 ->
  (forall i, l <= i <= h -> Z.testbit w i = false) ->
  Z.land w (GENMASK h l) = 0.
Proof.
  intros Hl Hh Hw. apply Z.bits_inj'. intros i Hi.
  rewrite Z.land_spec, GENMASK_testbit, Z.bits_0 by assumption.
  range_cases; [|apply Bool.andb_false_r].
  rewrite Hw by lia. reflexivity.
Qed.

Lemma land_mask_bit w h l v i :
  0 <= l <= h -> h < 64 -> l <= i <= h ->
  Z.land w (GENMASK h l) = Z.land v (GENMASK h l) ->
  Z.testbit w i = Z.testbit v i.
Proof.
  intros Hl Hh Hi Heq.
  apply (f_equal (fun x => Z.testbit x i)) in Heq.
  rewrite !Z.land_spec, GENMASK_testbit in Heq by lia.
  replace ((l <=? i) && (i <? h + 1)) with true in Heq.
  - rewrite !Bool.andb_true_r in Heq. assumption.
  - symmetry. apply in_range_true. lia.
Qed.

Lemma GENMASK_below_64 h l :
  0 <= l <= h -> h < 64 -> Z.land (2 ^ 64 - 1) (GENMASK h l) = GENMASK h l.
Proof.
  intros Hl Hh. apply Z.bits_inj'. intros i Hi.
  rewrite Z.land_spec, GENMASK_testbit by assumption.
  replace (2 ^ 64 - 1) with (Z.ones 64) by reflexivity.
  rewrite Z.testbit_ones_nonneg by lia.
  range_cases; [|apply Bool.andb_false_r].
  destruct (Z.ltb_spec i 64); [reflexivity|lia].
Qed.

Lemma mod_over x m :
  0 < m -> 0 <= x < 2 * m -> x mod m = if x <? m then x else x - m.
Proof.
  intros Hm Hx. destruct (Z.ltb_spec x m).
  - apply Z.mod_small. lia.
  - replace x with (x - m + 1 * m) at 1 by lia.
    rewrite Z.mod_add by lia. apply Z.mod_small. lia.
Qed.

(** One turn of the loop of [__arm_smmu_cmdq_poll_set_valid_map], in
    numbers: from producer index [p] with [d] slots to go up to [e], the
    chunk is [len] slots long, stays inside one word of the bitmap and
    inside the range, and leaves [d - len] slots to go. *)
Lemma chunk_arith C W p e :
  0 < W -> C = 64 * W ->
  0 <= p < 2 * C -> 0 <= e < 2 * C -> p <> e ->
  (e - p) mod (2 * C) <= C ->
  let limit :=
    if ((p mod C) / 64 =? (e mod C) / 64) && ((p mod C) mod 64 <? (e mod C) mod 64)
    then (e mod C) mod 64 else 64 in
  let len := limit - (p mod C) mod 64 in
  1 <= len /\ len <= (e - p) mod (2 * C) /\
  (p mod C) mod 64 < limit <= 64 /\
  p mod C + len <= C /\
  0 <= (p + len) mod (2 * C) < 2 * C /\
  (e - (p + len) mod (2 * C)) mod (2 * C) = (e - p) mod (2 * C) - len.
Proof.
  intros HW HC Hp He Hne Hd.
  rewrite (mod_near (e - p) (2 * C)) in * by lia.
  rewrite (mod_over p C), (mod_over e C) by lia.
  set (pi := if p <? C then p else p - C).
  set (ei := if e <? C then e else e - C).
  intros limit len.
  assert (Hpi : 0 <= pi < C) by (unfold pi; destruct (p <? C) eqn:E; lia).
  assert (Hei : 0 <= ei < C) by (unfold ei; destruct (e <? C) eqn:E; lia).
  assert (Hlen : 1 <= len /\ pi mod 64 < limit <= 64 /\ pi + len <= C /\
                 len <= (if e - p <? 0 then e - p + 2 * C else e - p)).
  { unfold len, limit.
    destruct ((pi / 64 =? ei / 64) && (pi mod 64 <? ei mod 64)) eqn:Ec.
    - apply Bool.andb_true_iff in Ec. destruct Ec as [E1 E2].
      apply Z.eqb_eq in E1. apply Z.ltb_lt in E2.
      unfold pi, ei in *.
      destruct (p <? C) eqn:Ep, (e <? C) eqn:Ee, (e - p <? 0) eqn:En;
        dlia.
    - apply Bool.andb_false_iff in Ec.
      rewrite Z.eqb_neq, Z.ltb_ge in Ec.
      unfold pi, ei in *.
      destruct (p <? C) eqn:Ep, (e <? C) eqn:Ee, (e - p <? 0) eqn:En;
        dlia. }
  destruct Hlen as (L1 & L2 & L3 & L4).
  split; [assumption|]. split; [assumption|]. split; [assumption|].
  split; [assumption|].
  assert (Hlen64 : len <= 64) by dlia.
  rewrite (mod_over (p + len) (2 * C)) by lia.
  assert (Hp' : 0 <= (if p + len <? 2 * C then p + len else p + len - 2 * C)
                < 2 * C).
  { destruct (p + len <? 2 * C) eqn:E; lia. }
  split; [assumption|].
  rewrite mod_near by lia.
  unfold pi in *.
  destruct (p <? C) eqn:Ep, (e - p <? 0) eqn:En,
           (p + len <? 2 * C) eqn:El;
    match goal with
    | |- (if ?c then _ else _) = _ => destruct c eqn:Ex
    end; lia.
Qed.

Lemma capacity_words s :
  6 <= s -> capacity s = 64 * 2 ^ (s - 6) /\ 0 < 2 ^ (s - 6).
Proof.
  intros Hs. split; [|apply pow2_pos; lia].
  unfold capacity. change 64 with (2 ^ 6).
  rewrite <- Z.pow_add_r by lia. f_equal. lia.
Qed.

Lemma Q_IDX_llq p c s x :
  0 <= s -> Q_IDX (mk_llq p c s) x = position s x.
Proof. intros Hs. apply (Q_IDX_position (mk_llq p c s)). assumption. Qed.

Lemma queue_inc_prod_n_small p c s n :
  0 <= s < 31 -> 0 <= p < 2 * capacity s ->
  queue_inc_prod_n (mk_llq p c s) n = (p + n) mod (2 * capacity s).
Proof.
  intros Hs Hp. rewrite queue_inc_prod_n_lor by assumption.
  cbn [prod max_n_shift].
  rewrite two_capacity in * by lia.
  rewrite Q_OVF_testbit.
  rewrite (testbit_small p (s + 1)) by lia. apply Z.lor_0_l.
Qed.

Lemma Q_WRP_is_zero p c s x :
  0 <= s -> (Q_WRP (mk_llq p c s) x =? 0) = valid_pattern s x.
Proof.
  intros Hs. rewrite Q_WRP_testbit by assumption. cbn [max_n_shift].
  unfold valid_pattern. pose proof (pow2_pos s Hs).
  destruct (Z.testbit x s); cbn [negb].
  - apply Z.eqb_neq. lia.
  - reflexivity.
Qed.

(** Position and pattern depend on the index modulo twice the capacity. *)
Lemma position_mod s x :
  0 <= s -> position s (x mod (2 * capacity s)) = position s x.
Proof.
  intros Hs. unfold position. apply Z.mod_mod_divide.
  exists 2. reflexivity.
Qed.

Lemma valid_pattern_mod s x :
  0 <= s -> valid_pattern s (x mod (2 * capacity s)) = valid_pattern s x.
Proof.
  intros Hs. unfold valid_pattern. rewrite two_capacity by assumption.
  rewrite Z.mod_pow2_bits_low by lia. reflexivity.
Qed.

(** Inside a chunk that does not run over the capacity, positions advance
    one by one and the pattern stays. *)
Lemma no_wrap_within s p j :
  0 <= s -> 0 <= j -> position s p + j < capacity s ->
  position s (p + j) = position s p + j /\
  valid_pattern s (p + j) = valid_pattern s p.
Proof.
  intros Hs Hj Hlt.
  pose proof (position_bound s p Hs) as Hp.
  pose proof (pow2_pos s Hs) as HC. fold (capacity s) in HC.
  assert (Hdiv : p + j = capacity s * (p / capacity s) + (position s p + j)).
  { unfold position. pose proof (Z.div_mod p (capacity s)). lia. }
  split.
  - unfold position at 1. rewrite Hdiv.
    rewrite Z.add_comm, Z.mul_comm, Z.mod_add by lia.
    apply Z.mod_small. lia.
  - unfold valid_pattern. f_equal.
    apply Z.b2z_inj. rewrite !testbit_div_mod by assumption.
    fold (capacity s). f_equal.
    rewrite Hdiv at 1.
    rewrite Z.add_comm, Z.mul_comm, Z.div_add by lia.
    rewrite Z.div_small by lia. reflexivity.
Qed.

Lemma valid_bit_xor_store vm w h l slot :
  0 <= w < Z.of_nat (length vm) -> 0 <= l <= h -> h < 64 -> 0 <= slot ->
  valid_bit (store vm w (Z.lxor (load vm w) (GENMASK h l))) slot =
  xorb (valid_bit vm slot)
       ((slot / 64 =? w) && ((l <=? slot mod 64) && (slot mod 64 <? h + 1))).
Proof.
  intros Hw Hl Hh Hslot. unfold valid_bit, BIT_WORD, BITS_PER_LONG.
  destruct (Z.eqb_spec (slot / 64) w) as [->|Hne].
  - rewrite load_store_eq by assumption.
    rewrite Z.lxor_spec, GENMASK_testbit by dlia. reflexivity.
  - rewrite load_store_neq by dlia.
    simpl. rewrite Bool.xorb_false_r. reflexivity.
Qed.

Lemma in_range_step s p len d slot :
  0 <= s -> 0 <= slot < capacity s ->
  1 <= len <= d -> d <= capacity s ->
  position s p + len <= capacity s ->
  in_range s p d slot =
  xorb ((position s p <=? slot) && (slot <? position s p + len))
       (in_range s ((p + len) mod (2 * capacity s)) (d - len) slot).
Proof.
  intros Hs Hslot Hlen Hd Hfit.
  pose proof (position_bound s p Hs) as Hp.
  assert (HC : 0 < capacity s) by (apply pow2_pos; assumption).
  unfold in_range.
  assert (E1 : (slot - p) mod capacity s
               = (slot - position s p) mod capacity s).
  { unfold position. rewrite Zminus_mod_idemp_r. reflexivity. }
  assert (E2 : (slot - (p + len) mod (2 * capacity s)) mod capacity s
               = (slot - len - position s p) mod capacity s).
  { rewrite <- (Zminus_mod_idemp_r slot ((p + len) mod _)).
    fold (position s ((p + len) mod (2 * capacity s))).
    rewrite position_mod by assumption. unfold position.
    rewrite Zminus_mod_idemp_r.
    rewrite (Zminus_mod_idemp_r (slot - len) p). f_equal. lia. }
  rewrite E1, E2.
  rewrite (mod_near (slot - position s p)) by lia.
  rewrite (mod_near (slot - len - position s p)) by lia.
  destruct (Z.ltb_spec (slot - position s p) 0),
           (Z.ltb_spec (slot - len - position s p) 0);
    range_cases;
    repeat match goal with
    | |- context [?a <? ?b] => destruct (Z.ltb_spec a b)
    end; simpl; try reflexivity; lia.
Qed.

Lemma range_len_bound s p e :
  0 <= s -> 0 <= range_len s p e < 2 * capacity s.
Proof.
  intros Hs. apply Z.mod_pos_bound.
  pose proof (pow2_pos s Hs). unfold capacity. lia.
Qed.

Lemma range_len_zero s p e :
  0 <= s -> 0 <= p < 2 * capacity s -> 0 <= e < 2 * capacity s ->
  range_len s p e = 0 <-> p = e.
Proof.
  intros Hs Hp He. unfold range_len.
  rewrite mod_near by lia.
  destruct (Z.ltb_spec (e - p) 0); lia.
Qed.

(** The marking loop flips the bits of the slots of its range, and no
    other, given fuel for one turn per slot. *)
Lemma set_loop_spec s e :
  6 <= s < 31 -> 0 <= e < 2 * capacity s ->
  forall fuel vm p,
    0 <= p < 2 * capacity s ->
    range_len s p e <= capacity s ->
    (Z.to_nat (range_len s p e) < fuel)%nat ->
    Z.of_nat (length vm) * 64 = capacity s ->
    exists vm',
      poll_set_valid_map_loop fuel s vm p e (BIT_WORD (position s e))
        (position s e mod BITS_PER_LONG) true = Some (Completed vm') /\
      length vm' = length vm /\
      forall slot, 0 <= slot < capacity s ->
        valid_bit vm' slot =
        xorb (valid_bit vm slot) (in_range s p (range_len s p e) slot).
Proof.
  intros Hs He. induction fuel as [|fuel IH]; intros vm p Hp Hd Hfuel Hvm;
    [lia|].
  destruct (capacity_words s ltac:(lia)) as [HCw HW].
  cbn [poll_set_valid_map_loop].
  destruct (Z.eqb_spec p e) as [->|Hne].
  - exists vm. split; [reflexivity|]. split; [reflexivity|].
    intros slot Hslot.
    replace (range_len s e e) with 0
      by (symmetry; apply range_len_zero; lia).
    unfold in_range.
    pose proof (Z.mod_pos_bound (slot - e) (capacity s) ltac:(lia)).
    destruct (Z.ltb_spec ((slot - e) mod capacity s) 0); [lia|].
    rewrite Bool.xorb_false_r. reflexivity.
  - rewrite Q_IDX_llq by lia.
    unfold BIT_WORD, BITS_PER_LONG in *.
    pose proof (chunk_arith (capacity s) (2 ^ (s - 6)) p e HW HCw Hp He Hne Hd)
      as Hchunk.
    cbv zeta in Hchunk. fold (position s p) (position s e) in Hchunk.
    fold (range_len s p e) in Hchunk.
    set (limit := if (position s p / 64 =? position s e / 64)
                     && (position s p mod 64 <? position s e mod 64)
                  then position s e mod 64 else 64) in *.
    destruct Hchunk as (L1 & L2 & L3 & L4 & L5 & L6).
    rewrite queue_inc_prod_n_small by lia.
    set (len := limit - position s p mod 64) in *.
    set (p' := (p + len) mod (2 * capacity s)) in *.
    fold (range_len s p' e) in L6.
    pose proof (position_bound s p ltac:(lia)) as Hpos.
    set (vm1 := store vm (position s p / 64)
                  (Z.lxor (load vm (position s p / 64))
                          (GENMASK (limit - 1) (position s p mod 64)))).
    destruct (IH vm1 p') as (vm' & Hrun & Hlen' & Hbits).
    { assumption. }
    { lia. }
    { lia. }
    { unfold vm1. rewrite store_length. assumption. }
    exists vm'. split; [exact Hrun|].
    split; [rewrite Hlen'; unfold vm1; apply store_length|].
    intros slot Hslot. rewrite Hbits by assumption.
    unfold vm1. rewrite valid_bit_xor_store by dlia.
    rewrite Bool.xorb_assoc. f_equal.
    rewrite (in_range_step s p len (range_len s p e) slot) by lia.
    fold p'. rewrite L6. f_equal.
    replace (limit - 1 + 1) with limit by lia.
    unfold len.
    destruct (Z.eqb_spec (slot / 64) (position s p / 64));
      range_cases; try reflexivity; dlia.
Qed.

Lemma position_add_mod s x j :
  0 <= s ->
  position s (x mod (2 * capacity s) + j) = position s (x + j) /\
  valid_pattern s (x mod (2 * capacity s) + j) = valid_pattern s (x + j).
Proof.
  intros Hs.
  assert (HC : 0 < capacity s) by (apply pow2_pos; assumption).
  rewrite <- (position_mod s (_ + j)), <- (valid_pattern_mod s (_ + j))
    by assumption.
  rewrite Z.add_mod_idemp_l by lia.
  rewrite position_mod, valid_pattern_mod by assumption. split; reflexivity.
Qed.

(** The word the poll compares against: all ones for wrap bit 0, zero for
    wrap bit 1. *)
Lemma poll_valid_word (b : bool) :
  u64 (ULONG_MAX + (if b then 0 else 1)) = if b then 2 ^ 64 - 1 else 0.
Proof. destruct b; reflexivity. Qed.

Lemma testbit_poll_word (b : bool) i :
  0 <= i < 64 -> Z.testbit (if b then 2 ^ 64 - 1 else 0) i = b.
Proof.
  intros Hi. destruct b; [|apply Z.bits_0].
  replace (2 ^ 64 - 1) with (Z.ones 64) by reflexivity.
  apply Z.ones_spec_low. lia.
Qed.

(** The polling loop runs through when every slot of its range holds the
    pattern of its producer index. *)
Lemma poll_loop_spec s e :
  6 <= s < 31 -> 0 <= e < 2 * capacity s ->
  forall fuel vm p,
    0 <= p < 2 * capacity s ->
    range_len s p e <= capacity s ->
    (Z.to_nat (range_len s p e) < fuel)%nat ->
    (forall j, 0 <= j < range_len s p e ->
       valid_bit vm (position s (p + j)) = valid_pattern s (p + j)) ->
    poll_set_valid_map_loop fuel s vm p e (BIT_WORD (position s e))
      (position s e mod BITS_PER_LONG) false = Some (Completed vm).
Proof.
  intros Hs He. induction fuel as [|fuel IH]; intros vm p Hp Hd Hfuel Hpat;
    [lia|].
  destruct (capacity_words s ltac:(lia)) as [HCw HW].
  cbn [poll_set_valid_map_loop].
  destruct (Z.eqb_spec p e) as [->|Hne]; [reflexivity|].
  rewrite Q_IDX_llq, Q_WRP_is_zero, poll_valid_word by lia.
  unfold BIT_WORD, BITS_PER_LONG in *.
  pose proof (chunk_arith (capacity s) (2 ^ (s - 6)) p e HW HCw Hp He Hne Hd)
    as Hchunk.
  cbv zeta in Hchunk. fold (position s p) (position s e) in Hchunk.
  fold (range_len s p e) in Hchunk.
  set (limit := if (position s p / 64 =? position s e / 64)
                   && (position s p mod 64 <? position s e mod 64)
                then position s e mod 64 else 64) in *.
  destruct Hchunk as (L1 & L2 & L3 & L4 & L5 & L6).
  rewrite queue_inc_prod_n_small by lia.
  set (len := limit - position s p mod 64) in *.
  set (p' := (p + len) mod (2 * capacity s)) in *.
  fold (range_len s p' e) in L6.
  pose proof (position_bound s p ltac:(lia)) as Hpos.
  assert (Hword : forall i, position s p mod 64 <= i <= limit - 1 ->
            Z.testbit (load vm (position s p / 64)) i = valid_pattern s p).
  { intros i Hi.
    destruct (no_wrap_within s p (i - position s p mod 64)) as [Npos Npat];
      [lia|lia|lia|].
    rewrite <- Npat, <- Hpat by lia. rewrite Npos.
    unfold valid_bit, BIT_WORD, BITS_PER_LONG. f_equal; [f_equal|]; dlia. }
  assert (Hcond : Z.land (load vm (position s p / 64))
                         (GENMASK (limit - 1) (position s p mod 64))
                  = Z.land (if valid_pattern s p then 2 ^ 64 - 1 else 0)
                           (GENMASK (limit - 1) (position s p mod 64))).
  { destruct (valid_pattern s p) eqn:Ev.
    - rewrite GENMASK_below_64 by dlia. apply land_mask_full; [dlia|dlia|].
      exact Hword.
    - rewrite Z.land_0_l. apply land_mask_empty; [dlia|dlia|]. exact Hword. }
  rewrite Hcond, Z.eqb_refl.
  apply IH; [assumption|lia|lia|].
  intros j Hj. unfold p'.
  destruct (position_add_mod s (p + len) j ltac:(lia)) as [-> ->].
  replace (p + len + j) with (p + (len + j)) by lia.
  apply Hpat. lia.
Qed.

(** The polling loop waits at its first word when the first slot of a
    range that is not empty does not hold the pattern. *)
Lemma poll_loop_spins s e fuel vm p :
  6 <= s < 31 -> 0 <= e < 2 * capacity s -> 0 <= p < 2 * capacity s ->
  p <> e -> range_len s p e <= capacity s ->
  valid_bit vm (position s p) = negb (valid_pattern s p) ->
  poll_set_valid_map_loop (S fuel) s vm p e (BIT_WORD (position s e))
    (position s e mod BITS_PER_LONG) false
  = Some (Spins (BIT_WORD (position s p))).
Proof.
  intros Hs He Hp Hne Hd Hbit.
  destruct (capacity_words s ltac:(lia)) as [HCw HW].
  cbn [poll_set_valid_map_loop].
  destruct (Z.eqb_spec p e) as [|_]; [contradiction|].
  rewrite Q_IDX_llq, Q_WRP_is_zero, poll_valid_word by lia.
  unfold BIT_WORD, BITS_PER_LONG in *.
  pose proof (chunk_arith (capacity s) (2 ^ (s - 6)) p e HW HCw Hp He Hne Hd)
    as Hchunk.
  cbv zeta in Hchunk. fold (position s p) (position s e) in Hchunk.
  set (limit := if (position s p / 64 =? position s e / 64)
                   && (position s p mod 64 <? position s e mod 64)
                then position s e mod 64 else 64) in *.
  destruct Hchunk as (L1 & L2 & L3 & L4 & L5 & L6).
  pose proof (position_bound s p ltac:(lia)) as Hpos.
  match goal with
  | |- (if ?a =? ?b then _ else _) = _ => destruct (Z.eqb_spec a b) as [E|E]
  end; [|reflexivity].
  exfalso.
  apply (land_mask_bit _ (limit - 1) (position s p mod 64) _
           (position s p mod 64)) in E; [|dlia|dlia|dlia].
  rewrite testbit_poll_word in E by dlia.
  unfold valid_bit, BIT_WORD, BITS_PER_LONG in Hbit.
  rewrite Hbit in E. destruct (valid_pattern s p); discriminate.
Qed.

Lemma next_wrap_bound s p :
  0 <= s -> 0 <= next_wrap s p < 2 * capacity s.
Proof.
  intros Hs. apply Z.mod_pos_bound.
  pose proof (pow2_pos s Hs). unfold capacity. lia.
Qed.

Lemma range_len_next_wrap s p e :
  0 <= s -> range_len s (next_wrap s p) (next_wrap s e) = range_len s p e.
Proof.
  intros Hs. unfold range_len, next_wrap.
  rewrite <- Zminus_mod. f_equal. lia.
Qed.

Lemma testbit_add_capacity s x :
  0 <= s -> Z.testbit (x + capacity s) s = negb (Z.testbit x s).
Proof.
  intros Hs. pose proof (pow2_pos s Hs) as HC. fold (capacity s) in HC.
  apply Z.b2z_inj. rewrite testbit_div_mod by assumption.
  fold (capacity s).
  replace (x + capacity s) with (x + 1 * capacity s) by lia.
  rewrite Z.div_add by lia.
  pose proof (testbit_div_mod x s Hs) as Hx. fold (capacity s) in Hx.
  destruct (Z.testbit x s); cbn [negb Z.b2z] in *; dlia.
Qed.

(** One revolution on, a producer index has the same slot and the inverse
    pattern. *)
Lemma next_wrap_slot s p j :
  0 <= s ->
  position s (next_wrap s p + j) = position s (p + j) /\
  valid_pattern s (next_wrap s p + j) = negb (valid_pattern s (p + j)).
Proof.
  intros Hs. pose proof (pow2_pos s Hs) as HC. fold (capacity s) in HC.
  unfold next_wrap.
  destruct (position_add_mod s (p + capacity s) j Hs) as [-> ->].
  replace (p + capacity s + j) with (p + j + capacity s) by lia.
  split.
  - unfold position.
    replace (p + j + capacity s) with (p + j + 1 * capacity s) by lia.
    apply Z.mod_add. lia.
  - unfold valid_pattern. rewrite testbit_add_capacity by assumption.
    reflexivity.
Qed.

Lemma in_range_next_wrap s p d slot :
  0 <= s -> in_range s (next_wrap s p) d slot = in_range s p d slot.
Proof.
  intros Hs. pose proof (pow2_pos s Hs) as HC. fold (capacity s) in HC.
  unfold in_range, next_wrap. f_equal.
  rewrite <- (Zminus_mod_idemp_r slot ((p + capacity s) mod _)).
  fold (position s ((p + capacity s) mod (2 * capacity s))).
  rewrite position_mod by assumption. unfold position.
  rewrite Zminus_mod_idemp_r.
  replace (slot - (p + capacity s)) with (slot - p + (-1) * capacity s) by lia.
  apply Z.mod_add. lia.
Qed.

Lemma in_range_member s p d j :
  0 <= s -> 0 <= j < d -> d <= capacity s ->
  in_range s p d (position s (p + j)) = true.
Proof.
  intros Hs Hj Hd. unfold in_range, position.
  rewrite Zminus_mod_idemp_l.
  replace (p + j - p) with j by lia.
  rewrite Z.mod_small by lia. apply Z.ltb_lt. lia.
Qed.

Lemma valid_bit_zalloc n slot : valid_bit (bitmap_zalloc n) slot = false.
Proof.
  unfold valid_bit, bitmap_zalloc. rewrite load_repeat_0. apply Z.bits_0.
Qed.

(** C2.  In a command queue of 64 to 2^30 slots, take a range
    [[sprod, eprod)] of at most one revolution whose slots hold the inverse
    of the pattern of their producer indices, the pattern of the wrap
    before.  Then [arm_smmu_cmdq_set_valid_map] runs to its end, flips the
    bits of exactly the slots of the range, and leaves each slot of the range
    with the pattern [arm_smmu_cmdq_poll_valid_map] waits for, the inverse of
    the wrap bit of its producer index, so that the poll of the same range
    runs through without waiting.  Once the producer has wrapped the same
    bits are the inverse of the pattern again; marking the slots again then
    gives every bit of the bitmap its first value back, and a poll of the
    first range waits again.  In a zeroed bitmap every bit is 0, which is not
    the pattern of wrap bit 0. *)
Theorem valid_map_set_then_poll
    (cmdq : arm_smmu_cmdq) (sprod eprod : Z) (fuel : nat) :
  let s := max_n_shift (llq (q cmdq)) in
  let d := range_len s sprod eprod in
  6 <= s < 31 ->
  Z.of_nat (length (valid_map cmdq)) * 64 = capacity s ->
  0 <= sprod < 2 * capacity s -> 0 <= eprod < 2 * capacity s ->
  d <= capacity s ->
  (Z.to_nat d < fuel)%nat ->
  (forall j, 0 <= j < d ->
     valid_bit (valid_map cmdq) (position s (sprod + j))
     = negb (valid_pattern s (sprod + j))) ->
  (forall slot p, Z.testbit p s = false ->
     valid_bit (bitmap_zalloc (capacity s)) slot = false /\
     valid_pattern s p = true) /\
  exists vm',
    arm_smmu_cmdq_set_valid_map fuel cmdq sprod eprod = Some (Completed vm') /\
    length vm' = length (valid_map cmdq) /\
    (forall j, 0 <= j < d ->
       valid_bit vm' (position s (sprod + j)) = valid_pattern s (sprod + j)) /\
    (forall slot, 0 <= slot < capacity s ->
       valid_bit vm' slot
       = xorb (valid_bit (valid_map cmdq) slot) (in_range s sprod d slot)) /\
    arm_smmu_cmdq_poll_valid_map fuel (with_valid_map cmdq vm') sprod eprod
      = Some (Completed vm') /\
    (forall j, 0 <= j < d ->
       valid_bit vm' (position s (next_wrap s sprod + j))
       = negb (valid_pattern s (next_wrap s sprod + j))) /\
    exists vm'',
      arm_smmu_cmdq_set_valid_map fuel (with_valid_map cmdq vm')
        (next_wrap s sprod) (next_wrap s eprod) = Some (Completed vm'') /\
      (forall slot, 0 <= slot < capacity s ->
         valid_bit vm'' slot = valid_bit (valid_map cmdq) slot) /\
      (sprod <> eprod ->
       arm_smmu_cmdq_poll_valid_map fuel (with_valid_map cmdq vm'') sprod eprod
       = Some (Spins (BIT_WORD (position s sprod)))).
Proof.
  intros s d Hs Hvm Hp He Hd Hfuel Hpat.
  split.
  { intros slot p Hbit. split; [apply valid_bit_zalloc|].
    unfold valid_pattern. rewrite Hbit. reflexivity. }
  unfold arm_smmu_cmdq_set_valid_map, arm_smmu_cmdq_poll_valid_map,
    __arm_smmu_cmdq_poll_set_valid_map.
  cbn [with_valid_map q valid_map]. fold s. cbv zeta.
  rewrite !Q_IDX_llq by lia.
  destruct (set_loop_spec s eprod Hs He fuel (valid_map cmdq) sprod
              Hp Hd Hfuel Hvm) as (vm' & Hset & Hlen & Hbits).
  fold d in Hbits.
  exists vm'. split; [exact Hset|]. split; [exact Hlen|].
  assert (Hvalid : forall j, 0 <= j < d ->
            valid_bit vm' (position s (sprod + j))
            = valid_pattern s (sprod + j)).
  { intros j Hj.
    rewrite Hbits by (apply position_bound; lia).
    rewrite Hpat, in_range_member by lia.
    destruct (valid_pattern s (sprod + j)); reflexivity. }
  split; [exact Hvalid|]. split; [exact Hbits|].
  split; [apply poll_loop_spec; assumption|].
  split.
  { intros j Hj. destruct (next_wrap_slot s sprod j ltac:(lia)) as [-> ->].
    rewrite Hvalid by assumption.
    destruct (valid_pattern s (sprod + j)); reflexivity. }
  destruct (set_loop_spec s (next_wrap s eprod) Hs
              (next_wrap_bound s eprod ltac:(lia)) fuel vm'
              (next_wrap s sprod))
    as (vm'' & Hset2 & Hlen2 & Hbits2).
  { apply next_wrap_bound; lia. }
  { rewrite range_len_next_wrap by lia. assumption. }
  { rewrite range_len_next_wrap by lia. assumption. }
  { rewrite Hlen. assumption. }
  rewrite range_len_next_wrap in Hbits2 by lia. fold d in Hbits2.
  assert (Hback : forall slot, 0 <= slot < capacity s ->
            valid_bit vm'' slot = valid_bit (valid_map cmdq) slot).
  { intros slot Hslot.
    rewrite Hbits2, Hbits, in_range_next_wrap by (assumption || lia).
    rewrite Bool.xorb_assoc, Bool.xorb_nilpotent, Bool.xorb_false_r.
    reflexivity. }
  exists vm''. split; [exact Hset2|]. split; [exact Hback|].
  intros Hne.
  destruct fuel as [|fuel]; [lia|].
  apply poll_loop_spins; try assumption.
  rewrite Hback by (apply position_bound; lia).
  assert (Hd0 : 0 < d).
  { pose proof (range_len_bound s sprod eprod ltac:(lia)) as B1.
    pose proof (range_len_zero s sprod eprod ltac:(lia) Hp He) as B2.
    unfold d. lia. }
  specialize (Hpat 0 ltac:(lia)). rewrite Z.add_0_r in Hpat. exact Hpat.
Qed.

Lemma valid_map_set_then_poll_witness :
  6 <= max_n_shift (llq (q sample_cmdq)) < 31 /\
  Z.of_nat (length (valid_map sample_cmdq)) * 64 = capacity 7 /\
  0 <= 60 < 2 * capacity 7 /\ 0 <= 70 < 2 * capacity 7 /\
  range_len 7 60 70 <= capacity 7 /\
  (Z.to_nat (range_len 7 60 70) < 20)%nat /\
  (forall j, 0 <= j < range_len 7 60 70 ->
     valid_bit (valid_map sample_cmdq) (position 7 (60 + j))
     = negb (valid_pattern 7 (60 + j))) /\
  exists vm',
    arm_smmu_cmdq_set_valid_map 20 sample_cmdq 60 70 = Some (Completed vm') /\
    arm_smmu_cmdq_poll_valid_map 20 (with_valid_map sample_cmdq vm') 60 70
    = Some (Completed vm').
Proof.
  assert (H1 : 6 <= max_n_shift (llq (q sample_cmdq)) < 31) by (simpl; lia).
  assert (H2 : Z.of_nat (length (valid_map sample_cmdq)) * 64 = capacity 7)
    by reflexivity.
  assert (H3 : 0 <= 60 < 2 * capacity 7) by (change (capacity 7) with 128; lia).
  assert (H4 : 0 <= 70 < 2 * capacity 7) by (change (capacity 7) with 128; lia).
  assert (H5 : range_len 7 60 70 <= capacity 7)
    by (change (range_len 7 60 70) with 10; change (capacity 7) with 128; lia).
  assert (H6 : (Z.to_nat (range_len 7 60 70) < 20)%nat)
    by (change (range_len 7 60 70) with 10; lia).
  assert (H7 : forall j, 0 <= j < range_len 7 60 70 ->
            valid_bit (valid_map sample_cmdq) (position 7 (60 + j))
            = negb (valid_pattern 7 (60 + j))).
  { intros j Hj. change (range_len 7 60 70) with 10 in Hj.
    change (valid_map sample_cmdq) with (bitmap_zalloc 128).
    rewrite valid_bit_zalloc. unfold valid_pattern.
    rewrite (testbit_small (60 + j) 7) by lia. reflexivity. }
  repeat (split; [assumption|]).
  destruct (valid_map_set_then_poll sample_cmdq 60 70 20 H1 H2 H3 H4 H5 H6 H7)
    as (_ & vm' & Hset & _ & _ & _ & Hpoll & _).
  exists vm'. split; assumption.
Defined.

(** ** Counting the entries of a ring *)

Lemma queue_inc_cons_lor q_ :
  0 <= max_n_shift q_ < 31 ->
  cons (queue_inc_cons q_) =
  Z.lor (Q_OVF (cons q_)) ((cons q_ + 1) mod 2 ^ (max_n_shift q_ + 1)).
Proof.
  intros Hs.
  change (cons (queue_inc_cons q_))
    with (queue_inc_prod_n (mk_llq (cons q_) (cons q_) (max_n_shift q_)) 1).
  rewrite queue_inc_prod_n_lor by (cbn [max_n_shift]; lia). reflexivity.
Qed.

(** The low bits of an incremented index. *)
Lemma queue_inc_prod_n_mod q_ n :
  0 <= max_n_shift q_ < 31 ->
  queue_inc_prod_n q_ n mod (2 * capacity (max_n_shift q_)) =
  (prod q_ + n) mod (2 * capacity (max_n_shift q_)) /\
  0 <= queue_inc_prod_n q_ n < 2 ^ 32 /\
  Q_OVF (queue_inc_prod_n q_ n) = Q_OVF (prod q_).
Proof.
  intros Hs. rewrite two_capacity by lia.
  pose proof (pow2_pos (max_n_shift q_ + 1) ltac:(lia)) as Hpos.
  rewrite queue_inc_prod_n_lor by assumption.
  destruct (lor_ovf_low (prod q_)
              ((prod q_ + n) mod 2 ^ (max_n_shift q_ + 1))
              (max_n_shift q_) Hs) as (A1 & A2 & A3).
  { apply Z.mod_pos_bound; lia. }
  rewrite A1, A2. repeat split; lia.
Qed.

Lemma queue_inc_cons_mod q_ :
  0 <= max_n_shift q_ < 31 ->
  cons (queue_inc_cons q_) mod (2 * capacity (max_n_shift q_)) =
  (cons q_ + 1) mod (2 * capacity (max_n_shift q_)) /\
  0 <= cons (queue_inc_cons q_) < 2 ^ 32 /\
  Q_OVF (cons (queue_inc_cons q_)) = Q_OVF (cons q_).
Proof.
  intros Hs.
  change (cons (queue_inc_cons q_))
    with (queue_inc_prod_n (mk_llq (cons q_) (cons q_) (max_n_shift q_)) 1).
  apply (queue_inc_prod_n_mod (mk_llq (cons q_) (cons q_) (max_n_shift q_)) 1).
  assumption.
Qed.

Lemma in_flight_bound q_ :
  0 <= max_n_shift q_ -> 0 <= in_flight q_ < 2 * capacity (max_n_shift q_).
Proof.
  intros Hs. unfold in_flight. apply Z.mod_pos_bound.
  pose proof (pow2_pos _ Hs). unfold capacity. lia.
Qed.

Lemma queue_empty_in_flight q_ :
  0 <= max_n_shift q_ ->
  queue_empty q_ = true <-> in_flight q_ = 0.
Proof.
  intros Hs.
  pose proof (pow2_pos _ Hs) as HC. fold (capacity (max_n_shift q_)) in HC.
  pose proof (position_bound (max_n_shift q_) (prod q_) Hs) as Hp.
  pose proof (position_bound (max_n_shift q_) (cons q_) Hs) as Hc.
  pose proof (wrap_bit_bound (max_n_shift q_) (prod q_)) as Hwp.
  pose proof (wrap_bit_bound (max_n_shift q_) (cons q_)) as Hwc.
  rewrite queue_empty_spec, in_flight_split by assumption.
  set (C := capacity (max_n_shift q_)) in *.
  set (pi := position (max_n_shift q_) (prod q_)) in *.
  set (ci := position (max_n_shift q_) (cons q_)) in *.
  set (wp := wrap_bit (max_n_shift q_) (prod q_)) in *.
  set (wc := wrap_bit (max_n_shift q_) (cons q_)) in *.
  rewrite Bool.andb_true_iff, !Z.eqb_eq.
  assert (Hr : - (2 * C) <= C * (wp - wc) + (pi - ci) < 2 * C) by nia.
  rewrite mod_near by lia.
  assert (Hp01 : wp = 0 \/ wp = 1) by lia.
  assert (Hc01 : wc = 0 \/ wc = 1) by lia.
  destruct Hp01 as [-> | ->], Hc01 as [-> | ->];
    match goal with
    | |- context [?x <? 0] => destruct (Z.ltb_spec x 0)
    end; split; intros H0; lia.
Qed.

Lemma queue_full_in_flight q_ :
  0 <= max_n_shift q_ ->
  queue_full q_ = true <-> in_flight q_ = capacity (max_n_shift q_).
Proof.
  intros Hs.
  pose proof (pow2_pos _ Hs) as HC. fold (capacity (max_n_shift q_)) in HC.
  pose proof (position_bound (max_n_shift q_) (prod q_) Hs) as Hp.
  pose proof (position_bound (max_n_shift q_) (cons q_) Hs) as Hc.
  pose proof (wrap_bit_bound (max_n_shift q_) (prod q_)) as Hwp.
  pose proof (wrap_bit_bound (max_n_shift q_) (cons q_)) as Hwc.
  rewrite queue_full_spec, in_flight_split by assumption.
  set (C := capacity (max_n_shift q_)) in *.
  set (pi := position (max_n_shift q_) (prod q_)) in *.
  set (ci := position (max_n_shift q_) (cons q_)) in *.
  set (wp := wrap_bit (max_n_shift q_) (prod q_)) in *.
  set (wc := wrap_bit (max_n_shift q_) (cons q_)) in *.
  rewrite Bool.andb_true_iff, Bool.negb_true_iff, Z.eqb_eq, Z.eqb_neq.
  assert (Hr : - (2 * C) <= C * (wp - wc) + (pi - ci) < 2 * C) by nia.
  rewrite mod_near by lia.
  assert (Hp01 : wp = 0 \/ wp = 1) by lia.
  assert (Hc01 : wc = 0 \/ wc = 1) by lia.
  destruct Hp01 as [-> | ->], Hc01 as [-> | ->];
    match goal with
    | |- context [?x <? 0] => destruct (Z.ltb_spec x 0)
    end; split; intros H0; lia.
Qed.

Lemma has_space_in_flight q_ n :
  0 <= max_n_shift q_ < 31 ->
  in_flight q_ <= capacity (max_n_shift q_) ->
  queue_has_space q_ n = (n <=? capacity (max_n_shift q_) - in_flight q_).
Proof.
  intros Hs Hfl.
  destruct (free_slots_in_flight q_ Hs Hfl) as [H1 H2].
  rewrite queue_has_space_u32 by lia.
  pose proof (capacity_bound _ Hs).
  unfold u32. rewrite Z.mod_small.
  - rewrite H1. reflexivity.
  - assert (2 ^ 32 = 4 * 2 ^ 30) by reflexivity. lia.
Qed.

(** In-flight count after the producer, or the consumer, has advanced. *)
Lemma in_flight_produce q_ n :
  0 <= max_n_shift q_ < 31 ->
  in_flight (mk_llq (queue_inc_prod_n q_ n) (cons q_) (max_n_shift q_)) =
  (in_flight q_ + n) mod (2 * capacity (max_n_shift q_)).
Proof.
  intros Hs. unfold in_flight. cbn [prod cons max_n_shift].
  destruct (queue_inc_prod_n_mod q_ n Hs) as (Hm & _).
  rewrite Zminus_mod, Hm, <- Zminus_mod.
  rewrite Zplus_mod_idemp_l. f_equal. lia.
Qed.

Lemma in_flight_consume q_ :
  0 <= max_n_shift q_ < 31 ->
  in_flight (queue_inc_cons q_) =
  (in_flight q_ - 1) mod (2 * capacity (max_n_shift q_)).
Proof.
  intros Hs. unfold in_flight.
  destruct (queue_inc_cons_mod q_ Hs) as (Hm & _).
  change (prod (queue_inc_cons q_)) with (prod q_).
  change (max_n_shift (queue_inc_cons q_)) with (max_n_shift q_).
  rewrite Zminus_mod, Hm, <- Zminus_mod.
  rewrite Zminus_mod_idemp_l. f_equal. lia.
Qed.

(** X1.  Every index pair a queue reaches from its initial state, by
    producing entries that [queue_has_space] admits and consuming from a
    queue that [queue_empty] does not report empty, keeps the consumer at or
    behind the producer: between 0 and the capacity entries are in flight,
    both indices are 32-bit values and the shift is unchanged. *)
Theorem reachable_in_flight_bounded (shift : Z) (q_ : arm_smmu_ll_queue) :
  0 <= shift < 31 ->
  reachable shift q_ ->
  max_n_shift q_ = shift /\
  0 <= in_flight q_ <= capacity shift /\
  0 <= prod q_ < 2 ^ 32 /\ 0 <= cons q_ < 2 ^ 32.
Proof.
  intros Hs Hr. induction Hr as [|q0 n Hr IH Hn Hsp|q0 Hr IH Hne].
  - cbn [max_n_shift prod cons]. unfold in_flight. cbn [prod cons max_n_shift].
    pose proof (capacity_bound _ Hs).
    rewrite Z.sub_diag, Z.mod_0_l by lia. repeat split; lia.
  - destruct IH as (E & Hfl & Hp & Hc).
    cbn [max_n_shift prod cons]. rewrite E in *.
    assert (Hs0 : 0 <= max_n_shift q0 < 31) by lia.
    pose proof (capacity_bound _ Hs).
    rewrite has_space_in_flight in Hsp by (rewrite ?E; lia).
    rewrite E in Hsp. apply Z.leb_le in Hsp.
    pose proof (in_flight_produce q0 n Hs0) as Hin. rewrite E in Hin.
    rewrite Hin, Z.mod_small by lia.
    destruct (queue_inc_prod_n_mod q0 n Hs0) as (_ & Hb & _).
    repeat split; lia.
  - destruct IH as (E & Hfl & Hp & Hc).
    assert (Hs0 : 0 <= max_n_shift q0 < 31) by lia.
    pose proof (capacity_bound _ Hs).
    change (max_n_shift (queue_inc_cons q0)) with (max_n_shift q0).
    change (prod (queue_inc_cons q0)) with (prod q0).
    assert (Hnz : in_flight q0 <> 0).
    { intros H0. apply queue_empty_in_flight in H0; [congruence|lia]. }
    pose proof (in_flight_consume q0 Hs0) as Hin. rewrite E in Hin.
    rewrite Hin, Z.mod_small by lia.
    destruct (queue_inc_cons_mod q0 Hs0) as (_ & Hb & _).
    repeat split; lia.
Qed.

Lemma reachable_in_flight_bounded_witness :
  0 <= 2 < 31 /\ reachable 2 (mk_llq 3 1 2) /\
  0 <= in_flight (mk_llq 3 1 2) <= capacity 2.
Proof.
  split; [lia|]. split; [apply reachable_3_1|].
  apply (reachable_in_flight_bounded 2 (mk_llq 3 1 2)); [lia|apply reachable_3_1].
Defined.

(** X2.  [queue_empty] holds exactly when no entry is in flight and
    [queue_full] exactly when as many as the capacity are; with the consumer
    not past the producer, [queue_has_space q n] compares [n] with the
    capacity less the entries in flight, so a queue is full exactly when it
    has no space for one entry and an empty queue has space for exactly the
    capacity. *)
Theorem queue_full_empty_count (q_ : arm_smmu_ll_queue) (n : Z) :
  0 <= max_n_shift q_ < 31 ->
  (queue_empty q_ = true <-> in_flight q_ = 0) /\
  (queue_full q_ = true <-> in_flight q_ = capacity (max_n_shift q_)) /\
  (in_flight q_ <= capacity (max_n_shift q_) ->
   queue_has_space q_ n = (n <=? capacity (max_n_shift q_) - in_flight q_) /\
   queue_full q_ = negb (queue_has_space q_ 1)) /\
  (queue_empty q_ = true ->
   queue_has_space q_ n = (n <=? capacity (max_n_shift q_))).
Proof.
  intros Hs.
  pose proof (capacity_bound _ Hs) as HC.
  split; [apply queue_empty_in_flight; lia|].
  split; [apply queue_full_in_flight; lia|].
  split.
  - intros Hfl. split; [apply has_space_in_flight; assumption|].
    rewrite has_space_in_flight by assumption.
    pose proof (in_flight_bound q_ ltac:(lia)).
    destruct (queue_full q_) eqn:Ef.
    + apply queue_full_in_flight in Ef; [|lia]. rewrite Ef.
      symmetry. apply Bool.negb_true_iff. apply Z.leb_gt. lia.
    + symmetry. apply Bool.negb_false_iff. apply Z.leb_le.
      assert (in_flight q_ <> capacity (max_n_shift q_)); [|lia].
      intros H0. apply queue_full_in_flight in H0; [congruence|lia].
  - intros He. apply queue_empty_in_flight in He; [|lia].
    rewrite has_space_in_flight by lia. rewrite He. f_equal. lia.
Qed.

Lemma queue_full_empty_count_witness :
  0 <= 2 < 31 /\
  (queue_full (mk_llq 5 1 2) = true <-> in_flight (mk_llq 5 1 2) = capacity 2).
Proof.
  split; [lia|].
  apply (queue_full_empty_count (mk_llq 5 1 2) 0). cbn [max_n_shift]. lia.
Defined.

(** X3.  [queue_consumed q p] tells whether the consumer index has passed
    the producer index [p]: it holds exactly when the consumer is ahead of
    [p] by at least one and at most the capacity, counted modulo twice the
    capacity.  A consumer that stands at [p] has not consumed it; one
    increment later it has. *)
Theorem queue_consumed_passed (q_ : arm_smmu_ll_queue) (p : Z) :
  0 <= max_n_shift q_ < 31 ->
  (queue_consumed q_ p = true <->
   0 < (cons q_ - p) mod (2 * capacity (max_n_shift q_))
     <= capacity (max_n_shift q_)) /\
  queue_consumed q_ (cons q_) = false /\
  queue_consumed (queue_inc_cons q_) (cons q_) = true.
Proof.
  intros Hs.
  assert (Hs0 : 0 <= max_n_shift q_) by lia.
  pose proof (capacity_bound _ Hs) as HC.
  assert (Hiff : forall c x,
    ((Q_WRP q_ c =? Q_WRP q_ x) && (Q_IDX q_ x <? Q_IDX q_ c)
     || negb (Q_WRP q_ c =? Q_WRP q_ x) && (Q_IDX q_ c <=? Q_IDX q_ x)) = true
    <-> 0 < (c - x) mod (2 * capacity (max_n_shift q_))
          <= capacity (max_n_shift q_)).
  { intros c x.
    pose proof (position_bound (max_n_shift q_) c Hs0) as Hc.
    pose proof (position_bound (max_n_shift q_) x Hs0) as Hx.
    pose proof (wrap_bit_bound (max_n_shift q_) c) as Hwc.
    pose proof (wrap_bit_bound (max_n_shift q_) x) as Hwx.
    pose proof (in_flight_split (mk_llq c x (max_n_shift q_)) Hs0) as Hsp.
    unfold in_flight in Hsp. cbn [prod cons max_n_shift] in Hsp.
    rewrite Hsp. clear Hsp.
    rewrite Q_WRP_eqb, !Q_IDX_position by assumption.
    set (C := capacity (max_n_shift q_)) in *.
    set (ci := position (max_n_shift q_) c) in *.
    set (xi := position (max_n_shift q_) x) in *.
    set (wc := wrap_bit (max_n_shift q_) c) in *.
    set (wx := wrap_bit (max_n_shift q_) x) in *.
    assert (Hr : - (2 * C) <= C * (wc - wx) + (ci - xi) < 2 * C) by nia.
    rewrite mod_near by lia.
    destruct (Z.eqb_spec wc wx) as [E|E]; cbn [negb andb orb].
    - replace (C * (wc - wx) + (ci - xi)) with (ci - xi) by nia.
      rewrite Bool.orb_false_r.
      destruct (Z.ltb_spec xi ci), (Z.ltb_spec (ci - xi) 0);
        split; intros Hx0; try discriminate; try reflexivity; lia.
    - assert (Hw : wc - wx = 1 \/ wc - wx = -1) by lia.
      destruct Hw as [Hw|Hw]; rewrite Hw;
      destruct (Z.leb_spec ci xi);
      match goal with
      | |- context [?y <? 0] => destruct (Z.ltb_spec y 0)
      end; split; intros Hx0; try discriminate; try reflexivity; lia. }
  split; [apply Hiff|]. split.
  - destruct (queue_consumed q_ (cons q_)) eqn:E; [|reflexivity].
    apply Hiff in E. rewrite Z.sub_diag, Z.mod_0_l in E by lia. lia.
  - apply Hiff.
    destruct (queue_inc_cons_mod q_ Hs) as (Hm & _).
    rewrite Zminus_mod, Hm, <- Zminus_mod.
    replace (cons q_ + 1 - cons q_) with 1 by lia.
    rewrite Z.mod_small by lia. lia.
Qed.

Lemma queue_consumed_passed_witness :
  0 <= 2 < 31 /\ queue_consumed (queue_inc_cons (mk_llq 7 7 2)) 7 = true.
Proof.
  split; [lia|].
  apply (queue_consumed_passed (mk_llq 7 7 2) 7). cbn [max_n_shift]. lia.
Defined.

(** X4.  Producer increments compose: advancing by [n] and then by [m] gives
    the index that advancing by [n + m] gives, and advancing by twice the
    capacity gives back the wrap bit and position the producer started
    from. *)
Theorem queue_inc_prod_n_compose (q_ : arm_smmu_ll_queue) (n m : Z) :
  0 <= max_n_shift q_ < 31 ->
  queue_inc_prod_n
    (mk_llq (queue_inc_prod_n q_ n) (cons q_) (max_n_shift q_)) m
  = queue_inc_prod_n q_ (n + m) /\
  queue_inc_prod_n q_ (2 * capacity (max_n_shift q_))
  = Z.lor (Q_OVF (prod q_)) (prod q_ mod (2 * capacity (max_n_shift q_))).
Proof.
  intros Hs.
  pose proof (pow2_pos (max_n_shift q_ + 1) ltac:(lia)) as Hpos.
  destruct (queue_inc_prod_n_mod q_ n Hs) as (Hm & _ & Ho).
  split.
  - rewrite (queue_inc_prod_n_lor (mk_llq _ _ _)) by (cbn [max_n_shift]; lia).
    cbn [prod max_n_shift].
    rewrite (queue_inc_prod_n_lor q_ (n + m)) by assumption.
    rewrite Ho. f_equal.
    rewrite two_capacity in Hm by lia.
    rewrite <- Zplus_mod_idemp_l, Hm, Zplus_mod_idemp_l.
    f_equal. lia.
  - rewrite queue_inc_prod_n_lor by assumption.
    rewrite two_capacity by lia. f_equal.
    rewrite <- (Z.mul_1_l (2 ^ (max_n_shift q_ + 1))) at 1.
    apply Z.mod_add. lia.
Qed.

Lemma queue_inc_prod_n_compose_witness :
  0 <= 2 < 31 /\
  queue_inc_prod_n (mk_llq (queue_inc_prod_n (mk_llq 6 0 2) 3) 0 2) 4
  = queue_inc_prod_n (mk_llq 6 0 2) 7.
Proof.
  split; [lia|].
  apply (queue_inc_prod_n_compose (mk_llq 6 0 2) 3 4). cbn [max_n_shift]. lia.
Defined.

(** X5.  [queue_remove_raw] on an empty queue returns [-EAGAIN] and changes
    neither the queue nor the caller's buffer.  On a queue that holds
    entries it returns 0 with the dwords of the slot at the consumer
    position in the buffer, advances the consumer by one entry, writes the
    new consumer index to the register and leaves producer, overflow flag
    and queue memory as they were; one entry fewer is then in flight. *)
Theorem queue_remove_raw_spec (qu : arm_smmu_queue) (ent : list Z) :
  let s := max_n_shift (llq qu) in
  0 <= s < 31 ->
  (in_flight (llq qu) = 0 ->
   queue_remove_raw qu ent = (- EAGAIN, ent, qu)) /\
  (0 < in_flight (llq qu) ->
   exists qu',
     queue_remove_raw qu ent =
       (0, queue_read (base qu) (position s (cons (llq qu)) * ent_dwords qu)
                      (ent_dwords qu), qu') /\
     in_flight (llq qu') = in_flight (llq qu) - 1 /\
     cons_reg qu' = cons (llq qu') /\
     cons (llq qu') mod (2 * capacity s) = (cons (llq qu) + 1) mod (2 * capacity s) /\
     Q_OVF (cons (llq qu')) = Q_OVF (cons (llq qu)) /\
     prod (llq qu') = prod (llq qu) /\
     max_n_shift (llq qu') = s /\
     base qu' = base qu /\ prod_reg qu' = prod_reg qu /\
     ent_dwords qu' = ent_dwords qu /\ batch qu' = batch qu).
Proof.
  intros s Hs.
  pose proof (capacity_bound _ Hs) as HC.
  pose proof (in_flight_bound (llq qu) ltac:(lia)) as Hfl. fold s in Hfl.
  split.
  - intros H0. unfold queue_remove_raw.
    apply queue_empty_in_flight in H0; [|lia]. rewrite H0. reflexivity.
  - intros Hpos. unfold queue_remove_raw.
    destruct (queue_empty (llq qu)) eqn:Ee.
    { apply queue_empty_in_flight in Ee; lia. }
    eexists. split.
    { unfold Q_ENT. rewrite Q_IDX_position by lia. reflexivity. }
    cbn [queue_sync_cons_out with_llq llq cons_reg base prod_reg ent_dwords batch].
    destruct (queue_inc_cons_mod (llq qu) Hs) as (Hm & _ & Ho).
    rewrite in_flight_consume by assumption.
    fold s. rewrite Z.mod_small by lia.
    repeat split; assumption.
Qed.

Lemma queue_remove_raw_spec_witness :
  0 <= 6 < 31 /\
  0 < in_flight (llq (sample_queue 0)) /\
  exists qu',
    queue_remove_raw (sample_queue 0) [0; 0] = (0, [106; 107], qu') /\
    in_flight (llq qu') = 1.
Proof.
  split; [lia|]. split; [reflexivity|].
  destruct (queue_remove_raw_spec (sample_queue 0) [0; 0]) as (_ & H).
  - cbn [sample_queue llq max_n_shift]. lia.
  - destruct H as (qu' & H1 & H2 & _); [reflexivity|].
    exists qu'. split; [exact H1|]. rewrite H2. reflexivity.
Defined.

(** ** Bit fields *)

Lemma bf_shf_GENMASK h l :
  0 <= l <= h -> h < 64 -> bf_shf (GENMASK h l) = l.
Proof.
  intros Hl Hh.
  assert (Hall :
    forallb (fun hh =>
      forallb (fun ll => bf_shf (GENMASK (Z.of_nat hh) (Z.of_nat ll))
                         =? Z.of_nat ll)
              (seq 0 (S hh)))
      (seq 0 64) = true) by (vm_compute; reflexivity).
  rewrite forallb_forall in Hall.
  specialize (Hall (Z.to_nat h)).
  rewrite in_seq in Hall. specialize (Hall ltac:(lia)).
  rewrite forallb_forall in Hall.
  specialize (Hall (Z.to_nat l)).
  rewrite in_seq in Hall. specialize (Hall ltac:(lia)).
  rewrite !Z2Nat.id in Hall by lia.
  apply Z.eqb_eq. exact Hall.
Qed.

(** A value put into a field and read back is the value truncated to the
    width of the field. *)
Lemma FIELD_GET_PREP h l v :
  0 <= l <= h -> h < 64 ->
  FIELD_GET (GENMASK h l) (FIELD_PREP (GENMASK h l) v) = v mod 2 ^ (h - l + 1).
Proof.
  intros Hl Hh. unfold FIELD_GET, FIELD_PREP, u64.
  rewrite bf_shf_GENMASK by assumption.
  rewrite <- Z.land_ones by lia.
  apply Z.bits_inj'. intros i Hi.
  rewrite Z.shiftr_spec, !Z.land_spec by assumption.
  rewrite GENMASK_testbit by lia.
  rewrite <- Z.land_ones by lia.
  rewrite Z.land_spec, Z.shiftl_spec by lia.
  replace (i + l - l) with i by lia.
  destruct (Z.ltb_spec i (h - l + 1)).
  - rewrite !Z.ones_spec_low by lia.
    replace (l <=? i + l) with true by (symmetry; apply Z.leb_le; lia).
    replace (i + l <? h + 1) with true by (symmetry; apply Z.ltb_lt; lia).
    rewrite !Bool.andb_true_r. reflexivity.
  - rewrite (Z.ones_spec_high (h - l + 1)) by lia.
    replace (i + l <? h + 1) with false by (symmetry; apply Z.ltb_ge; lia).
    rewrite !Bool.andb_false_r. reflexivity.
Qed.

Lemma FIELD_GET_PREP_small h l v :
  0 <= l <= h -> h < 64 -> 0 <= v < 2 ^ (h - l + 1) ->
  FIELD_GET (GENMASK h l) (FIELD_PREP (GENMASK h l) v) = v.
Proof.
  intros. rewrite FIELD_GET_PREP by assumption. apply Z.mod_small. assumption.
Qed.

Lemma FIELD_GET_lor mask a b :
  FIELD_GET mask (Z.lor a b) = Z.lor (FIELD_GET mask a) (FIELD_GET mask b).
Proof.
  unfold FIELD_GET. rewrite Z.land_lor_distr_l. apply Z.shiftr_lor.
Qed.

Lemma FIELD_GET_zero mask x : Z.land x mask = 0 -> FIELD_GET mask x = 0.
Proof. intros H. unfold FIELD_GET. rewrite H. apply Z.shiftr_0_l. Qed.

Lemma FIELD_GET_0 mask : FIELD_GET mask 0 = 0.
Proof. apply FIELD_GET_zero. apply Z.land_0_l. Qed.

Lemma FIELD_GET_other mask m v :
  Z.land m mask = 0 -> FIELD_GET mask (FIELD_PREP m v) = 0.
Proof. intros H. apply FIELD_GET_zero. apply FIELD_PREP_disjoint. exact H. Qed.

Lemma FIELD_GET_masked mask m x :
  Z.land m mask = 0 -> FIELD_GET mask (Z.land x m) = 0.
Proof. intros H. apply FIELD_GET_zero. apply land_land_disjoint. exact H. Qed.

(** What [FIELD_GET] reads: the bits of the field, moved down. *)
Lemma FIELD_GET_GENMASK h l r :
  0 <= l <= h -> h < 64 ->
  FIELD_GET (GENMASK h l) r = (r / 2 ^ l) mod 2 ^ (h - l + 1).
Proof.
  intros Hl Hh. unfold FIELD_GET.
  rewrite bf_shf_GENMASK by assumption.
  rewrite <- Z.shiftr_div_pow2, <- Z.land_ones by lia.
  apply Z.bits_inj'. intros i Hi.
  rewrite Z.shiftr_spec, !Z.land_spec, Z.shiftr_spec by assumption.
  rewrite GENMASK_testbit by lia.
  destruct (Z.ltb_spec i (h - l + 1)).
  - rewrite Z.ones_spec_low by lia.
    replace (l <=? i + l) with true by (symmetry; apply Z.leb_le; lia).
    replace (i + l <? h + 1) with true by (symmetry; apply Z.ltb_lt; lia).
    reflexivity.
  - rewrite Z.ones_spec_high by lia.
    replace (i + l <? h + 1) with false by (symmetry; apply Z.ltb_ge; lia).
    rewrite !Bool.andb_false_r. reflexivity.
Qed.

(** What [FIELD_PREP] builds is within the field; replacing a field keeps the
    bits outside it. *)
Lemma FIELD_PREP_within mask v : Z.land (FIELD_PREP mask v) mask = FIELD_PREP mask v.
Proof.
  unfold FIELD_PREP. rewrite <- Z.land_assoc, Z.land_diag. reflexivity.
Qed.
(** ** Building commands *)

Ltac op_consts :=
  cbv [CMDQ_OP_TLBI_EL2_ALL CMDQ_OP_TLBI_NSNH_ALL CMDQ_OP_PREFETCH_CFG
       CMDQ_OP_CFGI_CD CMDQ_OP_CFGI_STE CMDQ_OP_CFGI_CD_ALL CMDQ_OP_CFGI_ALL
       CMDQ_OP_TLBI_NH_VA CMDQ_OP_TLBI_EL2_VA CMDQ_OP_TLBI_S2_IPA
       CMDQ_OP_TLBI_NH_ASID CMDQ_OP_TLBI_S12_VMALL CMDQ_OP_TLBI_EL2_ASID
       CMDQ_OP_PRI_RESP CMDQ_OP_RESUME CMDQ_OP_CMD_SYNC
       PRI_RESP_DENY PRI_RESP_FAIL PRI_RESP_SUCC] in *.

(** Decide the opcode tests of [arm_smmu_cmdq_build_cmd] one after the
    other. *)
Ltac split_opcode op :=
  repeat match goal with
  | |- context [op =? ?k] =>
    let E := fresh "E" in
    destruct (Z.eqb_spec op k) as [E|E];
    [ subst op; cbn [Z.eqb Pos.eqb orb andb negb] | cbn [orb andb negb] ]
  end.

(** Read one field of a dword that was built by or-ing fields together. *)
Ltac read_field mask :=
  rewrite ?FIELD_GET_lor;
  repeat match goal with
  | |- context [FIELD_GET mask (FIELD_PREP ?m ?v)] =>
    rewrite (FIELD_GET_other mask m v) by reflexivity
  | |- context [FIELD_GET mask (Z.land ?x ?m)] =>
    rewrite (FIELD_GET_masked mask m x) by reflexivity
  end;
  rewrite ?FIELD_GET_0.

(** X6.  [arm_smmu_cmdq_build_cmd] returns 0, [-EINVAL] or [-ENOENT]:
    [-ENOENT] exactly for an opcode its switch does not name, [-EINVAL]
    exactly for a PRI response whose code is none of deny, fail and success
    and for a resume whose response code is none of success, invalid and
    failure.  Whatever it returns, the opcode field of the first dword holds
    the opcode. *)
Theorem cmdq_build_cmd_result (ent : arm_smmu_cmdq_ent) :
  0 <= opcode ent < 256 ->
  let r := fst (arm_smmu_cmdq_build_cmd ent) in
  let c0 := fst (snd (arm_smmu_cmdq_build_cmd ent)) in
  (r = - ENOENT <-> ~ In (opcode ent) cmdq_opcodes) /\
  (r = - EINVAL <->
   (opcode ent = CMDQ_OP_PRI_RESP /\ ~ 0 <= pri_resp (fields ent) <= 2) \/
   (opcode ent = CMDQ_OP_RESUME /\
    resume_resp (fields ent) = IOMMU_PAGE_RESP_other)) /\
  (r = 0 \/ r = - EINVAL \/ r = - ENOENT) /\
  FIELD_GET CMDQ_0_OP c0 = opcode ent.
Proof.
  intros Hop r c0. subst r c0.
  destruct ent as [op ssv u]. cbn [opcode fields] in *.
  unfold arm_smmu_cmdq_build_cmd. cbn [opcode fields substream_valid].
  unfold cmdq_opcodes. op_consts.
  split_opcode op.
  14: destruct (Z.eqb_spec (pri_resp u) 0), (Z.eqb_spec (pri_resp u) 1),
               (Z.eqb_spec (pri_resp u) 2); cbn [orb].
  22: destruct (resume_resp u).
  all: cbn [or0 or1 fst snd]; cbv [In ENOENT EINVAL].
  all: split; [|split; [|split]];
       [ split; intros; lia
       | split; [ intros; first [ lia | right; split; reflexivity
                                | left; split; [reflexivity|lia] ]
                | intros [[? ?]|[? ?]]; (lia || discriminate) ]
       | lia | ].
  all: try reflexivity.
  all: try match goal with
           | |- context [sync_msiaddr ?x =? 0] =>
             destruct (sync_msiaddr x =? 0); cbn [or0 or1 fst snd]
           end.
  all: read_field CMDQ_0_OP; try reflexivity.
  unfold CMDQ_0_OP. rewrite FIELD_GET_PREP_small by lia. reflexivity.
Qed.

Lemma cmdq_build_cmd_result_witness :
  0 <= 65 < 256 /\
  fst (arm_smmu_cmdq_build_cmd (mk_ent 65 false (U_pri 7 0 3 5))) = - EINVAL.
Proof.
  split; [lia|].
  apply (cmdq_build_cmd_result (mk_ent 65 false (U_pri 7 0 3 5)));
    cbn [opcode fields pri_resp]; [lia|].
  left. split; [reflexivity|lia].
Defined.


(** Run [arm_smmu_cmdq_build_cmd] on an entry whose opcode is known. *)
Ltac run_build :=
  unfold arm_smmu_cmdq_build_cmd; cbn [opcode fields substream_valid];
  op_consts; cbn [Z.eqb Pos.eqb orb andb negb];
  cbv [or0 or1 fst snd cfgi_sid cfgi_ssid cfgi_leaf prefetch_sid prefetch_size
       prefetch_addr tlbi_asid tlbi_vmid tlbi_leaf tlbi_addr pri_sid pri_ssid
       pri_grpid pri_resp resume_sid resume_stag resume_resp sync_msiaddr].

(** X7.  The configuration-invalidation commands.  For a 32-bit stream ID
    and a 20-bit substream ID, CFGI_CD carries both and the leaf flag and
    CFGI_STE, which the switch reaches by falling through, carries the
    stream ID and the leaf flag with a zero substream field.  CFGI_CD_ALL
    carries the stream ID only, whatever substream ID and leaf flag the
    entry holds, and CFGI_ALL nothing but the range 31 in its second
    dword. *)
Theorem cmdq_build_cfgi (sid ssid : Z) (leaf ssv : bool) :
  0 <= sid < 2 ^ 32 -> 0 <= ssid < 2 ^ 20 ->
  let u := U_cfgi sid ssid leaf in
  (exists c0 c1,
     arm_smmu_cmdq_build_cmd (mk_ent CMDQ_OP_CFGI_CD ssv u) = (0, (c0, c1)) /\
     FIELD_GET CMDQ_0_OP c0 = CMDQ_OP_CFGI_CD /\
     FIELD_GET CMDQ_CFGI_0_SSID c0 = ssid /\
     FIELD_GET CMDQ_CFGI_0_SID c0 = sid /\
     FIELD_GET CMDQ_CFGI_1_LEAF c1 = Z.b2z leaf) /\
  (exists c0 c1,
     arm_smmu_cmdq_build_cmd (mk_ent CMDQ_OP_CFGI_STE ssv u) = (0, (c0, c1)) /\
     FIELD_GET CMDQ_0_OP c0 = CMDQ_OP_CFGI_STE /\
     FIELD_GET CMDQ_CFGI_0_SSID c0 = 0 /\
     FIELD_GET CMDQ_CFGI_0_SID c0 = sid /\
     FIELD_GET CMDQ_CFGI_1_LEAF c1 = Z.b2z leaf) /\
  (exists c0,
     arm_smmu_cmdq_build_cmd (mk_ent CMDQ_OP_CFGI_CD_ALL ssv u) = (0, (c0, 0)) /\
     FIELD_GET CMDQ_0_OP c0 = CMDQ_OP_CFGI_CD_ALL /\
     FIELD_GET CMDQ_CFGI_0_SSID c0 = 0 /\
     FIELD_GET CMDQ_CFGI_0_SID c0 = sid) /\
  arm_smmu_cmdq_build_cmd (mk_ent CMDQ_OP_CFGI_ALL ssv u) =
    (0, (CMDQ_OP_CFGI_ALL, 31)) /\
  FIELD_GET CMDQ_CFGI_1_RANGE 31 = 31.
Proof.
  intros Hsid Hssid u. subst u.
  repeat split.
  - eexists; eexists. split; [run_build; reflexivity|].
    repeat split.
    + read_field CMDQ_0_OP. reflexivity.
    + read_field CMDQ_CFGI_0_SSID. unfold CMDQ_CFGI_0_SSID.
      rewrite FIELD_GET_PREP_small by lia.
      rewrite ?Z.lor_0_l, ?Z.lor_0_r. reflexivity.
    + read_field CMDQ_CFGI_0_SID. unfold CMDQ_CFGI_0_SID.
      rewrite FIELD_GET_PREP_small by lia.
      rewrite ?Z.lor_0_l, ?Z.lor_0_r. reflexivity.
    + destruct leaf; reflexivity.
  - eexists; eexists. split; [run_build; reflexivity|].
    repeat split.
    + read_field CMDQ_0_OP. reflexivity.
    + read_field CMDQ_CFGI_0_SSID. reflexivity.
    + read_field CMDQ_CFGI_0_SID. unfold CMDQ_CFGI_0_SID.
      rewrite FIELD_GET_PREP_small by lia.
      rewrite ?Z.lor_0_l, ?Z.lor_0_r. reflexivity.
    + destruct leaf; reflexivity.
  - eexists. split; [run_build; reflexivity|].
    repeat split.
    + read_field CMDQ_0_OP. reflexivity.
    + read_field CMDQ_CFGI_0_SSID. reflexivity.
    + read_field CMDQ_CFGI_0_SID. unfold CMDQ_CFGI_0_SID.
      rewrite FIELD_GET_PREP_small by lia.
      rewrite ?Z.lor_0_l, ?Z.lor_0_r. reflexivity.
Qed.

Lemma cmdq_build_cfgi_witness :
  0 <= 5 < 2 ^ 32 /\ 0 <= 9 < 2 ^ 20 /\
  exists c0 c1,
    arm_smmu_cmdq_build_cmd (mk_ent CMDQ_OP_CFGI_STE false (U_cfgi 5 9 true))
      = (0, (c0, c1)) /\
    FIELD_GET CMDQ_CFGI_0_SSID c0 = 0 /\
    FIELD_GET CMDQ_CFGI_0_SID c0 = 5.
Proof.
  split; [lia|]. split; [lia|].
  destruct (cmdq_build_cfgi 5 9 true false ltac:(lia) ltac:(lia))
    as (_ & (c0 & c1 & H & _ & Hss & Hs & _) & _).
  exists c0, c1. repeat split; assumption.
Defined.

Lemma land_aligned_addr a h l :
  0 <= l <= h -> h < 64 -> 0 <= a < 2 ^ (h + 1) -> a mod 2 ^ l = 0 ->
  Z.land a (GENMASK h l) = a.
Proof.
  intros Hl Hh Ha Hal. apply Z.bits_inj'. intros i Hi.
  rewrite Z.land_spec, GENMASK_testbit by lia.
  destruct (Z.leb_spec l i); destruct (Z.ltb_spec i (h + 1)); cbn [andb].
  - apply Bool.andb_true_r.
  - rewrite (testbit_small a (h + 1)) by lia. reflexivity.
  - rewrite Bool.andb_false_r.
    rewrite <- (Z.mod_pow2_bits_low a l i) by lia. rewrite Hal.
    symmetry. apply Z.bits_0.
  - rewrite Bool.andb_false_r.
    rewrite <- (Z.mod_pow2_bits_low a l i) by lia. rewrite Hal.
    symmetry. apply Z.bits_0.
Qed.

(** X8.  A CMD_SYNC asks for completion by event (CS = SEV) when its MSI
    address is zero and by interrupt (CS = IRQ) otherwise, with the MSI
    address masked into the second dword, inner-shareable and write-back
    attributes in both cases.  [arm_smmu_cmdq_build_sync_cmd] builds the
    event form unless the SMMU has MSIs and is coherent and the
    message-based-SPI option is off; then the MSI address is the bus address
    of the queue slot of the CMD_SYNC itself. *)
Theorem cmdq_build_sync (smmu : arm_smmu_device) (base_dma prod_ msiaddr : Z) :
  let qu := q (cmdq smmu) in
  let a := base_dma + position (max_n_shift (llq qu)) prod_ * ent_dwords qu * 8 in
  0 <= max_n_shift (llq qu) ->
  0 < a < 2 ^ 52 -> a mod 4 = 0 ->
  (exists c0,
     arm_smmu_cmdq_build_cmd (mk_ent CMDQ_OP_CMD_SYNC false (U_sync msiaddr))
       = (0, (c0, Z.land msiaddr CMDQ_SYNC_1_MSIADDR_MASK)) /\
     FIELD_GET CMDQ_0_OP c0 = CMDQ_OP_CMD_SYNC /\
     FIELD_GET CMDQ_SYNC_0_CS c0 =
       (if msiaddr =? 0 then CMDQ_SYNC_0_CS_SEV else CMDQ_SYNC_0_CS_IRQ) /\
     FIELD_GET CMDQ_SYNC_0_MSH c0 = ARM_SMMU_SH_ISH /\
     FIELD_GET CMDQ_SYNC_0_MSIATTR c0 = ARM_SMMU_MEMATTR_OIWB) /\
  (has_flag (options smmu) ARM_SMMU_OPT_MESSAGE_BASED_SPI = true \/
   has_flag (features smmu) ARM_SMMU_FEAT_MSI = false \/
   has_flag (features smmu) ARM_SMMU_FEAT_COHERENCY = false ->
   arm_smmu_cmdq_build_sync_cmd smmu base_dma prod_ =
     snd (arm_smmu_cmdq_build_cmd (mk_ent CMDQ_OP_CMD_SYNC false (U_sync 0)))) /\
  (has_flag (options smmu) ARM_SMMU_OPT_MESSAGE_BASED_SPI = false ->
   has_flag (features smmu) ARM_SMMU_FEAT_MSI = true ->
   has_flag (features smmu) ARM_SMMU_FEAT_COHERENCY = true ->
   snd (arm_smmu_cmdq_build_sync_cmd smmu base_dma prod_) = a /\
   FIELD_GET CMDQ_SYNC_0_CS (fst (arm_smmu_cmdq_build_sync_cmd smmu base_dma prod_))
     = CMDQ_SYNC_0_CS_IRQ).
Proof.
  intros qu a Hs Ha Hal.
  split; [|split].
  - destruct (Z.eqb_spec msiaddr 0) as [E|E].
    + subst msiaddr. eexists. split; [run_build; reflexivity|].
      repeat split; reflexivity.
    + eexists. split.
      { run_build. apply Z.eqb_neq in E. rewrite E. reflexivity. }
      repeat split; reflexivity.
  - intros H. unfold arm_smmu_cmdq_build_sync_cmd.
    destruct H as [H|[H|H]]; rewrite H; cbn [negb andb];
      rewrite ?Bool.andb_false_r; reflexivity.
  - intros H1 H2 H3. unfold arm_smmu_cmdq_build_sync_cmd.
    rewrite H1, H2, H3. cbn [negb andb].
    rewrite Q_IDX_position by assumption. fold qu. fold a.
    assert (Hu : u64 a = a) by (unfold u64; apply Z.mod_small; lia).
    rewrite Hu.
    assert (Hne : (a =? 0) = false) by (apply Z.eqb_neq; lia).
    split.
    + run_build. rewrite Hne.
      unfold CMDQ_SYNC_1_MSIADDR_MASK.
      rewrite land_aligned_addr by (try lia; assumption). apply Z.lor_0_l.
    + run_build. rewrite Hne. reflexivity.
Qed.

Lemma cmdq_build_sync_witness :
  let smmu := mk_smmu (Z.lor ARM_SMMU_FEAT_MSI ARM_SMMU_FEAT_COHERENCY) 0
                (mk_cmdq (sample_queue 0) (bitmap_zalloc 64) 5 0)
                (mk_strtab_cfg [] [] 0) in
  0 <= 6 /\ 0 < 65536 + 5 * 2 * 8 < 2 ^ 52 /\ (65536 + 5 * 2 * 8) mod 4 = 0 /\
  snd (arm_smmu_cmdq_build_sync_cmd smmu 65536 69) = 65536 + 5 * 2 * 8.
Proof.
  intros smmu.
  split; [lia|]. split; [lia|]. split; [reflexivity|].
  apply (cmdq_build_sync smmu 65536 69 0); try reflexivity.
  - cbn. lia.
  - cbn. lia.
Defined.

Lemma FIELD_GET_bound h l r :
  0 <= l <= h -> h < 64 -> 0 <= FIELD_GET (GENMASK h l) r < 2 ^ (h - l + 1).
Proof.
  intros Hl Hh. rewrite FIELD_GET_GENMASK by assumption.
  apply Z.mod_pos_bound. apply pow2_pos. lia.
Qed.

(** X9.  [arm_smmu_handle_ppr] answers a page request that carries the
    last-in-group flag with one PRI_RESP command, and sends nothing for a
    request without the flag.  The response denies the request and names
    the stream ID, the group index and the substream of the request: the
    substream-valid bit is copied, and the substream ID is that of the
    request when the bit is set and zero otherwise. *)
Theorem handle_ppr_response (smmu : arm_smmu_device) (evt0 evt1 : Z)
    (m : list Z) :
  (FIELD_GET PRIQ_0_PRG_LAST evt0 = 0 ->
   arm_smmu_handle_ppr smmu evt0 evt1 m = Some (tt, m, [])) /\
  (FIELD_GET PRIQ_0_PRG_LAST evt0 <> 0 ->
   exists c0 c1,
     arm_smmu_handle_ppr smmu evt0 evt1 m =
       Some (tt, m, [EvCmdlist [(c0, c1)] false]) /\
     FIELD_GET CMDQ_0_OP c0 = CMDQ_OP_PRI_RESP /\
     FIELD_GET CMDQ_PRI_0_SID c0 = FIELD_GET PRIQ_0_SID evt0 /\
     FIELD_GET CMDQ_0_SSV c0 = FIELD_GET PRIQ_0_SSID_V evt0 /\
     FIELD_GET CMDQ_PRI_0_SSID c0 =
       (if FIELD_GET PRIQ_0_SSID_V evt0 =? 0 then 0
        else FIELD_GET PRIQ_0_SSID evt0) /\
     FIELD_GET CMDQ_PRI_1_GRPID c1 = FIELD_GET PRIQ_1_PRG_IDX evt1 /\
     FIELD_GET CMDQ_PRI_1_RESP c1 = PRI_RESP_DENY).
Proof.
  pose proof (FIELD_GET_bound 31 0 evt0 ltac:(lia) ltac:(lia)) as Hsid.
  pose proof (FIELD_GET_bound 51 32 evt0 ltac:(lia) ltac:(lia)) as Hssid.
  pose proof (FIELD_GET_bound 63 63 evt0 ltac:(lia) ltac:(lia)) as Hssv.
  pose proof (FIELD_GET_bound 8 0 evt1 ltac:(lia) ltac:(lia)) as Hgrp.
  change (GENMASK 31 0) with PRIQ_0_SID in Hsid.
  change (GENMASK 51 32) with PRIQ_0_SSID in Hssid.
  change (GENMASK 63 63) with PRIQ_0_SSID_V in Hssv.
  change (GENMASK 8 0) with PRIQ_1_PRG_IDX in Hgrp.
  unfold arm_smmu_handle_ppr.
  set (sid := FIELD_GET PRIQ_0_SID evt0) in *.
  set (ssidv := FIELD_GET PRIQ_0_SSID_V evt0) in *.
  set (ssid := FIELD_GET PRIQ_0_SSID evt0) in *.
  set (grp := FIELD_GET PRIQ_1_PRG_IDX evt1) in *.
  split.
  - intros H0. rewrite H0. reflexivity.
  - intros Hl. apply Z.eqb_neq in Hl. rewrite Hl. cbn [negb when].
    unfold arm_smmu_cmdq_issue_cmd.
    eexists; eexists. split.
    { run_build. cbv [bind emit ret negb app]. reflexivity. }
    repeat split.
    + read_field CMDQ_0_OP. reflexivity.
    + read_field CMDQ_PRI_0_SID. unfold CMDQ_PRI_0_SID.
      rewrite FIELD_GET_PREP_small by lia.
      rewrite ?Z.lor_0_l, ?Z.lor_0_r. reflexivity.
    + read_field CMDQ_0_SSV. change CMDQ_0_SSV with (GENMASK 11 11).
      rewrite FIELD_GET_PREP_small.
      * rewrite ?Z.lor_0_l, ?Z.lor_0_r.
        destruct (Z.eqb_spec ssidv 0); cbn [Z.b2z]; lia.
      * lia.
      * lia.
      * destruct (ssidv =? 0); cbn [Z.b2z]; lia.
    + read_field CMDQ_PRI_0_SSID. unfold CMDQ_PRI_0_SSID.
      rewrite FIELD_GET_PREP_small.
      * rewrite ?Z.lor_0_l, ?Z.lor_0_r.
        destruct (ssidv =? 0); reflexivity.
      * lia.
      * lia.
      * destruct (ssidv =? 0); lia.
    + read_field CMDQ_PRI_1_GRPID. unfold CMDQ_PRI_1_GRPID.
      rewrite FIELD_GET_PREP_small by lia.
      rewrite ?Z.lor_0_l, ?Z.lor_0_r. reflexivity.
    + read_field CMDQ_PRI_1_RESP. reflexivity.
Qed.

(** X10.  [arm_smmu_page_response] for a device whose master cannot stall
    returns [-ENODEV] and sends nothing.  For one that can stall it always
    returns 0: a success response resumes the stalled transaction with
    retry, an invalid or failure response with abort, the command naming the
    first stream ID of the device and the low 16 bits of the group; a
    response code the command builder does not know sends no command at
    all, and 0 is returned all the same. *)
Theorem page_response_resume (dev : device) (fw : iommu_fwspec)
    (group_id : Z) (resp_code : page_response_code) (st : driver) :
  dev_fwspec dev = Some fw ->
  let master := masters st (iommu_priv fw) in
  let sid := u32 (nth 0 (ids fw) 0) in
  let stag := group_id mod 2 ^ 16 in
  (can_stall (ste master) = false ->
   arm_smmu_page_response dev group_id resp_code st = Some (- ENODEV, st)) /\
  (can_stall (ste master) = true ->
   exists st',
     arm_smmu_page_response dev group_id resp_code st = Some (0, st') /\
     smmus st' = smmus st /\ masters st' = masters st /\
     domains st' = domains st /\
     (resp_code = IOMMU_PAGE_RESP_other -> issued st' = issued st) /\
     (resp_code <> IOMMU_PAGE_RESP_other ->
      exists c0 c1,
        issued st' = issued st ++ [EvCmdlist [(c0, c1)] false] /\
        FIELD_GET CMDQ_0_OP c0 = CMDQ_OP_RESUME /\
        FIELD_GET CMDQ_RESUME_0_SID c0 = sid /\
        FIELD_GET CMDQ_RESUME_1_STAG c1 = stag /\
        has_flag c0 CMDQ_RESUME_0_ACTION_RETRY =
          match resp_code with IOMMU_PAGE_RESP_SUCCESS => true | _ => false end /\
        has_flag c0 CMDQ_RESUME_0_ACTION_ABORT =
          match resp_code with IOMMU_PAGE_RESP_SUCCESS => false | _ => true end)).
Proof.
  intros Hfw master sid stag.
  assert (Hsid : 0 <= sid < 2 ^ 32) by (apply Z.mod_pos_bound; lia).
  assert (Hstag : 0 <= stag < 2 ^ 16) by (apply Z.mod_pos_bound; lia).
  unfold arm_smmu_page_response. rewrite Hfw. fold master. fold sid. fold stag.
  split.
  - intros H. rewrite H. reflexivity.
  - intros H. rewrite H. unfold arm_smmu_cmdq_issue_cmd.
    destruct resp_code.
    4: { eexists. split; [run_build; cbv [ret negb]; reflexivity|].
         cbn [smmus masters domains issued]. repeat split.
         - intros _. apply app_nil_r.
         - intros Hne. congruence. }
    all: eexists; split;
      [run_build; cbv [bind emit ret negb app]; reflexivity|];
      cbn [smmus masters domains issued]; repeat split;
      [intros; discriminate|];
      intros _; eexists; eexists; split; [reflexivity|];
      repeat split.
    all: try (read_field CMDQ_0_OP; reflexivity).
    all: try (read_field CMDQ_RESUME_0_SID; unfold CMDQ_RESUME_0_SID;
              rewrite FIELD_GET_PREP_small by lia;
              rewrite ?Z.lor_0_l, ?Z.lor_0_r; reflexivity).
    all: try (read_field CMDQ_RESUME_1_STAG; unfold CMDQ_RESUME_1_STAG;
              rewrite FIELD_GET_PREP_small by lia;
              rewrite ?Z.lor_0_l, ?Z.lor_0_r; reflexivity).
    all: unfold has_flag; rewrite !Z.land_lor_distr_l;
         rewrite !FIELD_PREP_disjoint by reflexivity; reflexivity.
Qed.

Lemma page_response_resume_witness :
  let dev := mk_device (Some (mk_fwspec 0%nat [3])) in
  let st := mk_driver (smmus sample_driver)
              (fun _ => mk_master 0%nat (mk_ste false None None true) None)
              (domains sample_driver) [] in
  dev_fwspec dev = Some (mk_fwspec 0%nat [3]) /\
  can_stall (ste (masters st 0%nat)) = true /\
  exists st',
    arm_smmu_page_response dev 70000 IOMMU_PAGE_RESP_other st = Some (0, st') /\
    issued st' = issued st.
Proof.
  intros dev st. split; [reflexivity|]. split; [reflexivity|].
  destruct (page_response_resume dev (mk_fwspec 0%nat [3]) 70000
              IOMMU_PAGE_RESP_other st eq_refl) as (_ & H).
  destruct (H eq_refl) as (st' & H1 & _ & _ & _ & H2 & _).
  exists st'. split; [exact H1|]. apply H2. reflexivity.
Defined.

Lemma issue_cmd_built smmu ent m :
  fst (arm_smmu_cmdq_build_cmd ent) = 0 ->
  arm_smmu_cmdq_issue_cmd smmu ent m =
  Some (0, m, [EvCmdlist [snd (arm_smmu_cmdq_build_cmd ent)] false]).
Proof.
  unfold arm_smmu_cmdq_issue_cmd.
  destruct (arm_smmu_cmdq_build_cmd ent) as [r cmd]. cbn [fst snd].
  intros ->. reflexivity.
Qed.

Lemma tlb_inv_range_loop_spec smmu op asid_ vmid_ leaf granule :
  op = CMDQ_OP_TLBI_NH_VA \/ op = CMDQ_OP_TLBI_EL2_VA \/
  op = CMDQ_OP_TLBI_S2_IPA ->
  0 < granule ->
  forall n fuel addr,
    (n < fuel)%nat -> 0 <= addr ->
    addr + Z.of_nat n * granule < 2 ^ 64 ->
    (Z.of_nat n + 1) * granule < 2 ^ 64 ->
    tlb_inv_range_loop fuel smmu op asid_ vmid_ leaf addr
      ((Z.of_nat n + 1) * granule) granule =
    Some (map (fun i => ev_tlbi op asid_ vmid_ leaf (addr + Z.of_nat i * granule))
              (seq 0 (S n))).
Proof.
  intros Hop Hg.
  assert (Hb : forall a, fst (arm_smmu_cmdq_build_cmd
                 (mk_ent op false (U_tlbi asid_ vmid_ leaf a))) = 0).
  { intros a. destruct Hop as [-> | [-> | ->]]; reflexivity. }
  induction n as [|n IH]; intros fuel addr Hf Ha Hend Hsz.
  - destruct fuel as [|fuel]; [lia|]. cbn [tlb_inv_range_loop].
    rewrite issue_cmd_built by apply Hb.
    change (Z.of_nat 0 + 1) with 1. rewrite Z.mul_1_l, Z.sub_diag.
    change (u64 0 =? 0) with true. cbn [seq map].
    change (Z.of_nat 0) with 0. rewrite Z.mul_0_l, Z.add_0_r. reflexivity.
  - destruct fuel as [|fuel]; [lia|]. cbn [tlb_inv_range_loop].
    rewrite issue_cmd_built by apply Hb.
    replace ((Z.of_nat (S n) + 1) * granule - granule)
      with ((Z.of_nat n + 1) * granule) by lia.
    assert (Hu : u64 ((Z.of_nat n + 1) * granule) = (Z.of_nat n + 1) * granule)
      by (unfold u64; apply Z.mod_small; nia).
    rewrite Hu.
    assert (Hnz : ((Z.of_nat n + 1) * granule =? 0) = false)
      by (apply Z.eqb_neq; nia).
    rewrite Hnz.
    assert (Hua : u64 (addr + granule) = addr + granule)
      by (unfold u64; apply Z.mod_small; nia).
    rewrite Hua.
    rewrite IH by (try lia; nia).
    change (seq 0 (S (S n))) with (0%nat :: seq 1 (S n)).
    rewrite <- seq_shift. cbn [map app]. rewrite map_map.
    f_equal. f_equal.
    + change (Z.of_nat 0) with 0. rewrite Z.mul_0_l, Z.add_0_r. reflexivity.
    + apply map_ext. intros i. f_equal. lia.
Qed.

(** The fields of the invalidation commands by address, read back from
    what [arm_smmu_cmdq_build_cmd] builds. *)
Lemma tlbi_cmd_fields op asid_ vmid_ leaf addr :
  op = CMDQ_OP_TLBI_NH_VA \/ op = CMDQ_OP_TLBI_EL2_VA \/
  op = CMDQ_OP_TLBI_S2_IPA ->
  let c := snd (arm_smmu_cmdq_build_cmd
                  (mk_ent op false (U_tlbi asid_ vmid_ leaf addr))) in
  let ipa := op =? CMDQ_OP_TLBI_S2_IPA in
  let mask := if ipa then CMDQ_TLBI_1_IPA_MASK else CMDQ_TLBI_1_VA_MASK in
  FIELD_GET CMDQ_0_OP (fst c) = op /\
  FIELD_GET CMDQ_TLBI_0_ASID (fst c) = (if ipa then 0 else asid_ mod 2 ^ 16) /\
  FIELD_GET CMDQ_TLBI_0_VMID (fst c) = (if ipa then vmid_ mod 2 ^ 16 else 0) /\
  FIELD_GET CMDQ_TLBI_1_LEAF (snd c) = Z.b2z leaf /\
  Z.land (snd c) mask = Z.land addr mask.
Proof.
  intros Hop. cbv zeta.
  destruct Hop as [-> | [-> | ->]]; run_build; cbn [fst snd Z.eqb Pos.eqb].
  - repeat split.
    + read_field CMDQ_0_OP. reflexivity.
    + read_field CMDQ_TLBI_0_ASID. unfold CMDQ_TLBI_0_ASID.
      rewrite FIELD_GET_PREP by lia.
      rewrite ?Z.lor_0_l, ?Z.lor_0_r. reflexivity.
    + read_field CMDQ_TLBI_0_VMID. reflexivity.
    + read_field CMDQ_TLBI_1_LEAF. rewrite ?Z.lor_0_l, ?Z.lor_0_r.
      destruct leaf; reflexivity.
    + rewrite !Z.land_lor_distr_l, Z.land_0_l, Z.lor_0_l.
      rewrite FIELD_PREP_disjoint by reflexivity.
      rewrite Z.lor_0_l, <- Z.land_assoc, Z.land_diag. reflexivity.
  - repeat split.
    + read_field CMDQ_0_OP. reflexivity.
    + read_field CMDQ_TLBI_0_ASID. unfold CMDQ_TLBI_0_ASID.
      rewrite FIELD_GET_PREP by lia.
      rewrite ?Z.lor_0_l, ?Z.lor_0_r. reflexivity.
    + read_field CMDQ_TLBI_0_VMID. reflexivity.
    + read_field CMDQ_TLBI_1_LEAF. rewrite ?Z.lor_0_l, ?Z.lor_0_r.
      destruct leaf; reflexivity.
    + rewrite !Z.land_lor_distr_l, Z.land_0_l, Z.lor_0_l.
      rewrite FIELD_PREP_disjoint by reflexivity.
      rewrite Z.lor_0_l, <- Z.land_assoc, Z.land_diag. reflexivity.
  - repeat split.
    + read_field CMDQ_0_OP. reflexivity.
    + read_field CMDQ_TLBI_0_ASID. reflexivity.
    + read_field CMDQ_TLBI_0_VMID. unfold CMDQ_TLBI_0_VMID.
      rewrite FIELD_GET_PREP by lia.
      rewrite ?Z.lor_0_l, ?Z.lor_0_r. reflexivity.
    + read_field CMDQ_TLBI_1_LEAF. rewrite ?Z.lor_0_l, ?Z.lor_0_r.
      destruct leaf; reflexivity.
    + rewrite !Z.land_lor_distr_l, Z.land_0_l, Z.lor_0_l.
      rewrite FIELD_PREP_disjoint by reflexivity.
      rewrite Z.lor_0_l, <- Z.land_assoc, Z.land_diag. reflexivity.
Qed.

Lemma tlbi_commands_built op asid_ vmid_ leaf iova granule k :
  op = CMDQ_OP_TLBI_NH_VA \/ op = CMDQ_OP_TLBI_EL2_VA \/
  op = CMDQ_OP_TLBI_S2_IPA ->
  let ipa := op =? CMDQ_OP_TLBI_S2_IPA in
  tlbi_commands
    (map (fun i => ev_tlbi op asid_ vmid_ leaf (iova + Z.of_nat i * granule))
         (seq 0 k))
    k op (if ipa then 0 else asid_ mod 2 ^ 16)
    (if ipa then vmid_ mod 2 ^ 16 else 0) leaf
    (if ipa then CMDQ_TLBI_1_IPA_MASK else CMDQ_TLBI_1_VA_MASK) iova granule.
Proof.
  intros Hop ipa.
  exists (map (fun i => snd (arm_smmu_cmdq_build_cmd
                               (mk_ent op false
                                  (U_tlbi asid_ vmid_ leaf
                                     (iova + Z.of_nat i * granule)))))
              (seq 0 k)).
  split; [rewrite map_map; reflexivity|].
  split; [rewrite length_map, length_seq; reflexivity|].
  intros i Hi.
  rewrite (nth_indep _ (0, 0)
             (snd (arm_smmu_cmdq_build_cmd
                     (mk_ent op false
                        (U_tlbi asid_ vmid_ leaf
                           (iova + Z.of_nat 0%nat * granule))))))
    by (rewrite length_map, length_seq; exact Hi).
  rewrite (map_nth (fun i => snd (arm_smmu_cmdq_build_cmd
                                    (mk_ent op false
                                       (U_tlbi asid_ vmid_ leaf
                                          (iova + Z.of_nat i * granule)))))).
  rewrite seq_nth by exact Hi. cbn [Nat.add].
  apply (tlbi_cmd_fields op asid_ vmid_ leaf (iova + Z.of_nat i * granule) Hop).
Qed.

(** X11.  [arm_smmu_tlb_inv_range_nosync] over a range of [k] granules,
    [k] at least one, issues exactly [k] invalidation commands, one for the
    address of each granule in ascending order.  For a stage-1 domain each
    command has the opcode of invalidation by virtual address (the EL2 form
    when the SMMU has E2H), the ASID of the default context in its ASID
    field, a zero VMID field, the leaf flag, and the bits 63:12 of the
    granule's address; for any other stage it has the opcode of
    invalidation by intermediate physical address, the VMID in its VMID
    field, a zero ASID field, the leaf flag and the bits 51:12 of the
    address.  A stage-1 domain without default context issues nothing. *)
Theorem tlb_inv_range_commands (fuel : nat) (iova granule k : Z)
    (leaf : bool) (smmu : arm_smmu_device) (d : arm_smmu_domain)
    (cd0 : option Z) :
  1 <= k -> 0 < granule -> 0 <= iova ->
  iova + k * granule <= 2 ^ 64 -> k * granule < 2 ^ 64 ->
  (Z.to_nat k <= fuel)%nat ->
  exists tr,
    arm_smmu_tlb_inv_range_nosync fuel iova (k * granule) granule leaf smmu d
      cd0 = Some tr /\
    match stage d, cd0 with
    | ARM_SMMU_DOMAIN_S1, None => tr = []
    | ARM_SMMU_DOMAIN_S1, Some tag =>
      tlbi_commands tr (Z.to_nat k)
        (if has_flag (features smmu) ARM_SMMU_FEAT_E2H
         then CMDQ_OP_TLBI_EL2_VA else CMDQ_OP_TLBI_NH_VA)
        (tag mod 2 ^ 16) 0 leaf CMDQ_TLBI_1_VA_MASK iova granule
    | _, _ =>
      tlbi_commands tr (Z.to_nat k) CMDQ_OP_TLBI_S2_IPA
        0 (vmid (dom_s2_cfg d) mod 2 ^ 16) leaf CMDQ_TLBI_1_IPA_MASK
        iova granule
    end.
Proof.
  intros Hk Hg Hi Hend Hsz Hf.
  set (n := (Z.to_nat k - 1)%nat).
  assert (Hkn : k * granule = (Z.of_nat n + 1) * granule)
    by (subst n; f_equal; lia).
  assert (Hn : Z.to_nat k = S n) by lia.
  assert (Hend' : iova + Z.of_nat n * granule < 2 ^ 64) by nia.
  assert (Hloop : forall op a v,
            op = CMDQ_OP_TLBI_NH_VA \/ op = CMDQ_OP_TLBI_EL2_VA \/
            op = CMDQ_OP_TLBI_S2_IPA ->
            tlb_inv_range_loop fuel smmu op a v leaf iova (k * granule) granule
            = Some (map (fun i => ev_tlbi op a v leaf
                                    (iova + Z.of_nat i * granule))
                        (seq 0 (Z.to_nat k)))).
  { intros op a v Hop. rewrite Hkn, Hn.
    apply tlb_inv_range_loop_spec; try assumption; lia. }
  assert (Hs2 : exists tr,
            tlb_inv_range_loop fuel smmu CMDQ_OP_TLBI_S2_IPA 0
              (vmid (dom_s2_cfg d)) leaf iova (k * granule) granule = Some tr /\
            tlbi_commands tr (Z.to_nat k) CMDQ_OP_TLBI_S2_IPA
              0 (vmid (dom_s2_cfg d) mod 2 ^ 16) leaf CMDQ_TLBI_1_IPA_MASK
              iova granule).
  { eexists. split; [apply Hloop; auto|].
    apply (tlbi_commands_built CMDQ_OP_TLBI_S2_IPA 0 (vmid (dom_s2_cfg d))
             leaf iova granule (Z.to_nat k)). auto. }
  unfold arm_smmu_tlb_inv_range_nosync.
  destruct (stage d); try exact Hs2.
  destruct cd0 as [tag|]; [|exists []; split; reflexivity].
  destruct (has_flag (features smmu) ARM_SMMU_FEAT_E2H).
  - eexists. split; [apply Hloop; auto|].
    apply (tlbi_commands_built CMDQ_OP_TLBI_EL2_VA tag 0 leaf iova granule
             (Z.to_nat k)). auto.
  - eexists. split; [apply Hloop; auto|].
    apply (tlbi_commands_built CMDQ_OP_TLBI_NH_VA tag 0 leaf iova granule
             (Z.to_nat k)). auto.
Qed.

Lemma tlb_inv_range_commands_witness :
  exists c0 c1 d0 d1,
    arm_smmu_tlb_inv_range_nosync 2 8192 (2 * 4096) 4096 true (sample_smmu 0)
      (mk_domain (Some 0%nat) ARM_SMMU_DOMAIN_S2 (mk_s1_cfg 0 0 0)
                 (mk_s2_cfg 7 0 0) []) None
    = Some [EvCmdlist [(c0, c1)] false; EvCmdlist [(d0, d1)] false] /\
    FIELD_GET CMDQ_TLBI_0_VMID d0 = 7 /\
    Z.land d1 CMDQ_TLBI_1_IPA_MASK = 12288.
Proof.
  destruct (tlb_inv_range_commands 2 8192 4096 2 true (sample_smmu 0)
              (mk_domain (Some 0%nat) ARM_SMMU_DOMAIN_S2 (mk_s1_cfg 0 0 0)
                         (mk_s2_cfg 7 0 0) []) None)
    as (tr & E & cmds & Htr & Hlen & Hf); try lia.
  destruct cmds as [|[c0 c1] [|[d0 d1] [|x cmds]]]; try discriminate Hlen.
  exists c0, c1, d0, d1. subst tr. split; [exact E|].
  destruct (Hf 1%nat ltac:(cbn; lia)) as (_ & _ & Hv & _ & Ha).
  split; [exact Hv|exact Ha].
Defined.

(** ** Entries that do not translate, and entries that must not be written *)

Lemma ste_live_of_live kc val m :
  ste_is_live val -> ste_live_of kc val m = Some (true, m, []).
Proof.
  unfold ste_is_live, ste_live_of. intros [Hv [H|H]]; rewrite Hv, H; reflexivity.
Qed.

(** What [arm_smmu_write_strtab_ent] does for a stream that does not
    translate. *)
Lemma write_plain_run (kc : kconfig) (smmu : option arm_smmu_device)
    (sid : Z) (e : arm_smmu_strtab_ent) (dst : list Z) :
  assigned e = false \/ (s1_cfg e = None /\ s2_cfg e = None) ->
  ste_not_live kc (load dst 0) \/ ste_is_live (load dst 0) ->
  arm_smmu_write_strtab_ent kc smmu sid e dst =
    Some (tt,
          store (store (store dst 0 (plain_ste_0 kc e)) 1 bypass_ste_1) 2 0,
          [EvStore 0 (plain_ste_0 kc e) false; EvStore 1 bypass_ste_1 false;
           EvStore 2 0 false]
          ++ match smmu with
             | Some _ => [ev_cfgi_ste sid; ev_cmd_sync]
             | None => []
             end) /\
  has_flag (plain_ste_0 kc e) STRTAB_STE_0_V = true /\
  FIELD_GET STRTAB_STE_0_CFG (plain_ste_0 kc e) =
    (if negb (assigned e) && disable_bypass kc
     then STRTAB_STE_0_CFG_ABORT else STRTAB_STE_0_CFG_BYPASS).
Proof.
  intros Hcfg Hold.
  assert (Hl : exists b, ste_live_of kc (load dst 0) dst = Some (b, dst, [])).
  { destruct Hold as [H|H].
    - exists false. apply ste_live_of_not_live. exact H.
    - exists true. apply ste_live_of_live. exact H. }
  destruct Hl as [b Hl].
  split; [|unfold plain_ste_0;
           destruct (negb (assigned e) && disable_bypass kc);
           split; reflexivity].
  unfold arm_smmu_write_strtab_ent.
  rewrite (bind_some (rd 0) _ dst (load dst 0) dst []) by reflexivity.
  rewrite (bind_some (ste_live_of _ _) _ dst b dst []) by exact Hl.
  assert (Hc : negb (assigned e)
               || negb (match s1_cfg e, s2_cfg e with
                        | None, None => false | _, _ => true end) = true).
  { destruct Hcfg as [H|[H1 H2]].
    - rewrite H. reflexivity.
    - rewrite H1, H2. apply Bool.orb_true_r. }
  rewrite Hc. unfold plain_ste_0, bypass_ste_1.
  destruct smmu as [s|].
  - destruct (negb (assigned e) && disable_bypass kc);
      cbv [bind wr app]; rewrite sync_ste_for_sid_run; reflexivity.
  - destruct (negb (assigned e) && disable_bypass kc); reflexivity.
Qed.

(** X12.  For a stream that is not assigned, or is assigned to a domain
    without stage configuration, [arm_smmu_write_strtab_ent] stores dword 0
    first (valid, with the abort configuration for an unassigned stream
    under [disable_bypass] and the bypass configuration otherwise), then
    dword 1 with the incoming shareability and a zero dword 2, all by plain
    stores, and then issues CFGI_STE and CMD_SYNC when it was given an SMMU
    and nothing when it was not.  It does so whether the entry it overwrites
    was live or not, and it issues no prefetch. *)
Theorem write_strtab_ent_plain (kc : kconfig) (smmu : option arm_smmu_device)
    (sid : Z) (e : arm_smmu_strtab_ent) (dst : list Z) :
  assigned e = false \/ (s1_cfg e = None /\ s2_cfg e = None) ->
  ste_not_live kc (load dst 0) \/ ste_is_live (load dst 0) ->
  arm_smmu_write_strtab_ent kc smmu sid e dst =
    Some (tt,
          store (store (store dst 0 (plain_ste_0 kc e)) 1 bypass_ste_1) 2 0,
          [EvStore 0 (plain_ste_0 kc e) false; EvStore 1 bypass_ste_1 false;
           EvStore 2 0 false]
          ++ match smmu with
             | Some _ => [ev_cfgi_ste sid; ev_cmd_sync]
             | None => []
             end) /\
  has_flag (plain_ste_0 kc e) STRTAB_STE_0_V = true /\
  FIELD_GET STRTAB_STE_0_CFG (plain_ste_0 kc e) =
    (if negb (assigned e) && disable_bypass kc
     then STRTAB_STE_0_CFG_ABORT else STRTAB_STE_0_CFG_BYPASS).
Proof. apply write_plain_run. Qed.

Lemma write_strtab_ent_plain_witness :
  assigned (mk_ste false (Some (mk_s1_cfg 4096 0 0)) None false) = false /\
  ste_is_live (load [4107; 214; 0; 0; 0; 0; 0; 0] 0) /\
  arm_smmu_write_strtab_ent sample_kconfig (Some (sample_smmu 0)) 5
    (mk_ste false (Some (mk_s1_cfg 4096 0 0)) None false)
    [4107; 214; 0; 0; 0; 0; 0; 0]
  = Some (tt, [1; bypass_ste_1; 0; 0; 0; 0; 0; 0],
          [EvStore 0 1 false; EvStore 1 bypass_ste_1 false; EvStore 2 0 false;
           ev_cfgi_ste 5; ev_cmd_sync]).
Proof.
  split; [reflexivity|].
  assert (Hlive : ste_is_live (load [4107; 214; 0; 0; 0; 0; 0; 0] 0))
    by (split; [reflexivity|left; reflexivity]).
  split; [exact Hlive|].
  destruct (write_strtab_ent_plain sample_kconfig (Some (sample_smmu 0)) 5
              (mk_ste false (Some (mk_s1_cfg 4096 0 0)) None false)
              [4107; 214; 0; 0; 0; 0; 0; 0]) as (H & _).
  - left. reflexivity.
  - right. exact Hlive.
  - exact H.
Defined.

(** X13.  What [arm_smmu_write_strtab_ent] refuses: a stage-1 or stage-2
    configuration written over a live entry ends in [BUG()], and so does
    any write over a valid entry whose configuration field is none of
    abort, bypass, stage 1 and stage 2, or is abort while bypass is not
    disabled.  A translating configuration without an SMMU ends in a NULL
    dereference. *)
Theorem write_strtab_ent_refuses (kc : kconfig) (smmu : option arm_smmu_device)
    (sid : Z) (e : arm_smmu_strtab_ent) (dst : list Z) :
  let c := FIELD_GET STRTAB_STE_0_CFG (load dst 0) in
  (ste_is_live (load dst 0) -> assigned e = true ->
   s1_cfg e <> None \/ s2_cfg e <> None ->
   arm_smmu_write_strtab_ent kc smmu sid e dst = None) /\
  (has_flag (load dst 0) STRTAB_STE_0_V = true ->
   c <> STRTAB_STE_0_CFG_ABORT -> c <> STRTAB_STE_0_CFG_BYPASS ->
   c <> STRTAB_STE_0_CFG_S1_TRANS -> c <> STRTAB_STE_0_CFG_S2_TRANS ->
   arm_smmu_write_strtab_ent kc smmu sid e dst = None) /\
  (has_flag (load dst 0) STRTAB_STE_0_V = true ->
   c = STRTAB_STE_0_CFG_ABORT -> disable_bypass kc = false ->
   arm_smmu_write_strtab_ent kc smmu sid e dst = None) /\
  (assigned e = true -> s1_cfg e <> None \/ s2_cfg e <> None ->
   arm_smmu_write_strtab_ent kc None sid e dst = None).
Proof.
  intros c. subst c.
  assert (Hrd : forall A (k : Z -> ste_io A),
            bind (rd 0) k dst = k (load dst 0) dst).
  { intros A k. unfold bind, rd.
    destruct (k (load dst 0) dst) as [[[a m1] t1]|]; reflexivity. }
  split; [|split; [|split]].
  - intros Hlive Ha Hcfg.
    unfold arm_smmu_write_strtab_ent.
    rewrite (bind_some (rd 0) _ dst (load dst 0) dst []) by reflexivity.
    rewrite (bind_some (ste_live_of _ _) _ dst true dst [])
      by (apply ste_live_of_live; exact Hlive).
    rewrite Ha. cbn [negb orb].
    destruct (s1_cfg e) as [c1|], (s2_cfg e) as [c2|]; cbn [negb].
    + destruct smmu; reflexivity.
    + destruct smmu; reflexivity.
    + reflexivity.
    + destruct Hcfg; congruence.
  - intros Hv H0 H4 H5 H6.
    unfold arm_smmu_write_strtab_ent. rewrite Hrd.
    unfold bind at 1. unfold ste_live_of. rewrite Hv.
    apply Z.eqb_neq in H0, H4, H5, H6. rewrite H0, H4, H5, H6. reflexivity.
  - intros Hv H0 Hdb.
    unfold arm_smmu_write_strtab_ent. rewrite Hrd.
    unfold bind at 1. unfold ste_live_of. rewrite Hv, H0, Hdb. reflexivity.
  - intros Ha Hcfg.
    unfold arm_smmu_write_strtab_ent. rewrite Hrd.
    unfold bind at 1.
    destruct (ste_live_of kc (load dst 0) dst) as [[[b m1] t1]|]; [|reflexivity].
    rewrite Ha. cbn [negb orb].
    destruct (s1_cfg e) as [c1|], (s2_cfg e) as [c2|]; cbn [negb].
    + reflexivity.
    + reflexivity.
    + destruct b; reflexivity.
    + destruct Hcfg; congruence.
Qed.

(** X14.  The first-level descriptor [arm_smmu_write_strtab_l1_desc] stores
    holds the span in its low five bits and the bits 51:6 of the bus address
    of the second-level table, whatever the other bits of the address are;
    for a span below 32 and a 64-byte aligned address below 2^52 both read
    back exactly, and the descriptor of a table that is not allocated (span
    0) is zero. *)
Theorem strtab_l1_desc_fields (desc : arm_smmu_strtab_l1_desc) :
  0 <= span desc < 32 ->
  0 <= l2ptr_dma desc < 2 ^ 52 -> l2ptr_dma desc mod 64 = 0 ->
  let v := arm_smmu_write_strtab_l1_desc desc in
  FIELD_GET STRTAB_L1_DESC_SPAN v = span desc /\
  Z.land v STRTAB_L1_DESC_L2PTR_MASK = l2ptr_dma desc /\
  v = l2ptr_dma desc + span desc /\
  (span desc = 0 -> l2ptr_dma desc = 0 -> v = 0).
Proof.
  intros Hs Hd Hal v. subst v. unfold arm_smmu_write_strtab_l1_desc.
  rewrite Z.lor_0_l.
  assert (Hp : Z.land (l2ptr_dma desc) STRTAB_L1_DESC_L2PTR_MASK = l2ptr_dma desc).
  { unfold STRTAB_L1_DESC_L2PTR_MASK. apply land_aligned_addr; try lia.
    exact Hal. }
  rewrite Hp.
  assert (Hsp : FIELD_PREP STRTAB_L1_DESC_SPAN (span desc) = span desc).
  { unfold FIELD_PREP, STRTAB_L1_DESC_SPAN.
    rewrite bf_shf_GENMASK by lia. rewrite Z.shiftl_0_r.
    unfold u64. rewrite Z.mod_small by lia.
    change (GENMASK 4 0) with (Z.ones 5).
    rewrite Z.land_ones by lia. apply Z.mod_small. lia. }
  rewrite Hsp.
  assert (Hdis : Z.land (span desc) (l2ptr_dma desc) = 0).
  { apply Z.bits_inj'. intros i Hi. rewrite Z.land_spec, Z.bits_0.
    destruct (Z.ltb_spec i 6).
    - rewrite <- (Z.mod_pow2_bits_low (l2ptr_dma desc) 6 i) by lia.
      change (2 ^ 6) with 64. rewrite Hal, Z.bits_0. apply Bool.andb_false_r.
    - rewrite (testbit_small (span desc) 5) by lia. reflexivity. }
  repeat split.
  - rewrite FIELD_GET_lor.
    rewrite (FIELD_GET_zero _ (l2ptr_dma desc)).
    + rewrite Z.lor_0_r. unfold STRTAB_L1_DESC_SPAN.
      rewrite FIELD_GET_GENMASK by lia.
      change (2 ^ 0) with 1. rewrite Z.div_1_r. apply Z.mod_small. lia.
    + rewrite <- Hp. apply land_land_disjoint. reflexivity.
  - rewrite Z.land_lor_distr_l, Hp.
    replace (Z.land (span desc) STRTAB_L1_DESC_L2PTR_MASK) with 0.
    + apply Z.lor_0_l.
    + symmetry. rewrite <- Hsp. apply FIELD_PREP_disjoint. reflexivity.
  - rewrite <- Z.lxor_lor by exact Hdis.
    rewrite <- Z.add_nocarry_lxor by exact Hdis. lia.
  - intros H1 H2. rewrite H1, H2. reflexivity.
Qed.

Lemma strtab_l1_desc_fields_witness :
  0 <= 9 < 32 /\ 0 <= 65536 < 2 ^ 52 /\ 65536 mod 64 = 0 /\
  FIELD_GET STRTAB_L1_DESC_SPAN
    (arm_smmu_write_strtab_l1_desc (mk_l1_desc 9 None 65536)) = 9.
Proof.
  split; [lia|]. split; [lia|]. split; [reflexivity|].
  apply (strtab_l1_desc_fields (mk_l1_desc 9 None 65536));
    cbn [span l2ptr_dma]; try lia. reflexivity.
Defined.

Lemma store_nat_twice {A : Type} (l : list A) i v w :
  store_nat (store_nat l i v) i w = store_nat l i w.
Proof.
  revert i. induction l as [|x l IH]; intros [|i]; cbn [store_nat];
    try reflexivity. f_equal. apply IH.
Qed.

(** X15.  When [dmam_alloc_coherent] fails, [arm_smmu_init_l2_strtab]
    returns [-ENOMEM] having stored nothing in the stream table: the memory
    the hardware walks is unchanged and the descriptor keeps a NULL
    second-level pointer, only its span is already set.  A later call for
    the stream tries the allocation again, and when that succeeds it leaves
    the SMMU in the state an immediate success would have left. *)
Theorem init_l2_strtab_alloc_failure
    (kc : kconfig) (smmu : arm_smmu_device) (sid : Z)
    (desc : arm_smmu_strtab_l1_desc) :
  nth_error (l1_desc (strtab_cfg smmu)) (Z.to_nat (Z.shiftr sid STRTAB_SPLIT))
    = Some desc ->
  l2ptr desc = None ->
  exists smmu',
    arm_smmu_init_l2_strtab kc smmu sid None =
      Some (- ENOMEM, smmu', [EvAlloc 16384 false]) /\
    strtab (strtab_cfg smmu') = strtab (strtab_cfg smmu) /\
    nth_error (l1_desc (strtab_cfg smmu'))
              (Z.to_nat (Z.shiftr sid STRTAB_SPLIT))
      = Some (mk_l1_desc (STRTAB_SPLIT + 1) None (l2ptr_dma desc)) /\
    features smmu' = features smmu /\ cmdq smmu' = cmdq smmu /\
    forall dma,
      match arm_smmu_init_l2_strtab kc smmu' sid (Some dma),
            arm_smmu_init_l2_strtab kc smmu sid (Some dma) with
      | Some (r1, s1, _), Some (r2, s2, _) => r1 = r2 /\ s1 = s2
      | None, None => True
      | _, _ => False
      end.
Proof.
  intros Hnth Hnull.
  unfold arm_smmu_init_l2_strtab at 1. rewrite Hnth, Hnull.
  eexists. split; [reflexivity|].
  cbn [with_strtab_cfg strtab_cfg strtab l1_desc features cmdq].
  split; [reflexivity|].
  split; [apply (nth_error_store_nat_eq _ _ _ desc); exact Hnth|].
  split; [reflexivity|]. split; [reflexivity|].
  intros dma. unfold arm_smmu_init_l2_strtab.
  cbn [with_strtab_cfg strtab_cfg strtab l1_desc features cmdq].
  rewrite (nth_error_store_nat_eq _ _ _ desc) by exact Hnth.
  rewrite Hnth, Hnull. cbn [l2ptr].
  unfold init_l2_strtab_link.
  cbn [with_strtab_cfg strtab_cfg strtab l1_desc features options cmdq num_l1_ents].
  destruct (arm_smmu_init_bypass_stes kc _ _) as [[blk1 tr]|]; [|exact I].
  rewrite store_nat_twice. split; reflexivity.
Qed.

Lemma init_l2_strtab_alloc_failure_witness :
  nth_error (l1_desc (strtab_cfg sample_smmu_2lvl))
            (Z.to_nat (Z.shiftr 517 STRTAB_SPLIT))
    = Some (mk_l1_desc 0 None 0) /\
  exists smmu',
    arm_smmu_init_l2_strtab sample_kconfig sample_smmu_2lvl 517 None =
      Some (- ENOMEM, smmu', [EvAlloc 16384 false]) /\
    strtab (strtab_cfg smmu') = strtab (strtab_cfg sample_smmu_2lvl).
Proof.
  split; [reflexivity|].
  destruct (init_l2_strtab_alloc_failure sample_kconfig sample_smmu_2lvl 517
              (mk_l1_desc 0 None 0) eq_refl eq_refl)
    as (smmu' & H1 & H2 & _).
  exists smmu'. split; assumption.
Defined.

(** X16.  A 32-bit stream ID that [arm_smmu_sid_in_range] accepts, in a
    table of at most 2^29 entries at its first or only level, has its entry
    inside the table: in a two-level table the first-level index is below the number
    of descriptors and the entry lies within the 2048 dwords of the
    second-level block, in a linear table the entry lies within the table,
    at the offset the 32-bit product of the source gives, which does not
    wrap.  Two stream IDs that are both accepted share an entry only when
    they are equal. *)
Theorem get_step_for_sid_in_range (smmu : arm_smmu_device) (sid sid' : Z) :
  0 <= sid < 2 ^ 32 -> 0 <= sid' < 2 ^ 32 ->
  0 <= num_l1_ents (strtab_cfg smmu) <= 2 ^ 29 ->
  let n := num_l1_ents (strtab_cfg smmu) in
  (arm_smmu_sid_in_range smmu sid = true ->
   match arm_smmu_get_step_for_sid smmu sid with
   | Step_l2 idx off =>
     has_flag (features smmu) ARM_SMMU_FEAT_2_LVL_STRTAB = true /\
     0 <= idx < n /\ 0 <= off /\ off + STRTAB_STE_DWORDS <= 2048 /\
     sid = idx * 256 + off / STRTAB_STE_DWORDS
   | Step_linear off =>
     has_flag (features smmu) ARM_SMMU_FEAT_2_LVL_STRTAB = false /\
     0 <= off /\ off + STRTAB_STE_DWORDS <= n * STRTAB_STE_DWORDS /\
     sid = off / STRTAB_STE_DWORDS /\
     off = u32 (sid * STRTAB_STE_DWORDS)
   end) /\
  (arm_smmu_sid_in_range smmu sid = true ->
   arm_smmu_sid_in_range smmu sid' = true ->
   arm_smmu_get_step_for_sid smmu sid = arm_smmu_get_step_for_sid smmu sid' ->
   sid = sid').
Proof.
  intros Hs Hs' Hn n.
  assert (Hshr : forall x, Z.shiftr x STRTAB_SPLIT = x / 256).
  { intros x. unfold STRTAB_SPLIT. rewrite Z.shiftr_div_pow2 by lia.
    reflexivity. }
  assert (Hland : forall x, Z.land x (Z.shiftl 1 STRTAB_SPLIT - 1) = x mod 256).
  { intros x. change (Z.shiftl 1 STRTAB_SPLIT - 1) with (Z.ones 8).
    rewrite Z.land_ones by lia. reflexivity. }
  unfold arm_smmu_sid_in_range, arm_smmu_get_step_for_sid.
  rewrite !Hshr, !Hland.
  change STRTAB_L1_DESC_DWORDS with 1. change STRTAB_STE_DWORDS with 8.
  change (Z.shiftl 1 STRTAB_SPLIT) with 256.
  fold n.
  change (2 ^ 32) with 4294967296 in Hs, Hs'.
  change (2 ^ 29) with 536870912 in Hn.
  destruct (has_flag (features smmu) ARM_SMMU_FEAT_2_LVL_STRTAB).
  - split.
    + intros Hin. apply Z.ltb_lt in Hin.
      unfold u64 in Hin. rewrite Z.mod_small in Hin by lia.
      split; [reflexivity|]. dlia.
    + intros _ _ H. injection H as H1 H2. dlia.
  - split.
    + intros Hin. apply Z.ltb_lt in Hin.
      split; [reflexivity|]. split; [lia|]. split; [lia|].
      split; [dlia|].
      unfold u32. rewrite Z.mod_small; [reflexivity|].
      change (2 ^ 32) with 4294967296. lia.
    + intros _ _ H. injection H as H1. lia.
Qed.

Lemma get_step_for_sid_in_range_witness :
  0 <= 517 < 2 ^ 32 /\
  0 <= num_l1_ents (strtab_cfg sample_smmu_2lvl) <= 2 ^ 29 /\
  arm_smmu_sid_in_range sample_smmu_2lvl 517 = true /\
  exists idx off,
    arm_smmu_get_step_for_sid sample_smmu_2lvl 517 = Step_l2 idx off /\
    0 <= idx < 4 /\ off + 8 <= 2048.
Proof.
  split; [lia|]. split; [cbn; lia|]. split; [reflexivity|].
  pose proof (get_step_for_sid_in_range sample_smmu_2lvl 517 517
                ltac:(lia) ltac:(lia) ltac:(cbn; lia)) as [H _].
  specialize (H eq_refl).
  change (arm_smmu_get_step_for_sid sample_smmu_2lvl 517)
    with (Step_l2 2 40) in H.
  exists 2, 40. split; [reflexivity|].
  destruct H as (_ & H1 & _ & H2 & _). split; [exact H1|exact H2].
Defined.

(** The loop of [arm_smmu_install_ste_for_dev] looks at the stream IDs it
    has seen only to ask whether one is among them. *)
Lemma install_ste_loop_seen kc e todo :
  forall seen seen' smmu,
    (forall x, In x seen <-> In x seen') ->
    install_ste_loop kc e seen todo smmu = install_ste_loop kc e seen' todo smmu.
Proof.
  induction todo as [|sid rest IH]; intros seen seen' smmu Heq; [reflexivity|].
  cbn [install_ste_loop].
  assert (Hex : existsb (Z.eqb sid) seen = existsb (Z.eqb sid) seen').
  { destruct (existsb (Z.eqb sid) seen) eqn:E1;
      destruct (existsb (Z.eqb sid) seen') eqn:E2; try reflexivity.
    - apply existsb_exists in E1. destruct E1 as (x & Hx & Hxe).
      apply Heq in Hx.
      assert (existsb (Z.eqb sid) seen' = true)
        by (apply existsb_exists; exists x; split; assumption).
      congruence.
    - apply existsb_exists in E2. destruct E2 as (x & Hx & Hxe).
      apply Heq in Hx.
      assert (existsb (Z.eqb sid) seen = true)
        by (apply existsb_exists; exists x; split; assumption).
      congruence. }
  assert (Heq' : forall x, In x (seen ++ [sid]) <-> In x (seen' ++ [sid])).
  { intros x. rewrite !in_app_iff. rewrite (Heq x). reflexivity. }
  rewrite Hex. destruct (existsb (Z.eqb sid) seen').
  - apply IH. exact Heq'.
  - destruct (ste_at _ _ _) as [[smmu1 t1]|]; [|reflexivity].
    rewrite (IH _ _ smmu1 Heq'). reflexivity.
Qed.

Lemma install_ste_loop_repeat kc e sid ids2 :
  forall ids1 seen smmu,
    In sid (seen ++ ids1) ->
    install_ste_loop kc e seen (ids1 ++ sid :: ids2) smmu =
    install_ste_loop kc e seen (ids1 ++ ids2) smmu.
Proof.
  induction ids1 as [|x r IH]; intros seen smmu Hin.
  - rewrite app_nil_r in Hin. cbn [app install_ste_loop].
    assert (Hex : existsb (Z.eqb sid) seen = true).
    { apply existsb_exists. exists sid. split; [exact Hin|apply Z.eqb_refl]. }
    rewrite Hex. apply install_ste_loop_seen.
    intros y. rewrite in_app_iff. cbn [In]. split.
    + intros [H|[H|[]]]; [exact H|subst; exact Hin].
    + intros H. left. exact H.
  - cbn [app install_ste_loop].
    assert (Hin' : In sid ((seen ++ [x]) ++ r)).
    { rewrite <- app_assoc. exact Hin. }
    destruct (existsb (Z.eqb x) seen).
    + apply IH. exact Hin'.
    + destruct (ste_at _ _ _) as [[smmu1 t1]|]; [|reflexivity].
      rewrite (IH _ smmu1 Hin'). reflexivity.
Qed.

(** X17.  [arm_smmu_install_ste_for_dev] writes the entry of a stream ID
    once however often the ID is listed: a repeated occurrence of an ID in
    [fwspec->ids] changes neither the stream table nor the stores and
    commands of the call. *)
Theorem install_ste_for_dev_duplicates (kc : kconfig) (mi : nat)
    (ids1 ids2 : list Z) (sid : Z) (st : driver) :
  In sid ids1 ->
  arm_smmu_install_ste_for_dev kc (mk_fwspec mi (ids1 ++ sid :: ids2)) st =
  arm_smmu_install_ste_for_dev kc (mk_fwspec mi (ids1 ++ ids2)) st.
Proof.
  intros Hin. unfold arm_smmu_install_ste_for_dev. cbn [iommu_priv ids].
  rewrite install_ste_loop_repeat by exact Hin. reflexivity.
Qed.

Lemma install_ste_for_dev_duplicates_witness :
  In 3 [3; 4] /\
  arm_smmu_install_ste_for_dev sample_kconfig (mk_fwspec 0%nat [3; 4; 3])
    sample_driver =
  arm_smmu_install_ste_for_dev sample_kconfig (mk_fwspec 0%nat [3; 4])
    sample_driver.
Proof.
  split; [left; reflexivity|].
  apply (install_ste_for_dev_duplicates sample_kconfig 0%nat [3; 4] [] 3
           sample_driver).
  left. reflexivity.
Defined.

(** ** Entries in their tables *)

Lemma nth_error_store_nat_neq {A : Type} (l : list A) i j v :
  i <> j -> nth_error (store_nat l i v) j = nth_error l j.
Proof.
  revert i j. induction l as [|x l IH]; intros [|i] [|j] H;
    cbn [store_nat nth_error]; try reflexivity; try congruence.
  apply IH. congruence.
Qed.

Lemma queue_read_write_same mem off dst :
  0 <= off -> off + 8 <= Z.of_nat (length mem) -> length dst = 8%nat ->
  queue_read (queue_write mem off dst 8) off 8 = dst.
Proof.
  intros Hoff Hlen Hd.
  apply (nth_ext _ _ 0 0).
  - rewrite queue_read_length, Hd. reflexivity.
  - intros n Hn. rewrite queue_read_length in Hn.
    change (nth n (queue_read (queue_write mem off dst 8) off 8) 0)
      with (nth n (queue_read (queue_write mem off dst 8) off 8) 0).
    replace n with (Z.to_nat (Z.of_nat n)) at 1 by lia.
    fold (load (queue_read (queue_write mem off dst 8) off 8) (Z.of_nat n)).
    rewrite load_queue_read by lia.
    rewrite load_queue_write by lia.
    range_cases; [|lia].
    f_equal. lia.
Qed.

Lemma queue_read_write_other mem off dst off' :
  0 <= off -> 0 <= off' -> off + 8 <= Z.of_nat (length mem) ->
  off' + 8 <= off \/ off + 8 <= off' ->
  queue_read (queue_write mem off dst 8) off' 8 = queue_read mem off' 8.
Proof.
  intros Hoff Hoff' Hlen Hdis. unfold queue_read.
  apply map_ext_in. intros i Hi. apply in_seq in Hi.
  rewrite load_queue_write by lia.
  range_cases; [lia|reflexivity].
Qed.

Lemma get_step_unfold smmu sid :
  arm_smmu_get_step_for_sid smmu sid =
  if has_flag (features smmu) ARM_SMMU_FEAT_2_LVL_STRTAB
  then Step_l2 (sid / 256) (sid mod 256 * 8)
  else Step_linear (sid * 8).
Proof.
  unfold arm_smmu_get_step_for_sid.
  change (Z.shiftl 1 STRTAB_SPLIT - 1) with (Z.ones 8).
  rewrite Z.land_ones by lia.
  unfold STRTAB_SPLIT. rewrite Z.shiftr_div_pow2 by lia.
  change STRTAB_L1_DESC_DWORDS with 1. change STRTAB_STE_DWORDS with 8.
  change (2 ^ 8) with 256. rewrite Z.mul_1_r. reflexivity.
Qed.

Lemma ste_window_length smmu sid dst :
  ste_window smmu sid dst -> length dst = 8%nat.
Proof.
  unfold ste_window. destruct (arm_smmu_get_step_for_sid smmu sid).
  - intros (desc & blk & _ & _ & _ & H). rewrite <- H. apply queue_read_length.
  - intros (_ & H). rewrite <- H. apply queue_read_length.
Qed.

Lemma ste_window_fun smmu sid d1 d2 :
  ste_window smmu sid d1 -> ste_window smmu sid d2 -> d1 = d2.
Proof.
  unfold ste_window. destruct (arm_smmu_get_step_for_sid smmu sid).
  - intros (desc & blk & H1 & H2 & _ & H3) (desc' & blk' & H1' & H2' & _ & H3').
    congruence.
  - intros (_ & H) (_ & H'). congruence.
Qed.

(** Code run on the entry of [sid] leaves what it leaves in that entry and
    nothing in any other. *)
Lemma ste_at_window smmu sid dst c dst' tr :
  0 <= sid -> ste_window smmu sid dst ->
  c dst = Some (tt, dst', tr) -> length dst' = 8%nat ->
  exists smmu' tr',
    ste_at smmu (arm_smmu_get_step_for_sid smmu sid) c = Some (smmu', tr') /\
    features smmu' = features smmu /\ options smmu' = options smmu /\
    cmdq smmu' = cmdq smmu /\
    ste_window smmu' sid dst' /\
    (forall sid' d, 0 <= sid' -> sid' <> sid ->
       ste_window smmu sid' d -> ste_window smmu' sid' d) /\
    num_l1_ents (strtab_cfg smmu') = num_l1_ents (strtab_cfg smmu).
Proof.
  intros Hsid Hw Hc Hlen. unfold ste_window in *.
  assert (Hstep : forall s' x, features s' = features smmu ->
            arm_smmu_get_step_for_sid s' x =
            if has_flag (features smmu) ARM_SMMU_FEAT_2_LVL_STRTAB
            then Step_l2 (x / 256) (x mod 256 * 8) else Step_linear (x * 8)).
  { intros s' x Hf. rewrite get_step_unfold, Hf. reflexivity. }
  rewrite (Hstep smmu sid eq_refl) in Hw |- *.
  change STRTAB_STE_DWORDS with 8 in Hw |- *.
  destruct (has_flag (features smmu) ARM_SMMU_FEAT_2_LVL_STRTAB) eqn:E2.
  - destruct Hw as (desc & blk & Hn & Hp & Hb & Hr).
    unfold ste_at. rewrite Hn, Hp. unfold run_at.
    change STRTAB_STE_DWORDS with 8. rewrite Hr, Hc.
    eexists; eexists. split; [reflexivity|].
    cbn [with_strtab_cfg features options cmdq strtab_cfg l1_desc strtab num_l1_ents].
    split; [reflexivity|]. split; [reflexivity|]. split; [reflexivity|].
    split; [|split; [|reflexivity]].
    + rewrite Hstep by reflexivity.
      cbn [strtab_cfg l1_desc].
      eexists; eexists. split; [apply (nth_error_store_nat_eq _ _ _ desc); exact Hn|].
      cbn [l2ptr]. split; [reflexivity|].
      rewrite queue_write_length. split; [exact Hb|].
      apply queue_read_write_same; try assumption. dlia.
    + intros sid' d Hs' Hne. rewrite !Hstep by reflexivity.
      cbn [strtab_cfg l1_desc].
      intros (desc' & blk' & Hn' & Hp' & Hb' & Hr').
      destruct (Z.eq_dec (sid' / 256) (sid / 256)) as [Ei|Ei].
      * rewrite Ei in *. rewrite Hn in Hn'. injection Hn' as <-.
        rewrite Hp in Hp'. injection Hp' as <-.
        eexists; eexists.
        split; [apply (nth_error_store_nat_eq _ _ _ desc); exact Hn|].
        cbn [l2ptr]. split; [reflexivity|].
        rewrite queue_write_length. split; [exact Hb'|].
        rewrite queue_read_write_other; [exact Hr'| | |exact Hb|]; dlia.
      * exists desc', blk'.
        rewrite nth_error_store_nat_neq by dlia.
        repeat split; assumption.
  - destruct Hw as (Hb & Hr).
    unfold ste_at, run_at. change STRTAB_STE_DWORDS with 8. rewrite Hr, Hc.
    eexists; eexists. split; [reflexivity|].
    cbn [with_strtab_cfg features options cmdq strtab_cfg l1_desc strtab num_l1_ents].
    split; [reflexivity|]. split; [reflexivity|]. split; [reflexivity|].
    split; [|split; [|reflexivity]].
    + rewrite Hstep by reflexivity. cbn [strtab_cfg strtab].
      rewrite queue_write_length. split; [exact Hb|].
      apply queue_read_write_same; try assumption. lia.
    + intros sid' d Hs' Hne. rewrite !Hstep by reflexivity.
      cbn [strtab_cfg strtab]. rewrite queue_write_length.
      intros (Hb' & Hr'). split; [exact Hb'|].
      rewrite queue_read_write_other; [exact Hr'| | |exact Hb|]; lia.
Qed.

(** [arm_smmu_write_strtab_ent] with a stage configuration, on an entry that
    is not live: it ends with dword 0 valid and translating. *)
Lemma write_translate_run kc smmu sid e dst :
  length dst = 8%nat -> ste_not_live kc (load dst 0) ->
  assigned e = true -> s1_cfg e <> None \/ s2_cfg e <> None ->
  exists val dst0 tr,
    arm_smmu_write_strtab_ent kc (Some smmu) sid e dst =
      Some (tt, store dst0 0 val, tr) /\
    length dst0 = 8%nat /\
    has_flag val STRTAB_STE_0_V = true /\
    FIELD_GET STRTAB_STE_0_CFG val =
      Z.lor (match s1_cfg e with Some _ => STRTAB_STE_0_CFG_S1_TRANS | None => 0 end)
            (match s2_cfg e with Some _ => STRTAB_STE_0_CFG_S2_TRANS | None => 0 end).
Proof.
  intros Hlen Hlive Hassigned Hcfg.
  destruct e as [a s1 s2 cs]. cbn [assigned s1_cfg s2_cfg] in Hassigned, Hcfg |- *.
  subst a.
  unfold arm_smmu_write_strtab_ent.
  rewrite (bind_some (rd 0) _ dst (load dst 0) dst []) by reflexivity.
  rewrite (bind_some (ste_live_of _ _) _ dst false dst [])
    by (apply ste_live_of_not_live; assumption).
  cbn [assigned s1_cfg s2_cfg can_stall negb orb andb].
  destruct s1 as [c1|], s2 as [c2|]; try (exfalso; destruct Hcfg; congruence);
  run_ste_io;
  change (arm_smmu_sync_ste_for_sid smmu sid)
    with (fun m : list Z => Some (tt, m, [ev_cfgi_ste sid; ev_cmd_sync]));
  change (arm_smmu_cmdq_issue_cmd smmu
            (mk_ent CMDQ_OP_PREFETCH_CFG false (U_prefetch sid 0 0)))
    with (fun m : list Z => Some (0, m, [ev_prefetch sid]));
  destruct (has_flag (features smmu) ARM_SMMU_FEAT_STALLS),
           (has_flag (features smmu) ARM_SMMU_FEAT_STALL_FORCE), cs,
           (has_flag (options smmu) ARM_SMMU_OPT_SKIP_PREFETCH);
  run_ste_io; eexists; eexists; eexists;
  (split; [reflexivity|]);
  (split; [rewrite ?store_length; exact Hlen|]).
  all: try (split; reflexivity).
  all: try (apply (ste0_s1_fields (tables_base c1) (tables_order c1)
                     (tables_s1fmt c1) _ (or_intror eq_refl))).
  all: pose proof (ste0_s1_fields (tables_base c1) (tables_order c1)
                     (tables_s1fmt c1) 0 (or_introl eq_refl)) as Hf;
       cbv zeta in Hf; rewrite Z.lor_0_r in Hf; apply Hf.
Qed.

Lemma write_strtab_ent_runs kc smmu sid e dst :
  length dst = 8%nat -> ste_accepts kc e (load dst 0) ->
  exists dst' tr,
    arm_smmu_write_strtab_ent kc (Some smmu) sid e dst = Some (tt, dst', tr) /\
    length dst' = 8%nat /\
    has_flag (load dst' 0) STRTAB_STE_0_V = true /\
    FIELD_GET STRTAB_STE_0_CFG (load dst' 0) = ste_target_cfg kc e.
Proof.
  intros Hlen Hacc. unfold ste_accepts in Hacc.
  destruct (ste_translates e) eqn:Et.
  - unfold ste_translates in Et. apply Bool.andb_true_iff in Et.
    destruct Et as [Ha Hc].
    assert (Hcfg : s1_cfg e <> None \/ s2_cfg e <> None).
    { destruct (s1_cfg e); [left; discriminate|].
      destruct (s2_cfg e); [right; discriminate|discriminate]. }
    destruct (write_translate_run kc smmu sid e dst Hlen Hacc Ha Hcfg)
      as (val & dst0 & tr & Hrun & Hl0 & Hv & Hf).
    exists (store dst0 0 val), tr.
    split; [exact Hrun|]. split; [rewrite store_length; exact Hl0|].
    rewrite load_store_eq by lia.
    split; [exact Hv|]. rewrite Hf. unfold ste_target_cfg. rewrite Ha.
    destruct (s1_cfg e), (s2_cfg e); try reflexivity. destruct Hcfg; congruence.
  - assert (Hcfg : assigned e = false \/ (s1_cfg e = None /\ s2_cfg e = None)).
    { unfold ste_translates in Et. destruct (assigned e); [right|left; reflexivity].
      destruct (s1_cfg e); [discriminate|].
      destruct (s2_cfg e); [discriminate|]. split; reflexivity. }
    destruct (write_plain_run kc (Some smmu) sid e dst Hcfg Hacc)
      as (Hrun & Hv & Hf).
    eexists; eexists. split; [exact Hrun|].
    split; [rewrite !store_length; exact Hlen|].
    rewrite !load_store_neq by lia. rewrite load_store_eq by lia.
    split; [exact Hv|]. rewrite Hf. unfold ste_target_cfg.
    destruct Hcfg as [Ha|[H1 H2]].
    + rewrite Ha. reflexivity.
    + rewrite H1, H2. destruct (assigned e); reflexivity.
Qed.

Lemma existsb_eqb_false sid seen :
  existsb (Z.eqb sid) seen = false -> ~ In sid seen.
Proof.
  intros H Hin.
  assert (existsb (Z.eqb sid) seen = true).
  { apply existsb_exists. exists sid. split; [exact Hin|apply Z.eqb_refl]. }
  congruence.
Qed.

Lemma existsb_eqb_true sid seen :
  existsb (Z.eqb sid) seen = true -> In sid seen.
Proof.
  intros H. apply existsb_exists in H. destruct H as (x & Hx & He).
  apply Z.eqb_eq in He. subst. exact Hx.
Qed.

(** The loop of [arm_smmu_install_ste_for_dev] gives every stream ID it has
    not seen an entry of the target configuration and touches no other
    entry. *)
Lemma install_ste_loop_spec kc e :
  forall todo seen smmu,
    (forall sid, In sid todo ->
       0 <= sid /\
       exists dst, ste_window smmu sid dst /\
                   (~ In sid seen -> ste_accepts kc e (load dst 0))) ->
    exists smmu' tr,
      install_ste_loop kc e seen todo smmu = Some (smmu', tr) /\
      features smmu' = features smmu /\ options smmu' = options smmu /\
      cmdq smmu' = cmdq smmu /\
      (forall sid, In sid todo -> ~ In sid seen ->
         ste_has_cfg smmu' sid (ste_target_cfg kc e)) /\
      (forall sid d, 0 <= sid -> ~ In sid todo \/ In sid seen ->
         ste_window smmu sid d -> ste_window smmu' sid d).
Proof.
  induction todo as [|sid0 rest IH]; intros seen smmu H.
  - exists smmu, []. cbn [install_ste_loop In].
    repeat split; try reflexivity; try tauto.
  - destruct (H sid0 (or_introl eq_refl)) as (Hs0 & dst0 & Hw0 & Hacc0).
    cbn [install_ste_loop].
    destruct (existsb (Z.eqb sid0) seen) eqn:Ex.
    + apply existsb_eqb_true in Ex.
      destruct (IH (seen ++ [sid0]) smmu) as (smmu' & tr & Hrun & Hf & Ho & Hq & Hcfg & Hfr).
      { intros s Hs. destruct (H s (or_intror Hs)) as (Hs1 & d & Hw & Hacc).
        split; [exact Hs1|]. exists d. split; [exact Hw|].
        intros Hn. apply Hacc. intros Hin. apply Hn.
        apply in_app_iff. left. exact Hin. }
      exists smmu', tr. split; [exact Hrun|].
      split; [exact Hf|]. split; [exact Ho|]. split; [exact Hq|]. split.
      * intros s [Hs|Hs] Hn; [subst; tauto|].
        apply Hcfg; [exact Hs|]. rewrite in_app_iff. cbn [In].
        intros [Hi|[Hi|[]]]; [tauto|subst; tauto].
      * intros s d Hs Hc. apply Hfr; [exact Hs|].
        rewrite in_app_iff. cbn [In] in Hc |- *. tauto.
    + apply existsb_eqb_false in Ex.
      pose proof (ste_window_length _ _ _ Hw0) as Hl0.
      destruct (write_strtab_ent_runs kc smmu sid0 e dst0 Hl0 (Hacc0 Ex))
        as (dst' & tr1 & Hrun1 & Hl1 & Hv1 & Hc1).
      destruct (ste_at_window smmu sid0 dst0 _ dst' tr1 Hs0 Hw0 Hrun1 Hl1)
        as (smmu1 & tr' & Hat & Hf1 & Ho1 & Hq1 & Hw1 & Hfr1 & _).
      rewrite Hat.
      destruct (IH (seen ++ [sid0]) smmu1) as (smmu' & tr & Hrun & Hf & Ho & Hq & Hcfg & Hfr).
      { intros s Hs. destruct (H s (or_intror Hs)) as (Hs1 & d & Hw & Hacc).
        split; [exact Hs1|].
        destruct (Z.eq_dec s sid0) as [->|Hne].
        - exists dst'. split; [exact Hw1|].
          intros Hn. exfalso. apply Hn. apply in_app_iff. right. left. reflexivity.
        - exists d. split; [apply Hfr1; assumption|].
          intros Hn. apply Hacc. intros Hin. apply Hn.
          apply in_app_iff. left. exact Hin. }
      rewrite Hrun. exists smmu', (tr' ++ tr). split; [reflexivity|].
      split; [congruence|]. split; [congruence|]. split; [congruence|]. split.
      * intros s Hs Hn.
        destruct (Z.eq_dec s sid0) as [->|Hne].
        -- exists dst'. split; [|split; assumption].
           apply Hfr; [exact Hs0| |exact Hw1].
           right. apply in_app_iff. right. left. reflexivity.
        -- destruct Hs as [Hs|Hs]; [congruence|].
           apply Hcfg; [exact Hs|]. rewrite in_app_iff. cbn [In].
           intros [Hi|[Hi|[]]]; [tauto|congruence].
      * intros s d Hs Hc Hw.
        assert (Hne : s <> sid0).
        { intros ->. cbn [In] in Hc. destruct Hc as [Hc|Hc]; tauto. }
        apply Hfr; [exact Hs| |apply Hfr1; assumption].
        rewrite in_app_iff. cbn [In] in Hc |- *. tauto.
Qed.

(** [arm_smmu_install_ste_for_dev] on a device whose streams all have their
    entries. *)
Lemma install_ste_for_dev_spec kc fw st :
  streams_present st (m_smmu (masters st (iommu_priv fw))) fw
    (ste_accepts kc (ste (masters st (iommu_priv fw)))) ->
  exists st',
    arm_smmu_install_ste_for_dev kc fw st = Some st' /\
    masters st' = masters st /\ domains st' = domains st /\
    (forall sid, In sid (ids fw) ->
       ste_has_cfg (smmus st' (m_smmu (masters st (iommu_priv fw)))) sid
         (ste_target_cfg kc (ste (masters st (iommu_priv fw))))) /\
    (forall sid d, 0 <= sid -> ~ In sid (ids fw) ->
       ste_window (smmus st (m_smmu (masters st (iommu_priv fw)))) sid d ->
       ste_window (smmus st' (m_smmu (masters st (iommu_priv fw)))) sid d) /\
    (forall k, k <> m_smmu (masters st (iommu_priv fw)) ->
       smmus st' k = smmus st k).
Proof.
  intros Hp. unfold arm_smmu_install_ste_for_dev.
  set (master := masters st (iommu_priv fw)) in *.
  destruct (install_ste_loop_spec kc (ste master) (ids fw) []
              (smmus st (m_smmu master)))
    as (smmu' & tr & Hrun & _ & _ & _ & Hcfg & Hfr).
  { intros sid Hin. destruct (Hp sid Hin) as (Hs & dst & Hw & Hacc).
    split; [exact Hs|]. exists dst. split; [exact Hw|]. intros _. exact Hacc. }
  rewrite Hrun. eexists. split; [reflexivity|].
  cbn [masters domains smmus].
  split; [reflexivity|]. split; [reflexivity|].
  split; [|split].
  - intros sid Hin. rewrite upd_same. apply Hcfg; [exact Hin|]. intros [].
  - intros sid d Hs Hn Hw. rewrite upd_same.
    apply Hfr; [exact Hs|left; exact Hn|exact Hw].
  - intros k Hk. apply upd_other. exact Hk.
Qed.

Lemma detach_runs kc dev fw st :
  dev_fwspec dev = Some fw ->
  streams_present st (m_smmu (masters st (iommu_priv fw))) fw
    (fun v => ste_not_live kc v \/ ste_is_live v) ->
  exists st',
    arm_smmu_detach_dev kc dev st = Some st' /\
    (forall sid, In sid (ids fw) ->
       ste_has_cfg (smmus st' (m_smmu (masters st (iommu_priv fw)))) sid
         (detached_cfg kc)) /\
    (forall sid d, 0 <= sid -> ~ In sid (ids fw) ->
       ste_window (smmus st (m_smmu (masters st (iommu_priv fw)))) sid d ->
       ste_window (smmus st' (m_smmu (masters st (iommu_priv fw)))) sid d) /\
    (forall k, k <> m_smmu (masters st (iommu_priv fw)) ->
       smmus st' k = smmus st k) /\
    m_smmu (masters st' (iommu_priv fw)) = m_smmu (masters st (iommu_priv fw)) /\
    assigned (ste (masters st' (iommu_priv fw))) = false /\
    domain (masters st' (iommu_priv fw)) = None.
Proof.
  intros Hfw Hp. unfold arm_smmu_detach_dev. rewrite Hfw.
  set (mi := iommu_priv fw) in *.
  set (si := m_smmu (masters st mi)) in *.
  match goal with
  | |- exists st', arm_smmu_install_ste_for_dev kc fw ?s2 = _ /\ _ =>
    set (st2 := s2)
  end.
  assert (Hm2 : m_smmu (masters st2 mi) = si /\
                assigned (ste (masters st2 mi)) = false /\
                domain (masters st2 mi) = None /\
                smmus st2 = smmus st).
  { unfold st2. cbn [masters smmus]. rewrite upd_same. cbn [m_smmu ste domain].
    destruct (domain (masters st mi)) eqn:Ed; cbn [masters smmus];
      rewrite ?upd_same; cbn [m_smmu ste domain]; unfold with_assigned;
      cbn [assigned]; repeat split; try reflexivity. exact Ed. }
  destruct Hm2 as (Hm & Ha & Hd & Hsm).
  destruct (install_ste_for_dev_spec kc fw st2)
    as (st' & Hrun & Hmas & _ & Hcfg & Hfr & Hoth).
  { unfold streams_present. fold mi. rewrite Hm, Hsm. intros sid Hin.
    destruct (Hp sid Hin) as (Hs & dst & Hw & Hok).
    split; [exact Hs|]. exists dst. split; [exact Hw|].
    unfold ste_accepts, ste_translates. rewrite Ha. exact Hok. }
  fold mi in Hcfg, Hfr, Hoth. rewrite Hm in Hcfg, Hfr, Hoth.
  rewrite Hsm in Hfr, Hoth.
  exists st'. split; [exact Hrun|]. split.
  { intros sid Hin. specialize (Hcfg sid Hin).
    unfold ste_target_cfg in Hcfg. rewrite Ha in Hcfg. exact Hcfg. }
  split; [exact Hfr|]. split; [exact Hoth|].
  rewrite Hmas. repeat split; assumption.
Qed.

(** X18.  Detaching a device whose streams all have their entries leaves
    each of these entries valid and not translating, aborting under
    [disable_bypass] and bypassing otherwise, whether it was live before or
    not; entries of other streams and other SMMUs stay as they were, and the
    master ends unassigned, bound to no domain. *)
Theorem detach_dev_entries (kc : kconfig) (dev : device) (fw : iommu_fwspec)
    (st : driver) :
  dev_fwspec dev = Some fw ->
  streams_present st (m_smmu (masters st (iommu_priv fw))) fw
    (fun v => ste_not_live kc v \/ ste_is_live v) ->
  exists st',
    arm_smmu_detach_dev kc dev st = Some st' /\
    (forall sid, In sid (ids fw) ->
       ste_has_cfg (smmus st' (m_smmu (masters st (iommu_priv fw)))) sid
         (detached_cfg kc)) /\
    (forall sid d, 0 <= sid -> ~ In sid (ids fw) ->
       ste_window (smmus st (m_smmu (masters st (iommu_priv fw)))) sid d ->
       ste_window (smmus st' (m_smmu (masters st (iommu_priv fw)))) sid d) /\
    (forall k, k <> m_smmu (masters st (iommu_priv fw)) ->
       smmus st' k = smmus st k) /\
    m_smmu (masters st' (iommu_priv fw)) = m_smmu (masters st (iommu_priv fw)) /\
    assigned (ste (masters st' (iommu_priv fw))) = false /\
    domain (masters st' (iommu_priv fw)) = None.
Proof. apply detach_runs. Qed.

Lemma attach_unassigned_runs kc fin di dev fw st :
  dev_fwspec dev = Some fw ->
  assigned (ste (masters st (iommu_priv fw))) = false ->
  streams_present st (m_smmu (masters st (iommu_priv fw))) fw (ste_not_live kc) ->
  exists r st',
    arm_smmu_attach_dev kc fin di dev st = Some (r, st') /\
    (r = 0 ->
     forall sid, In sid (ids fw) ->
       ste_has_cfg (smmus st' (m_smmu (masters st (iommu_priv fw)))) sid
         (stage_cfg (stage (domains st' di)))) /\
    (r <> 0 -> smmus st' = smmus st).
Proof.
  intros Hfw Ha Hp. unfold arm_smmu_attach_dev. rewrite Hfw, Ha.
  set (mi := iommu_priv fw) in *.
  set (si := m_smmu (masters st mi)) in *.
  match goal with
  | |- context [let '(r, d2) := ?b in _] => destruct b as [r d2] eqn:Eb
  end.
  destruct (negb (r =? 0)) eqn:Er.
  - exists r. eexists. split; [reflexivity|]. cbn [smmus].
    apply Bool.negb_true_iff, Z.eqb_neq in Er.
    split; [intros; contradiction|reflexivity].
  - apply Bool.negb_false_iff, Z.eqb_eq in Er. subst r.
    match goal with
    | |- context [arm_smmu_install_ste_for_dev kc fw ?s2] => set (st2 := s2)
    end.
    set (d3 := with_devices d2 (list_add mi (devices d2))) in *.
    assert (Hm : m_smmu (masters st2 mi) = si /\ smmus st2 = smmus st /\
                 domains st2 di = d3).
    { unfold st2. cbn [masters smmus domains]. rewrite !upd_same.
      repeat split; reflexivity. }
    destruct Hm as (Hm & Hsm & Hd).
    destruct (install_ste_for_dev_spec kc fw st2)
      as (st' & Hrun & _ & Hdom & Hcfg & _).
    { unfold streams_present. fold mi. rewrite Hm, Hsm. intros sid Hin.
      destruct (Hp sid Hin) as (Hs & dst & Hw & Hok).
      split; [exact Hs|]. exists dst. split; [exact Hw|].
      unfold ste_accepts.
      destruct (ste_translates _); [exact Hok|left; exact Hok]. }
    rewrite Hrun. exists 0, st'. split; [reflexivity|].
    split; [|intros; contradiction].
    intros _ sid Hin. fold mi in Hcfg. rewrite Hm in Hcfg.
    specialize (Hcfg sid Hin). rewrite Hdom, Hd.
    replace (stage_cfg (stage d3))
      with (ste_target_cfg kc (ste (masters st2 mi))); [exact Hcfg|].
    unfold st2. cbn [masters]. rewrite upd_same. cbn [ste].
    destruct (stage d3); reflexivity.
Qed.

Lemma attach_dev_after_detach kc fin di dev fw st st1 :
  dev_fwspec dev = Some fw ->
  assigned (ste (masters st (iommu_priv fw))) = true ->
  arm_smmu_detach_dev kc dev st = Some st1 ->
  m_smmu (masters st1 (iommu_priv fw)) = m_smmu (masters st (iommu_priv fw)) ->
  assigned (ste (masters st1 (iommu_priv fw))) = false ->
  arm_smmu_attach_dev kc fin di dev st = arm_smmu_attach_dev kc fin di dev st1.
Proof.
  intros Hfw Ha Hdet Hm Ha1. unfold arm_smmu_attach_dev.
  rewrite Hfw, Ha, Hdet, Ha1, Hm. reflexivity.
Qed.

Lemma has_cfg_detached_not_live kc smmu sid :
  ste_has_cfg smmu sid (detached_cfg kc) ->
  exists dst, ste_window smmu sid dst /\ ste_not_live kc (load dst 0).
Proof.
  intros (dst & Hw & Hv & Hc). exists dst. split; [exact Hw|].
  unfold ste_not_live, detached_cfg in *.
  destruct (disable_bypass kc); [right; right; split; [exact Hc|reflexivity]|].
  right; left. exact Hc.
Qed.

(** X19.  Attaching a device whose streams all have their entries, none of
    them live unless the device is attached already, always returns.  When
    it returns 0 every entry of the device is valid with the configuration
    of the stage of the domain: bypass for a bypass domain, stage-1
    translation for a stage-1 domain, stage-2 translation otherwise.  When
    it fails, a device that was attached before is left with aborting (or
    bypassing) entries and a device that was not keeps its stream table. *)
Theorem attach_dev_entries (kc : kconfig) (fin : finalise_fn) (di : nat)
    (dev : device) (fw : iommu_fwspec) (st : driver) :
  dev_fwspec dev = Some fw ->
  streams_present st (m_smmu (masters st (iommu_priv fw))) fw
    (fun v => if assigned (ste (masters st (iommu_priv fw)))
              then ste_not_live kc v \/ ste_is_live v
              else ste_not_live kc v) ->
  exists r st',
    arm_smmu_attach_dev kc fin di dev st = Some (r, st') /\
    (r = 0 ->
     forall sid, In sid (ids fw) ->
       ste_has_cfg (smmus st' (m_smmu (masters st (iommu_priv fw)))) sid
         (stage_cfg (stage (domains st' di)))) /\
    (r <> 0 -> assigned (ste (masters st (iommu_priv fw))) = true ->
     forall sid, In sid (ids fw) ->
       ste_has_cfg (smmus st' (m_smmu (masters st (iommu_priv fw)))) sid
         (detached_cfg kc)) /\
    (r <> 0 -> assigned (ste (masters st (iommu_priv fw))) = false ->
     smmus st' = smmus st).
Proof.
  intros Hfw Hp.
  destruct (assigned (ste (masters st (iommu_priv fw)))) eqn:Ha.
  - destruct (detach_runs kc dev fw st Hfw Hp)
      as (st1 & Hdet & Hcfg1 & _ & _ & Hm1 & Ha1 & _).
    rewrite (attach_dev_after_detach kc fin di dev fw st st1 Hfw Ha Hdet Hm1 Ha1).
    destruct (attach_unassigned_runs kc fin di dev fw st1 Hfw Ha1)
      as (r & st' & Hrun & H0 & Hn).
    { rewrite Hm1. intros sid Hin. split; [apply (Hp sid Hin)|].
      apply has_cfg_detached_not_live. apply Hcfg1. exact Hin. }
    rewrite Hm1 in H0.
    exists r, st'. split; [exact Hrun|]. split; [exact H0|]. split.
    + intros Hr _ sid Hin. rewrite (Hn Hr). apply Hcfg1. exact Hin.
    + intros _ Hf. discriminate.
  - destruct (attach_unassigned_runs kc fin di dev fw st Hfw Ha Hp)
      as (r & st' & Hrun & H0 & Hn).
    exists r, st'. split; [exact Hrun|]. split; [exact H0|]. split.
    + intros _ Hf. discriminate.
    + intros Hr _. apply Hn. exact Hr.
Qed.

Lemma sample_driver_streams :
  streams_present sample_driver 0%nat (mk_fwspec 0%nat [3])
    (ste_not_live sample_kconfig).
Proof.
  intros sid [<-|[]]. split; [lia|].
  exists [0; 0; 0; 0; 0; 0; 0; 0]. split.
  - split; [vm_compute; discriminate|reflexivity].
  - left. reflexivity.
Qed.

Lemma sample_attached_streams :
  streams_present sample_attached 0%nat (mk_fwspec 0%nat [3])
    (fun v => ste_not_live sample_kconfig v \/ ste_is_live v).
Proof.
  intros sid [<-|[]]. split; [lia|].
  exists [4107; 214; 0; 0; 0; 0; 0; 0]. split.
  - split; [vm_compute; discriminate|vm_compute; reflexivity].
  - right. split; [reflexivity|left; reflexivity].
Qed.

Lemma detach_dev_entries_witness :
  dev_fwspec sample_dev = Some (mk_fwspec 0%nat [3]) /\
  streams_present sample_attached 0%nat (mk_fwspec 0%nat [3])
    (fun v => ste_not_live sample_kconfig v \/ ste_is_live v) /\
  exists st',
    arm_smmu_detach_dev sample_kconfig sample_dev sample_attached = Some st' /\
    ste_has_cfg (smmus st' 0%nat) 3 STRTAB_STE_0_CFG_ABORT.
Proof.
  split; [reflexivity|]. split; [exact sample_attached_streams|].
  destruct (detach_dev_entries sample_kconfig sample_dev (mk_fwspec 0%nat [3])
              sample_attached eq_refl sample_attached_streams)
    as (st' & Hrun & Hcfg & _).
  exists st'. split; [exact Hrun|].
  apply (Hcfg 3). left. reflexivity.
Defined.

Lemma attach_dev_entries_witness :
  dev_fwspec sample_dev = Some (mk_fwspec 0%nat [3]) /\
  streams_present sample_driver 0%nat (mk_fwspec 0%nat [3])
    (ste_not_live sample_kconfig) /\
  exists st',
    arm_smmu_attach_dev sample_kconfig sample_finalise 0%nat sample_dev
      sample_driver = Some (0, st') /\
    ste_has_cfg (smmus st' 0%nat) 3 STRTAB_STE_0_CFG_S1_TRANS.
Proof.
  split; [reflexivity|]. split; [exact sample_driver_streams|].
  destruct (attach_dev_entries sample_kconfig sample_finalise 0%nat sample_dev
              (mk_fwspec 0%nat [3]) sample_driver eq_refl sample_driver_streams)
    as (r & st' & Hrun & H0 & _).
  destruct sample_attach_runs as (st0 & Hst0 & _).
  rewrite Hst0 in Hrun. injection Hrun as <- <-.
  exists st0. split; [exact Hst0|].
  specialize (H0 eq_refl 3 (or_introl eq_refl)).
  replace (stage_cfg (stage (domains st0 0%nat)))
    with STRTAB_STE_0_CFG_S1_TRANS in H0; [exact H0|].
  pose proof Hst0 as Hc. vm_compute in Hc. injection Hc as <-. reflexivity.
Defined.

(** ** The MPAM fields *)

Lemma ste_dwords_window smmu sid dst :
  ste_window smmu sid dst ->
  ste_dwords smmu (arm_smmu_get_step_for_sid smmu sid) = Some dst.
Proof.
  unfold ste_window, ste_dwords.
  destruct (arm_smmu_get_step_for_sid smmu sid).
  - intros (desc & blk & H1 & H2 & _ & H3). rewrite H1, H2, H3. reflexivity.
  - intros (_ & H). rewrite H. reflexivity.
Qed.

Lemma set_field_get h l val v :
  0 <= l <= h -> h < 64 ->
  FIELD_GET (GENMASK h l) (set_field val (GENMASK h l) v) = v mod 2 ^ (h - l + 1).
Proof.
  intros Hl Hh. unfold set_field.
  rewrite FIELD_GET_lor, FIELD_GET_PREP by assumption.
  rewrite FIELD_GET_zero; [apply Z.lor_0_l|].
  apply Z.bits_inj'. intros i Hi.
  rewrite !Z.land_spec, Z.bits_0, GENMASK_testbit by lia.
  unfold u64. destruct (Z.ltb_spec i 64).
  - rewrite Z.mod_pow2_bits_low, Z.lnot_spec, GENMASK_testbit by lia.
    destruct ((l <=? i) && (i <? h + 1)); cbn [negb];
      rewrite ?Bool.andb_false_r; reflexivity.
  - replace (i <? h + 1) with false by (symmetry; apply Z.ltb_ge; lia).
    rewrite !Bool.andb_false_r. reflexivity.
Qed.

(** Replacing a field keeps the bits outside it. *)
Lemma set_field_outside h l val v i :
  0 <= l <= h -> h < 64 -> 0 <= i < 64 -> i < l \/ h < i ->
  Z.testbit (set_field val (GENMASK h l) v) i = Z.testbit val i.
Proof.
  intros Hl Hh Hi Hout. unfold set_field, FIELD_PREP.
  assert (Hm : (l <=? i) && (i <? h + 1) = false).
  { apply Bool.andb_false_iff.
    destruct Hout; [left; apply Z.leb_gt|right; apply Z.ltb_ge]; lia. }
  rewrite Z.lor_spec, !Z.land_spec, GENMASK_testbit by lia.
  rewrite Hm, Bool.andb_false_r, Bool.orb_false_r.
  unfold u64.
  rewrite Z.mod_pow2_bits_low, Z.lnot_spec, GENMASK_testbit by lia.
  rewrite Hm. apply Bool.andb_true_r.
Qed.

(** X20.  An MPAM configuration stored by [arm_smmu_set_ste_mpam] in the
    entry of a stream in range is what [arm_smmu_get_ste_mpam] reads back:
    the low bit of [s1mpam], and, when that bit is clear, the low 16 bits
    of the partition ID and the low 8 bits of the PMG; when the bit is set
    the reader returns after the flag and leaves the caller's partition ID
    and PMG as they were.  The writer changes dwords 1, 4 and 5 of the entry
    only.  For a stream ID out of range both return [-ERANGE] and nothing is
    read or written. *)
Theorem ste_mpam_set_get (smmu : arm_smmu_device)
    (sid partid pmg s1mpam : Z) (out : Z * Z * Z) (dst : list Z) :
  0 <= sid < 2 ^ 32 ->
  (arm_smmu_sid_in_range smmu sid = false ->
   arm_smmu_set_ste_mpam smmu sid partid pmg s1mpam = Some (- ERANGE, smmu, []) /\
   arm_smmu_get_ste_mpam smmu sid out = Some (- ERANGE, out)) /\
  (arm_smmu_sid_in_range smmu sid = true -> ste_window smmu sid dst ->
   exists smmu' tr dst',
     arm_smmu_set_ste_mpam smmu sid partid pmg s1mpam = Some (0, smmu', tr) /\
     ste_window smmu' sid dst' /\
     (forall j, 0 <= j -> j <> 1 -> j <> 4 -> j <> 5 ->
        load dst' j = load dst j) /\
     (forall i, 0 <= i < 64 ->
        (i <> 26 -> Z.testbit (load dst' 1) i = Z.testbit (load dst 1) i) /\
        (i < 16 \/ 31 < i ->
         Z.testbit (load dst' 4) i = Z.testbit (load dst 4) i) /\
        (7 < i -> Z.testbit (load dst' 5) i = Z.testbit (load dst 5) i)) /\
     arm_smmu_get_ste_mpam smmu' sid out =
       Some (0, if s1mpam mod 2 =? 0
                then (partid mod 2 ^ 16, pmg mod 2 ^ 8, 0)
                else (fst (fst out), snd (fst out), 1))).
Proof.
  intros Hsid.
  assert (Hu : u32 sid = sid) by (unfold u32; apply Z.mod_small; lia).
  split.
  - intros Hr. unfold arm_smmu_set_ste_mpam, arm_smmu_get_ste_mpam.
    rewrite Hu, Hr. split; reflexivity.
  - intros Hr Hw.
    pose proof (ste_window_length _ _ _ Hw) as Hlen.
    set (a := set_field (load dst 1) STRTAB_STE_1_S1MPAM s1mpam).
    set (b := set_field (load dst 4) STRTAB_STE_4_PARTID_MASK partid).
    set (c := set_field (load dst 5) STRTAB_STE_5_PMG_MASK pmg).
    set (dst' := store (store (store dst 1 a) 4 b) 5 c).
    assert (Hl' : length dst' = 8%nat)
      by (unfold dst'; rewrite !store_length; exact Hlen).
    destruct (ste_at_window smmu sid dst
                (v1 <- rd 1 ;;
                 wr_once 1 (set_field v1 STRTAB_STE_1_S1MPAM s1mpam) ;;;
                 v4 <- rd 4 ;;
                 wr_once 4 (set_field v4 STRTAB_STE_4_PARTID_MASK partid) ;;;
                 v5 <- rd 5 ;;
                 wr_once 5 (set_field v5 STRTAB_STE_5_PMG_MASK pmg) ;;;
                 arm_smmu_sync_ste_for_sid smmu sid)%ste
                dst'
                [EvStore 1 a true; EvStore 4 b true; EvStore 5 c true;
                 ev_cfgi_ste sid; ev_cmd_sync])
      as (smmu' & tr' & Hat & Hf & _ & _ & Hw' & _ & Hn);
      [lia|exact Hw| |exact Hl'|].
    { cbv [bind rd wr_once app]. rewrite sync_ste_for_sid_run.
      rewrite (load_store_neq dst 1 4) by lia.
      rewrite (load_store_neq _ 4 5), (load_store_neq dst 1 5) by lia.
      reflexivity. }
    exists smmu', tr', dst'.
    split.
    { unfold arm_smmu_set_ste_mpam. rewrite Hu, Hr. cbn [negb].
      rewrite Hat. reflexivity. }
    split; [exact Hw'|]. split.
    { intros j Hj H1 H4 H5. unfold dst'.
      rewrite !load_store_neq by lia. reflexivity. }
    assert (Hr' : arm_smmu_sid_in_range smmu' sid = true).
    { unfold arm_smmu_sid_in_range in *. rewrite Hf, Hn. exact Hr. }
    assert (H1 : load dst' 1 = a).
    { unfold dst'. rewrite !load_store_neq by lia. apply load_store_eq. lia. }
    assert (H4 : load dst' 4 = b).
    { unfold dst'. rewrite load_store_neq by lia. apply load_store_eq.
      rewrite store_length. lia. }
    assert (H5 : load dst' 5 = c).
    { unfold dst'. apply load_store_eq. rewrite !store_length. lia. }
    split.
    { intros i Hi. rewrite H1, H4, H5. unfold a, b, c.
      change STRTAB_STE_1_S1MPAM with (GENMASK 26 26).
      unfold STRTAB_STE_4_PARTID_MASK, STRTAB_STE_5_PMG_MASK.
      repeat split; intros Ho; apply set_field_outside; lia. }
    unfold arm_smmu_get_ste_mpam. rewrite Hu, Hr'. cbn [negb].
    rewrite (ste_dwords_window _ _ _ Hw').
    rewrite H1, H4, H5. unfold a, b, c.
    change STRTAB_STE_1_S1MPAM with (GENMASK 26 26).
    unfold STRTAB_STE_4_PARTID_MASK, STRTAB_STE_5_PMG_MASK.
    rewrite !set_field_get by lia.
    change (2 ^ (26 - 26 + 1)) with 2.
    change (2 ^ (31 - 16 + 1)) with (2 ^ 16).
    change (2 ^ (7 - 0 + 1)) with (2 ^ 8).
    pose proof (Z.mod_pos_bound s1mpam 2 ltac:(lia)) as Hb.
    destruct (Z.eqb_spec (s1mpam mod 2) 0) as [E|E]; cbn [negb].
    + rewrite E. reflexivity.
    + replace (s1mpam mod 2) with 1 by lia. reflexivity.
Qed.

Lemma ste_mpam_set_get_witness :
  0 <= 3 < 2 ^ 32 /\
  arm_smmu_sid_in_range
    (mk_smmu 0 0 (mk_cmdq (sample_queue 0) (bitmap_zalloc 64) 5 0)
             (mk_strtab_cfg (repeat 0 128%nat) [] 16)) 3 = true /\
  exists smmu' tr,
    arm_smmu_set_ste_mpam
      (mk_smmu 0 0 (mk_cmdq (sample_queue 0) (bitmap_zalloc 64) 5 0)
               (mk_strtab_cfg (repeat 0 128%nat) [] 16)) 3 70000 300 0
      = Some (0, smmu', tr) /\
    arm_smmu_get_ste_mpam smmu' 3 (0, 0, 0) = Some (0, (4464, 44, 0)).
Proof.
  split; [lia|]. split; [reflexivity|].
  destruct (ste_mpam_set_get
              (mk_smmu 0 0 (mk_cmdq (sample_queue 0) (bitmap_zalloc 64) 5 0)
                       (mk_strtab_cfg (repeat 0 128%nat) [] 16))
              3 70000 300 0 (0, 0, 0) [0; 0; 0; 0; 0; 0; 0; 0]
              ltac:(lia)) as (_ & H).
  destruct H as (smmu' & tr & dst' & H1 & _ & _ & _ & H2).
  - reflexivity.
  - split; [vm_compute; discriminate|reflexivity].
  - exists smmu', tr. split; [exact H1|exact H2].
Defined.

(** ** Commands in their slots *)

Lemma nth_skipn_add {A : Type} (l : list A) m k d :
  nth k (skipn m l) d = nth (m + k) l d.
Proof.
  revert l. induction m as [|m IH]; intros l; [reflexivity|].
  destruct l as [|x l]; cbn [skipn Nat.add nth].
  - destruct k; reflexivity.
  - apply IH.
Qed.

Lemma position_add_inj s a j k :
  0 <= s -> 0 <= j < capacity s -> 0 <= k < capacity s ->
  position s (a + j) = position s (a + k) -> j = k.
Proof.
  intros Hs Hj Hk. unfold position.
  pose proof (pow2_pos s Hs) as HC. fold (capacity s) in HC.
  intros H.
  assert (Hd : (a + j - (a + k)) mod capacity s = 0).
  { rewrite Zminus_mod, H, Z.sub_diag. apply Z.mod_0_l. lia. }
  replace (a + j - (a + k)) with (j - k) in Hd by lia.
  destruct (Z.lt_ge_cases j k).
  - rewrite mod_near in Hd by lia.
    destruct (Z.ltb_spec (j - k) 0); lia.
  - rewrite Z.mod_small in Hd by lia. lia.
Qed.

Lemma position_inc_prod_n s p i :
  0 <= s < 31 ->
  position s (queue_inc_prod_n (mk_llq p 0 s) i) = position s (p + i).
Proof.
  intros Hs.
  destruct (queue_inc_prod_n_mod (mk_llq p 0 s) i Hs) as (Hm & _).
  cbn [prod max_n_shift] in Hm.
  rewrite <- (position_mod s (queue_inc_prod_n _ _)), Hm by lia.
  apply position_mod. lia.
Qed.

Lemma write_entries_mem_S qu cmds p n :
  write_entries_mem qu cmds p (S n) =
  queue_write (write_entries_mem qu cmds p n)
    (Q_ENT qu (queue_inc_prod_n (mk_llq p 0 (max_n_shift (llq qu))) (Z.of_nat n)))
    (skipn (n * Z.to_nat CMDQ_ENT_DWORDS) cmds) CMDQ_ENT_DWORDS.
Proof.
  unfold write_entries_mem. rewrite seq_S, fold_left_app. reflexivity.
Qed.

Lemma write_entries_mem_spec (qu : arm_smmu_queue) cmds p n :
  let s := max_n_shift (llq qu) in
  0 <= s < 31 -> ent_dwords qu = CMDQ_ENT_DWORDS ->
  Z.of_nat (length (base qu)) = 2 * capacity s ->
  (Z.of_nat n <= capacity s) ->
  length (write_entries_mem qu cmds p n) = length (base qu) /\
  (forall j d, (j < n)%nat -> 0 <= d < 2 ->
     load (write_entries_mem qu cmds p n)
          (2 * position s (p + Z.of_nat j) + d) =
     nth (2 * j + Z.to_nat d) cmds 0) /\
  (forall x, 0 <= x ->
     (forall j, (j < n)%nat ->
        x < 2 * position s (p + Z.of_nat j) \/
        2 * position s (p + Z.of_nat j) + 2 <= x) ->
     load (write_entries_mem qu cmds p n) x = load (base qu) x).
Proof.
  intros s Hs Hed Hlen.
  assert (Hs0 : 0 <= s) by lia.
  induction n as [|n IH]; intros Hn.
  - unfold write_entries_mem. cbn [seq fold_left].
    repeat split; try reflexivity. lia.
  - rewrite write_entries_mem_S.
    destruct IH as (IHl & IHw & IHf); [lia|].
    set (R0 := write_entries_mem qu cmds p n) in *.
    unfold Q_ENT. rewrite Hed, Q_IDX_position by assumption. fold s.
    rewrite position_inc_prod_n by assumption.
    change CMDQ_ENT_DWORDS with 2. change (Z.to_nat 2) with 2%nat.
    pose proof (position_bound s (p + Z.of_nat n) Hs0) as Hpn.
    assert (Hfit : position s (p + Z.of_nat n) * 2 + 2 <= Z.of_nat (length R0))
      by (rewrite IHl; lia).
    split; [rewrite queue_write_length; exact IHl|]. split.
    + intros j d Hj Hd.
      pose proof (position_bound s (p + Z.of_nat j) Hs0) as Hpj.
      rewrite load_queue_write by lia.
      destruct (Nat.eq_dec j n) as [->|Hne].
      * range_cases; [|lia].
        rewrite nth_skipn_add. f_equal. lia.
      * assert (Hdiff : position s (p + Z.of_nat j)
                        <> position s (p + Z.of_nat n)).
        { intros He. apply position_add_inj in He; lia. }
        range_cases; [lia|]. apply IHw; [lia|exact Hd].
    + intros x Hx Hout.
      rewrite load_queue_write by lia.
      pose proof (Hout n ltac:(lia)) as Hon.
      range_cases; [lia|].
      apply IHf; [exact Hx|]. intros j Hj. apply Hout. lia.
Qed.

(** X21.  [arm_smmu_cmdq_write_entries] puts command [j] of a list of at
    most as many commands as the queue has slots into the slot of the
    producer index [prod + j], wrapping at the end of the queue memory:
    reading that slot back gives the two dwords of the command.  Slots
    outside the range keep their content, and the shadow indices, the valid
    bitmap, the owner and the lock are not touched. *)
Theorem cmdq_write_entries_spec (c : arm_smmu_cmdq) (cmds : list Z)
    (prod_ n : Z) :
  let s := max_n_shift (llq (q c)) in
  let c' := arm_smmu_cmdq_write_entries c cmds prod_ n in
  0 <= s < 31 -> ent_dwords (q c) = CMDQ_ENT_DWORDS ->
  Z.of_nat (length (base (q c))) = 2 * capacity s ->
  0 <= n <= capacity s ->
  (forall j, 0 <= j < n ->
     queue_read (base (q c')) (Q_ENT (q c') (prod_ + j)) CMDQ_ENT_DWORDS
     = [nth (Z.to_nat (2 * j)) cmds 0; nth (Z.to_nat (2 * j + 1)) cmds 0]) /\
  (forall k d, 0 <= k < capacity s -> in_range s prod_ n k = false ->
     0 <= d < 2 ->
     load (base (q c')) (2 * k + d) = load (base (q c)) (2 * k + d)) /\
  length (base (q c')) = length (base (q c)) /\
  llq (q c') = llq (q c) /\ valid_map c' = valid_map c /\
  owner_prod c' = owner_prod c /\ lock c' = lock c /\
  prod_reg (q c') = prod_reg (q c) /\ cons_reg (q c') = cons_reg (q c).
Proof.
  intros s c' Hs Hed Hlen Hn.
  assert (Hs0 : 0 <= s) by lia.
  destruct (write_entries_mem_spec (q c) cmds prod_ (Z.to_nat n) Hs Hed Hlen)
    as (Hl & Hw & Hf); [fold s; lia|].
  fold s in Hl, Hw, Hf.
  unfold c', arm_smmu_cmdq_write_entries.
  cbn [with_q with_base q base llq valid_map owner_prod lock prod_reg cons_reg
       ent_dwords]. fold s.
  set (R := write_entries_mem (q c) cmds prod_ (Z.to_nat n)) in *.
  split; [|split; [|repeat split; try reflexivity; exact Hl]].
  - intros j Hj. unfold Q_ENT. cbn [with_q with_base q llq ent_dwords].
    rewrite Hed, Q_IDX_position by assumption. fold s.
    change CMDQ_ENT_DWORDS with 2. rewrite queue_read_2.
    pose proof (Hw (Z.to_nat j) 0 ltac:(lia) ltac:(lia)) as H0.
    pose proof (Hw (Z.to_nat j) 1 ltac:(lia) ltac:(lia)) as H1.
    rewrite Z2Nat.id in H0, H1 by lia.
    replace (position s (prod_ + j) * 2) with (2 * position s (prod_ + j) + 0)
      by lia.
    rewrite H0.
    replace (2 * position s (prod_ + j) + 0 + 1)
      with (2 * position s (prod_ + j) + 1) by lia.
    rewrite H1. f_equal; [f_equal; lia|f_equal; f_equal; lia].
  - intros k d Hk Hin Hd.
    apply Hf; [lia|]. intros j Hj.
    assert (Hne : k <> position s (prod_ + Z.of_nat j)).
    { intros ->.
      rewrite in_range_member in Hin by lia. discriminate. }
    lia.
Qed.

Lemma cmdq_write_entries_spec_witness :
  0 <= max_n_shift (llq (q sample_cmdq)) < 31 /\
  ent_dwords (q sample_cmdq) = CMDQ_ENT_DWORDS /\
  Z.of_nat (length (base (q sample_cmdq))) = 2 * capacity 7 /\
  0 <= 2 <= capacity 7 /\
  queue_read
    (base (q (arm_smmu_cmdq_write_entries sample_cmdq [11; 12; 13; 14] 127 2)))
    (Q_ENT (q sample_cmdq) (127 + 1)) CMDQ_ENT_DWORDS
  = [13; 14].
Proof.
  split; [cbn; lia|]. split; [reflexivity|]. split; [reflexivity|].
  split; [cbn; lia|].
  pose proof (cmdq_write_entries_spec sample_cmdq [11; 12; 13; 14] 127 2) as H.
  cbv zeta in H.
  destruct H as (H & _); [cbn; lia|reflexivity|reflexivity|cbn; lia|].
  apply (H 1). lia.
Defined.


(** ** Queue initialisation *)

Lemma init_one_queue_qsz s dwords :
  0 <= s < 31 -> 0 < dwords < 2 ^ 30 ->
  u64 (Z.shiftl (u64 (Z.shiftl 1 s * dwords)) 3) = 8 * dwords * 2 ^ s.
Proof.
  intros Hs Hd. unfold u64.
  rewrite Z.shiftl_1_l, Z.shiftl_mul_pow2 by lia.
  assert (H1 : 0 < 2 ^ s) by (apply Z.pow_pos_nonneg; lia).
  assert (H2 : 2 ^ s <= 2 ^ 30) by (apply Z.pow_le_mono_r; lia).
  assert (H3 : 2 ^ s * dwords < 2 ^ 30 * 2 ^ 30) by nia.
  change (2 ^ 30 * 2 ^ 30) with (2 ^ 60) in H3.
  change (2 ^ 3) with 8.
  rewrite (Z.mod_small (2 ^ s * dwords)) by (change (2 ^ 64) with (16 * 2 ^ 60); nia).
  rewrite Z.mod_small by (change (2 ^ 64) with (16 * 2 ^ 60); nia).
  ring.
Qed.

Lemma init_one_queue_alloc_spec alloc page_size dwords s0 :
  0 <= s0 < 31 -> 0 < dwords < 2 ^ 30 -> 8 * dwords < page_size ->
  forall fuel s,
    0 <= s <= s0 -> (Z.to_nat s < fuel)%nat ->
    exists s' r,
      init_one_queue_alloc fuel alloc page_size s dwords
      = Some (s', 8 * dwords * 2 ^ s', r) /\
      0 <= s' <= s /\
      (forall t, s' < t <= s ->
         alloc (8 * dwords * 2 ^ t) = None /\ page_size <= 8 * dwords * 2 ^ t) /\
      r = alloc (8 * dwords * 2 ^ s') /\
      (r = None -> 8 * dwords * 2 ^ s' < page_size).
Proof.
  intros Hs0 Hd Hp. induction fuel as [|fuel IH]; intros s Hs Hf; [lia|].
  cbn [init_one_queue_alloc].
  rewrite init_one_queue_qsz by lia.
  destruct (alloc (8 * dwords * 2 ^ s)) as [r|] eqn:Ea.
  - exists s, (Some r). repeat split; try lia; try congruence.
    all: intros; lia.
  - destruct (Z.ltb_spec (8 * dwords * 2 ^ s) page_size) as [Hlt|Hge].
    + exists s, None. repeat split; try lia; try congruence.
      all: intros; lia.
    + assert (Hs1 : 0 < s).
      { destruct (Z.eq_dec s 0) as [->|]; [|lia].
        change (2 ^ 0) with 1 in Hge. lia. }
      unfold u32. rewrite Z.mod_small by lia.
      destruct (IH (s - 1)) as (s' & r & E & Hr & Hall & Hra & Hnone);
        [lia|lia|].
      exists s', r. split; [exact E|]. split; [lia|]. split; [|split; assumption].
      intros t Ht. destruct (Z.eq_dec t s) as [->|Hne].
      * split; assumption.
      * apply Hall. lia.
Qed.

(** X22.  [arm_smmu_init_one_queue] asks for memory for the queue and halves
    the queue after a failed request of a page or more until a request
    succeeds or one of less than a page fails.  When an entry is smaller
    than a page the loop ends, the shift never passes below zero, and every
    larger size was refused.  On success the queue is empty with both
    indices zero, and the base register value holds the DMA address bits,
    the final shift as its size field and the read-write-allocate hint; on
    failure the result is [-ENOMEM] and no base value is assigned. *)
Theorem init_one_queue_spec (alloc : Z -> option (Z * list Z))
    (page_size : Z) (qu : arm_smmu_queue) (dwords : Z) (fuel : nat) :
  let s0 := max_n_shift (llq qu) in
  0 <= s0 < 31 -> 0 < dwords < 2 ^ 30 -> 8 * dwords < page_size ->
  (Z.to_nat s0 < fuel)%nat ->
  exists ret qu' qb log,
    arm_smmu_init_one_queue fuel alloc page_size qu dwords
    = Some (ret, qu', qb, log) /\
    let s := max_n_shift (llq qu') in
    0 <= s <= s0 /\
    (forall t, s < t <= s0 ->
       alloc (8 * dwords * 2 ^ t) = None /\ page_size <= 8 * dwords * 2 ^ t) /\
    ((ret = - ENOMEM /\ alloc (8 * dwords * 2 ^ s) = None /\
      8 * dwords * 2 ^ s < page_size /\ qb = None /\
      log = [Q_alloc_failed (8 * dwords * 2 ^ s)]) \/
     (ret = 0 /\
      exists dma mem v,
        alloc (8 * dwords * 2 ^ s) = Some (dma, mem) /\
        base qu' = mem /\ ent_dwords qu' = dwords /\ batch qu' = 0 /\
        prod (llq qu') = 0 /\ cons (llq qu') = 0 /\
        queue_empty (llq qu') = true /\
        qb = Some v /\ FIELD_GET Q_BASE_LOG2SIZE v = s /\
        Z.land v Q_BASE_ADDR_MASK = Z.land dma Q_BASE_ADDR_MASK /\
        has_flag v Q_BASE_RWA = true)).
Proof.
  intros s0 Hs0 Hd Hp Hf.
  destruct (init_one_queue_alloc_spec alloc page_size dwords s0 Hs0 Hd Hp
              fuel s0 ltac:(lia) Hf) as (s' & r & E & Hr & Hall & Hra & Hnone).
  unfold arm_smmu_init_one_queue. fold s0. rewrite E.
  destruct r as [[dma mem]|].
  - do 4 eexists. split; [reflexivity|]. cbn [llq max_n_shift].
    split; [exact Hr|]. split; [exact Hall|]. right. split; [reflexivity|].
    exists dma, mem. eexists. split; [symmetry; exact Hra|].
    cbn [base ent_dwords batch llq prod cons].
    repeat split.
    + unfold Q_BASE_LOG2SIZE. read_field (GENMASK 4 0).
      rewrite (FIELD_GET_zero (GENMASK 4 0) Q_BASE_RWA) by reflexivity.
      rewrite Z.lor_0_l. apply FIELD_GET_PREP_small; [lia|lia|].
      change (2 ^ (4 - 0 + 1)) with 32. lia.
    + rewrite !Z.land_lor_distr_l.
      rewrite FIELD_PREP_disjoint by reflexivity.
      change (Z.land Q_BASE_RWA Q_BASE_ADDR_MASK) with 0.
      rewrite Z.lor_0_l, Z.lor_0_r, <- Z.land_assoc, Z.land_diag. reflexivity.
    + unfold has_flag. rewrite !Z.land_lor_distr_l.
      rewrite land_land_disjoint by reflexivity.
      rewrite FIELD_PREP_disjoint by reflexivity.
      reflexivity.
  - do 4 eexists. split; [reflexivity|]. cbn [llq max_n_shift].
    split; [exact Hr|]. split; [exact Hall|]. left.
    repeat split; auto.
Qed.

Lemma init_one_queue_spec_witness :
  exists ret qu' qb log,
    arm_smmu_init_one_queue 9
      (fun sz => if sz <=? 256 then Some (4096, repeat 0 (Z.to_nat (sz / 8)))
                 else None)
      64 (sample_queue 3) 2 = Some (ret, qu', qb, log) /\
    0 <= max_n_shift (llq qu') <= max_n_shift (llq (sample_queue 3)).
Proof.
  destruct (init_one_queue_spec
              (fun sz => if sz <=? 256
                         then Some (4096, repeat 0 (Z.to_nat (sz / 8)))
                         else None)
              64 (sample_queue 3) 2 9)
    as (ret & qu' & qb & log & E & Hr & _).
  - cbn; lia.
  - cbn; lia.
  - lia.
  - cbn; lia.
  - exists ret, qu', qb, log. split; [exact E|exact Hr].
Defined.


(** ** The PRI queue thread *)

Lemma handle_ppr_runs smmu evt m :
  arm_smmu_handle_ppr smmu (nth 0 evt 0) (nth 1 evt 0) m
  = Some (tt, m, ppr_commands smmu evt).
Proof.
  unfold ppr_commands, arm_smmu_handle_ppr, when, arm_smmu_cmdq_issue_cmd.
  destruct (negb (FIELD_GET PRIQ_0_PRG_LAST (nth 0 evt 0) =? 0));
    [|reflexivity].
  destruct (arm_smmu_cmdq_build_cmd _) as [r cmd].
  destruct (negb (r =? 0)); reflexivity.
Qed.

Lemma position_congr s a b :
  0 <= s -> a mod (2 * capacity s) = b mod (2 * capacity s) ->
  position s a = position s b.
Proof.
  intros Hs H. unfold position.
  pose proof (pow2_pos s Hs) as Hp. fold (capacity s) in Hp.
  rewrite <- (Z.mod_mod_divide a (2 * capacity s) (capacity s))
    by (exists 2; reflexivity).
  rewrite <- (Z.mod_mod_divide b (2 * capacity s) (capacity s))
    by (exists 2; reflexivity).
  rewrite H. reflexivity.
Qed.

Lemma priq_slot_congr smmu qu qu' d j :
  0 <= max_n_shift (llq qu) ->
  max_n_shift (llq qu') = max_n_shift (llq qu) ->
  base qu' = base qu -> ent_dwords qu' = ent_dwords qu ->
  cons (llq qu') mod (2 * capacity (max_n_shift (llq qu)))
  = (cons (llq qu) + Z.of_nat d) mod (2 * capacity (max_n_shift (llq qu))) ->
  priq_slot smmu qu' j = priq_slot smmu qu (d + j).
Proof.
  intros Hs Hm Hb He Hc. unfold priq_slot, Q_ENT.
  rewrite Hb, He, !Q_IDX_position by lia. rewrite Hm.
  set (s := max_n_shift (llq qu)) in *.
  pose proof (pow2_pos s Hs) as Hp. fold (capacity s) in Hp.
  rewrite (position_congr s (cons (llq qu') + Z.of_nat j)
             (cons (llq qu) + Z.of_nat (d + j))); [reflexivity|assumption|].
  rewrite <- Z.add_mod_idemp_l, Hc, Z.add_mod_idemp_l by lia.
  f_equal. lia.
Qed.

Lemma priq_inner_spec smmu size :
  forall k fuel qu evt nh,
    let s := max_n_shift (llq qu) in
    0 <= s < 31 -> size = capacity s ->
    in_flight (llq qu) = Z.of_nat k -> (k < fuel)%nat ->
    0 <= nh < size -> 0 <= batch qu ->
    batch qu + (nh + Z.of_nat k) / size < 2 ^ 64 ->
    exists qu' evt',
      priq_thread_inner fuel smmu size qu evt nh
      = Some (qu', evt', (nh + Z.of_nat k) mod size,
              map (priq_slot smmu qu) (seq 0 k)) /\
      in_flight (llq qu') = 0 /\ prod (llq qu') = prod (llq qu) /\
      max_n_shift (llq qu') = s /\
      cons (llq qu') mod (2 * capacity s)
      = (cons (llq qu) + Z.of_nat k) mod (2 * capacity s) /\
      base qu' = base qu /\ ent_dwords qu' = ent_dwords qu /\
      prod_reg qu' = prod_reg qu /\
      batch qu' = batch qu + (nh + Z.of_nat k) / size.
Proof.
  induction k as [|k IH]; intros fuel qu evt nh s Hs Hsz Hk Hf Hnh Hb Hb64.
  - destruct fuel as [|fuel]; [lia|]. cbn [priq_thread_inner].
    unfold queue_remove_raw.
    assert (He : queue_empty (llq qu) = true)
      by (apply queue_empty_in_flight; [lia|exact Hk]).
    rewrite He. cbn [Z.eqb negb Z.opp EAGAIN].
    change (- EAGAIN =? 0) with false. cbn [negb].
    exists qu, evt. change (Z.of_nat 0) with 0. rewrite !Z.add_0_r.
    rewrite Z.mod_small, Z.div_small by lia.
    rewrite Z.add_0_r. repeat split; auto.
  - destruct fuel as [|fuel]; [lia|]. cbn [priq_thread_inner].
    unfold queue_remove_raw.
    pose proof (pow2_pos s ltac:(lia)) as Hp. fold (capacity s) in Hp.
    pose proof (in_flight_bound (llq qu) ltac:(lia)) as Hfl. fold s in Hfl.
    destruct (queue_empty (llq qu)) eqn:Ee.
    { apply queue_empty_in_flight in Ee; lia. }
    cbn [Z.eqb negb].
    set (evt1 := queue_read (base qu) (Q_ENT qu (cons (llq qu))) (ent_dwords qu)).
    set (qu1 := queue_sync_cons_out (with_llq qu (queue_inc_cons (llq qu)))).
    rewrite handle_ppr_runs.
    destruct (queue_inc_cons_mod (llq qu) Hs) as (Hm & _ & _). fold s in Hm.
    assert (Hfl1 : in_flight (llq qu1) = Z.of_nat k).
    { unfold qu1. cbn [queue_sync_cons_out with_llq llq].
      rewrite in_flight_consume by assumption. fold s.
      rewrite Z.mod_small by lia. lia. }
    assert (Hms : max_n_shift (llq qu1) = s) by reflexivity.
    set (qu2 := if nh + 1 =? size then with_batch qu1 (u64 (batch qu1 + 1))
                else qu1).
    set (n2 := if nh + 1 =? size then 0 else nh + 1).
    assert (Hdiv : (nh + Z.of_nat (S k)) / size
                   = (if nh + 1 =? size then 1 else 0) + (n2 + Z.of_nat k) / size
                   /\ (nh + Z.of_nat (S k)) mod size = (n2 + Z.of_nat k) mod size).
    { unfold n2. destruct (Z.eqb_spec (nh + 1) size) as [E|E].
      - replace (nh + Z.of_nat (S k)) with (Z.of_nat k + 1 * size) by lia.
        rewrite Z.div_add, Z.mod_add by lia. rewrite !Z.add_0_l.
        split; [lia|reflexivity].
      - replace (nh + Z.of_nat (S k)) with (nh + 1 + Z.of_nat k) by lia.
        split; [lia|reflexivity]. }
    destruct Hdiv as (Hdiv & Hmod).
    assert (Hdk : 0 <= (n2 + Z.of_nat k) / size).
    { apply Z.div_pos; [|lia]. unfold n2.
      destruct (nh + 1 =? size); lia. }
    assert (Hq2 : llq qu2 = llq qu1 /\ base qu2 = base qu /\
                  ent_dwords qu2 = ent_dwords qu /\ prod_reg qu2 = prod_reg qu /\
                  batch qu2 = batch qu + (if nh + 1 =? size then 1 else 0)).
    { unfold qu2. destruct (Z.eqb_spec (nh + 1) size) as [E|E].
      - cbn [with_batch llq base ent_dwords prod_reg batch qu1
             queue_sync_cons_out with_llq].
        repeat split. unfold u64. rewrite Z.mod_small by lia. reflexivity.
      - cbn [llq base ent_dwords prod_reg batch qu1
             queue_sync_cons_out with_llq].
        repeat split. lia. }
    destruct Hq2 as (Hl2 & Hb2 & He2 & Hp2 & Hbt2).
    destruct (IH fuel qu2 evt1 n2) as (qu' & evt' & E & H1 & H2 & H3 & H4 & H5 & H6 & H7 & H8).
    + rewrite Hl2, Hms. exact Hs.
    + rewrite Hl2, Hms. exact Hsz.
    + rewrite Hl2. exact Hfl1.
    + lia.
    + unfold n2. destruct (Z.eqb_spec (nh + 1) size); lia.
    + rewrite Hbt2. destruct (nh + 1 =? size); lia.
    + rewrite Hbt2. destruct (nh + 1 =? size); lia.
    + rewrite Hl2, Hms in *. rewrite E.
      exists qu', evt'. split.
      { rewrite Hmod. f_equal. f_equal. cbn [seq map]. f_equal.
        - unfold priq_slot. change (Z.of_nat 0) with 0. rewrite Z.add_0_r.
          reflexivity.
        - rewrite <- seq_shift, map_map. apply map_ext. intros j.
          rewrite (priq_slot_congr smmu qu qu2 1 j); try assumption; try lia.
          + reflexivity.
          + rewrite Hl2. exact Hms.
          + rewrite Hl2. fold s. unfold qu1.
            cbn [queue_sync_cons_out with_llq llq]. rewrite Hm.
            reflexivity. }
      split; [exact H1|]. split; [rewrite H2; reflexivity|].
      split; [exact H3|]. split.
      { rewrite H4. unfold qu1. cbn [queue_sync_cons_out with_llq llq].
        rewrite <- Z.add_mod_idemp_l, Hm, Z.add_mod_idemp_l by lia.
        f_equal. lia. }
      split; [congruence|]. split; [congruence|]. split; [congruence|].
      rewrite H8, Hbt2, Hdiv. lia.
Qed.

Lemma map_seq_from {A : Type} (f : nat -> A) a n :
  map f (seq a n) = map (fun j => f (a + j)%nat) (seq 0 n).
Proof.
  revert a f. induction n as [|n IH]; intros a f; [reflexivity|].
  cbn [seq map]. rewrite Nat.add_0_r. f_equal.
  rewrite (IH (S a)), (IH 1%nat). apply map_ext. intros j.
  f_equal. lia.
Qed.

Lemma mod_shift_zero a b c m :
  0 < m -> (b - c) mod m = 0 -> (a - c) mod m = (a - b) mod m.
Proof.
  intros Hm H. replace (a - c) with ((a - b) + (b - c)) by lia.
  rewrite Z.add_mod, H, Z.add_0_r, Z.mod_mod by lia. reflexivity.
Qed.

Lemma div_split n1 n2 c :
  0 < c -> n1 / c + (n1 mod c + n2) / c = (n1 + n2) / c.
Proof.
  intros Hc.
  replace (n1 + n2) with ((n1 mod c + n2) + (n1 / c) * c)
    by (pose proof (Z.div_mod n1 c ltac:(lia)); lia).
  rewrite Z.div_add by lia. lia.
Qed.

Lemma sync_prod_in_llq qu :
  llq (snd (queue_sync_prod_in qu))
  = mk_llq (prod_reg qu) (cons (llq qu)) (max_n_shift (llq qu)).
Proof. reflexivity. Qed.

Lemma priq_loop_spec smmu qu evt fo fi :
  let s := max_n_shift (llq qu) in
  let n1 := Z.to_nat (in_flight (llq qu)) in
  let n2 := Z.to_nat (range_len s (prod (llq qu)) (prod_reg qu)) in
  0 <= s < 31 -> 0 <= batch qu -> batch qu + 4 < 2 ^ 64 ->
  (2 <= fo)%nat -> (n1 < fi)%nat -> (n2 < fi)%nat ->
  exists qu',
    priq_thread_loop fo fi smmu (capacity s) qu evt 0
    = Some (qu',
            map (priq_slot smmu qu) (seq 0 n1)
            ++ (if Q_OVF (prod_reg qu) =? Q_OVF (prod (llq qu))
                then [] else [Priq_overflow])
            ++ map (priq_slot smmu qu) (seq n1 n2)) /\
    in_flight (llq qu') = 0 /\ prod (llq qu') = prod_reg qu /\
    max_n_shift (llq qu') = s /\ base qu' = base qu /\
    ent_dwords qu' = ent_dwords qu /\ prod_reg qu' = prod_reg qu /\
    batch qu' = batch qu + (Z.of_nat n1 + Z.of_nat n2) / capacity s.
Proof.
  intros s n1 n2 Hs Hb Hb4 Hfo Hf1 Hf2.
  pose proof (pow2_pos s ltac:(lia)) as Hp. fold (capacity s) in Hp.
  pose proof (in_flight_bound (llq qu) ltac:(lia)) as Hfl. fold s in Hfl.
  assert (Hr2 : 0 <= range_len s (prod (llq qu)) (prod_reg qu) < 2 * capacity s)
    by (apply Z.mod_pos_bound; lia).
  assert (Hn1 : Z.of_nat n1 = in_flight (llq qu)) by (unfold n1; lia).
  assert (Hn2 : Z.of_nat n2 = range_len s (prod (llq qu)) (prod_reg qu))
    by (unfold n2; lia).
  assert (Hd1 : 0 <= Z.of_nat n1 / capacity s <= 1).
  { split; [apply Z.div_pos; lia|].
    apply Z.lt_succ_r. apply Z.div_lt_upper_bound; lia. }
  assert (Hd2 : 0 <= (Z.of_nat n1 + Z.of_nat n2) / capacity s <= 3).
  { split; [apply Z.div_pos; lia|].
    apply Z.lt_succ_r. apply Z.div_lt_upper_bound; lia. }
  destruct fo as [|[|fo]]; [lia|lia|].
  cbn [priq_thread_loop].
  destruct (priq_inner_spec smmu (capacity s) n1 fi qu evt 0)
    as (qu1 & evt1 & E1 & F1 & P1 & S1 & C1 & B1 & D1 & R1 & T1);
    try (fold s); try lia; try reflexivity.
  { rewrite Z.add_0_l. lia. }
  fold s in E1, S1, C1. rewrite Z.add_0_l in E1, T1. rewrite E1.
  pose proof (sync_prod_in_llq qu1) as Hl2.
  destruct (queue_sync_prod_in qu1) as [r qu2] eqn:Es.
  cbn [snd] in Hl2.
  assert (Hr : (if r =? - EOVERFLOW then [Priq_overflow] else [])
               = if Q_OVF (prod_reg qu) =? Q_OVF (prod (llq qu))
                 then [] else [Priq_overflow]).
  { unfold queue_sync_prod_in in Es. injection Es as <- _.
    rewrite R1, P1.
    destruct (Q_OVF (prod_reg qu) =? Q_OVF (prod (llq qu))); reflexivity. }
  assert (Hq2 : base qu2 = base qu /\ ent_dwords qu2 = ent_dwords qu /\
                prod_reg qu2 = prod_reg qu /\ batch qu2 = batch qu1).
  { unfold queue_sync_prod_in in Es. injection Es as _ <-.
    cbn [with_llq base ent_dwords prod_reg batch]. auto. }
  destruct Hq2 as (B2 & D2 & R2 & T2).
  rewrite Hr. rewrite R1, S1 in Hl2.
  assert (Hfl2 : in_flight (llq qu2) = Z.of_nat n2).
  { rewrite Hl2, Hn2. unfold in_flight, range_len. cbn [prod cons max_n_shift].
    apply mod_shift_zero; [lia|].
    unfold in_flight in F1. rewrite P1, S1 in F1. exact F1. }
  destruct (Nat.eq_dec n2 0) as [Hz|Hnz].
  - assert (Ee : queue_empty (llq qu2) = true).
    { apply queue_empty_in_flight; [rewrite Hl2; cbn [max_n_shift]; lia|].
      rewrite Hfl2, Hz. reflexivity. }
    rewrite Ee. cbn [negb]. exists qu2. rewrite Hz.
    cbn [seq map]. rewrite !app_nil_r.
    split; [reflexivity|]. rewrite Hfl2, Hz, Hl2. cbn [prod max_n_shift].
    repeat split; auto.
    rewrite T2, T1. change (Z.of_nat 0) with 0. rewrite Z.add_0_r. reflexivity.
  - assert (Ee : queue_empty (llq qu2) = false).
    { destruct (queue_empty (llq qu2)) eqn:Ee; [|reflexivity].
      apply queue_empty_in_flight in Ee;
        [|rewrite Hl2; cbn [max_n_shift]; lia]. lia. }
    rewrite Ee. cbn [negb priq_thread_loop].
    assert (Hnh : 0 <= Z.of_nat n1 mod capacity s < capacity s)
      by (apply Z.mod_pos_bound; lia).
    pose proof (div_split (Z.of_nat n1) (Z.of_nat n2) (capacity s) Hp) as Hds.
    assert (Hs2 : max_n_shift (llq qu2) = s) by (rewrite Hl2; reflexivity).
    assert (Hp2 : prod (llq qu2) = prod_reg qu) by (rewrite Hl2; reflexivity).
    assert (Hc2 : cons (llq qu2) = cons (llq qu1)) by (rewrite Hl2; reflexivity).
    destruct (priq_inner_spec smmu (capacity s) n2 fi qu2 evt1
                (Z.of_nat n1 mod capacity s))
      as (qu3 & evt3 & E3 & F3 & P3 & S3 & C3 & B3 & D3 & R3 & T3);
      [ rewrite Hs2; lia | rewrite Hs2; reflexivity | exact Hfl2 | lia | lia
      | rewrite T2, T1; lia | rewrite T2, T1; lia | ].
    rewrite Hs2 in S3, C3. rewrite Hp2 in P3. rewrite Hc2 in C3.
    rewrite E3.
    pose proof (sync_prod_in_llq qu3) as Hl4.
    destruct (queue_sync_prod_in qu3) as [r4 qu4] eqn:Es4.
    cbn [snd] in Hl4.
    assert (Hr4 : r4 = 0).
    { unfold queue_sync_prod_in in Es4. injection Es4 as <- _.
      rewrite R3, R2, P3, Z.eqb_refl. reflexivity. }
    assert (Hq4 : base qu4 = base qu3 /\ ent_dwords qu4 = ent_dwords qu3 /\
                  prod_reg qu4 = prod_reg qu3 /\ batch qu4 = batch qu3).
    { unfold queue_sync_prod_in in Es4. injection Es4 as _ <-.
      cbn [with_llq base ent_dwords prod_reg batch]. auto. }
    destruct Hq4 as (B4 & D4 & R4 & T4).
    assert (Hl43 : llq qu4 = llq qu3).
    { rewrite Hl4, R3, R2, <- P3. destruct (llq qu3). reflexivity. }
    rewrite Hr4. change (0 =? - EOVERFLOW) with false.
    rewrite Hl43.
    assert (Ee3 : queue_empty (llq qu3) = true)
      by (apply queue_empty_in_flight; [lia|exact F3]).
    rewrite Ee3. cbn [negb]. exists qu4. split.
    { f_equal. f_equal. rewrite !app_nil_r. f_equal. f_equal.
      rewrite (map_seq_from (priq_slot smmu qu) n1 n2).
      apply map_ext. intros j.
      apply (priq_slot_congr smmu qu qu2 n1 j); try assumption; try lia.
      rewrite Hc2. exact C1. }
    rewrite Hl43. repeat split; try congruence.
    rewrite T4, T3, T2, T1. lia.
Qed.

(** X23.  While the hardware adds no request, [arm_smmu_priq_thread] hands
    every pending request to [arm_smmu_handle_ppr] once and in queue order:
    first those between the consumer index and the shadow producer index,
    then, after reading the producer register, those up to the register
    value, with the overflow message in between exactly when the overflow
    flag of the register differs from that of the shadow index.  It ends
    with the queue empty, the consumer index equal to the producer's wrap
    bit and position under the producer's overflow flag and written to the
    consumer register, and with one batch counted for every full queue of
    requests handled plus one. *)
Theorem priq_thread_drains (smmu : arm_smmu_device) (qu : arm_smmu_queue)
    (stack : list Z) (fo fi : nat) :
  let s := max_n_shift (llq qu) in
  let n1 := Z.to_nat (in_flight (llq qu)) in
  let n2 := Z.to_nat (range_len s (prod (llq qu)) (prod_reg qu)) in
  0 <= s < 31 -> 0 <= batch qu -> batch qu + 4 < 2 ^ 64 ->
  (2 <= fo)%nat -> (n1 < fi)%nat -> (n2 < fi)%nat ->
  exists qu',
    arm_smmu_priq_thread fo fi smmu qu stack
    = Some (IRQ_HANDLED, qu',
            map (priq_slot smmu qu) (seq 0 n1)
            ++ (if Q_OVF (prod_reg qu) =? Q_OVF (prod (llq qu))
                then [] else [Priq_overflow])
            ++ map (priq_slot smmu qu) (seq n1 n2)) /\
    queue_empty (llq qu') = true /\
    prod (llq qu') = prod_reg qu /\
    cons (llq qu')
    = Z.lor (Q_OVF (prod_reg qu)) (prod_reg qu mod 2 ^ (s + 1)) /\
    cons_reg qu' = cons (llq qu') /\
    max_n_shift (llq qu') = s /\ base qu' = base qu /\
    ent_dwords qu' = ent_dwords qu /\ prod_reg qu' = prod_reg qu /\
    batch qu' = batch qu + (Z.of_nat n1 + Z.of_nat n2) / capacity s + 1.
Proof.
  intros s n1 n2 Hs Hb Hb4 Hfo Hf1 Hf2.
  pose proof (pow2_pos s ltac:(lia)) as Hp. fold (capacity s) in Hp.
  pose proof (in_flight_bound (llq qu) ltac:(lia)) as Hfl. fold s in Hfl.
  assert (Hr2 : 0 <= range_len s (prod (llq qu)) (prod_reg qu) < 2 * capacity s)
    by (apply Z.mod_pos_bound; lia).
  assert (Hd2 : 0 <= (Z.of_nat n1 + Z.of_nat n2) / capacity s <= 3).
  { split; [apply Z.div_pos; lia|].
    apply Z.lt_succ_r. apply Z.div_lt_upper_bound; lia. }
  destruct (priq_loop_spec smmu qu stack fo fi Hs Hb Hb4 Hfo Hf1 Hf2)
    as (qu1 & E & F & P & S & B & D & R & T).
  fold s n1 n2 in E, S, T.
  unfold arm_smmu_priq_thread. fold s.
  rewrite shiftl_1_pow2 by lia. fold (capacity s). rewrite E.
  eexists. split; [reflexivity|].
  cbn [with_batch queue_sync_cons_out with_llq llq base ent_dwords prod_reg
       cons_reg batch prod cons max_n_shift].
  rewrite P, S, B, D, R, T.
  assert (Hc : Z.lor (Z.lor (Q_OVF (prod_reg qu))
                            (Q_WRP (llq qu1) (cons (llq qu1))))
                     (Q_IDX (llq qu1) (cons (llq qu1)))
               = Z.lor (Q_OVF (prod_reg qu)) (prod_reg qu mod 2 ^ (s + 1))).
  { rewrite <- Z.lor_assoc, Q_WRP_IDX_lor by lia. rewrite S. f_equal.
    unfold in_flight in F. rewrite P, S, two_capacity in F by lia.
    pose proof (pow2_pos (s + 1) ltac:(lia)) as Hp1.
    replace (cons (llq qu1))
      with (prod_reg qu - (prod_reg qu - cons (llq qu1))) at 1 by lia.
    rewrite Zminus_mod, F, Z.sub_0_r, Z.mod_mod by lia. reflexivity. }
  rewrite Hc.
  destruct (lor_ovf_low (prod_reg qu) (prod_reg qu mod 2 ^ (s + 1)) s Hs)
    as (A1 & A2 & A3).
  { apply Z.mod_pos_bound. apply pow2_pos. lia. }
  repeat split.
  - apply queue_empty_in_flight; [cbn [max_n_shift]; lia|].
    unfold in_flight. cbn [prod cons max_n_shift].
    rewrite two_capacity by lia.
    pose proof (pow2_pos (s + 1) ltac:(lia)) as Hp1.
    rewrite Zminus_mod, A2, Z.sub_diag. apply Z.mod_0_l. lia.
  - unfold u64. rewrite Z.mod_small by lia. reflexivity.
Qed.

Lemma priq_thread_drains_witness :
  exists qu',
    arm_smmu_priq_thread 2 8 (sample_smmu 0)
      (mk_queue (mk_llq 5 3 6) (map Z.of_nat (seq 100 128)) 2 8 3 0) [0; 0]
    = Some (IRQ_HANDLED, qu',
            [Priq_request [106; 107] []; Priq_request [108; 109] [];
             Priq_request [110; 111] []; Priq_request [112; 113] [];
             Priq_request [114; 115] []]) /\
    queue_empty (llq qu') = true /\ cons_reg qu' = 8.
Proof.
  destruct (priq_thread_drains (sample_smmu 0)
              (mk_queue (mk_llq 5 3 6) (map Z.of_nat (seq 100 128)) 2 8 3 0)
              [0; 0] 2 8)
    as (qu' & E & Ee & _ & Hc & Hr & _).
  - cbn; lia.
  - cbn; lia.
  - cbn; lia.
  - lia.
  - vm_compute; lia.
  - vm_compute; lia.
  - exists qu'. split; [exact E|]. split; [exact Ee|].
    rewrite Hr, Hc. reflexivity.
Defined.


(** ** Global errors *)

(** X24.  [arm_smmu_gerror_handler] returns IRQ_NONE, changing and
    reporting nothing, exactly when GERROR and GERRORN agree on every bit of
    the error mask.  Otherwise it returns IRQ_HANDLED after writing the
    whole of GERROR to GERRORN, so that a second run on the same GERROR
    finds nothing active and returns IRQ_NONE; the command queue is touched
    only when the command queue error bit is active. *)
Theorem gerror_handler_acknowledges (smmu : arm_smmu_device)
    (gerror gerrorn : Z) :
  let active := Z.lxor gerror gerrorn in
  let r := arm_smmu_gerror_handler smmu gerror gerrorn in
  let ret := fst (fst (fst r)) in
  let smmu1 := snd (fst (fst r)) in
  let gerrorn1 := snd (fst r) in
  (ret = IRQ_NONE <-> Z.land active GERROR_ERR_MASK = 0) /\
  (ret = IRQ_NONE -> smmu1 = smmu /\ gerrorn1 = gerrorn /\ snd r = []) /\
  (ret = IRQ_HANDLED ->
   gerrorn1 = gerror /\
   hd (G_unexpected 0) (snd r) = G_unexpected active /\
   arm_smmu_gerror_handler smmu1 gerror gerrorn1
   = (IRQ_NONE, smmu1, gerrorn1, [])) /\
  (has_flag active GERROR_CMDQ_ERR = false -> smmu1 = smmu) /\
  (has_flag active GERROR_CMDQ_ERR = true -> ret = IRQ_HANDLED /\
   smmu1 = fst (arm_smmu_cmdq_skip_err smmu)).
Proof.
  intros active r ret smmu1 gerrorn1.
  unfold ret, smmu1, gerrorn1, r, arm_smmu_gerror_handler. fold active.
  destruct (Z.eqb_spec (Z.land active GERROR_ERR_MASK) 0) as [E|E];
    cbn [fst snd].
  - split; [split; [intros _; exact E|reflexivity]|].
    split; [intros _; repeat split|].
    split; [discriminate|].
    split; [reflexivity|].
    intros Hc. exfalso.
    unfold has_flag in Hc. apply Bool.negb_true_iff, Z.eqb_neq in Hc.
    apply Hc. apply Z.bits_inj'. intros i Hi.
    rewrite Z.land_spec, Z.bits_0.
    assert (Hb := f_equal (fun x => Z.testbit x i) E). cbn beta in Hb.
    rewrite Z.land_spec, Z.bits_0 in Hb.
    destruct (Z.eq_dec i 0) as [->|Hne].
    + change (Z.testbit GERROR_ERR_MASK 0) with true in Hb.
      rewrite Bool.andb_true_r in Hb. rewrite Hb. reflexivity.
    + change GERROR_CMDQ_ERR with (2 ^ 0).
      rewrite Z.pow2_bits_false by lia. apply Bool.andb_false_r.
  - split; [split; [discriminate|intros H; contradiction]|].
    split; [discriminate|].
    split.
    + intros _. split; [reflexivity|]. split; [reflexivity|].
      rewrite Z.lxor_nilpotent. reflexivity.
    + split.
      * intros Hc. rewrite Hc. reflexivity.
      * intros Hc. rewrite Hc. split; reflexivity.
Qed.


(** ** Stream table initialisation *)

Lemma nth_store_nat_zero (m : list Z) :
  (forall k, nth k m 0 = 0) ->
  forall i k, nth k (store_nat m i 0) 0 = 0.
Proof.
  induction m as [|x tl IH]; intros H i k.
  - destruct i; destruct k; reflexivity.
  - destruct i as [|i]; destruct k as [|k]; cbn [store_nat nth].
    + reflexivity.
    + apply (H (S k)).
    + apply (H 0%nat).
    + apply IH. intros k'. apply (H (S k')).
Qed.

Lemma load_store_zero m i :
  (forall j, nth j m 0 = 0) -> forall j, nth j (store m i 0) 0 = 0.
Proof.
  intros H j. unfold store. destruct (i <? 0); [apply H|].
  apply nth_store_nat_zero. exact H.
Qed.

Lemma fold_store_zero (f : nat -> Z) l :
  forall m, (forall j, nth j m 0 = 0) ->
            forall j, nth j (fold_left (fun m i => store m (f i) 0) l m) 0 = 0.
Proof.
  induction l as [|x l IH]; intros m H j; cbn [fold_left]; [apply H|].
  apply IH. intros k. apply load_store_zero. exact H.
Qed.

Lemma fold_left_pointwise {A B : Type} (f g : A -> B -> A) l :
  (forall a b, f a b = g a b) ->
  forall a, fold_left f l a = fold_left g l a.
Proof.
  intros H. induction l as [|x l IH]; intros a; cbn [fold_left]; [reflexivity|].
  rewrite H. apply IH.
Qed.

Lemma nth_repeat_0 n j : nth j (repeat 0 n) 0 = 0.
Proof. revert j. induction n as [|n IH]; intros [|j]; simpl; auto. Qed.

Lemma nth_repeat_same {A : Type} (a : A) n i : nth i (repeat a n) a = a.
Proof. revert i. induction n as [|n IH]; intros [|i]; simpl; auto. Qed.

Lemma init_l1_strtab_zero smmu :
  let n := Z.to_nat (num_l1_ents (strtab_cfg smmu)) in
  (forall j, nth j (strtab (strtab_cfg smmu)) 0 = 0) ->
  exists mem,
    arm_smmu_init_l1_strtab smmu true
    = (0, with_strtab_cfg smmu
            (mk_strtab_cfg mem (repeat (mk_l1_desc 0 None 0) n)
                           (num_l1_ents (strtab_cfg smmu))), []) /\
    forall j, load mem j = 0.
Proof.
  intros n H. unfold arm_smmu_init_l1_strtab. cbn [negb]. fold n.
  eexists. split; [reflexivity|].
  intros j. unfold load.
  rewrite (fold_left_pointwise
             (fun m i => store m (Z.of_nat i * STRTAB_L1_DESC_DWORDS)
                           (arm_smmu_write_strtab_l1_desc
                              (nth i (repeat (mk_l1_desc 0 None 0) n)
                                   (mk_l1_desc 0 None 0))))
             (fun m i => store m (Z.of_nat i * STRTAB_L1_DESC_DWORDS) 0)).
  - apply fold_store_zero. exact H.
  - intros m i. rewrite nth_repeat_same. reflexivity.
Qed.

Lemma has_flag_0 f : has_flag 0 f = false.
Proof. reflexivity. Qed.

Lemma pow2_split a b : 0 <= a -> 0 <= b -> 2 ^ (a + b) = 2 ^ a * 2 ^ b.
Proof. intros. apply Z.pow_add_r; assumption. Qed.

(** X25.  For an SMMU without two-level tables and with at most 24 stream
    ID bits, [arm_smmu_init_strtab] with memory at hand returns 0 and
    leaves a linear table in which exactly the stream IDs below
    [2 ^ sid_bits] are in range, each with a valid entry that aborts under
    [disable_bypass] and bypasses otherwise.  The configuration register
    value names the linear format and [sid_bits] as size, the base register
    value carries the address bits of the table and the read-allocate hint,
    and VMID 0 is marked as taken. *)
Theorem init_strtab_linear_covers (kc : kconfig) (bd : bypass_dev_cfg)
    (smmu : arm_smmu_device) (regs : strtab_regs) (vmid_map : list Z)
    (sid_bits dma : Z) (alloc_desc : bool) :
  0 <= sid_bits <= 24 ->
  has_flag (features smmu) ARM_SMMU_FEAT_2_LVL_STRTAB = false ->
  exists smmu' regs',
    arm_smmu_init_strtab kc bd smmu regs vmid_map sid_bits (Some dma)
      alloc_desc
    = Some (0, smmu', regs', set_bit 0 vmid_map, []) /\
    features smmu' = features smmu /\ options smmu' = options smmu /\
    cmdq smmu' = cmdq smmu /\
    (forall sid, arm_smmu_sid_in_range smmu' sid = (sid <? 2 ^ sid_bits)) /\
    (forall sid, 0 <= sid < 2 ^ sid_bits ->
       ste_has_cfg smmu' sid (detached_cfg kc)) /\
    FIELD_GET STRTAB_BASE_CFG_FMT (strtab_base_cfg regs')
    = STRTAB_BASE_CFG_FMT_LINEAR /\
    FIELD_GET STRTAB_BASE_CFG_LOG2SIZE (strtab_base_cfg regs') = sid_bits /\
    Z.land (strtab_base regs') STRTAB_BASE_ADDR_MASK
    = Z.land dma STRTAB_BASE_ADDR_MASK /\
    has_flag (strtab_base regs') STRTAB_BASE_RA = true.
Proof.
  intros Hs Hf.
  assert (Hp : 0 < 2 ^ sid_bits) by (apply pow2_pos; lia).
  assert (Hle : 2 ^ sid_bits <= 2 ^ 24) by (apply Z.pow_le_mono_r; lia).
  change (2 ^ 24) with 16777216 in Hle.
  unfold arm_smmu_init_strtab. rewrite Hf.
  unfold arm_smmu_init_strtab_linear.
  rewrite shiftl_1_pow2 by lia.
  change (Z.shiftl STRTAB_STE_DWORDS 3) with 64.
  unfold u32. rewrite Z.mod_small by (change (2 ^ 32) with 4294967296; lia).
  replace (2 ^ sid_bits * 64 / 8) with (2 ^ sid_bits * 8)
    by dlia.
  unfold arm_smmu_init_bypass_stes.
  destruct (init_bypass_stes_loop_spec kc (Z.to_nat (2 ^ sid_bits))
              (repeat 0 (Z.to_nat (2 ^ sid_bits * 8))) 0%nat)
    as (mem & E & Hlen & Hin & _).
  { rewrite repeat_length. lia. }
  { intros k _. rewrite load_repeat_0. reflexivity. }
  change (Z.of_nat 0) with 0 in E, Hin. rewrite E.
  cbn [Z.eqb negb strtab_dma strtab_base_cfg].
  do 2 eexists. split; [reflexivity|].
  cbn [with_strtab_cfg features options cmdq strtab_base strtab_base_cfg].
  repeat split.
  - intros sid. unfold arm_smmu_sid_in_range.
    cbn [with_strtab_cfg features strtab_cfg num_l1_ents]. rewrite Hf.
    reflexivity.
  - intros sid Hsid. unfold ste_has_cfg, ste_window, arm_smmu_get_step_for_sid.
    cbn [with_strtab_cfg features strtab_cfg strtab]. rewrite Hf.
    change STRTAB_STE_DWORDS with 8.
    exists (queue_read mem (sid * 8) 8).
    rewrite Hlen, repeat_length.
    split; [split; [lia|reflexivity]|].
    rewrite load_queue_read by lia. rewrite Z.add_0_r.
    destruct (Hin sid ltac:(lia)) as (H0 & _). rewrite H0.
    destruct (bypass_ste_0_fields kc) as (Hv & Hc).
    split; [exact Hv|exact Hc].
  - unfold STRTAB_BASE_CFG_FMT. read_field (GENMASK 17 16). reflexivity.
  - unfold STRTAB_BASE_CFG_LOG2SIZE. read_field (GENMASK 5 0).
    rewrite ?Z.lor_0_l. apply FIELD_GET_PREP_small; [lia|lia|].
    change (2 ^ (5 - 0 + 1)) with 64. lia.
  - rewrite Z.land_lor_distr_l.
    change (Z.land STRTAB_BASE_RA STRTAB_BASE_ADDR_MASK) with 0.
    rewrite Z.lor_0_r, <- Z.land_assoc, Z.land_diag. reflexivity.
  - unfold has_flag. rewrite Z.land_lor_distr_l.
    rewrite land_land_disjoint by reflexivity. reflexivity.
Qed.

Lemma init_strtab_linear_covers_witness :
  exists smmu' regs',
    arm_smmu_init_strtab sample_kconfig sample_bypass_cfg (sample_smmu 0)
      (mk_strtab_regs 0 0 0) [0; 0] 2 (Some 4096) false
    = Some (0, smmu', regs', [1; 0], []) /\
    arm_smmu_sid_in_range smmu' 3 = true /\
    arm_smmu_sid_in_range smmu' 4 = false.
Proof.
  destruct (init_strtab_linear_covers sample_kconfig sample_bypass_cfg
              (sample_smmu 0) (mk_strtab_regs 0 0 0) [0; 0] 2 4096 false)
    as (smmu' & regs' & E & _ & _ & _ & Hr & _).
  - lia.
  - reflexivity.
  - exists smmu', regs'. split; [exact E|].
    rewrite !Hr. split; reflexivity.
Defined.

Lemma bus_for_each_dev_no_bypass kc bd smmu devs :
  (forall dev, In dev (map fst devs) ->
     arm_smmu_device_domain_type (smmu_bypass_devices bd) (Some dev) <> 0) ->
  bus_for_each_dev kc bd smmu devs = Some (0, smmu, []).
Proof.
  induction devs as [|[dev alloc] tl IH]; intros H; [reflexivity|].
  cbn [bus_for_each_dev]. unfold arm_smmu_prepare_init_l2_strtab.
  assert (Hd : arm_smmu_device_domain_type (smmu_bypass_devices bd) (Some dev)
               <> 0) by (apply H; left; reflexivity).
  apply Z.eqb_neq in Hd. rewrite Hd. cbn [negb Z.eqb].
  rewrite IH; [reflexivity|].
  intros d Hin. apply H. right. exact Hin.
Qed.

(** X26.  Take an SMMU with two-level tables and more than [STRTAB_SPLIT]
    and at most 32 stream ID bits, and a build without
    [CONFIG_SMMU_BYPASS_DEV] or a PCI bus that holds none of the bypass
    devices of the command line.  Then [arm_smmu_init_strtab] with memory at
    hand returns 0 and leaves a first level that covers the smaller of
    [sid_bits] and 25 bits: exactly the stream IDs below that power of two
    are in range, and each of them has a first-level descriptor that is
    zero in the table and has no second-level block yet.  The function
    warns exactly when [sid_bits] exceeds 25, and the configuration register
    value names the two-level format, the covered bits as size and
    [STRTAB_SPLIT] as split. *)
Theorem init_strtab_2lvl_covers (kc : kconfig) (bd : bypass_dev_cfg)
    (smmu : arm_smmu_device) (regs : strtab_regs) (vmid_map : list Z)
    (sid_bits dma : Z) :
  let bits := Z.min sid_bits 25 in
  STRTAB_SPLIT < sid_bits <= 32 ->
  has_flag (features smmu) ARM_SMMU_FEAT_2_LVL_STRTAB = true ->
  CONFIG_SMMU_BYPASS_DEV bd = false \/
  (forall dev, In dev (map fst (pci_bus_devices bd)) ->
     arm_smmu_device_domain_type (smmu_bypass_devices bd) (Some dev) <> 0) ->
  exists smmu' regs',
    arm_smmu_init_strtab kc bd smmu regs vmid_map sid_bits (Some dma) true
    = Some (0, smmu', regs', set_bit 0 vmid_map,
            if 25 <? sid_bits then [Strtab_partial 25 sid_bits] else []) /\
    features smmu' = features smmu /\ options smmu' = options smmu /\
    cmdq smmu' = cmdq smmu /\
    num_l1_ents (strtab_cfg smmu') = 2 ^ (bits - STRTAB_SPLIT) /\
    (forall sid, arm_smmu_sid_in_range smmu' sid = (sid <? 2 ^ bits)) /\
    (forall sid, 0 <= sid < 2 ^ bits ->
       exists desc,
         nth_error (l1_desc (strtab_cfg smmu'))
                   (Z.to_nat (Z.shiftr sid STRTAB_SPLIT)) = Some desc /\
         l2ptr desc = None /\
         load (strtab (strtab_cfg smmu'))
              (Z.shiftr sid STRTAB_SPLIT * STRTAB_L1_DESC_DWORDS) = 0) /\
    FIELD_GET STRTAB_BASE_CFG_FMT (strtab_base_cfg regs')
    = STRTAB_BASE_CFG_FMT_2LVL /\
    FIELD_GET STRTAB_BASE_CFG_LOG2SIZE (strtab_base_cfg regs') = bits /\
    FIELD_GET STRTAB_BASE_CFG_SPLIT (strtab_base_cfg regs') = STRTAB_SPLIT /\
    Z.land (strtab_base regs') STRTAB_BASE_ADDR_MASK
    = Z.land dma STRTAB_BASE_ADDR_MASK /\
    has_flag (strtab_base regs') STRTAB_BASE_RA = true.
Proof.
  intros bits Hs Hf Hbd. change STRTAB_SPLIT with 8 in *.
  assert (Hb : 8 < bits <= 25) by (unfold bits; lia).
  assert (Hp : 0 < 2 ^ (bits - 8)) by (apply pow2_pos; lia).
  assert (Hle : 2 ^ (bits - 8) <= 2 ^ 17) by (apply Z.pow_le_mono_r; lia).
  change (2 ^ 17) with 131072 in Hle.
  assert (Hpb : 2 ^ bits = 2 ^ (bits - 8) * 256).
  { replace bits with ((bits - 8) + 8) at 1 by lia.
    rewrite pow2_split by lia. reflexivity. }
  unfold arm_smmu_init_strtab. rewrite Hf.
  unfold arm_smmu_init_strtab_2lvl.
  change (u32 (STRTAB_L1_SZ_SHIFT - (Z.log2 STRTAB_L1_DESC_DWORDS + 3)))
    with 17.
  change STRTAB_SPLIT with 8.
  change (Z.shiftl STRTAB_L1_DESC_DWORDS 3) with 8.
  assert (Hu : u32 (sid_bits - 8) = sid_bits - 8)
    by (unfold u32; apply Z.mod_small; change (2 ^ 32) with 4294967296; lia).
  rewrite Hu.
  assert (Hmin : Z.min 17 (sid_bits - 8) = bits - 8) by (unfold bits; lia).
  rewrite Hmin.
  assert (Hu2 : u32 (bits - 8 + 8) = bits)
    by (unfold u32; rewrite Z.mod_small;
        [lia|change (2 ^ 32) with 4294967296; lia]).
  rewrite Hu2. rewrite shiftl_1_pow2 by lia.
  assert (Hu3 : u32 (2 ^ (bits - 8) * 8) = 2 ^ (bits - 8) * 8)
    by (unfold u32; apply Z.mod_small; change (2 ^ 32) with 4294967296; lia).
  rewrite Hu3.
  replace (2 ^ (bits - 8) * 8 / 8) with (2 ^ (bits - 8)) by dlia.
  set (smmu1 := with_strtab_cfg smmu _).
  destruct (init_l1_strtab_zero smmu1) as (mem & E & Hz).
  { intros j. unfold smmu1. cbn [with_strtab_cfg strtab_cfg strtab].
    apply nth_repeat_0. }
  rewrite E. cbn [Z.eqb negb].
  set (smmu2 := with_strtab_cfg smmu1 _).
  assert (Hbranch :
    (if CONFIG_SMMU_BYPASS_DEV bd
     then
       if negb (Z.of_nat (length (smmu_bypass_devices bd)) =? 0)
       then
         match bus_for_each_dev kc bd smmu2 (pci_bus_devices bd) with
         | Some (r, smmu3, _) =>
           Some (r, smmu3, mk_strtab_regs dma (strtab_base regs)
                   (Z.lor (Z.lor (FIELD_PREP STRTAB_BASE_CFG_FMT
                                    STRTAB_BASE_CFG_FMT_2LVL)
                                 (FIELD_PREP STRTAB_BASE_CFG_LOG2SIZE bits))
                          (FIELD_PREP STRTAB_BASE_CFG_SPLIT 8)),
                 (if bits <? sid_bits then [Strtab_partial bits sid_bits]
                  else []) ++ [])
         | None => None
         end
       else Some (0, smmu2, mk_strtab_regs dma (strtab_base regs)
                   (Z.lor (Z.lor (FIELD_PREP STRTAB_BASE_CFG_FMT
                                    STRTAB_BASE_CFG_FMT_2LVL)
                                 (FIELD_PREP STRTAB_BASE_CFG_LOG2SIZE bits))
                          (FIELD_PREP STRTAB_BASE_CFG_SPLIT 8)),
                 (if bits <? sid_bits then [Strtab_partial bits sid_bits]
                  else []) ++ [])
     else Some (0, smmu2, mk_strtab_regs dma (strtab_base regs)
                   (Z.lor (Z.lor (FIELD_PREP STRTAB_BASE_CFG_FMT
                                    STRTAB_BASE_CFG_FMT_2LVL)
                                 (FIELD_PREP STRTAB_BASE_CFG_LOG2SIZE bits))
                          (FIELD_PREP STRTAB_BASE_CFG_SPLIT 8)),
                 (if bits <? sid_bits then [Strtab_partial bits sid_bits]
                  else []) ++ []))
    = Some (0, smmu2, mk_strtab_regs dma (strtab_base regs)
                   (Z.lor (Z.lor (FIELD_PREP STRTAB_BASE_CFG_FMT
                                    STRTAB_BASE_CFG_FMT_2LVL)
                                 (FIELD_PREP STRTAB_BASE_CFG_LOG2SIZE bits))
                          (FIELD_PREP STRTAB_BASE_CFG_SPLIT 8)),
                 (if bits <? sid_bits then [Strtab_partial bits sid_bits]
                  else []) ++ [])).
  { destruct Hbd as [Hoff|Hnone].
    - rewrite Hoff. reflexivity.
    - destruct (CONFIG_SMMU_BYPASS_DEV bd); [|reflexivity].
      destruct (negb (Z.of_nat (length (smmu_bypass_devices bd)) =? 0));
        [|reflexivity].
      rewrite (bus_for_each_dev_no_bypass kc bd smmu2 _ Hnone). reflexivity. }
  rewrite Hbranch. cbn [Z.eqb negb strtab_dma strtab_base_cfg].
  assert (Hw : (if bits <? sid_bits then [Strtab_partial bits sid_bits] else [])
               = if 25 <? sid_bits then [Strtab_partial 25 sid_bits] else []).
  { unfold bits. destruct (Z.ltb_spec 25 sid_bits).
    - rewrite Z.min_r by lia. destruct (Z.ltb_spec 25 sid_bits); [reflexivity|lia].
    - rewrite Z.min_l by lia. destruct (Z.ltb_spec sid_bits sid_bits); [lia|reflexivity]. }
  rewrite app_nil_r, Hw.
  do 2 eexists. split; [reflexivity|].
  unfold smmu2, smmu1.
  cbn [with_strtab_cfg features options cmdq strtab_base strtab_base_cfg
       strtab_cfg num_l1_ents l1_desc strtab].
  repeat split.
  - intros sid. unfold arm_smmu_sid_in_range.
    cbn [with_strtab_cfg features strtab_cfg num_l1_ents]. rewrite Hf.
    change (Z.shiftl 1 STRTAB_SPLIT) with 256.
    unfold u64. rewrite Z.mod_small by (change (2 ^ 64) with 18446744073709551616; lia).
    rewrite Hpb. reflexivity.
  - intros sid Hsid. exists (mk_l1_desc 0 None 0).
    rewrite Z.shiftr_div_pow2 by lia. change (2 ^ 8) with 256.
    split; [|split; [reflexivity|apply Hz]].
    apply nth_error_repeat. dlia.
  - unfold STRTAB_BASE_CFG_FMT. read_field (GENMASK 17 16).
    rewrite ?Z.lor_0_r. apply FIELD_GET_PREP_small; [lia|lia|].
    unfold STRTAB_BASE_CFG_FMT_2LVL. cbn. lia.
  - unfold STRTAB_BASE_CFG_LOG2SIZE. read_field (GENMASK 5 0).
    rewrite ?Z.lor_0_l, ?Z.lor_0_r. apply FIELD_GET_PREP_small; [lia|lia|].
    change (2 ^ (5 - 0 + 1)) with 64. lia.
  - unfold STRTAB_BASE_CFG_SPLIT. read_field (GENMASK 10 6).
    rewrite ?Z.lor_0_l. apply FIELD_GET_PREP_small; [lia|lia|]. cbn. lia.
  - rewrite Z.land_lor_distr_l.
    change (Z.land STRTAB_BASE_RA STRTAB_BASE_ADDR_MASK) with 0.
    rewrite Z.lor_0_r, <- Z.land_assoc, Z.land_diag. reflexivity.
  - unfold has_flag. rewrite Z.land_lor_distr_l.
    rewrite land_land_disjoint by reflexivity. reflexivity.
Qed.

Lemma init_strtab_2lvl_covers_witness :
  exists smmu' regs',
    arm_smmu_init_strtab sample_kconfig sample_bypass_cfg sample_smmu_2lvl
      (mk_strtab_regs 0 0 0) [0; 0] 10 (Some 4096) true
    = Some (0, smmu', regs', [1; 0], []) /\
    num_l1_ents (strtab_cfg smmu') = 4 /\
    arm_smmu_sid_in_range smmu' 1023 = true /\
    arm_smmu_sid_in_range smmu' 1024 = false.
Proof.
  destruct (init_strtab_2lvl_covers sample_kconfig sample_bypass_cfg
              sample_smmu_2lvl (mk_strtab_regs 0 0 0) [0; 0] 10 4096)
    as (smmu' & regs' & E & _ & _ & _ & Hn & Hr & _).
  - unfold STRTAB_SPLIT; lia.
  - reflexivity.
  - right. intros dev [<-|[<-|[]]]; cbn; discriminate.
  - exists smmu', regs'. split; [exact E|].
    rewrite !Hr. split; [exact Hn|]. split; reflexivity.
Defined.

(** With [CONFIG_SMMU_BYPASS_DEV] and a bypass device on the PCI bus the
    initialisation goes on after the first level: the device with requester
    ID 517 gets the second-level block of its range, filled with abort
    entries and linked from descriptor 2, and a valid bypass entry at its
    own place, entry 5 of the block. *)
Example init_strtab_2lvl_bypass_device :
  match
    arm_smmu_init_strtab sample_kconfig
      (mk_bypass_dev_cfg true [(6629, 4660)]
         [(mk_pci_dev 32902 5 256, None);
          (mk_pci_dev 6629 4660 517, Some 65536)])
      sample_smmu_2lvl (mk_strtab_regs 0 0 0) [0; 0] 10 (Some 4096) true
  with
  | Some (ret, smmu', _, vmid_map', _) =>
    ret = 0 /\ vmid_map' = [1; 0] /\
    match nth_error (l1_desc (strtab_cfg smmu')) 2 with
    | Some (mk_l1_desc span_ (Some blk) dma) =>
      span_ = STRTAB_SPLIT + 1 /\ dma = 65536 /\
      FIELD_GET STRTAB_L1_DESC_SPAN (load (strtab (strtab_cfg smmu')) 2)
      = STRTAB_SPLIT + 1 /\
      load blk (5 * STRTAB_STE_DWORDS)
      = Z.lor STRTAB_STE_0_V
              (FIELD_PREP STRTAB_STE_0_CFG STRTAB_STE_0_CFG_BYPASS) /\
      load blk (5 * STRTAB_STE_DWORDS + 1)
      = FIELD_PREP STRTAB_STE_1_SHCFG STRTAB_STE_1_SHCFG_INCOMING /\
      load blk (4 * STRTAB_STE_DWORDS) = bypass_ste_0 sample_kconfig
    | _ => False
    end
  | None => False
  end.
Proof. vm_compute. repeat split; reflexivity. Qed.

(** A bypass device whose requester ID the table does not cover makes the
    initialisation fail with [-ERANGE], and one whose second-level block
    cannot be allocated with [-ENOMEM]; VMID 0 is not reserved then. *)
Example init_strtab_2lvl_bypass_device_fails :
  (exists smmu' regs' log,
     arm_smmu_init_strtab sample_kconfig
       (mk_bypass_dev_cfg true [(6629, 4660)]
          [(mk_pci_dev 6629 4660 5000, Some 65536)])
       sample_smmu_2lvl (mk_strtab_regs 0 0 0) [0; 0] 10 (Some 4096) true
     = Some (- ERANGE, smmu', regs', [0; 0], log)) /\
  (exists smmu' regs' log,
     arm_smmu_init_strtab sample_kconfig
       (mk_bypass_dev_cfg true [(6629, 4660)]
          [(mk_pci_dev 6629 4660 517, None)])
       sample_smmu_2lvl (mk_strtab_regs 0 0 0) [0; 0] 10 (Some 4096) true
     = Some (- ENOMEM, smmu', regs', [0; 0], log)).
Proof. split; do 3 eexists; vm_compute; reflexivity. Qed.

(** ** VMID allocation *)

Lemma bit_index_split i j :
  i / 64 = j / 64 -> i mod 64 = j mod 64 -> i = j.
Proof. intros. dlia. Qed.

Lemma test_bit_set_bit map nr i :
  0 <= nr -> 0 <= i -> BIT_WORD nr < Z.of_nat (length map) ->
  test_bit i (set_bit nr map) = (i =? nr) || test_bit i map.
Proof.
  intros Hnr Hi Hw. unfold test_bit, set_bit, BIT_WORD, BITS_PER_LONG in *.
  assert (Hq : 0 <= nr / 64) by (apply Z.div_pos; lia).
  assert (Hqi : 0 <= i / 64) by (apply Z.div_pos; lia).
  assert (Hb : 0 <= nr mod 64 < 64) by (apply Z.mod_pos_bound; lia).
  assert (Hbi : 0 <= i mod 64 < 64) by (apply Z.mod_pos_bound; lia).
  destruct (Z.eq_dec (i / 64) (nr / 64)) as [E|E].
  - rewrite E, load_store_eq by lia.
    rewrite Z.lor_spec, shiftl_1_pow2, Z.pow2_bits_eqb by lia.
    rewrite Bool.orb_comm. f_equal.
    destruct (Z.eqb_spec (nr mod 64) (i mod 64)) as [Em|Em];
      destruct (Z.eqb_spec i nr) as [En|En]; try reflexivity.
    + exfalso. apply En. apply bit_index_split; congruence.
    + exfalso. apply Em. rewrite En. reflexivity.
  - rewrite load_store_neq by lia.
    destruct (Z.eqb_spec i nr) as [En|En]; [subst; contradiction|reflexivity].
Qed.

Lemma test_bit_clear_bit map nr i :
  0 <= nr -> 0 <= i -> BIT_WORD nr < Z.of_nat (length map) ->
  test_bit i (clear_bit nr map) = negb (i =? nr) && test_bit i map.
Proof.
  intros Hnr Hi Hw. unfold test_bit, clear_bit, BIT_WORD, BITS_PER_LONG in *.
  assert (Hq : 0 <= nr / 64) by (apply Z.div_pos; lia).
  assert (Hqi : 0 <= i / 64) by (apply Z.div_pos; lia).
  assert (Hb : 0 <= nr mod 64 < 64) by (apply Z.mod_pos_bound; lia).
  assert (Hbi : 0 <= i mod 64 < 64) by (apply Z.mod_pos_bound; lia).
  destruct (Z.eq_dec (i / 64) (nr / 64)) as [E|E].
  - rewrite E, load_store_eq by lia.
    rewrite Z.land_spec, Z.lnot_spec, shiftl_1_pow2, Z.pow2_bits_eqb by lia.
    rewrite Bool.andb_comm. f_equal.
    destruct (Z.eqb_spec (nr mod 64) (i mod 64)) as [Em|Em];
      destruct (Z.eqb_spec i nr) as [En|En]; try reflexivity.
    + exfalso. apply En. apply bit_index_split; congruence.
    + exfalso. apply Em. rewrite En. reflexivity.
  - rewrite load_store_neq by lia.
    destruct (Z.eqb_spec i nr) as [En|En]; [subst; contradiction|reflexivity].
Qed.

Lemma find_zero_from_spec map n :
  forall i,
    let r := find_zero_from map i n in
    i <= r <= i + Z.of_nat n /\
    (forall j, i <= j < r -> test_bit j map = true) /\
    (r < i + Z.of_nat n -> test_bit r map = false).
Proof.
  induction n as [|n IH]; intros i; cbn [find_zero_from].
  - cbv zeta. split; [lia|]. split; intros; lia.
  - destruct (test_bit i map) eqn:E.
    + specialize (IH (i + 1)). cbv zeta in IH |- *.
      destruct IH as (H1 & H2 & H3).
      split; [lia|]. split.
      * intros j Hj. destruct (Z.eq_dec j i) as [->|]; [exact E|].
        apply H2. lia.
      * intros Hr. apply H3. lia.
    + cbv zeta. split; [lia|]. split; [intros; lia|]. intros _. exact E.
Qed.

Lemma bitmap_alloc_run map span fuel :
  0 <= span -> 2 ^ span <= 64 * Z.of_nat (length map) -> (1 <= fuel)%nat ->
  let r := find_first_zero_bit map (2 ^ span) in
  (forall i, 0 <= i < r -> test_bit i map = true) /\
  0 <= r <= 2 ^ span /\
  ((r = 2 ^ span /\
    arm_smmu_bitmap_alloc fuel map span = Some (- ENOSPC, map)) \/
   (r < 2 ^ span /\ test_bit r map = false /\
    BIT_WORD r < Z.of_nat (length map) /\
    arm_smmu_bitmap_alloc fuel map span = Some (r, set_bit r map))).
Proof.
  intros Hs Hlen Hf r.
  pose proof (pow2_pos span Hs) as Hp.
  pose proof (find_zero_from_spec map (Z.to_nat (2 ^ span)) 0) as H.
  cbv zeta in H. fold (find_first_zero_bit map (2 ^ span)) in H. fold r in H.
  rewrite Z2Nat.id in H by lia. destruct H as (H1 & H2 & H3).
  split; [exact H2|]. split; [lia|].
  unfold arm_smmu_bitmap_alloc. rewrite shiftl_1_pow2 by lia.
  destruct fuel as [|fuel]; [lia|]. cbn [bitmap_alloc_loop]. fold r.
  destruct (Z.eqb_spec r (2 ^ span)) as [E|E].
  - left. split; [exact E|reflexivity].
  - right. rewrite H3 by lia.
    split; [lia|]. split; [reflexivity|]. split; [|reflexivity].
    unfold BIT_WORD, BITS_PER_LONG. dlia.
Qed.

(** X27.  On a bitmap that holds [2 ^ span] bits, [arm_smmu_bitmap_alloc]
    returns after one round: [-ENOSPC] with the bitmap untouched when every
    bit below [2 ^ span] is set, and else the lowest clear bit, which it
    sets and no other.  [arm_smmu_bitmap_free] of that index then gives back
    a bitmap with the bits it had before. *)
Theorem bitmap_alloc_lowest (map : list Z) (span : Z) (fuel : nat) :
  0 <= span -> 2 ^ span <= 64 * Z.of_nat (length map) -> (1 <= fuel)%nat ->
  exists r map',
    arm_smmu_bitmap_alloc fuel map span = Some (r, map') /\
    ((r = - ENOSPC /\ map' = map /\
      forall i, 0 <= i < 2 ^ span -> test_bit i map = true) \/
     (0 <= r < 2 ^ span /\ test_bit r map = false /\
      (forall i, 0 <= i < r -> test_bit i map = true) /\
      (forall i, 0 <= i -> test_bit i map' = (i =? r) || test_bit i map) /\
      (forall i, 0 <= i ->
         test_bit i (arm_smmu_bitmap_free map' r) = test_bit i map))).
Proof.
  intros Hs Hlen Hf.
  destruct (bitmap_alloc_run map span fuel Hs Hlen Hf) as (Hlow & Hr & [H|H]).
  - destruct H as (E & Ha). do 2 eexists. split; [exact Ha|]. left.
    split; [reflexivity|]. split; [reflexivity|].
    intros i Hi. apply Hlow. lia.
  - destruct H as (E & Hc & Hw & Ha). do 2 eexists. split; [exact Ha|]. right.
    split; [lia|]. split; [exact Hc|]. split; [exact Hlow|]. split.
    + intros i Hi. apply test_bit_set_bit; lia.
    + intros i Hi. unfold arm_smmu_bitmap_free.
      rewrite test_bit_clear_bit; [|lia|lia|].
      * rewrite test_bit_set_bit by lia.
        destruct (Z.eqb_spec i (find_first_zero_bit map (2 ^ span))) as [->|];
          [|reflexivity].
        cbn [negb andb]. symmetry. exact Hc.
      * unfold set_bit. rewrite store_length. exact Hw.
Qed.

Lemma bitmap_alloc_lowest_witness :
  exists r map',
    arm_smmu_bitmap_alloc 1 [7; 0; 0; 0] 8 = Some (r, map') /\
    r = 3 /\ test_bit 3 map' = true.
Proof.
  destruct (bitmap_alloc_lowest [7; 0; 0; 0] 8 1)
    as (r & map' & E & H); [lia|cbn; lia|lia|].
  exists r, map'. split; [exact E|].
  vm_compute in E. injection E as <- <-. split; reflexivity.
Defined.

Lemma set_bit_length nr map : length (set_bit nr map) = length map.
Proof. unfold set_bit. apply store_length. Qed.

Lemma finalise_s2_run map bits cfg a b fuel :
  0 <= bits <= 16 -> 2 ^ bits <= 64 * Z.of_nat (length map) ->
  (1 <= fuel)%nat ->
  arm_smmu_domain_finalise_s2 fuel map bits cfg a b
  = Some (- ENOSPC, cfg, map) \/
  exists r,
    0 <= r < 2 ^ bits /\ test_bit r map = false /\
    BIT_WORD r < Z.of_nat (length map) /\
    arm_smmu_domain_finalise_s2 fuel map bits cfg a b
    = Some (0, mk_s2_cfg r a b, set_bit r map).
Proof.
  intros Hb Hlen Hf.
  assert (Hle : 2 ^ bits <= 2 ^ 16) by (apply Z.pow_le_mono_r; lia).
  destruct (bitmap_alloc_run map bits fuel ltac:(lia) Hlen Hf)
    as (_ & Hr & [(E & Ha)|(E & Hc & Hw & Ha)]);
    unfold arm_smmu_domain_finalise_s2; rewrite Ha.
  - left. reflexivity.
  - right. exists (find_first_zero_bit map (2 ^ bits)).
    split; [lia|]. split; [exact Hc|]. split; [exact Hw|].
    destruct (Z.ltb_spec (find_first_zero_bit map (2 ^ bits)) 0); [lia|].
    rewrite Z.mod_small by lia. reflexivity.
Qed.

(** X28.  After [arm_smmu_init_strtab] has marked VMID 0 as taken,
    [arm_smmu_domain_finalise_s2] returns 0 or [-ENOSPC].  With 0 it gives
    the domain a VMID that is not 0, fits [vmid_bits] and differs from the
    one the next stage-2 domain gets, together with the table base and
    control values it was handed; [arm_smmu_domain_free] then clears that
    VMID again and no other bit.  With [-ENOSPC] it changes nothing. *)
Theorem domain_finalise_s2_vmid (map0 : list Z) (bits : Z)
    (c1 c2 : arm_smmu_s2_cfg) (a1 b1 a2 b2 : Z) (f1 f2 : nat) :
  let map := set_bit 0 map0 in
  0 <= bits <= 16 -> 2 ^ bits <= 64 * Z.of_nat (length map0) ->
  (1 <= f1)%nat -> (1 <= f2)%nat ->
  exists r1 c1' map1 r2 c2' map2,
    arm_smmu_domain_finalise_s2 f1 map bits c1 a1 b1 = Some (r1, c1', map1) /\
    arm_smmu_domain_finalise_s2 f2 map1 bits c2 a2 b2 = Some (r2, c2', map2) /\
    (r1 = 0 \/ r1 = - ENOSPC /\ c1' = c1 /\ map1 = map) /\
    (r2 = 0 \/ r2 = - ENOSPC /\ c2' = c2 /\ map2 = map1) /\
    (r1 = 0 ->
     0 < vmid c1' < 2 ^ bits /\ vttbr c1' = a1 /\ vtcr c1' = b1 /\
     test_bit (vmid c1') map = false /\
     forall i, 0 <= i ->
       test_bit i (arm_smmu_domain_free map1 c1') = test_bit i map) /\
    (r1 = 0 -> r2 = 0 ->
     0 < vmid c2' < 2 ^ bits /\ vmid c2' <> vmid c1').
Proof.
  intros map Hb Hlen Hf1 Hf2.
  pose proof (pow2_pos bits ltac:(lia)) as Hp.
  assert (Hl : length map = length map0) by apply set_bit_length.
  assert (H0 : test_bit 0 map = true).
  { unfold map. rewrite test_bit_set_bit; [reflexivity|lia|lia|].
    unfold BIT_WORD, BITS_PER_LONG. change (0 / 64) with 0. lia. }
  assert (Hnz : forall m r, test_bit 0 m = true -> test_bit r m = false ->
                            r <> 0).
  { intros m r Ht Hc ->. congruence. }
  assert (HE : - ENOSPC <> 0) by (unfold ENOSPC; lia).
  destruct (finalise_s2_run map bits c1 a1 b1 f1 Hb ltac:(lia) Hf1)
    as [E1|(r1 & Hr1 & Hc1 & Hw1 & E1)].
  - destruct (finalise_s2_run map bits c2 a2 b2 f2 Hb ltac:(lia) Hf2)
      as [E2|(r2 & Hr2 & Hc2 & Hw2 & E2)].
    + do 6 eexists. split; [exact E1|]. split; [exact E2|].
      split; [right; auto|]. split; [right; auto|].
      split; intros; contradiction.
    + do 6 eexists. split; [exact E1|]. split; [exact E2|].
      split; [right; auto|]. split; [left; reflexivity|].
      split; intros; contradiction.
  - assert (Hl1 : length (set_bit r1 map) = length map) by apply set_bit_length.
    assert (H01 : test_bit 0 (set_bit r1 map) = true).
    { rewrite test_bit_set_bit by lia. rewrite H0. apply Bool.orb_true_r. }
    assert (Hfree : forall i, 0 <= i ->
              test_bit i (arm_smmu_domain_free (set_bit r1 map)
                            (mk_s2_cfg r1 a1 b1)) = test_bit i map).
    { intros i Hi. unfold arm_smmu_domain_free, arm_smmu_bitmap_free.
      cbn [vmid].
      destruct (Z.eqb_spec r1 0) as [->|Hne]; [congruence|]. cbn [negb].
      rewrite test_bit_clear_bit; [|lia|lia|rewrite Hl1; exact Hw1].
      rewrite test_bit_set_bit by lia.
      destruct (Z.eqb_spec i r1) as [->|]; [|reflexivity].
      cbn [negb andb]. symmetry. exact Hc1. }
    pose proof (Hnz map r1 H0 Hc1) as Hr1nz.
    destruct (finalise_s2_run (set_bit r1 map) bits c2 a2 b2 f2 Hb
                ltac:(lia) Hf2)
      as [E2|(r2 & Hr2 & Hc2 & Hw2 & E2)].
    + do 6 eexists. split; [exact E1|]. split; [exact E2|].
      split; [left; reflexivity|]. split; [right; auto|].
      split; [|intros _ H; contradiction].
      intros _. cbn [vmid vttbr vtcr]. repeat split; auto; lia.
    + do 6 eexists. split; [exact E1|]. split; [exact E2|].
      split; [left; reflexivity|]. split; [left; reflexivity|].
      split.
      * intros _. cbn [vmid vttbr vtcr]. repeat split; auto; lia.
      * intros _ _. cbn [vmid].
        pose proof (Hnz _ r2 H01 Hc2) as Hr2nz.
        split; [lia|]. intros ->.
        rewrite test_bit_set_bit in Hc2 by lia.
        rewrite Z.eqb_refl in Hc2. discriminate.
Qed.

Lemma domain_finalise_s2_vmid_witness :
  exists c1' map1 c2' map2,
    arm_smmu_domain_finalise_s2 1 (set_bit 0 [0; 0; 0; 0]) 8
      (mk_s2_cfg 0 0 0) 4096 5 = Some (0, c1', map1) /\
    arm_smmu_domain_finalise_s2 1 map1 8 (mk_s2_cfg 0 0 0) 8192 6
    = Some (0, c2', map2) /\
    vmid c2' <> vmid c1'.
Proof.
  destruct (domain_finalise_s2_vmid [0; 0; 0; 0] 8 (mk_s2_cfg 0 0 0)
              (mk_s2_cfg 0 0 0) 4096 5 8192 6 1 1)
    as (r1 & c1' & map1 & r2 & c2' & map2 & E1 & E2 & _ & _ & _ & H);
    [lia|cbn; lia|lia|lia|].
  pose proof E1 as E1'. vm_compute in E1'. injection E1' as Hr1 Hc1 Hm1.
  subst r1 map1.
  pose proof E2 as E2'. vm_compute in E2'. injection E2' as Hr2 Hc2 Hm2.
  subst r2.
  exists c1', (set_bit 1 (set_bit 0 [0; 0; 0; 0])), c2', map2.
  split; [exact E1|]. split; [exact E2|].
  apply H; reflexivity.
Defined.


(** ** Inserting commands, on one CPU *)

(** While another holder keeps the lock, [arm_smmu_cmdq_poll_until_not_full]
    changes nothing and hands back the shared [llq]: with 0 at once when the
    queue is not full, with [-ETIMEDOUT] when it is. *)
Lemma cmdq_poll_until_not_full_locked (c : arm_smmu_cmdq) :
  lock c <> 0 ->
  arm_smmu_cmdq_poll_until_not_full c
  = (if queue_full (llq (q c)) then - ETIMEDOUT else 0, c, llq (q c)).
Proof.
  intros H. unfold arm_smmu_cmdq_poll_until_not_full.
  apply Z.eqb_neq in H. rewrite H.
  destruct (queue_full (llq (q c))); reflexivity.
Qed.

(** With the lock free it takes the consumer index from the register. *)
Lemma cmdq_poll_until_not_full_unlocked (c : arm_smmu_cmdq) :
  lock c = 0 ->
  exists c' l,
    arm_smmu_cmdq_poll_until_not_full c = (0, c', l) /\
    llq (q c') = l /\ cons l = cons_reg (q c) /\ prod l = prod (llq (q c)) /\
    lock c' = 0.
Proof.
  intros H. unfold arm_smmu_cmdq_poll_until_not_full. rewrite H.
  cbn [Z.eqb]. do 2 eexists. split; [reflexivity|].
  cbn. repeat split; try reflexivity. exact H.
Qed.

Lemma owned_flag_clear x :
  0 <= x < 2 ^ 31 ->
  Z.land x CMDQ_PROD_OWNED_FLAG = 0 /\
  Z.land x (u32 (Z.lnot CMDQ_PROD_OWNED_FLAG)) = x /\
  Z.land (Z.lor x CMDQ_PROD_OWNED_FLAG) (u32 (Z.lnot CMDQ_PROD_OWNED_FLAG)) = x.
Proof.
  intros Hx.
  change CMDQ_PROD_OWNED_FLAG with (2 ^ 31).
  change (u32 (Z.lnot (2 ^ 31))) with (Z.ones 31).
  assert (H1 : Z.land x (Z.ones 31) = x)
    by (rewrite Z.land_ones by lia; apply Z.mod_small; lia).
  split; [|split].
  - rewrite land_pow2_testbit by lia.
    rewrite (testbit_small x 31 31) by lia. reflexivity.
  - exact H1.
  - rewrite Z.land_lor_distr_l, H1.
    change (Z.land (2 ^ 31) (Z.ones 31)) with 0. apply Z.lor_0_r.
Qed.

Lemma range_len_advance s p n :
  0 <= s -> 0 <= n < 2 * capacity s ->
  range_len s p ((p + n) mod (2 * capacity s)) = n.
Proof.
  intros Hs Hn. unfold range_len.
  pose proof (pow2_pos s Hs) as Hp. fold (capacity s) in Hp.
  rewrite Zminus_mod_idemp_l.
  replace (p + n - p) with n by lia. apply Z.mod_small. lia.
Qed.

Lemma slots_invalid_advance s vm vm' p n :
  0 <= s -> 0 <= n <= capacity s ->
  slots_invalid_from s vm p ->
  (forall slot, 0 <= slot < capacity s ->
     valid_bit vm' slot = xorb (valid_bit vm slot) (in_range s p n slot)) ->
  slots_invalid_from s vm' ((p + n) mod (2 * capacity s)).
Proof.
  intros Hs Hn Hinv Hbits j Hj.
  pose proof (pow2_pos s Hs) as Hp. fold (capacity s) in Hp.
  destruct (position_add_mod s (p + n) j Hs) as [-> ->].
  rewrite Hbits by (apply position_bound; assumption).
  destruct (Z.lt_ge_cases (n + j) (capacity s)) as [Hlt|Hge].
  - replace (p + n + j) with (p + (n + j)) by lia.
    rewrite (Hinv (n + j)) by lia.
    assert (Hout : in_range s p n (position s (p + (n + j))) = false).
    { unfold in_range, position. rewrite Zminus_mod_idemp_l.
      replace (p + (n + j) - p) with (n + j) by lia.
      rewrite Z.mod_small by lia. apply Z.ltb_ge. lia. }
    rewrite Hout. apply Bool.xorb_false_r.
  - set (k := n + j - capacity s).
    assert (Hk : 0 <= k < n) by (unfold k; lia).
    replace (p + n + j) with (p + k + capacity s) by (unfold k; lia).
    assert (Hpos : position s (p + k + capacity s) = position s (p + k)).
    { unfold position.
      replace (p + k + capacity s) with (p + k + 1 * capacity s) by lia.
      apply Z.mod_add. lia. }
    rewrite Hpos, (Hinv k) by lia.
    rewrite in_range_member by lia.
    unfold valid_pattern. rewrite testbit_add_capacity by assumption.
    destruct (Z.testbit (p + k) s); reflexivity.
Qed.

Lemma issue_cmdlist_run (smmu : arm_smmu_device) (cmds : list Z)
    (n : Z) (fuel : nat) :
  let c := cmdq smmu in
  let s := max_n_shift (llq (q c)) in
  let P := prod (llq (q c)) in
  6 <= s < 31 ->
  ent_dwords (q c) = CMDQ_ENT_DWORDS ->
  Z.of_nat (length (base (q c))) = 2 * capacity s ->
  Z.of_nat (length (valid_map c)) * 64 = capacity s ->
  0 <= P < 2 * capacity s ->
  owner_prod c = P ->
  0 <= n <= capacity s ->
  queue_has_space (llq (q c)) n = true ->
  slots_invalid_from s (valid_map c) P ->
  (Z.to_nat n < fuel)%nat ->
  exists smmu',
    arm_smmu_cmdq_issue_cmdlist fuel smmu cmds n = Some (0, smmu') /\
    let c' := cmdq smmu' in
    let P' := (P + n) mod (2 * capacity s) in
    prod (llq (q c')) = P' /\ prod_reg (q c') = P' /\ owner_prod c' = P' /\
    cons (llq (q c')) = cons (llq (q c)) /\
    max_n_shift (llq (q c')) = s /\
    cons_reg (q c') = cons_reg (q c) /\ lock c' = lock c /\
    ent_dwords (q c') = ent_dwords (q c) /\
    length (base (q c')) = length (base (q c)) /\
    length (valid_map c') = length (valid_map c) /\
    (forall j d, 0 <= j < n -> 0 <= d < 2 ->
       load (base (q c')) (2 * position s (P + j) + d)
       = nth (Z.to_nat (2 * j + d)) cmds 0) /\
    (forall k d, 0 <= k < capacity s -> in_range s P n k = false ->
       0 <= d < 2 ->
       load (base (q c')) (2 * k + d) = load (base (q c)) (2 * k + d)) /\
    (forall j, 0 <= j < n ->
       valid_bit (valid_map c') (position s (P + j))
       = valid_pattern s (P + j)) /\
    slots_invalid_from s (valid_map c') P' /\
    features smmu' = features smmu /\ options smmu' = options smmu /\
    strtab_cfg smmu' = strtab_cfg smmu.
Proof.
  destruct smmu as [ft op c st]. destruct c as [qu vm ow lk].
  destruct qu as [l bs ed pr cr bt]. destruct l as [P C s].
  cbn [cmdq q llq max_n_shift prod cons ent_dwords base valid_map owner_prod
       lock prod_reg cons_reg features options strtab_cfg].
  intros Hs Hed Hbs Hvm HP How Hn Hsp Hinv Hfuel.
  subst ow ed.
  pose proof (capacity_bound s ltac:(lia)) as HC.
  assert (H31 : 2 * capacity s <= 2 ^ 31)
    by (change (2 ^ 31) with (2 * 2 ^ 30); lia).
  set (P' := (P + n) mod (2 * capacity s)).
  assert (HP' : 0 <= P' < 2 * capacity s)
    by (apply Z.mod_pos_bound; lia).
  destruct (owned_flag_clear P ltac:(lia)) as (O1 & O2 & _).
  destruct (owned_flag_clear P' ltac:(lia)) as (_ & _ & O3).
  pose proof (range_len_advance s P n ltac:(lia) ltac:(lia)) as Hrl.
  fold P' in Hrl.
  destruct fuel as [|fuel]; [lia|].
  unfold arm_smmu_cmdq_issue_cmdlist.
  cbn [cmdq q llq cmdlist_wait_space]. rewrite Hsp.
  cbn [max_n_shift prod cons].
  rewrite queue_inc_prod_n_small by lia. fold P'.
  rewrite O1, O2, O3. cbn [Z.eqb].
  set (c2 := with_q _ _).
  set (c3 := arm_smmu_cmdq_write_entries c2 cmds P n).
  destruct (write_entries_mem_spec (q c2) cmds P (Z.to_nat n))
    as (Wl & Ww & Wf); unfold c2;
    cbn [with_q with_llq q llq max_n_shift ent_dwords base];
    try reflexivity; try lia.
  unfold c2 in Wl, Ww, Wf.
  cbn [with_q with_llq q llq max_n_shift ent_dwords base] in Wl, Ww, Wf.
  destruct (set_loop_spec s P' ltac:(lia) HP' (S fuel) vm P HP
              ltac:(lia) ltac:(lia) Hvm) as (vm' & Hset & Hlen & Hbits).
  rewrite Hrl in Hbits.
  assert (Eset : arm_smmu_cmdq_set_valid_map (S fuel) c3 P P'
                 = Some (Completed vm')).
  { unfold arm_smmu_cmdq_set_valid_map, __arm_smmu_cmdq_poll_set_valid_map.
    unfold c3, arm_smmu_cmdq_write_entries, c2.
    cbn [with_q with_llq with_base q llq max_n_shift valid_map].
    cbv zeta. rewrite !Q_IDX_llq by lia. exact Hset. }
  rewrite Eset.
  assert (Hvalid : forall j, 0 <= j < n ->
            valid_bit vm' (position s (P + j)) = valid_pattern s (P + j)).
  { intros j Hj. rewrite Hbits by (apply position_bound; lia).
    rewrite (Hinv j) by lia. rewrite in_range_member by lia.
    destruct (valid_pattern s (P + j)); reflexivity. }
  unfold c3, arm_smmu_cmdq_write_entries, c2.
  cbn [with_valid_map with_q with_llq with_base q llq owner_prod prod cons
       max_n_shift valid_map lock base ent_dwords prod_reg cons_reg batch].
  rewrite Z.eqb_refl, O3.
  assert (Epoll : forall c5,
            max_n_shift (llq (q c5)) = s -> valid_map c5 = vm' ->
            arm_smmu_cmdq_poll_valid_map (S fuel) c5 P P'
            = Some (Completed vm')).
  { intros c5 E1 E2.
    unfold arm_smmu_cmdq_poll_valid_map, __arm_smmu_cmdq_poll_set_valid_map.
    rewrite E1, E2. cbv zeta. rewrite !Q_IDX_llq by lia.
    apply poll_loop_spec; try assumption; try lia.
    rewrite Hrl. exact Hvalid. }
  rewrite Epoll by reflexivity.
  eexists. split; [reflexivity|].
  cbn [with_cmdq cmdq q llq prod cons max_n_shift prod_reg cons_reg
       owner_prod lock ent_dwords base valid_map features options strtab_cfg].
  repeat split; try assumption.
  - intros j d Hj Hd.
    pose proof (Ww (Z.to_nat j) d ltac:(lia) Hd) as Hw.
    rewrite Z2Nat.id in Hw by lia. rewrite Hw. f_equal. lia.
  - intros k d Hk Hin Hd.
    apply Wf; [lia|]. intros j Hj.
    assert (Hne : k <> position s (P + Z.of_nat j)).
    { intros ->. rewrite in_range_member in Hin by lia. discriminate. }
    lia.
  - apply (slots_invalid_advance s vm vm' P n); try assumption; lia.
Qed.

(** X29.  One CPU, nothing else using the command queue, the owned flag
    clear and every slot invalid for the producer index that reaches it
    next: then [arm_smmu_cmdq_issue_cmdlist] without CMD_SYNC, called with
    [n] commands the queue has space for, returns 0 as the owner of its
    range.  It writes command [j] to the slot of producer index [prod + j]
    and no other slot, marks these slots valid, and leaves the shadow
    producer index, the producer register and [owner_prod] all at
    [prod + n] modulo twice the capacity, the consumer side and the lock
    untouched.  Every slot is again invalid for the index that reaches it
    next, so that the next call starts from the same conditions. *)
Theorem issue_cmdlist_single_cpu (smmu : arm_smmu_device) (cmds : list Z)
    (n : Z) (fuel : nat) :
  let c := cmdq smmu in
  let s := max_n_shift (llq (q c)) in
  let P := prod (llq (q c)) in
  6 <= s < 31 ->
  ent_dwords (q c) = CMDQ_ENT_DWORDS ->
  Z.of_nat (length (base (q c))) = 2 * capacity s ->
  Z.of_nat (length (valid_map c)) * 64 = capacity s ->
  0 <= P < 2 * capacity s ->
  owner_prod c = P ->
  0 <= n <= capacity s ->
  queue_has_space (llq (q c)) n = true ->
  slots_invalid_from s (valid_map c) P ->
  (Z.to_nat n < fuel)%nat ->
  exists smmu',
    arm_smmu_cmdq_issue_cmdlist fuel smmu cmds n = Some (0, smmu') /\
    let c' := cmdq smmu' in
    let P' := (P + n) mod (2 * capacity s) in
    prod (llq (q c')) = P' /\ prod_reg (q c') = P' /\ owner_prod c' = P' /\
    cons (llq (q c')) = cons (llq (q c)) /\
    max_n_shift (llq (q c')) = s /\
    cons_reg (q c') = cons_reg (q c) /\ lock c' = lock c /\
    ent_dwords (q c') = ent_dwords (q c) /\
    length (base (q c')) = length (base (q c)) /\
    length (valid_map c') = length (valid_map c) /\
    (forall j d, 0 <= j < n -> 0 <= d < 2 ->
       load (base (q c')) (2 * position s (P + j) + d)
       = nth (Z.to_nat (2 * j + d)) cmds 0) /\
    (forall k d, 0 <= k < capacity s -> in_range s P n k = false ->
       0 <= d < 2 ->
       load (base (q c')) (2 * k + d) = load (base (q c)) (2 * k + d)) /\
    (forall j, 0 <= j < n ->
       valid_bit (valid_map c') (position s (P + j))
       = valid_pattern s (P + j)) /\
    slots_invalid_from s (valid_map c') P' /\
    features smmu' = features smmu /\ options smmu' = options smmu /\
    strtab_cfg smmu' = strtab_cfg smmu.
Proof. exact (issue_cmdlist_run smmu cmds n fuel). Qed.

Lemma issue_cmdlist_single_cpu_witness :
  exists smmu',
    arm_smmu_cmdq_issue_cmdlist 3
      (mk_smmu 0 0 sample_cmdq (mk_strtab_cfg [] [] 0)) [11; 12; 13; 14] 2
    = Some (0, smmu') /\
    prod_reg (q (cmdq smmu')) = 2 /\ owner_prod (cmdq smmu') = 2 /\
    load (base (q (cmdq smmu'))) 3 = 14.
Proof.
  destruct (issue_cmdlist_single_cpu
              (mk_smmu 0 0 sample_cmdq (mk_strtab_cfg [] [] 0))
              [11; 12; 13; 14] 2 3)
    as (smmu' & E & _ & Hr & Ho & _ & _ & _ & _ & _ & _ & _ & Hw & _).
  - cbn; lia.
  - reflexivity.
  - reflexivity.
  - reflexivity.
  - cbn; lia.
  - reflexivity.
  - cbn; lia.
  - reflexivity.
  - intros j Hj. cbn [cmdq sample_cmdq valid_map q llq max_n_shift prod].
    rewrite valid_bit_zalloc. unfold valid_pattern.
    rewrite (testbit_small (0 + j) 7 7); [reflexivity| |lia].
    cbn [cmdq sample_cmdq q llq max_n_shift] in Hj.
    change (capacity 7) with 128 in Hj. change (2 ^ 7) with 128. lia.
  - cbn; lia.
  - exists smmu'. split; [exact E|]. split; [exact Hr|]. split; [exact Ho|].
    apply (Hw 1 1); lia.
Defined.

Lemma in_flight_advance p c s n :
  0 <= s ->
  in_flight (mk_llq p c s) + n < 2 * capacity s -> 0 <= n ->
  in_flight (mk_llq ((p + n) mod (2 * capacity s)) c s)
  = in_flight (mk_llq p c s) + n.
Proof.
  intros Hs Hlt Hn. unfold in_flight in *. cbn [prod cons max_n_shift] in *.
  pose proof (pow2_pos s Hs) as Hp. fold (capacity s) in Hp.
  pose proof (Z.mod_pos_bound (p - c) (2 * capacity s) ltac:(lia)) as Hb.
  rewrite Zminus_mod_idemp_l.
  replace (p + n - c) with ((p - c) + n) by lia.
  rewrite <- Z.add_mod_idemp_l by lia.
  apply Z.mod_small. lia.
Qed.

Lemma batch_total_nonneg batches :
  (forall b, In b batches -> 0 <= snd b) -> 0 <= batch_total batches.
Proof.
  induction batches as [|b tl IH]; intros H; cbn [batch_total fold_right];
    [lia|].
  fold (batch_total tl).
  pose proof (H b (or_introl eq_refl)).
  pose proof (IH (fun b' Hb' => H b' (or_intror Hb'))). lia.
Qed.

(** X30.  On one CPU and with the hardware consuming nothing meanwhile, a
    run of calls of [arm_smmu_cmdq_issue_cmdlist] without CMD_SYNC whose
    commands together fit into the free part of the queue returns 0 from
    every call and loses no reservation: the producer register, the shadow
    producer index and [owner_prod] end at the first producer index plus
    the number of all commands, modulo twice the capacity, and as many more
    entries are in flight. *)
Theorem issue_cmdlists_no_lost_reservation (batches : list (list Z * Z))
    (smmu : arm_smmu_device) (fuel : nat) :
  let c := cmdq smmu in
  let s := max_n_shift (llq (q c)) in
  let P := prod (llq (q c)) in
  6 <= s < 31 ->
  ent_dwords (q c) = CMDQ_ENT_DWORDS ->
  Z.of_nat (length (base (q c))) = 2 * capacity s ->
  Z.of_nat (length (valid_map c)) * 64 = capacity s ->
  0 <= P < 2 * capacity s ->
  owner_prod c = P -> prod_reg (q c) = P ->
  slots_invalid_from s (valid_map c) P ->
  (forall b, In b batches -> 0 <= snd b /\ (Z.to_nat (snd b) < fuel)%nat) ->
  in_flight (llq (q c)) + batch_total batches <= capacity s ->
  exists smmu',
    issue_cmdlists fuel smmu batches
    = Some (map (fun _ => 0) batches, smmu') /\
    let c' := cmdq smmu' in
    let P' := (P + batch_total batches) mod (2 * capacity s) in
    prod_reg (q c') = P' /\ prod (llq (q c')) = P' /\ owner_prod c' = P' /\
    in_flight (llq (q c')) = in_flight (llq (q c)) + batch_total batches /\
    cons (llq (q c')) = cons (llq (q c)) /\
    slots_invalid_from s (valid_map c') P'.
Proof.
  revert smmu. induction batches as [|[cmds n] tl IH];
    intros smmu c s P Hs Hed Hbs Hvm HP How Hpr Hinv Hall Hfit.
  - exists smmu. split; [reflexivity|].
    cbn [batch_total fold_right]. rewrite !Z.add_0_r.
    pose proof (capacity_bound s ltac:(lia)) as HC.
    rewrite Z.mod_small by lia.
    fold c. fold P. repeat split; assumption.
  - pose proof (capacity_bound s ltac:(lia)) as HC.
    assert (Hn : 0 <= n /\ (Z.to_nat n < fuel)%nat)
      by (apply (Hall (cmds, n)); left; reflexivity).
    assert (Htl : 0 <= batch_total tl).
    { apply batch_total_nonneg. intros b Hb. apply Hall. right. exact Hb. }
    cbn [batch_total fold_right snd] in Hfit |- *.
    fold (batch_total tl) in Hfit |- *.
    assert (Hfl : 0 <= in_flight (llq (q c)) < 2 * capacity s)
      by (apply in_flight_bound; change (0 <= s); lia).
    assert (Hnc : 0 <= n <= capacity s) by lia.
    assert (Hsp : queue_has_space (llq (q c)) n = true).
    { rewrite has_space_in_flight;
        [|change (0 <= s < 31); lia
         |change (in_flight (llq (q c)) <= capacity s); lia].
      change (max_n_shift (llq (q c))) with s. apply Z.leb_le. lia. }
    destruct (issue_cmdlist_run smmu cmds n fuel Hs Hed Hbs Hvm HP How
                Hnc Hsp Hinv ltac:(lia))
      as (smmu1 & E1 & R).
    change (cmdq smmu) with c in R.
    change (max_n_shift (llq (q c))) with s in R.
    change (prod (llq (q c))) with P in R. cbv zeta in R.
    destruct R as (R1 & R2 & R3 & R4 & R5 & R6 & R7 & R8 & R9 & R10 & _ & _
                   & _ & R14 & _).
    set (P1 := (P + n) mod (2 * capacity s)) in *.
    assert (HP1 : 0 <= P1 < 2 * capacity s) by (apply Z.mod_pos_bound; lia).
    assert (Hl1 : llq (q (cmdq smmu1)) = mk_llq P1 (cons (llq (q c))) s).
    { destruct (llq (q (cmdq smmu1))) as [p1 c1 s1].
      cbn [prod cons max_n_shift] in R1, R4, R5. subst. reflexivity. }
    assert (Hl0 : llq (q c) = mk_llq P (cons (llq (q c))) s).
    { unfold P, s. destruct (llq (q c)). reflexivity. }
    assert (Hfl1 : in_flight (llq (q (cmdq smmu1)))
                   = in_flight (llq (q c)) + n).
    { rewrite Hl1. rewrite Hl0 at 2. apply in_flight_advance; [lia| |lia].
      rewrite <- Hl0. lia. }
    destruct (IH smmu1) as (smmu2 & E2 & Q).
    + rewrite R5. exact Hs.
    + rewrite R8. exact Hed.
    + rewrite R9, R5. exact Hbs.
    + rewrite R10, R5. exact Hvm.
    + rewrite R1, R5. exact HP1.
    + rewrite R3, R1. reflexivity.
    + rewrite R2, R1. reflexivity.
    + rewrite R5, R1. exact R14.
    + intros b Hb. apply Hall. right. exact Hb.
    + rewrite R5, Hfl1. lia.
    + rewrite R5, R1, R4, Hfl1 in Q. cbv zeta in Q.
      destruct Q as (Q1 & Q2 & Q3 & Q4 & Q5 & Q6).
      exists smmu2. cbn [issue_cmdlists map]. rewrite E1, E2.
      split; [reflexivity|]. cbv zeta.
      assert (HP2 : (P1 + batch_total tl) mod (2 * capacity s)
                    = (P + (n + batch_total tl)) mod (2 * capacity s)).
      { unfold P1. rewrite Z.add_mod_idemp_l by lia. f_equal. lia. }
      rewrite HP2 in Q1, Q2, Q3, Q6.
      repeat split; try assumption. lia.
Qed.

Lemma issue_cmdlists_no_lost_reservation_witness :
  exists smmu',
    issue_cmdlists 3 (mk_smmu 0 0 sample_cmdq (mk_strtab_cfg [] [] 0))
      [([11; 12; 13; 14], 2); ([21; 22], 1)]
    = Some ([0; 0], smmu') /\
    prod_reg (q (cmdq smmu')) = 3.
Proof.
  destruct (issue_cmdlists_no_lost_reservation
              [([11; 12; 13; 14], 2); ([21; 22], 1)]
              (mk_smmu 0 0 sample_cmdq (mk_strtab_cfg [] [] 0)) 3)
    as (smmu' & E & Hr & _).
  - cbn; lia.
  - reflexivity.
  - reflexivity.
  - reflexivity.
  - cbn; lia.
  - reflexivity.
  - reflexivity.
  - intros j Hj. cbn [cmdq sample_cmdq valid_map q llq max_n_shift prod].
    rewrite valid_bit_zalloc. unfold valid_pattern.
    rewrite (testbit_small (0 + j) 7 7); [reflexivity| |lia].
    cbn [cmdq sample_cmdq q llq max_n_shift] in Hj.
    change (capacity 7) with 128 in Hj. change (2 ^ 7) with 128. lia.
  - intros b [<-|[<-|[]]]; cbn; lia.
  - vm_compute. discriminate.
  - exists smmu'. split; [exact E|exact Hr].
Defined.
